(* ===== verification/_CoqProject ===== *)
-Q . S2P
Prelude.v
PyStr.v
PyRe.v
Json.v
JsonParse.v
Digests.v
PyTime.v
IsoTime.v
LogStore.v
LogStoreSpec.v
Paging.v
LogIndex.v
LogIndexSpec.v
Redaction.v
Contracts.v
Runtime.v
Context.v
Assemble.v
AssembleSpec.v
Report.v
Natural.v
Evaluation.v
Cases.v
Mistral.v
ModelCases.v
Connectors.v
Cache.v
Harness.v
Artifacts.v
Gateway.v
Api.v
Frames.v
Main.v
MainSpec.v
Startup.v
StartupSpec.v
Retention.v
RetentionSpec.v
Sql.v
SqlSpec.v
Business.v
SqlCases.v
Retrieval.v
Entities.v
Meta.v
MetaSpec.v
MetaIndexes.v
Indexes.v
Wiring.v
WiringSpec.v
RequestId.v
Agent.v
AgentSpec.v
AgentCases.v
Service.v
ServiceSpec.v
ServiceCases.v
DemoPool.v
Demo.v
DemoSpec.v
DemoCases.v
SourceInfo.v
Ingest.v
IngestSpec.v
IngestPages.v
IngestCases.v
OpenApi.v
Gate.v
GateSpec.v
GateCases.v
Stats.v
Drivers.v
PublicRuns.v
PublicRunsSpec.v
PublicRunsCases.v
Bootstrap.v
Corpus.v
Drills.v
SearchRuns.v
Sandbox.v
