(* ===== verification/Prelude.v ===== *)
(** * IncidentDesk: a verification library (root file)

    IncidentDesk answers two kinds of question.  An incident question goes from the Go
    control plane to the Python worker (worker/incident_worker), which plans a retrieval,
    assembles evidence from read-only sources, has a language model explain it, and
    reports back.  A question about business data goes to the query service (query/app),
    an agent that writes SQL and may only run what its guards let through.  demo/ holds the
    fixtures both run against: the log store and a service that produces faults.  This
    library models that Python code and proves what it promises.

    ** How code is modelled

    - A Python function that may raise is a function to [result]; one that also changes
      state is a computation in [M S A], state passing with exceptions, so that an error
      keeps the state it had reached.  [exn] has the exception's class and message;
      [except] clauses test the class.  JSON values are the type [json] with Python's own
      operators (truth, equality, indexing, iteration); strings are lists of code points,
      so lengths and slices are Python's; integers are [Z], and floats are their [repr]
      except where the code computes with them (Retrieval rounds binary64).
    - What lies outside the repository is a parameter of the definitions that use it: the
      network ([post], [source_post]), clocks, the databases' connections, S3, the models,
      sqlglot, jieba, Qdrant, Elasticsearch, Git, Kubernetes.  SQL the code itself writes is
      the comprehension it denotes over a table given as a list.  Laws of such code are
      type classes ([UnicodeTables], [TzDatabase], [JsonRuntime], [SqlGlot], [LimitLaw],
      [FiniteTrees]) or hypotheses of the theorem, each with a concrete instance in a witness.
    - Concurrency is a step relation: an asyncio program is what it does between two
      suspensions, and a theorem about it quantifies over the interleavings.
    - Loops over external answers have fuel only where the code has a bound of its own
      (retries, pages, polls, and deadlines: on a clock that does not go back a theorem
      says which fuel is enough); elsewhere recursion is on the data.  The regular expression
      engine is total, JSON parsing uses the length of its text as fuel
      ([scan_fuel], shown enough by the round trip), paging a log uses the number of rows.

    ** Files

    Foundations: Prelude (exceptions, the monad, its program logic [wp] and frame rule
    [keeps], list lemmas, tactics and hint databases), PyStr (strings, UTF-8, [int]), PyRe
    (a backtracking matcher for the patterns the code uses, with its relational
    semantics), Json and JsonParse ([dumps], [loads], base64, with round trips), Digests
    (SHA-256, MD5), PyTime and IsoTime (dates, zones, ISO 8601 with its round trip).

    The log store (demo/log_store.py): LogStore, LogStoreSpec and Paging (the query, what a
    page holds, and that following cursors reads every row once); LogIndex and LogIndexSpec
    ([initialize], the full-text index and its triggers under crashes and writers).

    The worker: Redaction (redaction.py); Contracts (contracts.py); Runtime (runtime.py and
    resilience.py: the application SDK and the circuit breaker); Context, Assemble,
    AssembleSpec and Report (context.py: ontology, plan validation, the assembly loop, the
    report); Natural (natural.py: from a question to a plan); Evaluation and Cases
    (evaluation.py and the cases under evaluation/); Mistral and ModelCases (mistral.py: the
    investigation); Connectors and SourceInfo (connectors.py: the sources, and what they say
    of themselves); Cache (cache.py); Harness (harness.py: the agent's tools, budget and
    report); Artifacts (artifacts.py); Gateway (gateway.py and mcp_server.py); Api
    (context_api.py); Frames (what the pieces leave alone, for the composition); Main and
    MainSpec (main.py: one task from lease to conclusion, and the polling loop); Startup and
    StartupSpec (main.py's [main] with the constructors of cache.py and artifacts.py:
    replicas that start, take turns by a lock, and fail).

    The query service: Sql and SqlSpec (core/sql_guard.py, relations.py, over an interface
    to sqlglot); Business (core/metrics.py, periods.py); SqlCases (a toy parser and concrete
    statements); Retrieval (core/retrieval.py); Entities (entities, models, mappers and the
    MySQL repositories); Meta, MetaSpec and MetaIndexes (conf/meta_config.py and
    services/meta_knowledge_service.py, over the indexes as maps); Indexes (the Qdrant and
    Elasticsearch repositories over the servers' collections, which implement those maps);
    Wiring and WiringSpec (conf/app_config.py, clients, api/lifespan.py and dependencies.py,
    scripts/build_meta_knowledge.py and initialize.py: clients, sessions and the one-time
    initialization); RequestId (core/context.py, log.py: the request's identity in the
    contexts of its tasks); Agent, AgentSpec and AgentCases (agent/state.py, graph.py,
    nodes); Service, ServiceSpec and ServiceCases (query_service.py, routing.py,
    query_schema.py, main.py).

    The fixtures: DemoPool (the semaphore of /business under interleaving), Demo, DemoSpec
    and DemoCases (the handlers of demo/server.py); Bootstrap (what its import makes on
    disk, with a process that may die at any of its effects).

    The scripts: Ingest, IngestSpec, IngestPages and IngestCases
    (scripts/public_log_benchmark.py: the load of the public logs and the cases derived from
    it); OpenApi (scripts/contracts.py: the published interface); Gate, GateSpec and
    GateCases (scripts/generate_cases.py, evaluate.py, ablation.py and replay.py); Retention,
    and RetentionSpec (scripts/retention.py and retention_check.py); Stats
    (the percentiles and verdicts of load.py, search_v2_load.py and
    public_log_investigations.py, in binary64); Drivers (login and wait of smoke.py, the
    measurements of k8s_reliability.py, over a network and clocks that are parameters);
    PublicRuns, PublicRunsSpec and PublicRunsCases (public_log_investigations.py: a run, the
    concurrent mix, the summary, composed with the worker's report); Corpus
    (search_v2_corpus.py, composed with the log store); SearchRuns (search_v2_acceptance.py,
    composed with the model's investigation); Sandbox (sandbox/analyze.py and
    scripts/sandbox.py: the program in the container and its runner); Drills (demo_faults.py, composed with
    the demo's handlers, and k8s_sse.py: a stream resumed on another replica).

    ** What the theorems show

    - Evidence: every item a bundle, a report or a model's answer cites was returned by a
      source in this run, belongs to the task's service, tenant and window, and is
      accounted for ([assemble_grounded], [assemble_scoped], [assemble_accounts],
      [report_grounded], [investigate_grounded], [investigate_no_false_denial],
      [deep_report_grounded], [gather_scoped]); credentials are gone ([redact_hides]).
    - Limits: steps, model tokens, page sizes, terms, and rows are bounded
      ([authorize_within_budget], [model_calls_within_budget], [query_bounded],
      [sources_bounded], [safe_sql_policy]).
    - Completeness and order: cursors of logs and deployments read everything once
      ([paging_complete], [deployments_pages_complete], and [releases_paged], which
      composes the fixtures' writes with the worker's connector); canonical times order as
      instants ([canonical_order]); rank fusion equals its mathematical definition
      ([fuse_ranked_reference]); the full-text index is the messages of the table
      ([index_in_sync]).
    - State: the artifact store, the cache, the metadata build and the pool keep their
      invariants whatever fails or interleaves ([artifacts_ready_ok], [cache_hit_sound],
      [build_meta_atomic], [pool_safe]); the asyncio pool of [bounded_map] implements
      [map] ([bounded_map_correct]), and the sequential description of a request is
      refined by the interleaved one ([business_alone]); the vector and full-text servers
      implement the maps the build is described on ([repositories_refine]), which stay
      within the metadata ([indexes_within_metadata]), so what the agent recalls exists
      ([recall_within_metadata]).
    - Start and end: replicas migrate one at a time and serve only when they can
      ([startup_alone]); fixtures that came up once always come up the same
      ([boot_settles]); the knowledge is initialized once, and its marker tells the truth
      ([initialize_once]); a request gives back the sessions it opened ([request_sessions])
      and its records carry its own identifier ([request_ids_kept]); retention removes all
      that is old and nothing else, through any failures ([retention_exact],
      [retention_check_passes]).
    - Round trips: artifacts, cache entries, vector payloads, the event stream
      ([artifact_roundtrip], [cache_put_get], [columns_recallable], [stream_roundtrip]).
    - Guards: SQL reaches the warehouse only guarded and checked ([agent_guarded],
      [safe_sql_policy], [relations_keyed], [metrics_protected], [period_protected]); the
      planner and the router return only what they may ([interpret_safe],
      [interpret_explicit], [route_sound]); the API runs only the authorized scope
      ([api_query_scoped], [api_errors]).
    - Conclusion: a leased task always ends with a publication, a failure or the loss of
      its lease, and a question with one result or one error ([process_concludes],
      [query_handler_answers]); retries and the circuit are as specified
      ([circuit_call_spec]).
    - The scripts that hold the program to its word: the benchmark's expectations are what
      the source returns, its labels stay outside ([cases_exact], [labels_held_outside],
      [cases_read_back], and [corpus_sound] for the retrieval over the whole corpus); an
      investigation of the public logs ends in one outcome whatever the system answers
      ([run_concludes]), the mix and the summary account for every task ([mix_accounted],
      [summary_accounts]), and the worker's report passes the checks on references and
      gaps ([worker_passes_checks]), as does what the model's investigation publishes
      ([published_passes_checks]); the sandbox leaves nothing behind and counts as the
      MCP tool does ([analyze_leaves_nothing], [analyses_agree]); waiting ends at its deadline ([wait_ends]) and a
      measurement loses nothing ([measure_complete]); percentiles and load verdicts are
      those of exact arithmetic ([percentiles_nearest_rank], [load_verdict]); the faults
      are answered as expected ([demo_faults_pass]); a resumed stream has every event once
      ([resumed_complete]); the gate passes exactly what it should ([gate_decides]); a
      recorded investigation can be repeated from its record ([replay_faithful]); the
      published interface declares what it uses ([openapi_consistent]), and the sources'
      records have the fields declared ([sources_described], [deployments_described]).

    ** Findings

    A level named twice is counted and delivered twice ([duplicate_levels_repeat]); the
    deployments' cursor is the watermark alone, so rows tied at a page's end are skipped
    ([tie_is_skipped]; the fixtures never write such ties); the demo's Git, runbook and
    cluster sources name a next page but ignore the cursor ([cursor_ignored]); a row written
    while the full-text index has no triggers yet is never indexed ([write_in_gap_lost]);
    clients that follow one whose close fails stay open ([failing_close_leaks]); retention
    never reaches the checkpoints of the model's agent ([model_threads_kept]); a demo server
    that dies while it makes its key or its repository never starts again
    ([torn_start_stuck]).

    ** Not modelled

    The Go control plane, the web client, deployment files and SQL migrations (other
    languages); the scenarios of the remaining scripts (smoke.py's [main], the acceptance,
    security and fault drills), straight lines of calls to the Go API, docker and kubectl
    with assertions on what these answer; the arguments clients are constructed with, prompt
    files, metrics and tracing.  SQLite's tokenizer and its query planner, the ranking of
    the vector and full-text servers, PostgresSaver's migrations and pydantic's parsing of
    raw JSON are parameters; the bounds pydantic enforces are predicates.
*)
From Stdlib Require Export ZArith Lia Permutation Sorted.
From stdpp Require Export base list strings gmap.

#[global] Open Scope Z_scope.

(** ** Python exceptions *)

(** The exception classes the modelled code raises or tests.  A subclass of
    [ValueError] the standard library or pydantic raises has a constructor of
    its own, because [except ValueError] catches it while [type(exc).__name__]
    tells it apart. *)
Inductive exn_class :=
| PermissionError
| ValueError
| UnicodeEncodeError
| JSONDecodeError
| ValidationError
| RuntimeError
| KeyError
| TypeError
| AttributeError
| IndexError
| OverflowError
| TimeoutError
| HTTPStatusError (status : Z)
| TransportError (name : string)
| HTTPException (status : Z)
| OtherError (name : string).

#[export] Instance exn_class_eq_dec : EqDecision exn_class.
Proof. solve_decision. Defined.

(** An exception value: its class and [str(exc)] (as code points). *)
Record exn := Exn { exn_cls : exn_class; exn_msg : list Z }.

#[export] Instance exn_eq_dec : EqDecision exn.
Proof. solve_decision. Defined.

(** [type(exc).__name__]. *)
Definition exn_name (c : exn_class) : string :=
  match c with
  | PermissionError => "PermissionError"
  | ValueError => "ValueError"
  | UnicodeEncodeError => "UnicodeEncodeError"
  | JSONDecodeError => "JSONDecodeError"
  | ValidationError => "ValidationError"
  | RuntimeError => "RuntimeError"
  | KeyError => "KeyError"
  | TypeError => "TypeError"
  | AttributeError => "AttributeError"
  | IndexError => "IndexError"
  | OverflowError => "OverflowError"
  | TimeoutError => "TimeoutError"
  | HTTPStatusError _ => "HTTPStatusError"
  | TransportError n => n
  | HTTPException _ => "HTTPException"
  | OtherError n => n
  end.

(** [isinstance(exc, ValueError)]. *)
Definition is_value_error (c : exn_class) : bool :=
  match c with
  | ValueError | UnicodeEncodeError | JSONDecodeError | ValidationError => true
  | _ => false
  end.

(** ** Results and the exception-state monad *)

Inductive result (A : Type) :=
| Ok (a : A)
| Raise (e : exn).
Arguments Ok {A} a.
Arguments Raise {A} e.

#[export] Instance result_ret : MRet result := λ A a, Ok a.
#[export] Instance result_bind : MBind result := λ A B f r,
  match r with Ok a => f a | Raise e => Raise e end.
#[export] Instance result_fmap : FMap result := λ A B f r,
  match r with Ok a => Ok (f a) | Raise e => Raise e end.

Definition is_ok {A} (r : result A) : bool :=
  match r with Ok _ => true | Raise _ => false end.

(** A Python statement sequence over a mutable state [S]: the state survives an
    exception, as it does in Python. *)
Definition M (S A : Type) : Type := S → S * result A.

#[export] Instance M_ret {S} : MRet (M S) := λ A a s, (s, Ok a).
#[export] Instance M_bind {S} : MBind (M S) := λ A B f m s,
  match m s with
  | (s', Ok a) => f a s'
  | (s', Raise e) => (s', Raise e)
  end.
#[export] Instance M_fmap {S} : FMap (M S) := λ A B f m s,
  match m s with
  | (s', Ok a) => (s', Ok (f a))
  | (s', Raise e) => (s', Raise e)
  end.

Definition raise {S A} (e : exn) : M S A := λ s, (s, Raise e).
Definition get {S} : M S S := λ s, (s, Ok s).
Definition modify {S} (f : S → S) : M S unit := λ s, (f s, Ok tt).
Definition lift {S A} (r : result A) : M S A := λ s, (s, r).

(** [try: m except Exception as exc: h exc]. *)
Definition try_except {S A} (m : M S A) (h : exn → M S A) : M S A := λ s,
  match m s with
  | (s', Ok a) => (s', Ok a)
  | (s', Raise e) => h e s'
  end.

(** [try: m finally: f] where [f] does not raise. *)
Definition try_finally {S A} (m : M S A) (f : S → S) : M S A := λ s,
  match m s with (s', r) => (f s', r) end.

(** Run a computation over one component of a pair of states. *)
Definition on_fst {S T A} (m : M S A) : M (S * T) A := λ st,
  match m st.1 with (s', r) => ((s', st.2), r) end.
Definition on_snd {S T A} (m : M T A) : M (S * T) A := λ st,
  match m st.2 with (t', r) => ((st.1, t'), r) end.

(** [for x in xs: body(x)]. *)
Fixpoint for_each {S A} (xs : list A) (body : A → M S unit) : M S unit :=
  match xs with
  | [] => mret tt
  | x :: xs' => body x ;; for_each xs' body
  end.

(** [[body(x) for x in xs]]. *)
Fixpoint map_m {S A B} (xs : list A) (body : A → M S B) : M S (list B) :=
  match xs with
  | [] => mret []
  | x :: xs' => y ← body x; ys ← map_m xs' body; mret (y :: ys)
  end.

Fixpoint map_r {A B} (f : A → result B) (xs : list A) : result (list B) :=
  match xs with
  | [] => Ok []
  | x :: xs' => y ← f x; ys ← map_r f xs'; mret (y :: ys)
  end.

Definition guard_r (b : bool) (e : exn) : result () :=
  if b then Ok () else Raise e.

(** ** A Hoare logic for the monad *)

(** [wp m Q E s]: run from [s], [m] either returns a value and a state in [Q] or
    raises an exception and leaves a state in [E]. *)
Definition wp {S A} (m : M S A) (Q : A → S → Prop) (E : exn → S → Prop) (s : S)
    : Prop :=
  match m s with
  | (s', Ok a) => Q a s'
  | (s', Raise e) => E e s'
  end.

#[global] Arguments wp : simpl never.

Section wp_rules.
Context {S : Type}.
Implicit Types s : S.

Lemma wp_run {A} (m : M S A) Q E s s' r :
  wp m Q E s → m s = (s', r) →
  match r with Ok a => Q a s' | Raise e => E e s' end.
Proof. unfold wp. intros H Hm. rewrite Hm in H. by destruct r. Qed.

Lemma wp_mono {A} (m : M S A) (Q Q' : A → S → Prop) (E E' : exn → S → Prop) s :
  wp m Q E s → (∀ a s', Q a s' → Q' a s') → (∀ e s', E e s' → E' e s') →
  wp m Q' E' s.
Proof. unfold wp. destruct (m s) as [s' [a|e]]; eauto. Qed.

Lemma wp_ret {A} (a : A) (Q : A → S → Prop) E s : Q a s → wp (mret a) Q E s.
Proof. done. Qed.

Lemma wp_raise {A} e (Q : A → S → Prop) (E : exn → S → Prop) s :
  E e s → wp (raise e) Q E s.
Proof. done. Qed.

Lemma wp_get (Q : S → S → Prop) E s : Q s s → wp get Q E s.
Proof. done. Qed.

Lemma wp_modify f (Q : () → S → Prop) E s : Q tt (f s) → wp (modify f) Q E s.
Proof. done. Qed.

Lemma wp_lift {A} (r : result A) (Q : A → S → Prop) (E : exn → S → Prop) s :
  (∀ a, r = Ok a → Q a s) → (∀ e, r = Raise e → E e s) → wp (lift r) Q E s.
Proof. unfold wp, lift. destruct r; eauto. Qed.

Lemma wp_bind {A B} (m : M S A) (f : A → M S B) (Q : B → S → Prop) E s :
  wp m (λ a s', wp (f a) Q E s') E s → wp (m ≫= f) Q E s.
Proof.
  unfold wp, mbind, M_bind. intros H. destruct (m s) as [s' [a|e]]; exact H.
Qed.

Lemma wp_fmap {A B} (m : M S A) (f : A → B) (Q : B → S → Prop) E s :
  wp m (λ a s', Q (f a) s') E s → wp (f <$> m) Q E s.
Proof. unfold wp, fmap, M_fmap. destruct (m s) as [s' [a|e]]; done. Qed.

Lemma wp_try {A} (m : M S A) h (Q : A → S → Prop) E s :
  wp m Q (λ e s', wp (h e) Q E s') s → wp (try_except m h) Q E s.
Proof. unfold wp, try_except. destruct (m s) as [s' [a|e]]; done. Qed.

Lemma wp_for_each {A} (body : A → M S ()) (I : S → Prop) (E : exn → S → Prop)
    (xs : list A) (P : A → Prop) s :
  Forall P xs → I s →
  (∀ x s, P x → I s → wp (body x) (λ _ s', I s') E s) →
  wp (for_each xs body) (λ _ s', I s') E s.
Proof.
  intros HP HI Hbody. revert s HI.
  induction HP as [|x xs Hx HP IH]; intros s HI; [done|].
  cbn. apply wp_bind. eapply wp_mono; [by apply Hbody | | done].
  intros [] s' HI'. by apply IH.
Qed.

(** The loop rule with the processed prefix in the invariant. *)
Lemma wp_for_each_prefix {A} (body : A → M S ()) (I : list A → S → Prop)
    (E : exn → S → Prop) (xs : list A) s :
  I [] s →
  (∀ pre x s, I pre s → wp (body x) (λ _ s', I (pre ++ [x]) s') E s) →
  wp (for_each xs body) (λ _ s', I xs s') E s.
Proof.
  intros HI Hbody. change (I xs) with (I ([] ++ xs)).
  revert s HI. generalize (@nil A).
  induction xs as [|x xs IH]; intros pre s HI; cbn.
  - apply wp_ret. by rewrite app_nil_r.
  - apply wp_bind. eapply wp_mono; [by apply Hbody | | done].
    intros [] s' HI'. change (x :: xs) with ([x] ++ xs). rewrite app_assoc.
    by apply IH.
Qed.
End wp_rules.

Lemma wp_on_fst {S T A} (m : M S A) (Q : A → S * T → Prop) E (s : S) (t : T) :
  wp m (λ a s', Q a (s', t)) (λ e s', E e (s', t)) s → wp (on_fst m) Q E (s, t).
Proof. unfold wp, on_fst. cbn. destruct (m s) as [s' [a|e]]; done. Qed.

Lemma wp_on_snd {S T A} (m : M T A) (Q : A → S * T → Prop) E (s : S) (t : T) :
  wp m (λ a t', Q a (s, t')) (λ e t', E e (s, t')) t → wp (on_snd m) Q E (s, t).
Proof. unfold wp, on_snd. cbn. destruct (m t) as [t' [a|e]]; done. Qed.

(** One step of symbolic execution. *)
Ltac wp_step :=
  lazymatch goal with
  | |- wp (mret _) _ _ _ => apply wp_ret
  | |- wp (raise _) _ _ _ => apply wp_raise
  | |- wp get _ _ _ => apply wp_get
  | |- wp (modify _) _ _ _ => apply wp_modify
  | |- wp (lift _) _ _ _ => apply wp_lift; intros ? ?
  | |- wp (mbind _ _) _ _ _ => apply wp_bind
  | |- wp (fmap _ _) _ _ _ => apply wp_fmap
  | |- wp (try_except _ _) _ _ _ => apply wp_try
  | |- wp (on_fst _) _ _ _ => apply wp_on_fst
  | |- wp (on_snd _) _ _ _ => apply wp_on_snd
  | |- wp (match ?x with _ => _ end) _ _ _ => destruct x eqn:?
  end.
Ltac wp_steps := repeat (wp_step; cbn beta iota).

Lemma bind_ok {A B} (m : result A) (f : A → result B) b :
  m ≫= f = Ok b → ∃ a, m = Ok a ∧ f a = Ok b.
Proof. destruct m; cbn; [eauto | done]. Qed.

Lemma M_bind_ok {S A B} (m : M S A) (f : A → M S B) s s' b :
  (m ≫= f) s = (s', Ok b) → ∃ s1 a, m s = (s1, Ok a) ∧ f a s1 = (s', Ok b).
Proof. unfold mbind, M_bind. destruct (m s) as [s1 [a|e]]; naive_solver. Qed.

Lemma guard_r_ok b e u : guard_r b e = Ok u → b = true.
Proof. destruct b; done. Qed.

(** ** What a computation never changes *)

(** Whatever [m] does, returning or raising, the states before and after are
    related by [P] (a preorder, such as "the same run"). *)
Definition keeps {S A} (P : S → S → Prop) (m : M S A) : Prop :=
  ∀ s s' x, m s = (s', x) → P s s'.

Section keeps_rules.
Context {S : Type} (P : S → S → Prop) `{!PreOrder P}.

Lemma keeps_ret {A} (a : A) : keeps P (mret a : M S A).
Proof. by intros s s' x [= <- _]. Qed.
Lemma keeps_raise {A} e : keeps P (raise e : M S A).
Proof. by intros s s' x [= <- _]. Qed.
Lemma keeps_get : keeps P (get : M S S).
Proof. by intros s s' x [= <- _]. Qed.
Lemma keeps_lift {A} (r : result A) : keeps P (lift r : M S A).
Proof. by intros s s' x [= <- _]. Qed.
Lemma keeps_modify f : (∀ s, P s (f s)) → keeps P (modify f).
Proof. intros H s s' x [= <- _]. apply H. Qed.

Lemma keeps_bind {A B} (m : M S A) (f : A → M S B) :
  keeps P m → (∀ a, keeps P (f a)) → keeps P (m ≫= f).
Proof.
  intros Hm Hf s s' x. unfold mbind, M_bind.
  destruct (m s) as [s1 [a|e]] eqn:H1; apply Hm in H1.
  - intros H. etrans; [exact H1|]. by eapply Hf.
  - by intros [= <- _].
Qed.

Lemma keeps_try {A} (m : M S A) h :
  keeps P m → (∀ e, keeps P (h e)) → keeps P (try_except m h).
Proof.
  intros Hm Hh s s' x. unfold try_except.
  destruct (m s) as [s1 [a|e]] eqn:H1; apply Hm in H1.
  - by intros [= <- _].
  - intros H. etrans; [exact H1|]. by eapply Hh.
Qed.

Lemma keeps_for_each {A} (xs : list A) (body : A → M S ()) :
  (∀ x, keeps P (body x)) → keeps P (for_each xs body).
Proof.
  intros Hb. induction xs as [|x xs IH]; cbn [for_each]; [apply keeps_ret|].
  apply keeps_bind; [apply Hb|]. intros _. exact IH.
Qed.

Lemma keeps_map_m {A B} (xs : list A) (body : A → M S B) :
  (∀ x, keeps P (body x)) → keeps P (map_m xs body).
Proof.
  intros Hb. induction xs as [|x xs IH]; cbn [map_m]; [apply keeps_ret|].
  apply keeps_bind; [apply Hb|]. intros y. apply keeps_bind; [exact IH|].
  intros ys. apply keeps_ret.
Qed.
End keeps_rules.

Create HintDb keeps.

(** Push [keeps] through the structure of a computation; what is left are the
    operations the caller knows about (from the database [keeps]). *)
Ltac keeps_step :=
  lazymatch goal with
  | |- keeps ?P (mret _) => apply (keeps_ret P)
  | |- keeps ?P (raise _) => apply (keeps_raise P)
  | |- keeps ?P get => apply (keeps_get P)
  | |- keeps ?P (lift _) => apply (keeps_lift P)
  | |- keeps ?P (mbind _ _) => apply (keeps_bind P); [|intros ?]
  | |- keeps ?P (try_except _ _) => apply (keeps_try P); [|intros ?]
  | |- keeps ?P (for_each _ _) => apply (keeps_for_each P); intros ?
  | |- keeps ?P (map_m _ _) => apply (keeps_map_m P); intros ?
  | |- keeps _ (match ?x with _ => _ end) => destruct x
  | |- keeps _ _ =>
      first [solve [match goal with H : context [keeps _ _] |- _ => apply H end]
            |solve [eauto with keeps]]
  end.
Ltac keeps_steps := repeat (cbn beta iota zeta; keeps_step).

(** Invert a run that returned: every bind, test and pure step it went through. *)
Lemma lift_ok {S A} (r : result A) (s s' : S) a :
  lift r s = (s', Ok a) → s' = s ∧ r = Ok a.
Proof. by intros [= -> ->]. Qed.

Ltac inv_run :=
  repeat match goal with
  | H : mbind _ _ _ = (_, Ok _) |- _ =>
      let s := fresh "s" in let a := fresh "a" in let H1 := fresh "Hm" in
      apply M_bind_ok in H as (s & a & H1 & H); cbn beta zeta in H
  | H : lift _ _ = (_, Ok _) |- _ =>
      let H1 := fresh "Hr" in apply lift_ok in H as [-> H1]
  | H : get _ = (_, Ok _) |- _ => injection H as ? ?; subst
  | H : mret _ _ = (_, Ok _) |- _ => injection H as ? ?; subst
  | H : modify _ _ = (_, Ok _) |- _ => injection H as ? ?; subst
  | H : raise _ _ = (_, Ok _) |- _ => discriminate H
  | H : (if ?b then _ else _) _ = (_, Ok _) |- _ => destruct b eqn:?
  end.

(** Invert every successful bind among the hypotheses. *)
Ltac inv_ok :=
  repeat match goal with
  | H : Ok _ = Ok _ |- _ => injection H as H; try subst
  | H : Raise _ = Ok _ |- _ => discriminate H
  | H : Ok _ = Raise _ |- _ => discriminate H
  | H : mret _ = Ok _ |- _ => injection H as H; try subst
  | H : guard_r _ _ = Ok _ |- _ => apply guard_r_ok in H
  | H : mbind _ _ = Ok _ |- _ =>
      let a := fresh "a" in let H1 := fresh "Hm" in
      apply bind_ok in H; destruct H as (a & H1 & H)
  end.

Lemma map_r_ok {A B} (f : A → result B) xs ys :
  map_r f xs = Ok ys ↔ Forall2 (λ x y, f x = Ok y) xs ys.
Proof.
  split.
  - revert ys. induction xs as [|x xs IH]; intros ys H; cbn in H; inv_ok.
    + constructor.
    + constructor; eauto.
  - induction 1 as [|x y xs ys Hxy _ IH]; [done|]. cbn. by rewrite Hxy, IH.
Qed.

(** ** Lists *)

(** [list(dict.fromkeys(l))]: the first occurrence of every element, in order. *)
Fixpoint fromkeys {A} `{EqDecision A} (l : list A) : list A :=
  match l with
  | [] => []
  | x :: l' => x :: filter (λ y, y ≠ x) (fromkeys l')
  end.

(** [sorted(l)] for the order [le]: insertion keeps equal elements in order. *)
Fixpoint insert_by {A} (le : A → A → bool) (x : A) (l : list A) : list A :=
  match l with
  | [] => [x]
  | y :: l' => if le x y then x :: y :: l' else y :: insert_by le x l'
  end.
Definition sort_by {A} (le : A → A → bool) (l : list A) : list A :=
  foldr (insert_by le) [] l.

(** [[l[i : i + n] for i in range(0, len(l), n)]] for [n > 0]; [fuel] bounds the
    number of slices, and [length l] of it is enough. *)
Fixpoint chunks_fuel {A} (fuel : nat) (n : nat) (l : list A) : list (list A) :=
  match fuel, l with
  | O, _ | _, [] => []
  | S fuel', _ => take n l :: chunks_fuel fuel' n (drop n l)
  end.
Definition chunks {A} (n : nat) (l : list A) : list (list A) :=
  chunks_fuel (length l) n l.

Lemma filter_all {A} (P : A → Prop) `{∀ x, Decision (P x)} (l : list A) :
  Forall P l → filter P l = l.
Proof.
  induction 1 as [|x l Hx _ IH]; [done|]. by rewrite filter_cons, decide_True, IH.
Qed.

Lemma NoDup_fmap_filter {A B} (f : A → B) (Q : A → Prop) `{∀ x, Decision (Q x)} (l : list A) :
  NoDup (f <$> l) → NoDup (f <$> filter Q l).
Proof.
  induction l as [|x l IH]; [done|]. rewrite fmap_cons, NoDup_cons. intros [Hx Hl].
  rewrite filter_cons. destruct (decide (Q x)); [|auto]. rewrite fmap_cons.
  apply NoDup_cons. split; [|auto]. intros Hin. apply Hx.
  apply list_elem_of_fmap in Hin as (y & -> & Hy). apply list_elem_of_filter in Hy as [_ Hy].
  by apply (list_elem_of_fmap_2 f).
Qed.


Lemma NoDup_fmap_inj {A B} (f : A → B) (l : list A) x y :
  NoDup (f <$> l) → x ∈ l → y ∈ l → f x = f y → x = y.
Proof.
  intros Hnd (i & Hi)%list_elem_of_lookup (j & Hj)%list_elem_of_lookup He.
  assert (i = j) as ->; [|congruence].
  eapply (NoDup_lookup (f <$> l)); [exact Hnd|..];
    rewrite list_lookup_fmap; [by rewrite Hi|rewrite Hj; cbn; by rewrite He].
Qed.

Lemma filter_none {A} (P : A → Prop) `{∀ x, Decision (P x)} (l : list A) :
  (∀ x, x ∈ l → ¬ P x) → filter P l = [].
Proof.
  induction l as [|x l IH]; intros H'; [done|]. rewrite filter_cons, decide_False.
  - apply IH. intros y Hy. by apply H', list_elem_of_further.
  - apply H', list_elem_of_here.
Qed.

Lemma filter_ext_in {A} (P Q : A → Prop) `{∀ x, Decision (P x)} `{∀ x, Decision (Q x)}
    (l : list A) :
  (∀ x, x ∈ l → P x ↔ Q x) → filter P l = filter Q l.
Proof.
  induction l as [|x l IH]; intros Hl; [done|]. rewrite !filter_cons.
  rewrite IH by (intros y Hy; by apply Hl, list_elem_of_further).
  pose proof (Hl x (list_elem_of_here _ _)). repeat case_decide; tauto || done.
Qed.

(** Selecting among images is selecting among arguments. *)
Lemma filter_map {A B} (f : A → B) (P : B → Prop) `{∀ x, Decision (P x)} (l : list A) :
  filter P (f <$> l) = f <$> filter (λ x, P (f x)) l.
Proof.
  induction l as [|x l IH]; [done|]. rewrite fmap_cons, !filter_cons.
  case_decide; by rewrite IH.
Qed.

Lemma length_filter_Forall2 {A B} (P : A → Prop) (Q : B → Prop)
    `{∀ x, Decision (P x)} `{∀ x, Decision (Q x)} l k :
  Forall2 (λ x y, P x ↔ Q y) l k → length (filter P l) = length (filter Q k).
Proof.
  induction 1 as [|x y l k Hxy _ IH]; [done|]. rewrite !filter_cons.
  repeat case_decide; cbn [length]; tauto || by rewrite IH.
Qed.

Section list_lemmas.
Context {A : Type}.

Lemma elem_of_fromkeys `{EqDecision A} (l : list A) x : x ∈ fromkeys l ↔ x ∈ l.
Proof.
  induction l as [|y l IH]; [done|]. cbn.
  rewrite !elem_of_cons, list_elem_of_filter, IH.
  destruct (decide (x = y)); tauto.
Qed.

Lemma NoDup_fromkeys `{EqDecision A} (l : list A) : NoDup (fromkeys l).
Proof.
  induction l as [|y l IH]; cbn; constructor.
  - rewrite list_elem_of_filter. tauto.
  - by apply NoDup_filter.
Qed.

Lemma fromkeys_id `{EqDecision A} (l : list A) : NoDup l → fromkeys l = l.
Proof.
  induction 1 as [|x l Hx _ IH]; cbn; [done|]. rewrite IH. f_equal.
  clear IH. induction l as [|y l IH]; [done|].
  rewrite filter_cons, decide_True by set_solver. f_equal. apply IH. set_solver.
Qed.

Lemma length_fromkeys `{EqDecision A} (l : list A) :
  (length (fromkeys l) ≤ length l)%nat.
Proof.
  induction l as [|x l IH]; cbn; [lia|].
  pose proof (length_filter (λ y, y ≠ x) (fromkeys l)). lia.
Qed.

Lemma insert_by_perm le (x : A) l : insert_by le x l ≡ₚ x :: l.
Proof.
  induction l as [|y l IH]; cbn; [done|].
  destruct (le x y); [done|]. rewrite IH. by constructor.
Qed.

Lemma sort_by_perm le (l : list A) : sort_by le l ≡ₚ l.
Proof.
  induction l as [|x l IH]; cbn; [done|]. rewrite insert_by_perm. by constructor.
Qed.

Lemma elem_of_sort_by le (l : list A) x : x ∈ sort_by le l ↔ x ∈ l.
Proof. by rewrite sort_by_perm. Qed.

Lemma sort_by_sorted (le : A → A → bool) (l : list A) :
  (∀ x y, le x y = true ∨ le y x = true) →
  Sorted (λ x y, le x y = true) (sort_by le l).
Proof.
  intros Htot. induction l as [|x l IH]; [constructor|].
  change (sort_by le (x :: l)) with (insert_by le x (sort_by le l)).
  induction IH as [|y l' Hl IH Hy]; cbn; [repeat constructor|].
  destruct (le x y) eqn:Hxy.
  - constructor; [by constructor|]. by constructor.
  - constructor; [done|]. destruct (Htot x y) as [?|Hyx]; [congruence|].
    destruct Hy as [|z l'' Hz]; cbn; [by constructor|].
    destruct (le x z); by constructor.
Qed.

Lemma sort_by_strongly_sorted (le : A → A → bool) (l : list A) :
  (∀ x y, le x y = true ∨ le y x = true) →
  (∀ x y z, le x y = true → le y z = true → le x z = true) →
  StronglySorted (λ x y, le x y = true) (sort_by le l).
Proof.
  intros Htot Htr. apply Sorted_StronglySorted; [|by apply sort_by_sorted].
  intros x y z; apply Htr.
Qed.

(** Sorting a list that is already in order changes nothing. *)
Lemma sort_by_id (le : A → A → bool) (l : list A) :
  Sorted (λ x y, le x y = true) l → sort_by le l = l.
Proof.
  induction 1 as [|x l _ IH Hx]; [done|].
  change (sort_by le (x :: l)) with (insert_by le x (sort_by le l)). rewrite IH.
  destruct Hx as [|y l' Hy]; cbn; [done|]. by rewrite Hy.
Qed.

Lemma StronglySorted_filter (Q : A → A → Prop) (P : A → Prop) `{∀ x, Decision (P x)} l :
  StronglySorted Q l → StronglySorted Q (filter P l).
Proof.
  induction 1 as [|x l Hl IH Hx]; [constructor|]. rewrite filter_cons.
  case_decide; [|done]. constructor; [done|]. apply Forall_forall.
  intros y [_ Hy]%list_elem_of_filter. by apply (proj1 (Forall_forall _ _) Hx).
Qed.

(** A stable sort commutes with selecting elements. *)
Lemma filter_insert_by (le : A → A → bool) (P : A → Prop) `{∀ x, Decision (P x)} x l :
  (∀ x y z, le x y = true → le y z = true → le x z = true) →
  StronglySorted (λ x y, le x y = true) l →
  filter P (insert_by le x l) =
    if decide (P x) then insert_by le x (filter P l) else filter P l.
Proof.
  intros Htr. induction 1 as [|y l Hl IH Hy]; cbn [insert_by].
  - rewrite filter_cons. by case_decide.
  - destruct (le x y) eqn:Hxy; [|rewrite (filter_cons P y), IH, (filter_cons P y l)].
    + rewrite (filter_cons P x). case_decide; [|done].
      assert (Forall (λ z, le x z = true) (filter P (y :: l))) as Hall.
      { apply Forall_forall. intros z [_ Hz]%list_elem_of_filter.
        apply elem_of_cons in Hz as [->|Hz]; [done|].
        eapply Htr; [exact Hxy|]. by apply (proj1 (Forall_forall _ _) Hy). }
      destruct (filter P (y :: l)) as [|z l']; [done|]. cbn.
      inversion Hall as [|? ? Hz]. by rewrite Hz.
    + do 2 case_decide; cbn; rewrite ?Hxy; done.
Qed.

Lemma filter_sort_by (le : A → A → bool) (P : A → Prop) `{∀ x, Decision (P x)} l :
  (∀ x y, le x y = true ∨ le y x = true) →
  (∀ x y z, le x y = true → le y z = true → le x z = true) →
  filter P (sort_by le l) = sort_by le (filter P l).
Proof.
  intros Htot Htr. induction l as [|x l IH]; [done|].
  change (sort_by le (x :: l)) with (insert_by le x (sort_by le l)).
  rewrite filter_insert_by, IH, filter_cons by auto using sort_by_strongly_sorted.
  by case_decide.
Qed.

Lemma chunks_fuel_concat fuel n (l : list A) :
  (0 < n)%nat → (length l ≤ fuel)%nat → concat (chunks_fuel fuel n l) = l.
Proof.
  intros Hn. revert l. induction fuel as [|fuel IH]; intros l Hl.
  - by destruct l; cbn in *; [|lia].
  - destruct l as [|x l]; [done|]. cbn [chunks_fuel concat].
    rewrite IH; [apply take_drop|]. rewrite length_drop. cbn in *. lia.
Qed.

Lemma chunks_concat n (l : list A) : (0 < n)%nat → concat (chunks n l) = l.
Proof. intros. by apply chunks_fuel_concat. Qed.

Lemma chunks_length n (l : list A) :
  (0 < n)%nat → Forall (λ c, 0 < length c ≤ n)%nat (chunks n l).
Proof.
  intros Hn. unfold chunks. generalize (length l). intros fuel. revert l.
  induction fuel as [|fuel IH]; intros [|x l]; cbn; try constructor; [|by apply IH].
  rewrite length_take. cbn. lia.
Qed.
End list_lemmas.

#[global] Arguments chunks : simpl never.
#[global] Arguments sort_by : simpl never.

Create HintDb desk.
#[export] Hint Resolve NoDup_fromkeys length_fromkeys sort_by_perm : desk.
