(* ===== verification/PyStr.v ===== *)
(** * Python strings

    A Python [str] is a sequence of Unicode code points, so it is a [list Z]
    here: [len], slicing and indexing count code points, and [str.encode] is the
    UTF-8 encoder that the byte budgets of the program measure.  Source literals
    are written [u "..."]: the bytes of the Rocq string decoded from UTF-8. *)
From S2P Require Import Prelude.
From Stdlib Require Import DecimalZ.

Abbreviation pystr := (list Z) (only parsing).

(** ** Literals *)

Fixpoint utf8_decode (bs : list Z) : list Z :=
  match bs with
  | [] => []
  | b0 :: t0 =>
      if b0 <? 128 then b0 :: utf8_decode t0 else
      match t0 with
      | [] => []
      | b1 :: t1 =>
          if b0 <? 224 then ((b0 - 192) * 64 + (b1 - 128)) :: utf8_decode t1 else
          match t1 with
          | [] => []
          | b2 :: t2 =>
              if b0 <? 240
              then ((b0 - 224) * 4096 + (b1 - 128) * 64 + (b2 - 128))
                     :: utf8_decode t2
              else match t2 with
                   | [] => []
                   | b3 :: t3 =>
                       ((b0 - 240) * 262144 + (b1 - 128) * 4096
                        + (b2 - 128) * 64 + (b3 - 128)) :: utf8_decode t3
                   end
          end
      end
  end.

Definition string_bytes (s : string) : list Z :=
  (λ a, Z.of_N (Ascii.N_of_ascii a)) <$> String.list_ascii_of_string s.

Definition u (s : string) : pystr := utf8_decode (string_bytes s).
#[global] Arguments u : simpl never.

Definition exn_of (c : exn_class) (msg : string) : exn := Exn c (u msg).

(** ** Encoding *)

(** A code point UTF-8 encodes: not a surrogate, at most U+10FFFF. *)
Definition is_scalar (c : Z) : bool :=
  (0 <=? c) && (c <=? 1114111) && negb ((55296 <=? c) && (c <=? 57343)).

Definition utf8_char (c : Z) : list Z :=
  if c <? 128 then [c]
  else if c <? 2048 then [192 + c / 64; 128 + c mod 64]
  else if c <? 65536 then [224 + c / 4096; 128 + c / 64 mod 64; 128 + c mod 64]
  else [240 + c / 262144; 128 + c / 4096 mod 64; 128 + c / 64 mod 64;
        128 + c mod 64].

Definition utf8 (s : pystr) : list Z := concat (utf8_char <$> s).

(** [s.encode()]. *)
Definition encode (s : pystr) : result (list Z) :=
  if forallb is_scalar s then Ok (utf8 s)
  else Raise (exn_of UnicodeEncodeError "surrogates not allowed").

(** ** Length, slices, tests *)

Definition len {A} (l : list A) : Z := Z.of_nat (length l).

(** [s[:n]] for [n >= 0]. *)
Definition upto {A} (n : Z) (l : list A) : list A := take (Z.to_nat n) l.

Fixpoint startswith (p s : pystr) : bool :=
  match p, s with
  | [], _ => true
  | c :: p', d :: s' => (c =? d) && startswith p' s'
  | _ :: _, [] => false
  end.

(** [p in s]. *)
Fixpoint contains (p s : pystr) : bool :=
  startswith p s || match s with [] => false | _ :: s' => contains p s' end.

Definition str_eqb (s t : pystr) : bool := bool_decide (s = t).

(** [s in (t1, t2, ...)]. *)
Definition mem (s : pystr) (l : list pystr) : bool := existsb (str_eqb s) l.

Lemma mem_elem_of s l : mem s l = true ↔ s ∈ l.
Proof.
  unfold mem. rewrite existsb_exists. split.
  - intros (x & Hx & He%bool_decide_eq_true). subst. by apply list_elem_of_In.
  - intros H%list_elem_of_In. exists s. split; [done|]. by apply bool_decide_eq_true.
Qed.

(** Code-point order, [s <= t]. *)
Fixpoint str_leb (s t : pystr) : bool :=
  match s, t with
  | [], _ => true
  | _ :: _, [] => false
  | c :: s', d :: t' => (c <? d) || ((c =? d) && str_leb s' t')
  end.

Lemma str_leb_total s t : str_leb s t = true ∨ str_leb t s = true.
Proof.
  revert t. induction s as [|c s IH]; intros [|d t]; cbn; auto.
  destruct (Z.ltb_spec c d), (Z.ltb_spec d c), (Z.eqb_spec c d), (Z.eqb_spec d c);
    cbn; auto; lia.
Qed.

Lemma str_leb_antisym s t : str_leb s t = true → str_leb t s = true → s = t.
Proof.
  revert t. induction s as [|c s IH]; intros [|d t]; cbn; try done.
  destruct (Z.ltb_spec c d), (Z.ltb_spec d c), (Z.eqb_spec c d), (Z.eqb_spec d c);
    cbn; try done; try lia. intros H1 H2. subst. f_equal. auto.
Qed.

Lemma str_leb_trans s t v : str_leb s t = true → str_leb t v = true → str_leb s v = true.
Proof.
  revert t v. induction s as [|c s IH]; intros [|d t] [|e v]; cbn; try done.
  destruct (Z.ltb_spec c d), (Z.ltb_spec d e), (Z.ltb_spec c e), (Z.eqb_spec c d),
    (Z.eqb_spec d e), (Z.eqb_spec c e); cbn; try done; try lia. apply IH.
Qed.

Lemma str_leb_refl s : str_leb s s = true.
Proof. by destruct (str_leb_total s s). Qed.

Definition removeprefix (p s : pystr) : pystr :=
  if startswith p s then drop (length p) s else s.

Definition removesuffix (p s : pystr) : pystr :=
  if startswith (rev p) (rev s) && negb (str_eqb p [])
  then take (length s - length p) s else s.

(** [sep.join(l)]. *)
Fixpoint join (sep : pystr) (l : list pystr) : pystr :=
  match l with
  | [] => []
  | [s] => s
  | s :: l' => s ++ sep ++ join sep l'
  end.

(** [s.replace(old, new)] for a one-character [old]. *)
Definition replace1 (old : Z) (new : pystr) (s : pystr) : pystr :=
  concat ((λ c, if c =? old then new else [c]) <$> s).

(** ** Character classes *)

(** [str.isspace] of one character, which is also the class [\s]. *)
Definition is_space (c : Z) : bool :=
  ((9 <=? c) && (c <=? 13)) || ((28 <=? c) && (c <=? 32)) || (c =? 133)
  || (c =? 160) || (c =? 5760) || ((8192 <=? c) && (c <=? 8202))
  || (c =? 8232) || (c =? 8233) || (c =? 8239) || (c =? 8287) || (c =? 12288).

Fixpoint lstrip (s : pystr) : pystr :=
  match s with
  | [] => []
  | c :: s' => if is_space c then lstrip s' else s
  end.
Definition strip (s : pystr) : pystr := rev (lstrip (rev (lstrip s))).

(** The zero of every decimal-digit block of Unicode (category Nd): the class
    [\d], and the digits [int()] reads. *)
Definition nd_zeros : list Z :=
  [48; 1632; 1776; 1984; 2406; 2534; 2662; 2790; 2918; 3046; 3174; 3302; 3430;
   3558; 3664; 3792; 3872; 4160; 4240; 6112; 6160; 6470; 6608; 6784; 6800; 6992;
   7088; 7232; 7248; 42528; 43216; 43264; 43472; 43504; 43600; 44016; 65296;
   66720; 68912; 69734; 69872; 69942; 70096; 70384; 70736; 70864; 71248; 71360;
   71472; 71904; 72016; 72784; 73040; 73120; 73552; 92768; 92864; 93008; 120782;
   120792; 120802; 120812; 120822; 123200; 123632; 124144; 125264; 130032].

Definition digit_value (c : Z) : option Z :=
  match filter (λ z, z ≤ c ∧ c < z + 10) nd_zeros with
  | z :: _ => Some (c - z)
  | [] => None
  end.
Definition is_digit (c : Z) : bool :=
  match digit_value c with Some _ => true | None => false end.

(** [int(s)] on a run of digits, as [\d] matched it. *)
Definition int_of_digits (s : pystr) : Z :=
  foldl (λ acc c, acc * 10 + default 0 (digit_value c)) 0 s.

(** [int(s)]: digits in single-underscore groups, after an optional sign, between
    blanks; the interpreter refuses more than 4300 digits. *)
Fixpoint int_digits (after_digit : bool) (s : pystr) : option pystr :=
  match s with
  | [] => if after_digit then Some [] else None
  | c :: s' =>
      if is_digit c then cons c <$> int_digits true s'
      else if (c =? 95) && after_digit then int_digits false s' else None
  end.

Definition int_of_str (s : pystr) : result Z :=
  let t := strip s in
  let '(sign, t) := match t with
    | c :: t' => if c =? 45 then (-1, t') else if c =? 43 then (1, t') else (1, t)
    | [] => (1, t)
    end in
  match int_digits false t with
  | Some d => if len d <=? 4300 then Ok (sign * int_of_digits d)
              else Raise (exn_of ValueError "Exceeds the limit for integer string conversion")
  | None => Raise (exn_of ValueError "invalid literal for int()")
  end.

Definition ascii_lower_char (c : Z) : Z :=
  if (65 <=? c) && (c <=? 90) then c + 32 else c.
Definition ascii_lower (s : pystr) : pystr := ascii_lower_char <$> s.

(** The Unicode tables are data of the interpreter's build: case mappings as
    functions on strings, and which characters beyond ASCII are alphanumeric. *)
Class UnicodeTables := {
  lower : pystr → pystr;
  upper : pystr → pystr;
  casefold : pystr → pystr;
  word_char : Z → bool;
}.

Definition ascii_upper_char (c : Z) : Z :=
  if (97 <=? c) && (c <=? 122) then c - 32 else c.

(** The tables restricted to ASCII and the CJK ideographs, for concrete runs. *)
Definition AsciiCjk : UnicodeTables :=
  {| lower := ascii_lower; upper := fmap ascii_upper_char; casefold := ascii_lower;
     word_char c := (19968 <=? c) && (c <=? 40959) |}.

(** ** Integers *)

Fixpoint uint_str (d : Decimal.uint) : pystr :=
  match d with
  | Decimal.Nil => []
  | Decimal.D0 d => 48 :: uint_str d | Decimal.D1 d => 49 :: uint_str d
  | Decimal.D2 d => 50 :: uint_str d | Decimal.D3 d => 51 :: uint_str d
  | Decimal.D4 d => 52 :: uint_str d | Decimal.D5 d => 53 :: uint_str d
  | Decimal.D6 d => 54 :: uint_str d | Decimal.D7 d => 55 :: uint_str d
  | Decimal.D8 d => 56 :: uint_str d | Decimal.D9 d => 57 :: uint_str d
  end.

(** [str(z)]. *)
Definition str_of_Z (z : Z) : pystr :=
  match Z.to_int z with
  | Decimal.Pos d => uint_str d
  | Decimal.Neg d => 45 :: uint_str d
  end.
#[global] Arguments str_of_Z : simpl never.
