(* ===== verification/PyRe.v ===== *)
(** * The regular expressions the program uses

    The fragment of Python's [re] that occurs in the source, with the semantics
    of its backtracking matcher: alternatives are tried left to right,
    repetitions take as many characters as they can and give them back one at a
    time, and the first way to match wins.  Every repetition in the source
    repeats a character class, so matching is structural in the expression. *)
From S2P Require Import Prelude.
From S2P Require Import PyStr.

Inductive re :=
| REps
| RChar (f : Z → bool)                            (* one character of a class *)
| RRep (f : Z → bool) (min : nat) (max : option nat)        (* greedy [f{min,max}] *)
| RSeq (r1 r2 : re)
| RAlt (r1 r2 : re)
| ROpt (r : re)                                   (* greedy [(?:r)?] *)
| RGroup (n : nat) (r : re)                       (* capturing group [n] *)
| RNotBehind (f : Z → bool)                       (* [(?<!f)] *)
| RNotAhead (f : Z → bool)                        (* [(?!f)] *)
| RBoundary                                       (* [\b] *)
| RBegin.                                         (* [^] *)

(** A position in the subject: the text before it (reversed), the text after it,
    and the groups captured so far. *)
Record pos := Pos { behind : pystr; ahead : pystr; caps : list (nat * pystr) }.

Definition advance (n : nat) (p : pos) : pos :=
  Pos (rev (take n (ahead p)) ++ behind p) (drop n (ahead p)) (caps p).

Fixpoint span (f : Z → bool) (s : pystr) : nat :=
  match s with
  | c :: s' => if f c then S (span f s') else O
  | [] => O
  end.

(** The class [\w], which [\b] looks at. *)
Definition is_word {UT : UnicodeTables} (c : Z) : bool :=
  ((48 <=? c) && (c <=? 57)) || ((65 <=? c) && (c <=? 90)) || (c =? 95)
  || ((97 <=? c) && (c <=? 122)) || word_char c.

Section matcher.
Context {UT : UnicodeTables} {R : Type}.

Definition boundary (p : pos) : bool :=
  let w l := match l with c :: _ => is_word c | [] => false end in
  negb (Bool.eqb (w (behind p)) (w (ahead p))).

(** Try [n], [n - 1], ..., [min] characters. *)
Fixpoint try_down (n min : nat) (p : pos) (k : pos → option R) : option R :=
  match k (advance n p) with
  | Some x => Some x
  | None => match n with
            | S n' => if (n <=? min)%nat then None else try_down n' min p k
            | O => None
            end
  end.

Fixpoint run (r : re) (p : pos) (k : pos → option R) : option R :=
  match r with
  | REps => k p
  | RChar f => match ahead p with
               | c :: _ => if f c then k (advance 1 p) else None
               | [] => None
               end
  | RRep f min max =>
      let n := span f (ahead p) in
      let n := match max with Some m => Nat.min n m | None => n end in
      if (min <=? n)%nat then try_down n min p k else None
  | RSeq r1 r2 => run r1 p (λ p', run r2 p' k)
  | RAlt r1 r2 => match run r1 p k with Some x => Some x | None => run r2 p k end
  | ROpt r => match run r p k with Some x => Some x | None => k p end
  | RGroup n r =>
      run r p (λ p', k (Pos (behind p') (ahead p')
        ((n, take (length (ahead p) - length (ahead p')) (ahead p)) :: caps p')))
  | RNotBehind f => match behind p with
                    | c :: _ => if f c then None else k p
                    | [] => k p
                    end
  | RNotAhead f => match ahead p with
                   | c :: _ => if f c then None else k p
                   | [] => k p
                   end
  | RBoundary => if boundary p then k p else None
  | RBegin => match behind p with [] => k p | _ => None end
  end.
End matcher.

(** ** What a match is, independently of the search order *)

Section spec.
Context {UT : UnicodeTables}.

Inductive matches : re → pos → pos → Prop :=
| M_eps p : matches REps p p
| M_char f p c s : ahead p = c :: s → f c = true → matches (RChar f) p (advance 1 p)
| M_rep f min max p n :
    (min ≤ n)%nat → (n ≤ span f (ahead p))%nat →
    (∀ m, max = Some m → n ≤ m)%nat → matches (RRep f min max) p (advance n p)
| M_seq r1 r2 p p1 p2 :
    matches r1 p p1 → matches r2 p1 p2 → matches (RSeq r1 r2) p p2
| M_alt_l r1 r2 p p' : matches r1 p p' → matches (RAlt r1 r2) p p'
| M_alt_r r1 r2 p p' : matches r2 p p' → matches (RAlt r1 r2) p p'
| M_opt_some r p p' : matches r p p' → matches (ROpt r) p p'
| M_opt_none r p : matches (ROpt r) p p
| M_group n r p p' :
    matches r p p' →
    matches (RGroup n r) p (Pos (behind p') (ahead p')
      ((n, take (length (ahead p) - length (ahead p')) (ahead p)) :: caps p'))
| M_not_behind f p :
    (∀ c s, behind p = c :: s → f c = false) → matches (RNotBehind f) p p
| M_not_ahead f p :
    (∀ c s, ahead p = c :: s → f c = false) → matches (RNotAhead f) p p
| M_boundary p : boundary p = true → matches RBoundary p p
| M_begin p : behind p = [] → matches RBegin p p.

Context {R : Type}.
Implicit Type k : pos → option R.

Lemma try_down_sound n min p k x :
  (min ≤ n)%nat → try_down n min p k = Some x →
  ∃ m, (min ≤ m ≤ n)%nat ∧ k (advance m p) = Some x.
Proof.
  revert min. induction n as [|n IH]; intros min Hmin H; cbn [try_down] in H.
  - destruct (k (advance 0 p)) eqn:Hk; [|done]. exists 0%nat. split; [lia|congruence].
  - destruct (k (advance (S n) p)) eqn:Hk.
    + exists (S n). split; [lia|congruence].
    + destruct (S n <=? min)%nat eqn:Hle; [done|]. apply Nat.leb_gt in Hle.
      destruct (IH min) as (m & ? & ?); [lia|done|]. exists m. split; [lia|done].
Qed.

Lemma try_down_complete n min p k m :
  (min ≤ m ≤ n)%nat → is_Some (k (advance m p)) → is_Some (try_down n min p k).
Proof.
  induction n as [|n IH]; intros Hm Hk; cbn [try_down].
  - replace m with 0%nat in Hk by lia. destruct Hk as [x ->]. eauto.
  - destruct (k (advance (S n) p)) eqn:Hk'; [eauto|].
    destruct (decide (m = S n)) as [->|]; [rewrite Hk' in Hk; by destruct Hk|].
    destruct (S n <=? min)%nat eqn:Hle; [apply Nat.leb_le in Hle; lia|].
    apply IH; [lia|done].
Qed.

(** Whatever the matcher accepts is a match. *)
Lemma run_sound r p k x :
  run r p k = Some x → ∃ p', matches r p p' ∧ k p' = Some x.
Proof.
  revert p k. induction r as [|f|f min max|r1 IH1 r2 IH2|r1 IH1 r2 IH2|r IH|n r IH|f|f| |];
    intros p k H; cbn in H.
  - eauto using M_eps.
  - destruct (ahead p) as [|c s] eqn:Ha; [done|]. destruct (f c) eqn:Hf; [|done].
    eauto using M_char.
  - destruct (min <=? _)%nat eqn:Hle; [|done]. apply Nat.leb_le in Hle.
    apply try_down_sound in H as (m & Hm & Hk); [|done].
    exists (advance m p). split; [|done].
    constructor; [lia| |intros m' ->; lia]. destruct max; lia.
  - apply IH1 in H as (p1 & Hm1 & H). apply IH2 in H as (p2 & Hm2 & H).
    eauto using M_seq.
  - destruct (run r1 p k) eqn:H1.
    + injection H as ->. apply IH1 in H1 as (p' & ? & ?). eauto using M_alt_l.
    + apply IH2 in H as (p' & ? & ?). eauto using M_alt_r.
  - destruct (run r p k) eqn:H1.
    + injection H as ->. apply IH in H1 as (p' & ? & ?). eauto using M_opt_some.
    + eauto using M_opt_none.
  - apply IH in H as (p' & Hm & H). eauto using M_group.
  - destruct (behind p) as [|c s] eqn:Hb.
    + exists p. split; [constructor; congruence|done].
    + destruct (f c) eqn:Hf; [done|]. exists p. split; [constructor; congruence|done].
  - destruct (ahead p) as [|c s] eqn:Hb.
    + exists p. split; [constructor; congruence|done].
    + destruct (f c) eqn:Hf; [done|]. exists p. split; [constructor; congruence|done].
  - destruct (boundary p) eqn:Hb; [|done]. eauto using M_boundary.
  - destruct (behind p) eqn:Hb; [|done]. eauto using M_begin.
Qed.

(** And the matcher gives up only when no match satisfies the continuation. *)
Lemma run_complete r p p' k :
  matches r p p' → is_Some (k p') → is_Some (run r p k).
Proof.
  intros Hm. revert k. induction Hm as
    [p|f p c s Ha Hf|f min max p n Hmin Hn Hmax|r1 r2 p p1 p2 _ IH1 _ IH2
    |r1 r2 p p' _ IH|r1 r2 p p' _ IH|r p p' _ IH|r p|n r p p' _ IH|f p Hb|f p Hb
    |p Hb|p Hb]; intros k Hk; cbn.
  - done.
  - by rewrite Ha, Hf.
  - assert (n ≤ match max with Some m => Nat.min (span f (ahead p)) m
                | None => span f (ahead p) end)%nat.
    { destruct max as [m|]; [specialize (Hmax m eq_refl)|]; lia. }
    rewrite (proj2 (Nat.leb_le _ _)) by lia.
    apply try_down_complete with n; [lia|done].
  - apply IH1. by apply IH2.
  - destruct (IH k Hk) as [x ->]. eauto.
  - destruct (run r1 p k); eauto.
  - destruct (IH k Hk) as [x ->]. eauto.
  - destruct (run r p k); eauto.
  - by apply IH.
  - destruct (behind p) as [|c s] eqn:E; [done|]. by rewrite (Hb c s).
  - destruct (ahead p) as [|c s] eqn:E; [done|]. by rewrite (Hb c s).
  - by rewrite Hb.
  - by rewrite Hb.
Qed.
End spec.

(** ** The functions of the [re] module *)

Section functions.
Context {UT : UnicodeTables}.

Definition start_pos (before s : pystr) : pos := Pos before s [].

(** A match object: the text before it (reversed), the matched text, the text
    after it, and the groups. *)
Record match_obj := Match {
  m_before : pystr; m_text : pystr; m_after : pystr; m_caps : list (nat * pystr) }.

Definition match_here (r : re) (before s : pystr) : option match_obj :=
  run r (start_pos before s) (λ p,
    Some (Match before (take (length s - length (ahead p)) s) (ahead p) (caps p))).

(** [m.group(n)], [None] for a group that took no part in the match. *)
Definition group (m : match_obj) (n : nat) : option pystr :=
  match filter (λ c, c.1 = n) (m_caps m) with
  | (_, s) :: _ => Some s
  | [] => None
  end.
(** As [re.findall] reports it: an unmatched group is the empty string. *)
Definition group_str (m : match_obj) (n : nat) : pystr := default [] (group m n).

Fixpoint search_from (r : re) (before s : pystr) : option match_obj :=
  match match_here r before s with
  | Some m => Some m
  | None => match s with
            | c :: s' => search_from r (c :: before) s'
            | [] => None
            end
  end.
(** [re.search(r, s)]. *)
Definition search (r : re) (s : pystr) : option match_obj := search_from r [] s.
Definition found (r : re) (s : pystr) : bool :=
  match search r s with Some _ => true | None => false end.

(** [re.finditer(r, s)] for an expression that matches at least one character:
    the scan resumes where a match ended.  [fuel] bounds the positions tried. *)
Fixpoint finditer_fuel (fuel : nat) (r : re) (before s : pystr) : list match_obj :=
  match fuel with
  | O => []
  | S fuel' =>
      match match_here r before s with
      | Some m =>
          match m_text m with
          | [] => match s with
                  | c :: s' => finditer_fuel fuel' r (c :: before) s'
                  | [] => []
                  end
          | t => m :: finditer_fuel fuel' r (rev t ++ before) (m_after m)
          end
      | None => match s with
                | c :: s' => finditer_fuel fuel' r (c :: before) s'
                | [] => []
                end
      end
  end.
Definition finditer (r : re) (s : pystr) : list match_obj :=
  finditer_fuel (S (length s)) r [] s.

(** [re.sub(r, repl, s)]; [repl] is the expansion of the template at a match. *)
Fixpoint sub_fuel (fuel : nat) (r : re) (repl : match_obj → pystr)
    (before s : pystr) : pystr :=
  match fuel with
  | O => s
  | S fuel' =>
      let skip := match s with
                  | c :: s' => c :: sub_fuel fuel' r repl (c :: before) s'
                  | [] => []
                  end in
      match match_here r before s with
      | Some m =>
          match m_text m with
          | [] => skip
          | t => repl m ++ sub_fuel fuel' r repl (rev t ++ before) (m_after m)
          end
      | None => skip
      end
  end.
Definition sub (r : re) (repl : match_obj → pystr) (s : pystr) : pystr :=
  sub_fuel (S (length s)) r repl [] s.

(** [re.fullmatch(r, s)]. *)
Definition fullmatch (r : re) (s : pystr) : bool :=
  match run r (start_pos [] s) (λ p, match ahead p with [] => Some tt | _ => None end)
  with Some _ => true | None => false end.

(** A search succeeds exactly when some position admits a match. *)
Lemma search_from_spec r before s :
  is_Some (search_from r before s) ↔
  ∃ pre post p', s = pre ++ post ∧
    matches r (start_pos (rev pre ++ before) post) p'.
Proof.
  revert before. induction s as [|c s IH]; intros before; cbn [search_from].
  - split.
    + destruct (match_here r before []) eqn:E; [|intros [? [=]]]. intros _.
      apply run_sound in E as (p' & Hm & _). by exists [], [], p'.
    + intros (pre & post & p' & Heq & Hm). symmetry in Heq.
      apply app_eq_nil in Heq as [-> ->].
      destruct (match_here r before []) eqn:E; [eauto|].
      eapply (run_complete _ _ _ (λ p, Some _)) in Hm; [|eauto].
      unfold match_here in E. cbn in Hm. rewrite E in Hm. by destruct Hm.
  - destruct (match_here r before (c :: s)) eqn:E.
    + split; [intros _|eauto]. apply run_sound in E as (p' & Hm & _).
      by exists [], (c :: s), p'.
    + rewrite IH. split.
      * intros (pre & post & p' & -> & Hm). exists (c :: pre), post, p'.
        split; [done|]. cbn. by rewrite <- app_assoc.
      * intros ([|d pre] & post & p' & Heq & Hm); cbn in Heq.
        -- subst post. eapply (run_complete _ _ _ (λ p, Some _)) in Hm; [|eauto].
           unfold match_here in E. cbn in Hm. rewrite E in Hm. by destruct Hm.
        -- injection Heq as -> ->. exists pre, post, p'. split; [done|].
           cbn in Hm. by rewrite <- app_assoc in Hm.
Qed.
End functions.

(** ** Character classes and literals *)

Definition ch (c : Z) : Z → bool := λ d, d =? c.
Definition one_of (s : pystr) : Z → bool := λ d, existsb (Z.eqb d) s.
Definition none_of (f : Z → bool) : Z → bool := λ d, negb (f d).
Definition range (lo hi : Z) : Z → bool := λ d, (lo <=? d) && (d <=? hi).
Definition either (f g : Z → bool) : Z → bool := λ d, f d || g d.

(** A letter under [re.I]: ASCII case folds, and three letters have extra
    partners in Unicode. *)
Definition ci (c : Z) : Z → bool := λ d,
  let c := ascii_lower_char c in
  (ascii_lower_char d =? c)
  || ((c =? 105) && ((d =? 304) || (d =? 305)))
  || ((c =? 107) && (d =? 8490)) || ((c =? 115) && (d =? 383)).

Fixpoint lit_by (f : Z → Z → bool) (s : pystr) : re :=
  match s with
  | [] => REps
  | [c] => RChar (f c)
  | c :: s' => RSeq (RChar (f c)) (lit_by f s')
  end.
(** A literal, and a literal under [re.I]. *)
Definition lit (s : string) : re := lit_by ch (u s).
Definition lit_i (s : string) : re := lit_by ci (u s).

Fixpoint alts (rs : list re) : re :=
  match rs with
  | [] => RChar (λ _, false)
  | [r] => r
  | r :: rs' => RAlt r (alts rs')
  end.
Fixpoint seqs (rs : list re) : re :=
  match rs with
  | [] => REps
  | [r] => r
  | r :: rs' => RSeq r (seqs rs')
  end.

Definition plus (f : Z → bool) : re := RRep f 1 None.
Definition star (f : Z → bool) : re := RRep f 0 None.
Definition times (f : Z → bool) (lo hi : nat) : re := RRep f lo (Some hi).
