(* ===== verification/Json.v ===== *)
(** * JSON values as Python holds them

    What [json.loads] returns and [json.dumps] prints: [None], booleans,
    integers, floats, strings, lists and dicts with string keys in insertion
    order.  A float is represented by its [repr].  The operators raise what the
    Python operators raise on a value of the wrong type. *)
From S2P Require Import Prelude.
From S2P Require Import PyStr.

#[warnings="-register-all"]
Inductive json :=
| JNull
| JBool (b : bool)
| JInt (z : Z)
| JFloat (r : pystr)
| JStr (s : pystr)
| JList (l : list json)
| JObj (kvs : list (pystr * json)).

Definition js (s : string) : json := JStr (u s).

(** ** Induction and decidable equality *)

Section json_ind.
Variable P : json → Prop.
Hypothesis HNull : P JNull.
Hypothesis HBool : ∀ b, P (JBool b).
Hypothesis HInt : ∀ z, P (JInt z).
Hypothesis HFloat : ∀ r, P (JFloat r).
Hypothesis HStr : ∀ s, P (JStr s).
Hypothesis HList : ∀ l, Forall P l → P (JList l).
Hypothesis HObj : ∀ kvs, Forall (λ kv, P kv.2) kvs → P (JObj kvs).

Fixpoint json_ind' (v : json) : P v :=
  match v with
  | JNull => HNull
  | JBool b => HBool b
  | JInt z => HInt z
  | JFloat r => HFloat r
  | JStr s => HStr s
  | JList l => HList l ((fix go l : Forall P l :=
      match l with
      | [] => Forall_nil_2 _
      | v :: l' => Forall_cons_2 _ _ _ (json_ind' v) (go l')
      end) l)
  | JObj kvs => HObj kvs ((fix go l : Forall (λ kv : pystr * json, P kv.2) l :=
      match l with
      | [] => Forall_nil_2 _
      | kv :: l' => Forall_cons_2 _ _ _ (json_ind' kv.2) (go l')
      end) kvs)
  end.
End json_ind.

(** Structural equality, key order included: the decision procedure behind [=]. *)
Fixpoint json_eqb (v w : json) : bool :=
  match v, w with
  | JNull, JNull => true
  | JBool b, JBool c => Bool.eqb b c
  | JInt x, JInt y => x =? y
  | JFloat r, JFloat t | JStr r, JStr t => bool_decide (r = t)
  | JList l, JList m =>
      (fix go l m := match l, m with
        | [], [] => true
        | v :: l', w :: m' => json_eqb v w && go l' m'
        | _, _ => false
        end) l m
  | JObj l, JObj m =>
      (fix go l m := match l, m with
        | [], [] => true
        | (k, v) :: l', (k', w) :: m' =>
            bool_decide (k = k') && json_eqb v w && go l' m'
        | _, _ => false
        end) l m
  | _, _ => false
  end.

Lemma json_eqb_eq v w : json_eqb v w = true ↔ v = w.
Proof.
  revert w. induction v as [|b|x|r|s|l IH|kvs IH] using json_ind'; intros w;
    destruct w as [|b'|x'|r'|s'|l'|kvs']; cbn; try done.
  - rewrite Bool.eqb_true_iff. split; congruence.
  - rewrite Z.eqb_eq. split; congruence.
  - rewrite bool_decide_eq_true. split; congruence.
  - rewrite bool_decide_eq_true. split; congruence.
  - transitivity (l = l'); [|split; congruence]. revert l'.
    induction IH as [|v l Hv _ IH]; intros [|w l']; try done.
    rewrite andb_true_iff, Hv, IH. intuition congruence.
  - transitivity (kvs = kvs'); [|split; congruence]. revert kvs'.
    induction IH as [|[k v] l Hv _ IH]; intros [|[k' w] l']; try done.
    cbn in Hv. rewrite !andb_true_iff, bool_decide_eq_true, Hv, IH. intuition congruence.
Qed.

#[export] Instance json_eq_dec : EqDecision json.
Proof.
  refine (λ v w, match json_eqb v w as b return json_eqb v w = b → _ with
    | true => λ H, left _ | false => λ H, right _ end eq_refl).
  - by apply json_eqb_eq.
  - intros ->. by rewrite (proj2 (json_eqb_eq w w)) in H.
Defined.

(** ** Dicts *)

Fixpoint assoc {A} (k : pystr) (l : list (pystr * A)) : option A :=
  match l with
  | [] => None
  | (k', v) :: l' => if str_eqb k k' then Some v else assoc k l'
  end.

(** [d[k] = v]: in place when the key is there, at the end otherwise. *)
Fixpoint assoc_set {A} (k : pystr) (v : A) (l : list (pystr * A)) : list (pystr * A) :=
  match l with
  | [] => [(k, v)]
  | (k', v') :: l' => if str_eqb k k' then (k', v) :: l' else (k', v') :: assoc_set k v l'
  end.

Definition assoc_del {A} (k : pystr) (l : list (pystr * A)) : list (pystr * A) :=
  filter (λ kv, kv.1 ≠ k) l.

Lemma assoc_elem_of {A} k (v : A) l : assoc k l = Some v → (k, v) ∈ l.
Proof.
  induction l as [|[k' v'] l IH]; cbn; [done|]. unfold str_eqb. case_bool_decide.
  - intros [= ->]. subst. apply list_elem_of_here.
  - intros H'. by apply list_elem_of_further, IH.
Qed.

Lemma assoc_set_same {A} k (v : A) l : assoc k (assoc_set k v l) = Some v.
Proof.
  induction l as [|[k' v'] l IH]; cbn; unfold str_eqb in *.
  - by rewrite bool_decide_true.
  - case_bool_decide; cbn; unfold str_eqb.
    + by rewrite bool_decide_true.
    + by rewrite bool_decide_false.
Qed.

Lemma assoc_set_other {A} k k' (v : A) l :
  k ≠ k' → assoc k (assoc_set k' v l) = assoc k l.
Proof.
  intros Hk. induction l as [|[k1 v1] l IH]; cbn; unfold str_eqb in *.
  - by rewrite bool_decide_false.
  - case_bool_decide; cbn; unfold str_eqb; [|by rewrite IH].
    subst. by rewrite !bool_decide_false.
Qed.

Definition keys {A} (l : list (pystr * A)) : list pystr := fst <$> l.

Definition attr_error : exn := exn_of AttributeError "object has no attribute".
Definition type_error : exn := exn_of TypeError "unsupported operand".

(** [v.get(k)], [v.get(k, default)]. *)
Definition jget_or (d : json) (k : string) (v : json) : result json :=
  match v with
  | JObj kvs => Ok (default d (assoc (u k) kvs))
  | _ => Raise attr_error
  end.
Definition jget : string → json → result json := jget_or JNull.

(** A dict display with string keys. *)
Definition dict (kvs : list (string * json)) : json := JObj ((λ kv, (u kv.1, kv.2)) <$> kvs).

(** [v[k]] for a string [k]. *)
Definition jindex (k : string) (v : json) : result json :=
  match v with
  | JObj kvs => match assoc (u k) kvs with
                | Some w => Ok w
                | None => Raise (Exn KeyError (u k))
                end
  | _ => Raise type_error
  end.

(** [v[k] = w]. *)
Definition jset (k : string) (w v : json) : result json :=
  match v with
  | JObj kvs => Ok (JObj (assoc_set (u k) w kvs))
  | _ => Raise type_error
  end.

(** [for x in v]. *)
Definition jiter (v : json) : result (list json) :=
  match v with
  | JList l => Ok l
  | JObj kvs => Ok (JStr <$> keys kvs)
  | JStr s => Ok ((λ c, JStr [c]) <$> s)
  | _ => Raise type_error
  end.

(** [len(v)]. *)
Definition jlen (v : json) : result Z :=
  match v with
  | JList l => Ok (len l)
  | JObj kvs => Ok (len kvs)
  | JStr s => Ok (len s)
  | _ => Raise type_error
  end.

(** A pydantic [str] field, or a use that needs a string. *)
Definition jstr (v : json) : result pystr :=
  match v with
  | JStr s => Ok s
  | _ => Raise (exn_of ValidationError "Input should be a valid string")
  end.

(** [bool(v)]: a float is falsy when it prints as a zero. *)
Definition truthy (v : json) : bool :=
  match v with
  | JNull => false
  | JBool b => b
  | JInt z => negb (z =? 0)
  | JFloat r => negb (mem r [u "0.0"; u "-0.0"])
  | JStr s => negb (str_eqb s [])
  | JList l => match l with [] => false | _ => true end
  | JObj kvs => match kvs with [] => false | _ => true end
  end.

(** [v == w]: a boolean equals the integer it is, a float equals the integer it
    prints as, and dicts compare without regard to key order. *)
Definition num_eqb (v w : json) : option bool :=
  let int_of v := match v with
    | JBool true => Some 1 | JBool false => Some 0 | JInt z => Some z | _ => None end in
  match int_of v, int_of w, v, w with
  | Some x, Some y, _, _ => Some (x =? y)
  | Some x, None, _, JFloat r | None, Some x, JFloat r, _ =>
      Some (str_eqb r (str_of_Z x ++ u ".0"))
  | _, _, _, _ => None
  end.

Fixpoint py_eqb (v w : json) : bool :=
  match num_eqb v w with
  | Some b => b
  | None =>
      match v, w with
      | JNull, JNull => true
      | JFloat r, JFloat t | JStr r, JStr t => str_eqb r t
      | JList l, JList m =>
          (fix go l m := match l, m with
            | [], [] => true
            | v :: l', w :: m' => py_eqb v w && go l' m'
            | _, _ => false
            end) l m
      | JObj l, JObj m =>
          (length l =? length m)%nat &&
          (fix go l := match l with
            | [] => true
            | (k, v) :: l' =>
                match assoc k m with Some w => py_eqb v w | None => false end && go l'
            end) l
      | _, _ => false
      end
  end.

Lemma py_eqb_str v i : py_eqb v (JStr i) = true → v = JStr i.
Proof.
  destruct v as [|[]| | | | |]; cbn; try done. unfold str_eqb.
  intros H%bool_decide_eq_true. by subst.
Qed.

(** [int(v)]; [trunc] is what [int] makes of a float, which may be infinite. *)
Definition py_int (trunc : pystr → result Z) (v : json) : result Z :=
  match v with
  | JInt z => Ok z
  | JBool b => Ok (if b then 1 else 0)
  | JFloat r => trunc r
  | JStr s => int_of_str s
  | _ => Raise type_error
  end.

(** [hash(v)] exists: lists and dicts are unhashable. *)
Definition hashable (v : json) : bool :=
  match v with JList _ | JObj _ => false | _ => true end.

(** [str(v)]; the [repr] of a list or a dict is the interpreter's. *)
Definition py_str (container_repr : json → pystr) (v : json) : pystr :=
  match v with
  | JNull => u "None"
  | JBool true => u "True"
  | JBool false => u "False"
  | JInt z => str_of_Z z
  | JFloat r => r
  | JStr s => s
  | _ => container_repr v
  end.

(** ** [json.dumps] *)

Definition hex_digit (n : Z) : Z := if n <? 10 then 48 + n else 87 + n.
Definition hex4 (n : Z) : pystr :=
  [hex_digit (n / 4096 mod 16); hex_digit (n / 256 mod 16);
   hex_digit (n / 16 mod 16); hex_digit (n mod 16)].
Definition u_escape (n : Z) : pystr := 92 :: 117 :: hex4 n.

(** One character of a string literal. *)
Definition escape_char (ensure_ascii : bool) (c : Z) : pystr :=
  if c =? 34 then [92; 34]
  else if c =? 92 then [92; 92]
  else if c =? 10 then [92; 110]
  else if c =? 13 then [92; 114]
  else if c =? 9 then [92; 116]
  else if c =? 12 then [92; 102]
  else if c =? 8 then [92; 98]
  else if c <? 32 then u_escape c
  else if negb ensure_ascii || (c <? 127) then [c]
  else if c <? 65536 then u_escape c
  else u_escape (55296 + (c - 65536) / 1024)
         ++ u_escape (56320 + (c - 65536) mod 1024).

Definition dump_str (ensure_ascii : bool) (s : pystr) : pystr :=
  34 :: concat (escape_char ensure_ascii <$> s) ++ [34].

Definition key_leb {A} (x y : pystr * A) : bool := str_leb x.1 y.1.

Section dumps.
Variables (ensure_ascii sort_keys : bool).

(** The items of a list or dict, printed, between brackets. *)
Definition dump_seq (l r : Z) (items : list pystr) : pystr :=
  l :: join (u ", ") items ++ [r].

Definition dump_items (items : list (pystr * pystr)) : list pystr :=
  (λ kv, dump_str ensure_ascii kv.1 ++ u ": " ++ kv.2) <$>
    (if sort_keys then sort_by key_leb items else items).

(** [json.dumps(v, ensure_ascii=..., sort_keys=...)]. *)
Fixpoint dumps (v : json) : pystr :=
  match v with
  | JNull => u "null"
  | JBool true => u "true"
  | JBool false => u "false"
  | JInt z => str_of_Z z
  | JFloat r => r
  | JStr s => dump_str ensure_ascii s
  | JList l => dump_seq 91 93 (map dumps l)
  | JObj kvs => dump_seq 123 125 (dump_items (map (λ kv, (kv.1, dumps kv.2)) kvs))
  end.
End dumps.
