(* ===== verification/JsonParse.v ===== *)
(** * Reading JSON, and base64

    [json.loads] on text and on bytes as CPython's scanner reads it, and the
    URL-safe base64 codec, with their round trips: what the program prints it
    reads back. *)
From S2P Require Import Prelude.
From S2P Require Import PyStr.
From S2P Require Import Json.
From Stdlib Require Import DecimalPos DecimalZ.

Definition json_error : exn := exn_of JSONDecodeError "Expecting value".

(** What the interpreter's C code computes: the [repr] of the double nearest to a
    decimal literal, and the UTF-16 and UTF-32 codecs. *)
Class JsonRuntime := {
  float_repr : pystr → pystr;
  wide_decode : list Z → result pystr;
}.

(** For concrete runs: literals in shortest form, and no wide encodings. *)
Definition PlainJson : JsonRuntime :=
  {| float_repr := id; wide_decode _ := Raise (exn_of ValueError "truncated data") |}.

(** ** Scanning *)

Definition is_ws (c : Z) : bool := (c =? 32) || (c =? 9) || (c =? 10) || (c =? 13).

Fixpoint skip_ws (s : pystr) : pystr :=
  match s with
  | c :: s' => if is_ws c then skip_ws s' else s
  | [] => []
  end.

Definition hex_value (c : Z) : option Z :=
  if (48 <=? c) && (c <=? 57) then Some (c - 48)
  else if (97 <=? c) && (c <=? 102) then Some (c - 87)
  else if (65 <=? c) && (c <=? 70) then Some (c - 55)
  else None.

Definition hex4_value (a b c d : Z) : option Z :=
  match hex_value a, hex_value b, hex_value c, hex_value d with
  | Some a, Some b, Some c, Some d => Some (a * 4096 + b * 256 + c * 16 + d)
  | _, _, _, _ => None
  end.

Definition is_high (n : Z) : bool := (55296 <=? n) && (n <=? 56319).
Definition is_low (n : Z) : bool := (56320 <=? n) && (n <=? 57343).

Definition push {A B} (c : A) (r : result (list A * B)) : result (list A * B) :=
  match r with Ok (s, rest) => Ok (c :: s, rest) | Raise e => Raise e end.

(** The character a one-letter escape stands for. *)
Definition simple_escape (e : Z) : option Z :=
  if e =? 34 then Some 34 else if e =? 92 then Some 92 else if e =? 47 then Some 47
  else if e =? 98 then Some 8 else if e =? 102 then Some 12
  else if e =? 110 then Some 10 else if e =? 114 then Some 13
  else if e =? 116 then Some 9 else None.

(** The rest of a string literal after its opening quote, and what follows it. *)
Fixpoint scan_str (s : pystr) : result (pystr * pystr) :=
  match s with
  | [] => Raise json_error
  | c :: s1 =>
      if c =? 34 then Ok ([], s1)
      else if c =? 92 then
        match s1 with
        | [] => Raise json_error
        | e :: s2 =>
            if e =? 117 then
              match s2 with
              | h1 :: h2 :: h3 :: h4 :: s3 =>
                  match hex4_value h1 h2 h3 h4 with
                  | None => Raise json_error
                  | Some n =>
                      if is_high n then
                        match s3 with
                        | b :: v :: k1 :: k2 :: k3 :: k4 :: s4 =>
                            if (b =? 92) && (v =? 117) then
                              match hex4_value k1 k2 k3 k4 with
                              | None => Raise json_error
                              | Some m =>
                                  if is_low m
                                  then push (65536 + (n - 55296) * 1024 + (m - 56320))
                                         (scan_str s4)
                                  else push n (scan_str s3)
                              end
                            else push n (scan_str s3)
                        | _ => push n (scan_str s3)
                        end
                      else push n (scan_str s3)
                  end
              | _ => Raise json_error
              end
            else match simple_escape e with
                 | Some c' => push c' (scan_str s2)
                 | None => Raise json_error
                 end
        end
      else if c <? 32 then Raise json_error
      else push c (scan_str s1)
  end.

Definition ascii_digit (c : Z) : bool := (48 <=? c) && (c <=? 57).

Fixpoint span_digits (s : pystr) : pystr * pystr :=
  match s with
  | c :: s' => if ascii_digit c then let '(d, r) := span_digits s' in (c :: d, r)
               else ([], s)
  | [] => ([], [])
  end.

(** The integer part: a zero, or digits that do not start with one. *)
Definition scan_int_part (s : pystr) : option (pystr * pystr) :=
  match s with
  | c :: s' => if c =? 48 then Some ([c], s')
               else if ascii_digit c then Some (span_digits s) else None
  | [] => None
  end.

(** The fraction and the exponent, empty when they are not there. *)
Definition scan_frac (s : pystr) : pystr * pystr :=
  match s with
  | c :: s' =>
      if c =? 46 then
        match span_digits s' with ([], _) => ([], s) | (d, r) => (c :: d, r) end
      else ([], s)
  | [] => ([], [])
  end.

Definition scan_exp (s : pystr) : pystr * pystr :=
  match s with
  | c :: s' =>
      if (c =? 101) || (c =? 69) then
        let '(sign, t) := match s' with
          | g :: t => if (g =? 43) || (g =? 45) then ([g], t) else ([], s')
          | [] => ([], s')
          end in
        match span_digits t with ([], _) => ([], s) | (d, r) => (c :: sign ++ d, r) end
      else ([], s)
  | [] => ([], [])
  end.

(** [int()] refuses more than this many digits. *)
Definition max_str_digits : Z := 4300.

Definition digits_value (d : pystr) : Z := foldl (λ acc c, acc * 10 + (c - 48)) 0 d.

Section loads.
Context {JR : JsonRuntime}.

Definition scan_number (s : pystr) : result (json * pystr) :=
  let '(neg, t) := match s with
    | c :: t => if c =? 45 then (true, t) else (false, s)
    | [] => (false, s)
    end in
  match scan_int_part t with
  | None => Raise json_error
  | Some (d, r) =>
      let '(f, r1) := scan_frac r in
      let '(e, r2) := scan_exp r1 in
      match f, e with
      | [], [] =>
          if max_str_digits <? len d
          then Raise (exn_of ValueError "Exceeds the limit for integer string conversion")
          else Ok (JInt (if neg then - digits_value d else digits_value d), r2)
      | _, _ => Ok (JFloat (float_repr ((if neg then [45] else []) ++ d ++ f ++ e)), r2)
      end
  end.

(** The literals, longest first where one is a prefix of another. *)
Definition literals : list (pystr * json) :=
  [(u "null", JNull); (u "true", JBool true); (u "false", JBool false);
   (u "NaN", JFloat (u "nan")); (u "Infinity", JFloat (u "inf"));
   (u "-Infinity", JFloat (u "-inf"))].

Definition scan_literal (s : pystr) : option (json * pystr) :=
  match filter (λ l, startswith l.1 s = true) literals with
  | (p, v) :: _ => Some (v, drop (length p) s)
  | [] => None
  end.

(** One value; [n] bounds the nesting and the items together. *)
Fixpoint scan (n : nat) (s : pystr) {struct n} : result (json * pystr) :=
  match n with
  | O => Raise json_error
  | S n' =>
      match s with
      | [] => Raise json_error
      | c :: t =>
          if c =? 34 then
            match scan_str t with Ok (v, r) => Ok (JStr v, r) | Raise e => Raise e end
          else if c =? 123 then
            match skip_ws t with
            | [] => Raise json_error
            | d :: r => if d =? 125 then Ok (JObj [], r) else scan_pairs n' [] (d :: r)
            end
          else if c =? 91 then
            match skip_ws t with
            | [] => Raise json_error
            | d :: r => if d =? 93 then Ok (JList [], r) else scan_items n' [] (d :: r)
            end
          else match scan_literal s with
               | Some x => Ok x
               | None => scan_number s
               end
      end
  end
with scan_items (n : nat) (acc : list json) (s : pystr) {struct n}
    : result (json * pystr) :=
  match n with
  | O => Raise json_error
  | S n' =>
      match scan n' s with
      | Raise e => Raise e
      | Ok (v, r) =>
          match skip_ws r with
          | d :: r' =>
              if d =? 93 then Ok (JList (acc ++ [v]), r')
              else if d =? 44 then scan_items n' (acc ++ [v]) (skip_ws r')
              else Raise json_error
          | [] => Raise json_error
          end
      end
  end
with scan_pairs (n : nat) (acc : list (pystr * json)) (s : pystr) {struct n}
    : result (json * pystr) :=
  match n with
  | O => Raise json_error
  | S n' =>
      match s with
      | [] => Raise json_error
      | q :: t =>
          if negb (q =? 34) then Raise json_error else
          match scan_str t with
          | Raise e => Raise e
          | Ok (k, r) =>
              match skip_ws r with
              | [] => Raise json_error
              | d :: r1 =>
                  if negb (d =? 58) then Raise json_error else
                  match scan n' (skip_ws r1) with
                  | Raise e => Raise e
                  | Ok (v, r2) =>
                      match skip_ws r2 with
                      | d :: r' =>
                          if d =? 125 then Ok (JObj (assoc_set k v acc), r')
                          else if d =? 44
                          then scan_pairs n' (assoc_set k v acc) (skip_ws r')
                          else Raise json_error
                      | [] => Raise json_error
                      end
                  end
              end
          end
      end
  end.

(** Every call consumes a character or opens a value, so twice the length is
    enough. *)
Definition scan_fuel (s : pystr) : nat := 2 * length s + 2.

(** [json.loads(s)] for a [str]. *)
Definition loads (s : pystr) : result json :=
  if startswith [65279] s then Raise json_error else
  let t := skip_ws s in
  match scan (scan_fuel t) t with
  | Raise e => Raise e
  | Ok (v, r) => match skip_ws r with [] => Ok v | _ => Raise json_error end
  end.

End loads.

(** ** Decoding bytes *)

(** UTF-8 with [surrogatepass]. *)
Definition tail_byte (b : Z) : bool := (128 <=? b) && (b <=? 191).
Definition decode_error : exn := exn_of ValueError "invalid start byte".

Fixpoint utf8_read (bs : list Z) : result pystr :=
  match bs with
  | [] => Ok []
  | a :: t =>
      if a <? 128 then match utf8_read t with Ok s => Ok (a :: s) | Raise e => Raise e end
      else match t with
      | b :: t =>
          if negb (tail_byte b) then Raise decode_error
          else if (194 <=? a) && (a <=? 223)
          then match utf8_read t with
               | Ok s => Ok (((a - 192) * 64 + (b - 128)) :: s) | Raise e => Raise e end
          else match t with
          | c :: t =>
              if negb (tail_byte c) then Raise decode_error
              else if (224 <=? a) && (a <=? 239) && (negb (a =? 224) || (160 <=? b))
              then match utf8_read t with
                   | Ok s => Ok (((a - 224) * 4096 + (b - 128) * 64 + (c - 128)) :: s)
                   | Raise e => Raise e end
              else match t with
              | d :: t =>
                  if tail_byte d && (240 <=? a) && (a <=? 244)
                     && (negb (a =? 240) || (144 <=? b)) && (negb (a =? 244) || (b <=? 143))
                  then match utf8_read t with
                       | Ok s => Ok (((a - 240) * 262144 + (b - 128) * 4096
                                      + (c - 128) * 64 + (d - 128)) :: s)
                       | Raise e => Raise e end
                  else Raise decode_error
              | [] => Raise decode_error
              end
          | [] => Raise decode_error
          end
      | [] => Raise decode_error
      end
  end.

(** [json.detect_encoding(b)] is not UTF-8. *)
Definition is_wide (bs : list Z) : bool :=
  startswith [0; 0; 254; 255] bs || startswith [255; 254] bs || startswith [254; 255] bs
  || match bs with
     | [b0; b1] => (b0 =? 0) || (b1 =? 0)
     | [_; _; _] => false
     | b0 :: b1 :: _ :: _ => (b0 =? 0) || (b1 =? 0)
     | _ => false
     end.

(** [json.loads(b)] for [bytes]. *)
Definition loads_bytes {JR : JsonRuntime} (bs : list Z) : result json :=
  text ← (if startswith [239; 187; 191] bs then utf8_read (drop 3 bs)
          else if is_wide bs then wide_decode bs else utf8_read bs);
  loads text.

(** ** Base64 *)

(** [urlsafe_b64encode]. *)
Definition b64_char (n : Z) : Z :=
  if n <? 26 then 65 + n else if n <? 52 then 71 + n else if n <? 62 then n - 4
  else if n =? 62 then 45 else 95.

Fixpoint b64encode (bs : list Z) : pystr :=
  match bs with
  | a :: b :: c :: t =>
      b64_char (a / 4) :: b64_char (a mod 4 * 16 + b / 16)
      :: b64_char (b mod 16 * 4 + c / 64) :: b64_char (c mod 64) :: b64encode t
  | [a; b] =>
      [b64_char (a / 4); b64_char (a mod 4 * 16 + b / 16); b64_char (b mod 16 * 4); 61]
  | [a] => [b64_char (a / 4); b64_char (a mod 4 * 16); 61; 61]
  | [] => []
  end.

(** The value of a character: minus and underscore are translated first, and plus
    and slash are accepted as well. *)
Definition b64_value (c : Z) : option Z :=
  if (65 <=? c) && (c <=? 90) then Some (c - 65)
  else if (97 <=? c) && (c <=? 122) then Some (c - 71)
  else if (48 <=? c) && (c <=? 57) then Some (c + 4)
  else if (c =? 45) || (c =? 43) then Some 62
  else if (c =? 95) || (c =? 47) then Some 63
  else None.

Definition b64_error : exn := exn_of ValueError "Incorrect padding".

(** The decoder's loop: the position in the group of four, the pending bits and the
    padding seen; characters outside the alphabet are skipped. *)
Fixpoint b64_loop (s : pystr) (quad left_ pads : Z) : result (list Z) :=
  match s with
  | [] => if quad =? 0 then Ok [] else Raise b64_error
  | c :: s' =>
      if c =? 61 then
        if 2 <=? quad then
          if 4 <=? quad + (pads + 1) then Ok [] else b64_loop s' quad left_ (pads + 1)
        else b64_loop s' quad left_ pads
      else
        match b64_value c with
        | None => b64_loop s' quad left_ pads
        | Some v =>
            if quad =? 0 then b64_loop s' 1 v 0
            else if quad =? 1 then r ← b64_loop s' 2 (v mod 16) 0; Ok (left_ * 4 + v / 16 :: r)
            else if quad =? 2 then r ← b64_loop s' 3 (v mod 4) 0; Ok (left_ * 16 + v / 4 :: r)
            else r ← b64_loop s' 0 0 0; Ok (left_ * 64 + v :: r)
        end
  end.
Definition b64decode (s : pystr) : result (list Z) := b64_loop s 0 0 0.

(** ** The round trips *)

Lemma b64_value_char n : 0 ≤ n < 64 → b64_value (b64_char n) = Some n ∧ b64_char n ≠ 61.
Proof.
  intros Hn. assert (n ∈ seqZ 0 64) as Hin by by apply elem_of_seqZ. clear Hn.
  revert n Hin. apply Forall_forall, (bool_decide_unpack _). by vm_compute.
Qed.

(** One step of the decoder on a character the encoder writes. *)
Lemma b64_loop_char n s quad l pads :
  0 ≤ n < 64 →
  b64_loop (b64_char n :: s) quad l pads =
    if quad =? 0 then b64_loop s 1 n 0
    else if quad =? 1 then r ← b64_loop s 2 (n mod 16) 0; Ok (l * 4 + n / 16 :: r)
    else if quad =? 2 then r ← b64_loop s 3 (n mod 4) 0; Ok (l * 16 + n / 4 :: r)
    else r ← b64_loop s 0 0 0; Ok (l * 64 + n :: r).
Proof.
  intros Hn. destruct (b64_value_char n Hn) as [Hv Hne]. cbn [b64_loop].
  rewrite (proj2 (Z.eqb_neq _ _) Hne), Hv. done.
Qed.

Definition is_byte (b : Z) : Prop := 0 ≤ b < 256.

(** The groups of three bytes recombine. *)
Lemma b64_bits a b c :
  is_byte a → is_byte b → is_byte c →
  (0 ≤ a / 4 < 64 ∧ 0 ≤ a mod 4 * 16 + b / 16 < 64 ∧
   0 ≤ b mod 16 * 4 + c / 64 < 64 ∧ 0 ≤ c mod 64 < 64) ∧
  a / 4 * 4 + (a mod 4 * 16 + b / 16) / 16 = a ∧
  (a mod 4 * 16 + b / 16) mod 16 * 16 + (b mod 16 * 4 + c / 64) / 4 = b ∧
  (b mod 16 * 4 + c / 64) mod 4 * 64 + c mod 64 = c.
Proof. unfold is_byte. intros. repeat split; Z.to_euclidean_division_equations; lia. Qed.

Lemma b64_loop_group a b c s l pads :
  is_byte a → is_byte b → is_byte c →
  b64_loop (b64_char (a / 4) :: b64_char (a mod 4 * 16 + b / 16)
      :: b64_char (b mod 16 * 4 + c / 64) :: b64_char (c mod 64) :: s) 0 l pads
  = (r ← b64_loop s 0 0 0; Ok (a :: b :: c :: r)).
Proof.
  intros Ha Hb Hc. destruct (b64_bits a b c Ha Hb Hc) as ((?&?&?&?) & H1 & H2 & H3).
  rewrite !b64_loop_char by done. cbn [Z.eqb Pos.eqb].
  destruct (b64_loop s 0 0 0); cbn; by rewrite ?H1, ?H2, ?H3.
Qed.

Lemma b64_roundtrip bs : Forall is_byte bs → b64decode (b64encode bs) = Ok bs.
Proof.
  unfold b64decode. generalize 0 at 2 3. intros l. revert l.
  induction bs as [bs IH] using (induction_ltof1 _ length); unfold ltof in IH.
  intros l Hbs. destruct bs as [|a [|b [|c bs]]].
  - done.
  - inversion_clear Hbs as [|? ? Ha _]. cbn [b64encode].
    destruct (b64_bits a 0 0 Ha) as ((?&?&_) & H1 & _); [done..|].
    rewrite Z.add_0_r in *. rewrite !b64_loop_char by done.
    cbn [Z.eqb Pos.eqb b64_loop]. cbn. by rewrite H1.
  - inversion_clear Hbs as [|? ? Ha Hbs']. inversion_clear Hbs' as [|? ? Hb _].
    cbn [b64encode]. destruct (b64_bits a b 0 Ha Hb) as ((?&?&?&_) & H1 & H2 & _); [done|].
    rewrite Z.add_0_r in *. rewrite !b64_loop_char by done.
    cbn [Z.eqb Pos.eqb b64_loop]. cbn. by rewrite H1, H2.
  - inversion_clear Hbs as [|? ? Ha Hbs']. inversion_clear Hbs' as [|? ? Hb Hbs''].
    inversion_clear Hbs'' as [|? ? Hc Hbs]. cbn [b64encode].
    rewrite b64_loop_group by done. by rewrite IH by (done || cbn; lia).
Qed.

(** *** Strings *)

Lemma hex_value_digit n : 0 ≤ n < 16 → hex_value (hex_digit n) = Some n.
Proof.
  intros Hn. assert (n ∈ seqZ 0 16) as Hin by by apply elem_of_seqZ. clear Hn.
  revert n Hin. apply Forall_forall, (bool_decide_unpack _). by vm_compute.
Qed.

Lemma scan_str_u n s :
  0 ≤ n < 65536 → is_high n = false →
  scan_str (u_escape n ++ s) = push n (scan_str s).
Proof.
  intros Hn Hh. unfold u_escape, hex4. cbn [app scan_str Z.eqb Pos.eqb].
  unfold hex4_value. rewrite !hex_value_digit by (apply Z.mod_pos_bound; lia || lia).
  replace (n / 4096 mod 16 * 4096 + n / 256 mod 16 * 256 + n / 16 mod 16 * 16 + n mod 16)
    with n by (Z.to_euclidean_division_equations; lia).
  by rewrite Hh.
Qed.

Lemma hex4_value_hex4 n : 0 ≤ n < 65536 →
  hex4_value (hex_digit (n / 4096 mod 16)) (hex_digit (n / 256 mod 16))
    (hex_digit (n / 16 mod 16)) (hex_digit (n mod 16)) = Some n.
Proof.
  intros Hn. unfold hex4_value.
  rewrite !hex_value_digit by (apply Z.mod_pos_bound; lia).
  f_equal. Z.to_euclidean_division_equations; lia.
Qed.

Lemma scan_str_pair c s :
  65536 ≤ c ≤ 1114111 →
  scan_str (u_escape (55296 + (c - 65536) / 1024)
            ++ u_escape (56320 + (c - 65536) mod 1024) ++ s) = push c (scan_str s).
Proof.
  intros Hc. set (hi := 55296 + (c - 65536) / 1024).
  set (lo := 56320 + (c - 65536) mod 1024).
  assert (55296 ≤ hi ≤ 56319) by (unfold hi; Z.to_euclidean_division_equations; lia).
  assert (56320 ≤ lo ≤ 57343) by (unfold lo; Z.to_euclidean_division_equations; lia).
  unfold u_escape, hex4. cbn [app scan_str Z.eqb Pos.eqb andb].
  rewrite !hex4_value_hex4 by lia.
  replace (is_high hi) with true by (symmetry; apply andb_true_iff; lia).
  replace (is_low lo) with true by (symmetry; apply andb_true_iff; lia).
  f_equal. unfold hi, lo. Z.to_euclidean_division_equations; lia.
Qed.

Lemma scan_str_char ea c s :
  is_scalar c = true → scan_str (escape_char ea c ++ s) = push c (scan_str s).
Proof.
  unfold is_scalar. rewrite !andb_true_iff, negb_true_iff, andb_false_iff,
    !Z.leb_le, !Z.leb_gt. intros Hc.
  unfold escape_char.
  repeat match goal with
  | |- context [if ?x =? ?y then _ else _] =>
      destruct (Z.eqb_spec x y) as [->|?]; [reflexivity|]
  end.
  destruct (Z.ltb_spec c 32).
  { apply scan_str_u; [lia|]. unfold is_high. apply andb_false_iff. lia. }
  destruct (negb ea || (c <? 127)).
  { cbn [app scan_str]. rewrite (proj2 (Z.eqb_neq c 34)), (proj2 (Z.eqb_neq c 92)) by done.
    by rewrite (proj2 (Z.ltb_ge c 32)) by done. }
  destruct (Z.ltb_spec c 65536).
  - apply scan_str_u; [lia|]. unfold is_high. apply andb_false_iff. lia.
  - rewrite <- app_assoc. apply scan_str_pair. lia.
Qed.

Lemma scan_str_dump ea s rest :
  forallb is_scalar s = true →
  scan_str (concat (escape_char ea <$> s) ++ 34 :: rest) = Ok (s, rest).
Proof.
  induction s as [|c s IH]; cbn [forallb fmap list_fmap concat]; [done|].
  intros [Hc Hs]%andb_true_iff. rewrite <- app_assoc, scan_str_char, IH by done. done.
Qed.

(** *** Integers *)

Lemma digits_of_uint_acc d p :
  foldl (λ a c, a * 10 + (c - 48)) (Z.pos p) (uint_str d) = Z.pos (Pos.of_uint_acc d p).
Proof.
  revert p. induction d; intros p; cbn [uint_str foldl Pos.of_uint_acc]; [done|..];
    rewrite <- IHd; f_equal; lia.
Qed.

Lemma digits_of_uint d : digits_value (uint_str d) = Z.of_N (Pos.of_uint d).
Proof.
  unfold digits_value. induction d; cbn [uint_str foldl Pos.of_uint]; [done|exact IHd|..];
    exact (digits_of_uint_acc d _).
Qed.

(** What may follow a number without becoming part of it. *)
Definition number_ends (s : pystr) : Prop :=
  match s with
  | c :: _ => ascii_digit c = false ∧ c ≠ 46 ∧ c ≠ 101 ∧ c ≠ 69
  | [] => True
  end.

Lemma uint_str_digits d : Forall (λ c, ascii_digit c = true) (uint_str d).
Proof. induction d; cbn; by constructor. Qed.

Lemma span_digits_app d rest :
  Forall (λ c, ascii_digit c = true) d → number_ends rest →
  span_digits (d ++ rest) = (d, rest).
Proof.
  intros Hd Hr. induction Hd as [|c d Hc _ IH]; cbn.
  - destruct rest as [|c rest]; [done|]. destruct Hr as (H & _). cbn. by rewrite H.
  - by rewrite Hc, IH.
Qed.

(** The digits of an integer have no superfluous zero. *)
Definition no_leading_zero (d : pystr) : Prop :=
  d = [48] ∨ ∃ c d', d = c :: d' ∧ c ≠ 48.

Lemma scan_int_part_app d rest :
  Forall (λ c, ascii_digit c = true) d → no_leading_zero d → number_ends rest →
  scan_int_part (d ++ rest) = Some (d, rest).
Proof.
  intros Hd [->|(c & d' & -> & Hc)] Hr; [done|]. cbn [app scan_int_part].
  rewrite (proj2 (Z.eqb_neq _ _) Hc). inversion_clear Hd as [|? ? H1 H2]. rewrite H1.
  change (c :: d' ++ rest) with ((c :: d') ++ rest). rewrite span_digits_app; [done| |done].
  by constructor.
Qed.

Lemma norm_no_leading_zero d : no_leading_zero (uint_str (Decimal.unorm d)).
Proof.
  unfold Decimal.unorm.
  destruct (Decimal.nzhead d) eqn:H; cbn; try (left; reflexivity);
    try (right; eexists _, _; split; [reflexivity|done]).
  exfalso. by apply (DecimalFacts.nzhead_nonzero d u).
Qed.

(** [str(z)]: a sign and the digits of the absolute value. *)
Lemma str_of_Z_digits z :
  ∃ d, str_of_Z z = (if z <? 0 then [45] else []) ++ d ∧
    Forall (λ c, ascii_digit c = true) d ∧ no_leading_zero d ∧
    digits_value d = Z.abs z.
Proof.
  assert (∀ p, no_leading_zero (uint_str (Pos.to_uint p))
               ∧ digits_value (uint_str (Pos.to_uint p)) = Z.pos p) as Hp.
  { intros p. rewrite digits_of_uint, DecimalPos.Unsigned.of_to. split; [|done].
    replace (Pos.to_uint p) with (Decimal.unorm (Pos.to_uint p));
      [apply norm_no_leading_zero|].
    by rewrite <- DecimalPos.Unsigned.to_of, DecimalPos.Unsigned.of_to. }
  unfold str_of_Z. destruct z as [|p|p]; cbn [Z.to_int].
  - exists [48]. repeat split; [by constructor|by left].
  - exists (uint_str (Pos.to_uint p)). split; [done|].
    split; [apply uint_str_digits|]. apply Hp.
  - exists (uint_str (Pos.to_uint p)). split; [done|].
    split; [apply uint_str_digits|]. apply Hp.
Qed.

Lemma scan_frac_ends rest : number_ends rest → scan_frac rest = ([], rest).
Proof.
  destruct rest as [|c rest]; [done|]. intros (_ & H & _). cbn.
  by rewrite (proj2 (Z.eqb_neq _ _) H).
Qed.

Lemma scan_exp_ends rest : number_ends rest → scan_exp rest = ([], rest).
Proof.
  destruct rest as [|c rest]; [done|]. intros (_ & _ & H1 & H2). cbn.
  by rewrite (proj2 (Z.eqb_neq _ _) H1), (proj2 (Z.eqb_neq _ _) H2).
Qed.

Section roundtrip.
Context {JR : JsonRuntime}.

(** An integer [int()] can read back. *)
Definition int_ok (z : Z) : Prop := len (str_of_Z z) ≤ max_str_digits.

Lemma scan_number_int z rest :
  int_ok z → number_ends rest → scan_number (str_of_Z z ++ rest) = Ok (JInt z, rest).
Proof.
  unfold int_ok. intros Hz Hr. destruct (str_of_Z_digits z) as (d & Heq & Hd & Hl & Hv).
  rewrite Heq in *. unfold scan_number. unfold len in Hz. rewrite length_app in Hz.
  assert (match ((if z <? 0 then [45] else []) ++ d) ++ rest with
          | c :: t => if c =? 45 then (true, t)
                      else (false, ((if z <? 0 then [45] else []) ++ d) ++ rest)
          | [] => (false, ((if z <? 0 then [45] else []) ++ d) ++ rest)
          end = (z <? 0, d ++ rest)) as ->.
  { destruct (z <? 0); [done|]. cbn [app].
    destruct d as [|c d]; [by destruct Hl as [|(? & ? & ? & ?)]|].
    inversion_clear Hd as [|? ? Hc _]. cbn [app]. destruct (Z.eqb_spec c 45) as [->|]; done. }
  rewrite scan_int_part_app, scan_frac_ends, scan_exp_ends by done.
  unfold len. destruct (Z.ltb_spec max_str_digits (Z.of_nat (length d))); [lia|].
  rewrite Hv. destruct (Z.ltb_spec z 0); do 3 f_equal; lia.
Qed.

(** A value whose strings are text, whose integers fit [int()]'s limit, whose keys
    are distinct, and which holds no float. *)
Fixpoint plain (v : json) : Prop :=
  match v with
  | JFloat _ => False
  | JInt z => int_ok z
  | JStr s => forallb is_scalar s = true
  | JList l => (fix go l := match l with [] => True | v :: l' => plain v ∧ go l' end) l
  | JObj kvs => NoDup (keys kvs) ∧ forallb (λ kv, forallb is_scalar kv.1) kvs = true ∧
      (fix go l := match l with [] => True | kv :: l' => plain kv.2 ∧ go l' end) kvs
  | _ => True
  end.

Section any_ascii.
Variable ea : bool.
Abbreviation dump := (dumps ea false).

(** The first character of a value is none that ends a list or separates. *)
Definition value_head (s : pystr) : Prop :=
  ∃ c t, s = c :: t ∧ is_ws c = false ∧ c ≠ 93 ∧ c ≠ 125 ∧ c ≠ 65279.

Lemma str_of_Z_head z : ∃ c t, str_of_Z z = c :: t ∧ (ascii_digit c = true ∨ c = 45) ∧
  (c = 45 → ∃ d t', t = d :: t' ∧ ascii_digit d = true).
Proof.
  destruct (str_of_Z_digits z) as (d & -> & Hd & Hl & _).
  assert (∃ c d', d = c :: d' ∧ ascii_digit c = true) as (c & d' & -> & Hc).
  { destruct d as [|c d]; [by destruct Hl as [|(? & ? & ? & ?)]|].
    inversion_clear Hd. eauto. }
  destruct (z <? 0).
  - exists 45, (c :: d'). split; [done|]. split; [by right|]. eauto.
  - exists c, d'. split; [done|]. split; [by left|]. by intros ->.
Qed.

Lemma ascii_digit_range c : ascii_digit c = true → 48 ≤ c ≤ 57.
Proof. unfold ascii_digit. rewrite andb_true_iff, !Z.leb_le. done. Qed.

Lemma dump_head v : plain v → value_head (dump v).
Proof.
  destruct v as [|[]|z|r|s|l|kvs]; intros Hv;
    try (by eexists _, _; split; [reflexivity|]).
  - destruct (str_of_Z_head z) as (c & t & H & Hc & _). exists c, t.
    cbn [dumps]. split; [done|]. unfold is_ws.
    destruct Hc as [Hc%ascii_digit_range| ->]; [|done].
    rewrite !orb_false_iff, !Z.eqb_neq. lia.
  - done.
Qed.

Lemma skip_ws_head s rest : value_head s → skip_ws (s ++ rest) = s ++ rest.
Proof. intros (c & t & -> & Hc & _). cbn. by rewrite Hc. Qed.

(** [v] is read back, with the fuel its length asks for. *)
Definition scans (v : json) : Prop := ∀ n rest,
  number_ends rest → (2 * length (dump v) + 1 ≤ n)%nat →
  scan n (dump v ++ rest) = Ok (v, rest).

(** A number is none of the literals. *)
Lemma scan_literal_none c t :
  48 ≤ c ≤ 57 ∨ (∃ d t', (c, t) = (45, d :: t') ∧ 48 ≤ d ≤ 57) →
  scan_literal (c :: t) = None.
Proof.
  intros H. unfold scan_literal.
  assert (∀ p, p ∈ fst <$> literals → startswith p (c :: t) ≠ true) as Hno.
  { intros p Hp%list_elem_of_In. vm_compute in Hp.
    destruct Hp as [<-|[<-|[<-|[<-|[<-|[<-|[]]]]]]]; cbn [startswith];
      rewrite andb_true_iff, Z.eqb_eq; intros [<- Hs];
      destruct H as [?|(d & t' & [= Ht] & ?)]; try lia.
    subst t. apply andb_true_iff in Hs as [Hd%Z.eqb_eq _]. lia. }
  destruct (filter _ literals) as [|[p v] l] eqn:Hf; [done|].
  assert ((p, v) ∈ filter (λ l, startswith l.1 (c :: t) = true) literals) as Hin
    by (rewrite Hf; apply list_elem_of_here).
  apply list_elem_of_filter in Hin as [Hs Hin]. exfalso. apply (Hno p); [|done].
  by apply (list_elem_of_fmap_2 fst) in Hin.
Qed.

Lemma scans_int z : int_ok z → scans (JInt z).
Proof.
  intros Hz [|n] rest Hr Hn; [lia|].
  pose proof (scan_number_int z rest Hz Hr) as Hs. cbn [dumps] in *.
  destruct (str_of_Z_head z) as (c & t & H & Hc & Hm). rewrite H in *.
  cbn [app scan].
  assert (c ≠ 34 ∧ c ≠ 123 ∧ c ≠ 91) as (H1 & H2 & H3).
  { destruct Hc as [Hc%ascii_digit_range| ->]; lia. }
  rewrite (proj2 (Z.eqb_neq _ _) H1), (proj2 (Z.eqb_neq _ _) H2),
    (proj2 (Z.eqb_neq _ _) H3).
  rewrite scan_literal_none; [exact Hs|].
  destruct Hc as [Hc%ascii_digit_range| ->]; [by left|right].
  destruct (Hm eq_refl) as (d & t' & -> & Hd%ascii_digit_range). by exists d, (t' ++ rest).
Qed.

Lemma scan_items_dump l :
  l ≠ [] → Forall scans l → Forall plain l → ∀ n acc rest,
  (2 * length (join (u ", ") (map dump l)) + 2 ≤ n)%nat →
  scan_items n acc (join (u ", ") (map dump l) ++ 93 :: rest) = Ok (JList (acc ++ l), rest).
Proof.
  intros Hne Hs. induction Hs as [|v l Hv Hl IH]; [done|]. clear Hne.
  intros Hp n acc rest Hn. inversion_clear Hp as [|? ? Hpv Hpl].
  destruct n as [|n]; [lia|]. cbn [scan_items]. destruct l as [|w l].
  - cbn [map join] in *. rewrite Hv; [done|done|lia].
  - change (join (u ", ") (map dump (v :: w :: l)))
      with (dump v ++ 44 :: 32 :: join (u ", ") (map dump (w :: l))) in *.
    rewrite length_app in Hn. cbn [length] in Hn.
    rewrite <- app_assoc. rewrite Hv by (done || lia). cbn [app skip_ws is_ws].
    change (is_ws 44) with false. cbn iota. cbn [Z.eqb Pos.eqb skip_ws].
    change (is_ws 32) with true. cbn iota.
    rewrite skip_ws_head.
    2: { inversion_clear Hpl as [|? ? Hw _]. destruct (dump_head w Hw) as (c & t & He & H).
         destruct l; cbn [map join]; rewrite He; eexists _, _; (split; [reflexivity|done]). }
    rewrite IH by (done || lia). by rewrite <- app_assoc.
Qed.

(** [d[k] = v] for a new key appends. *)
Lemma assoc_set_fresh {A} k (v : A) l : k ∉ keys l → assoc_set k v l = l ++ [(k, v)].
Proof.
  induction l as [|[k' v'] l IH]; [done|]. unfold keys. cbn. intros Hk.
  apply not_elem_of_cons in Hk as [Hne Hk]. unfold str_eqb.
  rewrite bool_decide_false by done. by rewrite IH.
Qed.

Definition dump_pair (kv : pystr * json) : pystr :=
  dump_str ea kv.1 ++ u ": " ++ dump kv.2.

Lemma dump_obj kvs : dump (JObj kvs) = 123 :: join (u ", ") (map dump_pair kvs) ++ [125].
Proof.
  cbn [dumps]. unfold dump_seq, dump_items. do 3 f_equal. unfold dump_pair.
  rewrite <- list_fmap_compose. done.
Qed.

Lemma scan_pairs_dump l :
  l ≠ [] → Forall (λ kv, scans kv.2) l → Forall (λ kv, plain kv.2) l →
  forallb (λ kv, forallb is_scalar kv.1) l = true → ∀ n acc rest,
  NoDup (keys (acc ++ l)) →
  (2 * length (join (u ", ") (map dump_pair l)) + 2 ≤ n)%nat →
  scan_pairs n acc (join (u ", ") (map dump_pair l) ++ 125 :: rest)
  = Ok (JObj (acc ++ l), rest).
Proof.
  intros Hne Hs. induction Hs as [|[k v] l Hv Hl IH]; [done|]. clear Hne. cbn [snd] in Hv.
  intros Hp Hk n acc rest Hnd Hn. inversion_clear Hp as [|? ? Hpv Hpl].
  cbn [forallb fst] in Hk. apply andb_true_iff in Hk as [Hk Hkl].
  assert (assoc_set k v acc = acc ++ [(k, v)]) as Hset.
  { apply assoc_set_fresh. unfold keys in *. rewrite fmap_app in Hnd.
    apply NoDup_app in Hnd as (_ & Hd & _). intros H. apply (Hd k H), list_elem_of_here. }
  destruct n as [|n]; [lia|]. set (tail := join (u ", ") (map dump_pair l)) in *.
  assert (join (u ", ") (map dump_pair ((k, v) :: l))
          = dump_pair (k, v) ++ match l with [] => [] | _ => 44 :: 32 :: tail end) as Hj.
  { destruct l; cbn [map join]; [by rewrite app_nil_r|done]. }
  rewrite Hj in *. rewrite length_app in Hn. unfold dump_pair in *. cbn [fst snd] in *.
  unfold dump_str in *. rewrite !length_app in Hn. cbn [length app] in *.
  cbn [scan_pairs Z.eqb Pos.eqb negb]. rewrite <- !app_assoc. cbn [app].
  rewrite scan_str_dump by done. change (u ": ") with [58; 32]. cbn [app skip_ws].
  change (is_ws 58) with false. cbn iota. cbn [Z.eqb Pos.eqb negb skip_ws].
  change (is_ws 32) with true. cbn iota.
  rewrite skip_ws_head by by apply dump_head.
  destruct l as [|[k' v'] l].
  - rewrite Hv by (done || lia). cbn [app skip_ws]. change (is_ws 125) with false.
    cbn iota. cbn [Z.eqb Pos.eqb]. by rewrite Hset.
  - rewrite Hv by (done || lia). cbn [app skip_ws]. change (is_ws 44) with false.
    cbn iota. cbn [Z.eqb Pos.eqb skip_ws]. change (is_ws 32) with true. cbn iota.
    rewrite Hset. assert (skip_ws (tail ++ 125 :: rest) = tail ++ 125 :: rest) as ->.
    { apply skip_ws_head. unfold tail, dump_pair, dump_str. cbn [map join fst].
      destruct l; cbn [map]; eexists _, _; (split; [reflexivity|done]). }
    rewrite IH; [by rewrite <- app_assoc|done|done|done| |cbn [length] in Hn; lia].
    by rewrite <- app_assoc.
Qed.

Lemma plain_list l : plain (JList l) ↔ Forall plain l.
Proof.
  cbn. induction l as [|v l IH]; [by split|]. rewrite Forall_cons, IH. done.
Qed.

Lemma plain_obj kvs : plain (JObj kvs) →
  NoDup (keys kvs) ∧ forallb (λ kv, forallb is_scalar kv.1) kvs = true ∧
  Forall (λ kv, plain kv.2) kvs.
Proof.
  intros (H1 & H2 & H3). split; [done|]. split; [done|]. clear H1 H2.
  induction kvs as [|kv kvs IH]; constructor; [apply H3|apply IH, H3].
Qed.

Lemma plain_obj_iff kvs : plain (JObj kvs) ↔
  NoDup (keys kvs) ∧ forallb (λ kv, forallb is_scalar kv.1) kvs = true ∧
  Forall (λ kv, plain kv.2) kvs.
Proof.
  split; [apply plain_obj|]. intros (H1 & H2 & H3). split; [done|]. split; [done|].
  clear H1 H2. induction H3 as [|kv kvs Hkv _ IH]; cbn; auto.
Qed.

Lemma scan_dump v : plain v → scans v.
Proof.
  induction v as [|b|z|r|s|l IH|kvs IH] using json_ind'; intros Hv.
  - intros [|n] rest Hr Hn; [lia|done].
  - intros [|n] rest Hr Hn; [lia|by destruct b].
  - by apply scans_int.
  - done.
  - intros [|n] rest Hr Hn; [lia|]. cbn [dumps]. unfold dump_str. cbn [app scan Z.eqb Pos.eqb].
    rewrite <- app_assoc. cbn [app]. by rewrite scan_str_dump.
  - apply plain_list in Hv. intros [|n] rest Hr Hn; [lia|].
    cbn [dumps] in *. unfold dump_seq in *. cbn [length] in Hn. rewrite length_app in Hn.
    cbn [app scan Z.eqb Pos.eqb]. rewrite <- app_assoc. cbn [app].
    assert (Forall scans l) as Hs.
    { eapply Forall_impl; [apply Forall_and; split; [exact IH|exact Hv]|]. cbn. tauto. }
    destruct l as [|v l]; [done|].
    pose proof (scan_items_dump (v :: l) ltac:(done) Hs Hv n [] rest) as Hsc.
    inversion_clear Hv as [|? ? H1 _]. destruct (dump_head v H1) as (c & t & He & Hw & Hc & _ & _).
    assert (∃ t', join (u ", ") (map dump (v :: l)) = c :: t') as [t' Hj].
    { destruct l; cbn [map join]; rewrite He; eauto. }
    rewrite Hj in *. cbn [app skip_ws]. rewrite Hw. rewrite (proj2 (Z.eqb_neq _ _) Hc).
    apply Hsc. cbn [length] in Hn |- *. lia.
  - apply plain_obj in Hv as (Hnd & Hk & Hv). intros [|n] rest Hr Hn; [lia|].
    rewrite dump_obj in *. cbn [length] in Hn. rewrite length_app in Hn.
    cbn [app scan Z.eqb Pos.eqb]. rewrite <- app_assoc. cbn [app].
    assert (Forall (λ kv, scans kv.2) kvs) as Hs.
    { eapply Forall_impl; [apply Forall_and; split; [exact IH|exact Hv]|]. cbn. tauto. }
    destruct kvs as [|[k v] kvs]; [done|].
    pose proof (scan_pairs_dump ((k, v) :: kvs) ltac:(done) Hs Hv Hk n [] rest Hnd) as Hsc.
    assert (∃ t', join (u ", ") (map dump_pair ((k, v) :: kvs)) = 34 :: t') as [t' Hj].
    { unfold dump_pair, dump_str. destruct kvs; cbn [map join app fst]; eauto. }
    rewrite Hj in *. cbn [app skip_ws]. change (is_ws 34) with false. cbn iota.
    cbn [Z.eqb Pos.eqb]. apply Hsc. cbn [length] in Hn |- *. lia.
Qed.

Lemma scan_dump_loads v : plain v → loads (dump v) = Ok v.
Proof.
  intros Hv. unfold loads. destruct (dump_head v Hv) as (c & t & Hc & _ & _ & _ & Hb).
  rewrite Hc at 1. cbn [startswith]. rewrite (proj2 (Z.eqb_neq 65279 c)) by done. cbn [andb].
  pose proof (skip_ws_head _ [] (dump_head v Hv)) as Hw. rewrite app_nil_r in Hw. rewrite Hw.
  pose proof (scan_dump v Hv (scan_fuel (dump v)) []) as Hs. rewrite app_nil_r in Hs.
  rewrite Hs; [done|done|]. unfold scan_fuel. lia.
Qed.
End any_ascii.
Abbreviation dump := (dumps true false).

(** What [json.dumps] prints is printable ASCII. *)
Definition printable (c : Z) : Prop := 32 ≤ c < 127.

Lemma hex_digit_printable n : 0 ≤ n < 16 → printable (hex_digit n).
Proof. unfold hex_digit, printable. destruct (Z.ltb_spec n 10); lia. Qed.

Lemma u_escape_printable n : Forall printable (u_escape n).
Proof.
  unfold u_escape, hex4. repeat constructor; try done;
    apply hex_digit_printable, Z.mod_pos_bound; lia.
Qed.

Lemma escape_char_printable c : 0 ≤ c → Forall printable (escape_char true c).
Proof.
  intros Hc. unfold escape_char.
  repeat match goal with
  | |- context [if ?x =? ?y then _ else _] =>
      destruct (Z.eqb_spec x y) as [->|?]; [by repeat constructor|]
  end.
  destruct (Z.ltb_spec c 32); [apply u_escape_printable|]. cbn [negb orb].
  destruct (Z.ltb_spec c 127); [by repeat constructor|].
  destruct (c <? 65536); [apply u_escape_printable|].
  apply Forall_app. split; apply u_escape_printable.
Qed.

Lemma dump_str_printable s :
  forallb is_scalar s = true → Forall printable (dump_str true s).
Proof.
  intros Hs. unfold dump_str. constructor; [done|]. apply Forall_app. split; [|by repeat constructor].
  apply Forall_concat, Forall_fmap, Forall_forall. intros c Hc. apply escape_char_printable.
  rewrite forallb_forall in Hs. specialize (Hs c (proj1 (list_elem_of_In _ _) Hc)).
  unfold is_scalar in Hs. rewrite !andb_true_iff, Z.leb_le in Hs. apply Hs.
Qed.

Lemma join_printable sep l :
  Forall printable sep → Forall (Forall printable) l → Forall printable (join sep l).
Proof.
  intros Hs. induction 1 as [|s l Hp Hl IH]; [constructor|]. destruct l as [|t l]; [done|].
  change (join sep (s :: t :: l)) with (s ++ sep ++ join sep (t :: l)).
  rewrite !Forall_app. done.
Qed.

Lemma dump_printable v : plain v → Forall printable (dump v).
Proof.
  induction v as [|b|z|r|s|l IH|kvs IH] using json_ind'; intros Hv.
  - by repeat constructor.
  - destruct b; by repeat constructor.
  - cbn [dumps]. destruct (str_of_Z_digits z) as (d & -> & Hd & _).
    apply Forall_app. split; [destruct (z <? 0); by repeat constructor|].
    eapply Forall_impl; [exact Hd|]. intros c Hc%ascii_digit_range. unfold printable. lia.
  - done.
  - by apply dump_str_printable.
  - apply plain_list in Hv. cbn [dumps]. unfold dump_seq. constructor; [done|].
    apply Forall_app. split; [|by repeat constructor]. apply join_printable; [by repeat constructor|].
    apply Forall_fmap. eapply Forall_impl; [apply Forall_and; split; [exact IH|exact Hv]|].
    cbn. tauto.
  - apply plain_obj in Hv as (_ & Hk & Hv). rewrite dump_obj. constructor; [done|].
    apply Forall_app. split; [|by repeat constructor]. apply join_printable; [by repeat constructor|].
    apply Forall_fmap, Forall_forall. intros [k v] Hin. unfold dump_pair, compose. cbn [fst snd].
    rewrite forallb_forall in Hk. rewrite Forall_forall in Hv, IH.
    rewrite !Forall_app. split; [|split; [by repeat constructor|]].
    + apply dump_str_printable, (Hk (k, v)). by apply list_elem_of_In.
    + apply (IH (k, v) Hin), (Hv (k, v) Hin).
Qed.

Lemma startswith_printable p s :
  Forall printable s → ¬ Forall printable p → startswith p s = false.
Proof.
  intros Hs. revert p. induction Hs as [|c s Hc _ IH]; intros [|d p] Hp; try done;
    try by (destruct Hp; constructor).
  cbn. destruct (Z.eqb_spec d c) as [->|]; [|done]. apply IH. intros H. apply Hp. by constructor.
Qed.

Lemma utf8_printable s : Forall printable s → encode s = Ok s.
Proof.
  intros Hs. unfold encode. rewrite (proj2 (forallb_forall _ _)).
  2: { intros c Hc%list_elem_of_In. rewrite Forall_forall in Hs.
       specialize (Hs c Hc). unfold printable in Hs. unfold is_scalar.
       rewrite !andb_true_iff, negb_true_iff, andb_false_iff. lia. }
  f_equal. unfold utf8. induction Hs as [|c s Hc _ IH]; [done|]. cbn. rewrite IH.
  unfold utf8_char. unfold printable in Hc. by rewrite (proj2 (Z.ltb_lt c 128)) by lia.
Qed.

Lemma utf8_read_printable s : Forall printable s → utf8_read s = Ok s.
Proof.
  induction 1 as [|c s Hc _ IH]; [done|]. cbn. unfold printable in Hc.
  rewrite (proj2 (Z.ltb_lt c 128)) by lia. by rewrite IH.
Qed.

Lemma is_wide_printable s : Forall printable s → is_wide s = false.
Proof.
  intros Hs. unfold is_wide.
  assert (∀ c p, ¬ printable c → startswith (c :: p) s = false) as Hno.
  { intros c p Hc. apply startswith_printable; [done|]. intros H. by inversion_clear H. }
  rewrite !Hno by (unfold printable; lia).
  cbn [orb].
  destruct Hs as [|b0 ? H0 [|b1 ? H1 [|b2 ? H2 Hs]]]; try done; unfold printable in *.
  - apply orb_false_iff. rewrite !Z.eqb_neq. lia.
  - destruct Hs; [done|]. apply orb_false_iff. rewrite !Z.eqb_neq. lia.
Qed.

(** What the program prints as JSON it reads back: for every value without floats
    whose strings are Unicode text, whose dict keys are distinct and whose integers
    are within [int()]'s digit limit, [json.loads] of [json.dumps] returns it, also
    after UTF-8 encoding. *)
Lemma loads_dumps v :
  plain v → loads (dump v) = Ok v ∧ (bs ← encode (dump v); loads_bytes bs) = Ok v.
Proof.
  intros Hv. pose proof (dump_printable v Hv) as Hp. split; [by apply scan_dump_loads|].
  rewrite utf8_printable by done. cbn [mbind result_bind]. unfold loads_bytes.
  rewrite startswith_printable; [|done|].
  2: { intros H. inversion_clear H as [|? ? H1 _]. unfold printable in H1. lia. }
  rewrite is_wide_printable, utf8_read_printable by done. cbn.
  by apply scan_dump_loads.
Qed.
End roundtrip.
