(* ===== verification/Digests.v ===== *)
(** * [hashlib.sha256] and [hashlib.md5]

    The digest the program takes of evidence, snapshots and cache keys (FIPS 180-4), and
    the one the loader checks an archive with (RFC 1321), on bytes, with 32-bit words as
    integers modulo [2^32].  Both are executable, so concrete runs compute real digests. *)
From S2P Require Import Prelude.
From S2P Require Import PyStr.
From S2P Require Import Json.

Definition w32 (x : Z) : Z := Z.land x 4294967295.
Definition rotr (n x : Z) : Z :=
  Z.lor (Z.shiftr x n) (w32 (Z.shiftl x (32 - n))).
Definition ch32 (x y z : Z) : Z :=
  Z.lxor (Z.land x y) (Z.land (Z.lxor x 4294967295) z).
Definition maj32 (x y z : Z) : Z :=
  Z.lxor (Z.lxor (Z.land x y) (Z.land x z)) (Z.land y z).
Definition big_sigma0 (x : Z) : Z :=
  Z.lxor (Z.lxor (rotr 2 x) (rotr 13 x)) (rotr 22 x).
Definition big_sigma1 (x : Z) : Z :=
  Z.lxor (Z.lxor (rotr 6 x) (rotr 11 x)) (rotr 25 x).
Definition sigma0 (x : Z) : Z :=
  Z.lxor (Z.lxor (rotr 7 x) (rotr 18 x)) (Z.shiftr x 3).
Definition sigma1 (x : Z) : Z :=
  Z.lxor (Z.lxor (rotr 17 x) (rotr 19 x)) (Z.shiftr x 10).

(** The fractional parts of the cube roots of the first 64 primes, and of the
    square roots of the first 8. *)
Definition round_constants : list Z :=
  [1116352408; 1899447441; 3049323471; 3921009573; 961987163; 1508970993;
   2453635748; 2870763221; 3624381080; 310598401; 607225278; 1426881987;
   1925078388; 2162078206; 2614888103; 3248222580; 3835390401; 4022224774;
   264347078; 604807628; 770255983; 1249150122; 1555081692; 1996064986; 2554220882;
   2821834349; 2952996808; 3210313671; 3336571891; 3584528711; 113926993;
   338241895; 666307205; 773529912; 1294757372; 1396182291; 1695183700; 1986661051;
   2177026350; 2456956037; 2730485921; 2820302411; 3259730800; 3345764771;
   3516065817; 3600352804; 4094571909; 275423344; 430227734; 506948616; 659060556;
   883997877; 958139571; 1322822218; 1537002063; 1747873779; 1955562222;
   2024104815; 2227730452; 2361852424; 2428436474; 2756734187; 3204031479;
   3329325298].
Definition initial_hash : list Z :=
  [1779033703; 3144134277; 1013904242; 2773480762; 1359893119; 2600822924;
   528734635; 1541459225].

Definition word_of (bs : list Z) : Z := foldl (λ acc b, acc * 256 + b) 0 bs.
Definition bytes_of (n : nat) (x : Z) : list Z :=
  (λ i, Z.shiftr x (8 * Z.of_nat i) mod 256) <$> rev (seq 0 n).

(** The message, a one bit, zeros, and the bit length in 64 bits. *)
Definition pad (bs : list Z) : list Z :=
  let n := len bs in
  bs ++ 128 :: replicate (Z.to_nat ((55 - n) mod 64)) 0 ++ bytes_of 8 (8 * n).

(** The message schedule, newest word first. *)
Fixpoint schedule (n : nat) (ws : list Z) : list Z :=
  match n with
  | O => ws
  | S n' =>
      let at_ i := nth i ws 0 in
      schedule n'
        (w32 (sigma1 (at_ 1%nat) + at_ 6%nat + sigma0 (at_ 14%nat) + at_ 15%nat)
           :: ws)
  end.

Definition round (st : list Z) (kw : Z * Z) : list Z :=
  match st with
  | [a; b; c; d; e; f; g; h] =>
      let t1 := w32 (h + big_sigma1 e + ch32 e f g + kw.1 + kw.2) in
      let t2 := w32 (big_sigma0 a + maj32 a b c) in
      [w32 (t1 + t2); a; b; c; w32 (d + t1); e; f; g]
  | _ => st
  end.

Definition compress (st block : list Z) : list Z :=
  let ws := rev (schedule 48 (rev (word_of <$> chunks 4 block))) in
  zip_with (λ x y, w32 (x + y)) st (foldl round st (zip round_constants ws)).

Definition sha256 (bs : list Z) : list Z :=
  concat (bytes_of 4 <$> foldl compress initial_hash (chunks 64 (pad bs))).

Definition hex (bs : list Z) : pystr :=
  concat ((λ b, [hex_digit (b / 16); hex_digit (b mod 16)]) <$> bs).

Definition sha256_hex (bs : list Z) : pystr := hex (sha256 bs).

Example sha256_abc :
  sha256_hex (utf8 (u "abc"))
  = u "ba7816bf8f01cfea414140de5dae2223b00361a396177a9cb410ff61f20015ad".
Proof. vm_compute. reflexivity. Qed.

Example sha256_two_blocks :
  sha256_hex (utf8 (u "abcdbcdecdefdefgefghfghighijhijkijkljklmklmnlmnomnopnopq"))
  = u "248d6a61d20638b8e5c026930c3e6039a33ce45964ff2167f6ecedd419db06c1".
Proof. vm_compute. reflexivity. Qed.

Lemma length_hex bs : length (hex bs) = (2 * length bs)%nat.
Proof. unfold hex. induction bs as [|b bs IH]; cbn in *; [done|]. rewrite IH. lia. Qed.

(** ** MD5: the same words, least significant byte first *)

(** The integer parts of [2^32 * abs(sin(i + 1))], and the shifts of each step. *)
Definition md5_constants : list Z :=
  [3614090360; 3905402710; 606105819; 3250441966; 4118548399; 1200080426; 2821735955;
   4249261313; 1770035416; 2336552879; 4294925233; 2304563134; 1804603682; 4254626195;
   2792965006; 1236535329; 4129170786; 3225465664; 643717713; 3921069994; 3593408605;
   38016083; 3634488961; 3889429448; 568446438; 3275163606; 4107603335; 1163531501;
   2850285829; 4243563512; 1735328473; 2368359562; 4294588738; 2272392833; 1839030562;
   4259657740; 2763975236; 1272893353; 4139469664; 3200236656; 681279174; 3936430074;
   3572445317; 76029189; 3654602809; 3873151461; 530742520; 3299628645; 4096336452;
   1126891415; 2878612391; 4237533241; 1700485571; 2399980690; 4293915773; 2240044497;
   1873313359; 4264355552; 2734768916; 1309151649; 4149444226; 3174756917; 718787259;
   3951481745].
Definition md5_shifts : list Z :=
  concat ((λ l, l ++ l ++ l ++ l) <$> [[7; 12; 17; 22]; [5; 9; 14; 20]; [4; 11; 16; 23];
                                       [6; 10; 15; 21]]).

Definition md5_word (bs : list Z) : Z := word_of (rev bs).
Definition md5_bytes (n : nat) (x : Z) : list Z := rev (bytes_of n x).

Definition md5_pad (bs : list Z) : list Z :=
  let n := len bs in
  bs ++ 128 :: replicate (Z.to_nat ((55 - n) mod 64)) 0 ++ md5_bytes 8 (8 * n).

(** The mixing function of step [i] and the message word it adds. *)
Definition md5_mix (i : nat) (b c d : Z) : Z * nat :=
  if (i <? 16)%nat then (ch32 b c d, i)
  else if (i <? 32)%nat then (ch32 d b c, (5 * i + 1) mod 16)%nat
  else if (i <? 48)%nat then (Z.lxor (Z.lxor b c) d, (3 * i + 5) mod 16)%nat
  else (Z.lxor c (Z.lor b (Z.lxor d 4294967295)), (7 * i) mod 16)%nat.

Definition md5_step (ws : list Z) (st : Z * Z * Z * Z) (x : nat * (Z * Z)) : Z * Z * Z * Z :=
  let '(a, b, c, d) := st in
  let '(i, (k, s)) := x in
  let '(f, g) := md5_mix i b c d in
  (d, w32 (b + rotr (32 - s) (w32 (a + f + k + nth g ws 0))), b, c).

Definition md5_block (st : Z * Z * Z * Z) (block : list Z) : Z * Z * Z * Z :=
  let '(a, b, c, d) := st in
  let '(a', b', c', d') :=
    foldl (md5_step (md5_word <$> chunks 4 block)) st
      (zip (seq 0 64) (zip md5_constants md5_shifts)) in
  (w32 (a + a'), w32 (b + b'), w32 (c + c'), w32 (d + d')).

Definition md5 (bs : list Z) : list Z :=
  let '(a, b, c, d) :=
    foldl md5_block (1732584193, 4023233417, 2562383102, 271733878) (chunks 64 (md5_pad bs)) in
  concat (md5_bytes 4 <$> [a; b; c; d]).

Definition md5_hex (bs : list Z) : pystr := hex (md5 bs).

Example md5_abc : md5_hex (utf8 (u "abc")) = u "900150983cd24fb0d6963f7d28e17f72".
Proof. vm_compute. reflexivity. Qed.

Example md5_alphabet :
  md5_hex (utf8 (u "12345678901234567890123456789012345678901234567890123456789012345678901234567890"))
  = u "57edf4a22be3c955ac49da2e2107b67a".
Proof. vm_compute. reflexivity. Qed.
