(* ===== verification/PyTime.v ===== *)
(** * Dates and times

    Python's [date] and [datetime]: the proleptic Gregorian calendar of years 1 to
    9999, wall-clock arithmetic, comparison of aware values, ISO formatting.  A
    datetime is its wall clock in microseconds since 0001-01-01T00:00, its
    [fold] and its time zone.  The time-zone database is data outside the
    program and is a parameter. *)
From S2P Require Import Prelude.
From S2P Require Import PyStr.

(** ** The calendar *)

Definition is_leap (y : Z) : bool :=
  (y mod 4 =? 0) && (negb (y mod 100 =? 0) || (y mod 400 =? 0)).

(** [calendar.monthrange(y, m)[1]]. *)
Definition days_in_month (y m : Z) : Z :=
  if m =? 2 then (if is_leap y then 29 else 28)
  else if (m =? 4) || (m =? 6) || (m =? 9) || (m =? 11) then 30 else 31.

Definition days_before_month (y m : Z) : Z :=
  (nth (Z.to_nat (m - 1)) [0; 31; 59; 90; 120; 151; 181; 212; 243; 273; 304; 334] 0)
  + (if (2 <? m) && is_leap y then 1 else 0).

Definition days_before_year (y : Z) : Z :=
  (y - 1) * 365 + (y - 1) / 4 - (y - 1) / 100 + (y - 1) / 400.

Record date := Date { year : Z; month : Z; day : Z }.
#[export] Instance date_eq_dec : EqDecision date.
Proof. solve_decision. Defined.

Definition valid_date (d : date) : bool :=
  (1 <=? year d) && (year d <=? 9999) && (1 <=? month d) && (month d <=? 12)
  && (1 <=? day d) && (day d <=? days_in_month (year d) (month d)).

(** [date(y, m, d)]. *)
Definition make_date (y m d : Z) : result date :=
  if valid_date (Date y m d) then Ok (Date y m d)
  else Raise (exn_of ValueError "day is out of range for month").

(** Days since 0001-01-01. *)
Definition ordinal (d : date) : Z :=
  days_before_year (year d) + days_before_month (year d) (month d) + day d - 1.

(** The last month [m] with [days_before_month y m <= n]. *)
Fixpoint month_of (fuel : nat) (y n m : Z) : Z :=
  match fuel with
  | O => m
  | S fuel' => if days_before_month y m <=? n then m else month_of fuel' y n (m - 1)
  end.

(** The last year [y] with [days_before_year y <= n]. *)
Fixpoint year_of (fuel : nat) (n y : Z) : Z :=
  match fuel with
  | O => y
  | S fuel' => if days_before_year y <=? n then y else year_of fuel' n (y - 1)
  end.

(** The date [n] days after 0001-01-01: counting every year as 365 days is at most
    seven years too many within 9999 years. *)
Definition date_of_ordinal (n : Z) : date :=
  let y := year_of 8 n (n / 365 + 1) in
  let r := n - days_before_year y in
  let m := month_of 12 y r 12 in
  Date y m (r - days_before_month y m + 1).

Definition date_leb (a b : date) : bool := ordinal a <=? ordinal b.

(** ** Time zones and datetimes *)

Class TzDatabase := {
  (** [ZoneInfo(name)] succeeds. *)
  zone_exists : pystr → bool;
  (** The offset from UTC, in microseconds, at a wall clock and fold. *)
  zone_offset : pystr → Z → bool → Z;
  (** The wall clock and fold of an instant in a zone. *)
  zone_from_utc : pystr → Z → Z * bool;
  (** The offset of the system's own zone. *)
  local_offset : Z → Z;
}.

(** A database of one zone, UTC, for concrete runs. *)
Definition UtcOnly : TzDatabase :=
  {| zone_exists n := str_eqb n (u "UTC"); zone_offset _ _ _ := 0;
     zone_from_utc _ t := (t, false); local_offset _ := 0 |}.

Inductive tz := Naive | Offset (us : Z) | Zone (name : pystr).
#[export] Instance tz_eq_dec : EqDecision tz.
Proof. solve_decision. Defined.

Record datetime := DT { wall : Z; fold : bool; tzinfo : tz }.
#[export] Instance datetime_eq_dec : EqDecision datetime.
Proof. solve_decision. Defined.

Definition sec : Z := 1000000.
Definition day_us : Z := 86400 * sec.
(** 9999-12-31T23:59:59.999999. *)
Definition max_wall : Z := days_before_year 10000 * day_us - 1.

Definition overflow : exn := exn_of OverflowError "date value out of range".

Section tz.
Context {TD : TzDatabase}.

Definition utcoffset (d : datetime) : option Z :=
  match tzinfo d with
  | Naive => None
  | Offset o => Some o
  | Zone n => Some (zone_offset n (wall d) (fold d))
  end.

Definition utc (d : datetime) : option Z :=
  match utcoffset d with Some o => Some (wall d - o) | None => None end.

Definition naive_aware : exn :=
  exn_of TypeError "can't compare offset-naive and offset-aware datetimes".

(** [d - e] in microseconds: two values of one zone subtract by wall clock,
    values of two zones subtract as instants. *)
Definition dt_sub (d e : datetime) : result Z :=
  if decide (tzinfo d = tzinfo e) then Ok (wall d - wall e)
  else match utc d, utc e with
       | Some x, Some y => Ok (x - y)
       | _, _ => Raise naive_aware
       end.

(** [d < e]. *)
Definition dt_ltb (d e : datetime) : result bool :=
  x ← dt_sub d e; Ok (x <? 0).

(** [d + timedelta(microseconds=us)]: wall-clock arithmetic; the result has
    [fold = 0]. *)
Definition dt_add (d : datetime) (us : Z) : result datetime :=
  let w := wall d + us in
  if (0 <=? w) && (w <=? max_wall) then Ok (DT w false (tzinfo d))
  else Raise overflow.

(** [d.replace(hour=0, minute=0, second=0, microsecond=0)]. *)
Definition dt_midnight (d : datetime) : datetime :=
  DT (wall d - wall d mod day_us) (fold d) (tzinfo d).

(** [d.astimezone(z)]; a naive value is read in the system's zone. *)
Definition dt_astimezone (z : tz) (d : datetime) : result datetime :=
  if decide (tzinfo d = z) then Ok d
  else
    let t := match utc d with Some t => t | None => wall d - local_offset (wall d) end in
    let '(w, f) := match z with
      | Naive => (t + local_offset t, false)
      | Offset o => (t + o, false)
      | Zone n => zone_from_utc n t
      end in
    if (0 <=? w) && (w <=? max_wall) then Ok (DT w f z) else Raise overflow.
End tz.

(** [datetime(y, m, d, h, mi, s, us, tzinfo=z)]. *)
Definition make_datetime (y m d h mi s us : Z) (z : tz) : result datetime :=
  dt ← make_date y m d;
  if (0 <=? h) && (h <=? 23) && (0 <=? mi) && (mi <=? 59) && (0 <=? s) && (s <=? 59)
     && (0 <=? us) && (us <=? 999999)
  then Ok (DT (ordinal dt * day_us + ((h * 60 + mi) * 60 + s) * sec + us) false z)
  else Raise (exn_of ValueError "hour must be in 0..23").

(** ** ISO 8601 *)

(** [n] in decimal, padded with zeros to [w] digits. *)
Fixpoint digits (w : nat) (n : Z) : pystr :=
  match w with
  | O => []
  | S w' => digits w' (n / 10) ++ [48 + n mod 10]
  end.

Definition iso_date (d : date) : pystr :=
  digits 4 (year d) ++ 45 :: digits 2 (month d) ++ 45 :: digits 2 (day d).

Definition iso_time (us : Z) : pystr :=
  let s := us / sec in
  digits 2 (s / 3600) ++ 58 :: digits 2 (s / 60 mod 60) ++ 58 :: digits 2 (s mod 60)
  ++ (if us mod sec =? 0 then [] else 46 :: digits 6 (us mod sec)).

Definition iso_offset (o : Z) : pystr :=
  let a := Z.abs o in
  let s := a / sec in
  (if o <? 0 then 45 else 43) :: digits 2 (s / 3600) ++ 58 :: digits 2 (s / 60 mod 60)
  ++ (if s mod 60 =? 0 then if a mod sec =? 0 then [] else 58 :: digits 2 0
      else 58 :: digits 2 (s mod 60))
  ++ (if a mod sec =? 0 then [] else 46 :: digits 6 (a mod sec)).

(** [d.isoformat()]. *)
Definition isoformat {TD : TzDatabase} (d : datetime) : pystr :=
  iso_date (date_of_ordinal (wall d / day_us)) ++ 84 :: iso_time (wall d mod day_us)
  ++ match utcoffset d with Some o => iso_offset o | None => [] end.
