(* ===== verification/IsoTime.v ===== *)
(** * ISO 8601 text

    [datetime.fromisoformat], and why comparing the canonical text of two instants
    compares the instants: the order every log query relies on. *)
From S2P Require Import Prelude.
From S2P Require Import PyStr.
From S2P Require Import JsonParse.
From S2P Require Import PyTime.

(** ** Parsing *)

Definition iso_error : exn := exn_of ValueError "Invalid isoformat string".

(** Exactly [w] ASCII digits at the head of [s]. *)
Definition num (w : nat) (s : pystr) : option Z :=
  let d := take w s in
  if (length d =? w)%nat && forallb ascii_digit d then Some (digits_value d) else None.

Definition char_at (n : nat) (s : pystr) : Z := nth n s 0.

(** The length of the leading run of digits. *)
Definition digit_run (s : pystr) : nat := length (span_digits s).1.

(** [_find_isoformat_datetime_separator]. *)
Definition find_separator (s : pystr) : option nat :=
  let n := length s in
  if (n =? 7)%nat then Some 7%nat
  else if char_at 4 s =? 45 then
    if char_at 5 s =? 87 then
      if (8 <? n)%nat && (char_at 8 s =? 45) then
        if (n =? 9)%nat then None
        else if (10 <? n)%nat && ascii_digit (char_at 10 s) then Some 8%nat
        else Some 10%nat
      else Some 8%nat
    else Some 10%nat
  else if char_at 4 s =? 87 then
    let i := (7 + digit_run (drop 7 s))%nat in
    if (i <? 9)%nat then Some i else if Nat.even i then Some 7%nat else Some 8%nat
  else Some 8%nat.

(** The Monday of the first ISO week of a year. *)
Definition iso_week1_monday (y : Z) : Z :=
  let first := ordinal (Date y 1 1) in
  let weekday := first mod 7 in
  first - weekday + (if 3 <? weekday then 7 else 0).

Definition date_of_iso_week (y w d : Z) : option date :=
  let first := (ordinal (Date y 1 1) + 1) mod 7 in
  let week_ok := ((0 <? w) && (w <? 53))
    || ((w =? 53) && ((first =? 4) || ((first =? 3) && is_leap y))) in
  if (1 <=? y) && (y <=? 9999) && week_ok && (0 <? d) && (d <? 8)
  then Some (date_of_ordinal (iso_week1_monday y + (w - 1) * 7 + (d - 1)))
  else None.

(** [_parse_isoformat_date] on the part before the separator. *)
Definition parse_date (s : pystr) : option date :=
  y ← num 4 s;
  let sep := char_at 4 s =? 45 in
  let p := if sep then 5%nat else 4%nat in
  if char_at p s =? 87 then
    w ← num 2 (drop (p + 1) s);
    match drop (p + 3) s with
    | [] => date_of_iso_week y w 1
    | rest =>
        if negb (Bool.eqb (char_at 0 rest =? 45) sep) then None
        else d ← num 1 (if sep then drop 1 rest else rest); date_of_iso_week y w d
    end
  else
    m ← num 2 (drop p s);
    let rest := drop (p + 2) s in
    if negb (Bool.eqb (char_at 0 rest =? 45) sep) then None
    else d ← num 2 (if sep then drop 1 rest else rest); Some (Date y m d).

(** The components after the first; [n] of them at most. *)
Fixpoint more_components (n : nat) (sep : bool) (s : pystr) : option (list Z * pystr) :=
  v ← num 2 s;
  match n, drop 2 s with
  | S n', c :: rest =>
      if sep && negb (c =? 58) then None
      else '(vs, r) ← more_components n' sep (if sep then rest else c :: rest);
           Some (v :: vs, r)
  | _, rest => Some ([v], rest)
  end.

(** A fraction of a second as microseconds; further digits are dropped. *)
Definition parse_fraction (s : pystr) : option Z :=
  match s with
  | [] => Some 0
  | c :: d =>
      if negb ((c =? 46) || (c =? 44)) then None
      else match d with
           | [] => None
           | _ => if forallb ascii_digit d
                  then let f := take 6 d in
                       Some (digits_value f * 10 ^ (6 - len f))
                  else None
           end
  end.

(** [_parse_hh_mm_ss_ff], in microseconds with its components. *)
Definition parse_components (s : pystr) : option (Z * Z * Z * Z) :=
  let sep := char_at 2 s =? 58 in
  '(vs, rest) ← more_components 2 sep s;
  us ← parse_fraction rest;
  Some (nth 0 vs 0, nth 1 vs 0, nth 2 vs 0, us).

(** The position after the first [c], or 0. *)
Fixpoint after (c : Z) (s : pystr) : nat :=
  match s with
  | [] => 0
  | d :: s' => if c =? d then 1 else match after c s' with O => O | S k => S (S k) end
  end.

(** [_parse_isoformat_time]: the clock and the zone. *)
Definition parse_time (s : pystr) : option (Z * Z * Z * Z * tz) :=
  if (length s <? 2)%nat then None else
  let p := match after 45 s with
    | O => match after 43 s with O => after 90 s | k => k end
    | k => k end in
  match p with
  | O => '(h, m, sec, us) ← parse_components s; Some (h, m, sec, us, Naive)
  | S q =>
      '(h, m, sec, us) ← parse_components (take q s);
      if (p =? length s)%nat && (char_at q s =? 90) then Some (h, m, sec, us, Offset 0)
      else
        let t := drop p s in
        if existsb (Nat.eqb (length t)) [0; 1; 3]%nat then None
        else
          '(zh, zm, zs, zus) ← parse_components t;
          let o := ((zh * 60 + zm) * 60 + zs) * PyTime.sec + zus in
          let o := if char_at q s =? 45 then - o else o in
          if (- day_us <? o) && (o <? day_us) then Some (h, m, sec, us, Offset o) else None
  end.

(** [datetime.fromisoformat(s)]. *)
Definition fromisoformat (s : pystr) : result datetime :=
  if (length s <? 7)%nat then Raise iso_error else
  match find_separator s with
  | None => Raise iso_error
  | Some p =>
      match parse_date (take p s) with
      | None => Raise iso_error
      | Some d =>
          match drop (p + 1) s with
          | [] => make_datetime (year d) (month d) (day d) 0 0 0 0 Naive
          | t => match parse_time t with
                 | None => Raise iso_error
                 | Some (h, mi, s, us, z) =>
                     make_datetime (year d) (month d) (day d) h mi s us z
                 end
          end
      end
  end.

Example iso_z : fromisoformat (u "2026-09-24T10:00:00.5+08:00")
  = Ok (DT (ordinal (Date 2026 9 24) * day_us + (36000 * 1000000 + 500000)) false
          (Offset (8 * 3600 * 1000000))).
Proof. by vm_compute. Qed.

Example iso_week : fromisoformat (u "2026-W39-4")
  = make_datetime 2026 9 24 0 0 0 0 Naive.
Proof. by vm_compute. Qed.

Example iso_bad : fromisoformat (u "2026-02-30T10:00") = Raise (exn_of ValueError "day is out of range for month").
Proof. by vm_compute. Qed.

(** ** The calendar *)

(** A quotient steps exactly at the multiples. *)
Lemma div_step y k :
  0 < k → y / k = (y - 1) / k + (if y mod k =? 0 then 1 else 0).
Proof.
  intros Hk. pose proof (Z.div_mod y k ltac:(lia)).
  destruct (Z.eqb_spec (y mod k) 0) as [H0|H0].
  - assert ((y - 1) / k = y / k - 1); [|lia].
    symmetry. apply (Z.div_unique _ _ _ (k - 1)); [lia|nia].
  - assert (0 ≤ y mod k < k) by (apply Z.mod_pos_bound; lia).
    assert ((y - 1) / k = y / k); [|lia].
    symmetry. apply (Z.div_unique _ _ _ (y mod k - 1)); lia.
Qed.

Lemma multiple_of y a b : 0 < a → 0 < b → y mod (a * b) = 0 → y mod a = 0.
Proof.
  intros Ha Hb H. apply Z.mod_divide in H; [|lia]. apply Z.mod_divide; [lia|].
  destruct H as [k ->]. exists (k * b). lia.
Qed.

Lemma days_before_year_S y :
  days_before_year (y + 1) = days_before_year y + 365 + (if is_leap y then 1 else 0).
Proof.
  unfold days_before_year, is_leap. replace (y + 1 - 1) with y by lia.
  pose proof (div_step y 4 ltac:(lia)). pose proof (div_step y 100 ltac:(lia)).
  pose proof (div_step y 400 ltac:(lia)).
  pose proof (multiple_of y 4 25 ltac:(lia) ltac:(lia)) as H4.
  pose proof (multiple_of y 100 4 ltac:(lia) ltac:(lia)) as H100.
  change (4 * 25) with 100 in H4. change (100 * 4) with 400 in H100.
  destruct (Z.eqb_spec (y mod 4) 0), (Z.eqb_spec (y mod 100) 0),
    (Z.eqb_spec (y mod 400) 0); cbn [andb orb negb]; try tauto; lia.
Qed.

Lemma days_before_year_mono y z : y ≤ z → days_before_year y ≤ days_before_year z.
Proof.
  intros H. replace z with (y + Z.of_nat (Z.to_nat (z - y))) by lia.
  induction (Z.to_nat (z - y)) as [|k IH]; [by rewrite Z.add_0_r|].
  rewrite Nat2Z.inj_succ, <- Z.add_1_r, Z.add_assoc, days_before_year_S.
  destruct (is_leap _); lia.
Qed.

(** The search for the year ends on the year of the day. *)
Lemma year_of_spec n fuel y :
  n < days_before_year (y + 1) → days_before_year (y + 1 - Z.of_nat fuel) ≤ n →
  (0 < fuel)%nat →
  let r := year_of fuel n y in
  days_before_year r ≤ n < days_before_year (r + 1) ∧ y + 1 - Z.of_nat fuel ≤ r ≤ y.
Proof.
  revert y. induction fuel as [|fuel IH]; intros y Hlt Hle Hf r; [lia|].
  assert (r = if days_before_year y <=? n then y else year_of fuel n (y - 1)) as Hr
    by reflexivity.
  clearbody r. destruct (Z.leb_spec (days_before_year y) n) as [H|H]; [subst r; lia|].
  destruct fuel as [|fuel].
  { replace (y + 1 - Z.of_nat 1) with y in Hle by lia. lia. }
  rewrite Hr. destruct (IH (y - 1)) as [H1 H2];
    [by replace (y - 1 + 1) with y by lia| |lia|].
  { replace (y - 1 + 1 - Z.of_nat (S fuel)) with (y + 1 - Z.of_nat (S (S fuel))) by lia.
    done. }
  split; [exact H1|]. lia.
Qed.

Definition max_days : Z := 3652059.

Lemma year_of_day n :
  0 ≤ n < max_days →
  let y := year_of 8 n (n / 365 + 1) in
  days_before_year y ≤ n < days_before_year (y + 1) ∧ 1 ≤ y ≤ 9999.
Proof.
  unfold max_days. intros Hn.
  destruct (year_of_spec n 8 (n / 365 + 1)) as [H1 H2]; [| |lia|].
  - unfold days_before_year. Z.to_euclidean_division_equations; lia.
  - unfold days_before_year. Z.to_euclidean_division_equations; lia.
  - cbn. split; [done|]. set (y := year_of 8 n (n / 365 + 1)) in *.
    assert (days_before_year 10000 = 3652059) as Hmax by by vm_compute.
    assert (days_before_year 1 = 0) as Hmin by by vm_compute.
    split.
    + destruct (Z.le_gt_cases 1 y); [done|].
      pose proof (days_before_year_mono (y + 1) 1 ltac:(lia)). lia.
    + destruct (Z.le_gt_cases y 9999); [done|].
      pose proof (days_before_year_mono 10000 y ltac:(lia)). lia.
Qed.

(** Within a year, the months depend only on whether it is a leap year. *)
Lemma days_before_month_leap y z m :
  is_leap y = is_leap z → days_before_month y m = days_before_month z m.
Proof. unfold days_before_month. by intros ->. Qed.

Lemma days_in_month_leap y z m :
  is_leap y = is_leap z → days_in_month y m = days_in_month z m.
Proof. unfold days_in_month. by intros ->. Qed.

Lemma month_of_leap y z fuel r m :
  is_leap y = is_leap z → month_of fuel y r m = month_of fuel z r m.
Proof.
  intros H. revert m. induction fuel as [|fuel IH]; intros m; [done|]. cbn [month_of].
  by rewrite (days_before_month_leap y z), IH.
Qed.

(** A leap year and a common one. *)
Definition year_like (leap : bool) : Z := if leap then 2000 else 2001.

Lemma year_like_leap y : is_leap y = is_leap (year_like (is_leap y)).
Proof. by destruct (is_leap y). Qed.

Definition month_day_ok (y r : Z) : bool :=
  let m := month_of 12 y r 12 in
  (1 <=? m) && (m <=? 12) && (days_before_month y m <=? r)
  && (r <? days_before_month y m + days_in_month y m).

Lemma month_of_day y r :
  0 ≤ r < 365 + (if is_leap y then 1 else 0) → month_day_ok y r = true.
Proof.
  intros Hr. assert (month_day_ok y r = month_day_ok (year_like (is_leap y)) r) as ->.
  { unfold month_day_ok. pose proof (year_like_leap y) as H.
    by rewrite (month_of_leap _ _ 12 r 12 H), (days_before_month_leap _ _ _ H),
      (days_in_month_leap _ _ _ H). }
  destruct (is_leap y); cbn [year_like] in *.
  - assert (r ∈ seqZ 0 366) as Hin by by apply elem_of_seqZ. clear Hr.
    revert r Hin. apply Forall_forall, (bool_decide_unpack _). by vm_compute.
  - assert (r ∈ seqZ 0 365) as Hin by by apply elem_of_seqZ. clear Hr.
    revert r Hin. apply Forall_forall, (bool_decide_unpack _). by vm_compute.
Qed.

(** Every day of years 1 to 9999 is the day of its date. *)
Lemma date_of_ordinal_spec n :
  0 ≤ n < max_days →
  valid_date (date_of_ordinal n) = true ∧ ordinal (date_of_ordinal n) = n.
Proof.
  intros Hn. destruct (year_of_day n Hn) as [Hy Hb]. unfold date_of_ordinal.
  set (y := year_of 8 n (n / 365 + 1)) in *. rewrite days_before_year_S in Hy.
  pose proof (month_of_day y (n - days_before_year y) ltac:(lia)) as Hm.
  unfold month_day_ok in Hm. set (m := month_of 12 y _ 12) in *.
  rewrite !andb_true_iff, !Z.leb_le, Z.ltb_lt in Hm.
  unfold valid_date, ordinal. cbn [year month day].
  rewrite !andb_true_iff, !Z.leb_le. lia.
Qed.

(** The months of a year follow each other. *)
Lemma days_before_month_mono y m k :
  1 ≤ m → m < k → k ≤ 12 → days_before_month y m + days_in_month y m ≤ days_before_month y k.
Proof.
  intros Hm Hmk Hk. pose proof (year_like_leap y) as H.
  rewrite (days_before_month_leap _ _ _ H), (days_in_month_leap _ _ _ H),
    (days_before_month_leap _ _ k H).
  assert (m ∈ seqZ 1 12) as Hm' by (apply elem_of_seqZ; lia).
  assert (k ∈ seqZ 1 12) as Hk' by (apply elem_of_seqZ; lia).
  apply Z.leb_le. revert Hmk. rewrite <- Z.ltb_lt. clear Hm Hk. apply implb_true_iff.
  revert k Hk'. apply Forall_forall. revert m Hm'. apply Forall_forall.
  generalize (is_leap y). intros b. clear. apply (bool_decide_unpack _). destruct b; by vm_compute.
Qed.

Lemma month_end y m :
  1 ≤ m ≤ 12 → days_before_month y m + days_in_month y m ≤ 365 + (if is_leap y then 1 else 0).
Proof.
  intros Hm. pose proof (year_like_leap y) as H.
  rewrite (days_before_month_leap _ _ _ H), (days_in_month_leap _ _ _ H).
  assert (m ∈ seqZ 1 12) as Hm' by (apply elem_of_seqZ; lia). clear Hm.
  apply Z.leb_le. revert m Hm'. apply Forall_forall.
  generalize (is_leap y). intros b. clear. apply (bool_decide_unpack _). destruct b; by vm_compute.
Qed.

Lemma days_before_month_nonneg y m : 1 ≤ m ≤ 12 → 0 ≤ days_before_month y m.
Proof.
  intros Hm. rewrite (days_before_month_leap _ _ _ (year_like_leap y)).
  assert (m ∈ seqZ 1 12) as Hm' by (apply elem_of_seqZ; lia). clear Hm.
  apply Z.leb_le. revert m Hm'. apply Forall_forall.
  generalize (is_leap y). intros b. clear. apply (bool_decide_unpack _). destruct b; by vm_compute.
Qed.

(** ** Comparing text *)

Fixpoint str_cmp (s t : pystr) : comparison :=
  match s, t with
  | [], [] => Eq
  | [], _ => Lt
  | _ :: _, [] => Gt
  | c :: s', d :: t' => match c ?= d with Eq => str_cmp s' t' | r => r end
  end.

Lemma str_leb_cmp s t : str_leb s t = true ↔ str_cmp s t ≠ Gt.
Proof.
  revert t. induction s as [|c s IH]; intros [|d t]; cbn; try done.
  destruct (Z.compare_spec c d) as [->|H|H].
  - by rewrite Z.ltb_irrefl, Z.eqb_refl, <- IH.
  - by rewrite (proj2 (Z.ltb_lt _ _)).
  - rewrite (proj2 (Z.ltb_ge _ _)), (proj2 (Z.eqb_neq _ _)) by lia. done.
Qed.

Lemma str_cmp_eq s t : str_cmp s t = Eq ↔ s = t.
Proof.
  revert t. induction s as [|c s IH]; intros [|d t]; cbn; try done.
  destruct (Z.compare_spec c d) as [->|H|H].
  - rewrite IH. split; [by intros ->|by intros [= ->]].
  - split; [done|]. intros [= -> _]. lia.
  - split; [done|]. intros [= -> _]. lia.
Qed.

Definition lex (c d : comparison) : comparison := match c with Eq => d | _ => c end.

Lemma str_cmp_app s s' t t' :
  length s = length t → str_cmp (s ++ s') (t ++ t') = lex (str_cmp s t) (str_cmp s' t').
Proof.
  revert t. induction s as [|c s IH]; intros [|d t] H; try done. cbn in *.
  destruct (c ?= d); cbn; [|done..]. by apply IH, Nat.succ_inj.
Qed.

Lemma str_cmp_cons c s t : str_cmp (c :: s) (c :: t) = str_cmp s t.
Proof. cbn. by rewrite Z.compare_refl. Qed.

Lemma compare_split k a b :
  0 < k → (a ?= b) = lex (a / k ?= b / k) (a mod k ?= b mod k).
Proof.
  intros Hk. pose proof (Z.div_mod a k ltac:(lia)). pose proof (Z.div_mod b k ltac:(lia)).
  pose proof (Z.mod_pos_bound a k Hk). pose proof (Z.mod_pos_bound b k Hk).
  destruct (Z.compare_spec (a / k) (b / k)); cbn [lex].
  - destruct (Z.compare_spec (a mod k) (b mod k)).
    + apply Z.compare_eq_iff. congruence.
    + apply Z.compare_lt_iff. nia.
    + apply Z.compare_gt_iff. nia.
  - apply Z.compare_lt_iff. nia.
  - apply Z.compare_gt_iff. nia.
Qed.

Lemma length_digits w n : length (digits w n) = w.
Proof.
  revert n. induction w as [|w IH]; intros n; [done|]. cbn. rewrite length_app, IH. cbn. lia.
Qed.

Lemma digits_cmp w a b :
  0 ≤ a < 10 ^ Z.of_nat w → 0 ≤ b < 10 ^ Z.of_nat w →
  str_cmp (digits w a) (digits w b) = (a ?= b).
Proof.
  revert a b. induction w as [|w IH]; intros a b Ha Hb.
  { cbn in *. symmetry. apply Z.compare_eq_iff. lia. }
  rewrite Nat2Z.inj_succ, Z.pow_succ_r in Ha, Hb by lia.
  cbn [digits]. rewrite str_cmp_app by by rewrite !length_digits.
  rewrite IH by (split; [apply Z.div_pos; lia|apply Z.div_lt_upper_bound; lia]).
  rewrite (compare_split 10 a b) by lia. f_equal. cbn.
  destruct (Z.compare_spec (a mod 10) (b mod 10)), (Z.compare_spec (48 + a mod 10) (48 + b mod 10));
    lia || done.
Qed.

(** ** Dates *)

Lemma ordinal_lt d e :
  valid_date d = true → valid_date e = true →
  lex (year d ?= year e) (lex (month d ?= month e) (day d ?= day e)) = Lt →
  ordinal d < ordinal e.
Proof.
  unfold valid_date. rewrite !andb_true_iff, !Z.leb_le.
  destruct d as [y m d], e as [z k e]. unfold ordinal. cbn [year month day]. intros Hd He.
  pose proof (days_before_month_nonneg z k ltac:(lia)).
  destruct (Z.compare_spec y z) as [->|Hy|?]; cbn [lex]; [| |done].
  - destruct (Z.compare_spec m k) as [->|Hm|?]; cbn [lex]; [| |done].
    + destruct (Z.compare_spec d e); [done| |done]. lia.
    + intros _. pose proof (days_before_month_mono z m k ltac:(lia) Hm ltac:(lia)). lia.
  - intros _. pose proof (days_before_year_S y).
    pose proof (days_before_year_mono (y + 1) z ltac:(lia)).
    pose proof (month_end y m ltac:(lia)). lia.
Qed.

Lemma lex_opp a b : CompOpp (lex a b) = lex (CompOpp a) (CompOpp b).
Proof. by destruct a. Qed.

Lemma ordinal_cmp d e :
  valid_date d = true → valid_date e = true →
  lex (year d ?= year e) (lex (month d ?= month e) (day d ?= day e))
  = (ordinal d ?= ordinal e).
Proof.
  intros Hd He. destruct (lex _ _) eqn:H; symmetry.
  - apply Z.compare_eq_iff. destruct (Z.compare_spec (year d) (year e)) as [Hy| |]; [|done..].
    cbn [lex] in H. destruct (Z.compare_spec (month d) (month e)) as [Hm| |]; [|done..].
    cbn [lex] in H. apply Z.compare_eq_iff in H. unfold ordinal. congruence.
  - by apply Z.compare_lt_iff, ordinal_lt.
  - apply Z.compare_gt_iff, ordinal_lt; [done|done|].
    apply (f_equal CompOpp) in H. rewrite !lex_opp, <- !Z.compare_antisym in H. exact H.
Qed.

Lemma days_in_month_bound y m : days_in_month y m ≤ 31.
Proof.
  unfold days_in_month. destruct (m =? 2); [destruct (is_leap y)|destruct (_ || _)]; lia.
Qed.

Lemma iso_date_cmp d e s t :
  valid_date d = true → valid_date e = true →
  str_cmp (iso_date d ++ s) (iso_date e ++ t) = lex (ordinal d ?= ordinal e) (str_cmp s t).
Proof.
  intros Hd He. rewrite <- ordinal_cmp by done.
  assert (∀ a, valid_date a = true → 0 ≤ year a < 10 ^ Z.of_nat 4 ∧
            0 ≤ month a < 10 ^ Z.of_nat 2 ∧ 0 ≤ day a < 10 ^ Z.of_nat 2) as Hb.
  { intros a. unfold valid_date. rewrite !andb_true_iff, !Z.leb_le.
    pose proof (days_in_month_bound (year a) (month a)). cbn. lia. }
  destruct (Hb d Hd) as (? & ? & ?), (Hb e He) as (? & ? & ?).
  unfold iso_date. rewrite str_cmp_app.
  2: { repeat (rewrite ?length_app; cbn [length]; rewrite ?length_digits). done. }
  f_equal. rewrite str_cmp_app, digits_cmp by (done || by rewrite !length_digits).
  f_equal. rewrite str_cmp_cons, str_cmp_app, digits_cmp by (done || by rewrite !length_digits).
  f_equal. by rewrite str_cmp_cons, digits_cmp.
Qed.

(** ** Times of day *)

(** The fraction and the offset of a UTC time: a point comes after a plus sign. *)
Definition iso_tail (us : Z) : pystr :=
  (if us mod sec =? 0 then [] else 46 :: digits 6 (us mod sec)) ++ u "+00:00".

Lemma iso_tail_cmp a b :
  str_cmp (iso_tail a) (iso_tail b) = (a mod sec ?= b mod sec).
Proof.
  unfold iso_tail. assert (∀ x, 0 ≤ x mod sec < 10 ^ Z.of_nat 6) as Hb.
  { intros x. by apply Z.mod_pos_bound. }
  pose proof (Hb a) as Ha. pose proof (Hb b) as Hb'.
  destruct (Z.eqb_spec (a mod sec) 0) as [->|], (Z.eqb_spec (b mod sec) 0) as [->|].
  - done.
  - change (Lt = (0 ?= b mod sec)). symmetry. apply Z.compare_lt_iff. lia.
  - change (Gt = (a mod sec ?= 0)). symmetry. apply Z.compare_gt_iff. lia.
  - cbn [app]. rewrite str_cmp_cons, str_cmp_app, digits_cmp
      by (done || by rewrite !length_digits).
    by destruct (_ ?= _).
Qed.

Lemma two_digits n : 0 ≤ n < 60 → 0 ≤ n < 10 ^ Z.of_nat 2.
Proof. cbn. lia. Qed.

Lemma iso_time_cmp a b :
  0 ≤ a < day_us → 0 ≤ b < day_us →
  str_cmp (iso_time a ++ u "+00:00") (iso_time b ++ u "+00:00") = (a ?= b).
Proof.
  intros Ha Hb. rewrite (compare_split sec a b) by done.
  rewrite (compare_split 60 (a / sec)), (compare_split 60 (a / sec / 60)) by lia.
  rewrite !Z.div_div by done. change (60 * 60) with 3600.
  assert (∀ x, 0 ≤ x < day_us → 0 ≤ x / (sec * 3600) < 60) as H1.
  { intros x Hx. unfold day_us, sec in *.
    split; [apply Z.div_pos; lia|apply Z.div_lt_upper_bound; lia]. }
  assert (∀ x, 0 ≤ x mod 60 < 60) as H2 by (intros; apply Z.mod_pos_bound; lia).
  assert (∀ x, iso_time x ++ u "+00:00"
     = digits 2 (x / (sec * 3600)) ++ 58 :: digits 2 (x / (sec * 60) mod 60)
       ++ 58 :: digits 2 (x / sec mod 60) ++ iso_tail x) as Hs.
  { intros x. unfold iso_time, iso_tail. rewrite !Z.div_div by done.
    rewrite <- !app_assoc. cbn [app]. by rewrite <- !app_assoc. }
  rewrite !Hs.
  rewrite str_cmp_app, digits_cmp, str_cmp_cons by
    (first [by rewrite !length_digits | apply two_digits; auto]).
  rewrite str_cmp_app, digits_cmp, str_cmp_cons by
    (first [by rewrite !length_digits | apply two_digits; auto]).
  rewrite str_cmp_app, digits_cmp, iso_tail_cmp by
    (first [by rewrite !length_digits | apply two_digits; auto]).
  by destruct (_ ?= _), (_ ?= _), (_ ?= _).
Qed.

(** ** UTC text *)

Definition in_range (d : datetime) : Prop := 0 ≤ wall d ≤ max_wall.

Section utc_text.
Context {TD : TzDatabase}.

(** The text of UTC datetimes compares as their instants. *)
Lemma isoformat_cmp d e :
  in_range d → in_range e → tzinfo d = Offset 0 → tzinfo e = Offset 0 →
  str_cmp (isoformat d) (isoformat e) = (wall d ?= wall e).
Proof.
  unfold in_range. intros Hd He Hz Hz'. unfold isoformat, utcoffset. rewrite Hz, Hz'.
  change (iso_offset 0) with (u "+00:00").
  assert (∀ w, 0 ≤ w ≤ max_wall → 0 ≤ w / day_us < max_days) as Hday.
  { intros w Hw. split; [apply Z.div_pos; [lia|done]|].
    apply Z.div_lt_upper_bound; [done|]. unfold max_wall in Hw.
    change (days_before_year 10000) with max_days in Hw. lia. }
  destruct (date_of_ordinal_spec _ (Hday _ Hd)) as [Hv Ho].
  destruct (date_of_ordinal_spec _ (Hday _ He)) as [Hv' Ho'].
  rewrite iso_date_cmp, Ho, Ho', str_cmp_cons by done.
  rewrite iso_time_cmp by by apply Z.mod_pos_bound.
  symmetry. by apply compare_split.
Qed.

Lemma make_datetime_range y m d h mi s us z x :
  make_datetime y m d h mi s us z = Ok x → in_range x ∧ tzinfo x = z.
Proof.
  unfold make_datetime, make_date. destruct (valid_date (Date y m d)) eqn:Hv; [|done].
  cbn [mbind result_bind]. destruct (_ && _) eqn:Hb; [|done]. intros [= <-].
  rewrite !andb_true_iff, !Z.leb_le in Hb. unfold in_range. cbn [wall tzinfo]. split; [|done].
  assert (0 ≤ ordinal (Date y m d) < max_days) as Ho.
  { unfold valid_date in Hv. rewrite !andb_true_iff, !Z.leb_le in Hv. cbn in Hv.
    unfold ordinal. cbn [year month day].
    pose proof (days_before_month_nonneg y m ltac:(lia)).
    pose proof (month_end y m ltac:(lia)). pose proof (days_before_year_S y).
    pose proof (days_before_year_mono 1 y ltac:(lia)).
    pose proof (days_before_year_mono (y + 1) 10000 ltac:(lia)).
    change (days_before_year 1) with 0 in *.
    change (days_before_year 10000) with max_days in *. lia. }
  unfold max_wall. change (days_before_year 10000) with max_days.
  unfold max_days, day_us, sec in *. lia.
Qed.

Lemma fromisoformat_range s x : fromisoformat s = Ok x → in_range x.
Proof.
  unfold fromisoformat. destruct (_ <? _)%nat; [done|]. destruct (find_separator s); [|done].
  destruct (parse_date _) as [d|]; [|done]. destruct (drop _ _) as [|c t].
  - by intros [H _]%make_datetime_range.
  - destruct (parse_time _) as [[[[[h mi] sc] us] z]|]; [|done].
    by intros [H _]%make_datetime_range.
Qed.

Lemma astimezone_range z d x :
  dt_astimezone z d = Ok x → in_range d → in_range x ∧ tzinfo x = z.
Proof.
  unfold dt_astimezone. destruct (decide (tzinfo d = z)) as [Hz|_].
  { by intros [= <-]. }
  destruct (match z with Naive => _ | _ => _ end) as [w f].
  destruct (_ && _) eqn:Hb; [|done]. intros [= <-] _.
  rewrite andb_true_iff, !Z.leb_le in Hb. done.
Qed.
End utc_text.

(** ** Reading back what is printed *)

Lemma digits_value_snoc d c : digits_value (d ++ [c]) = digits_value d * 10 + (c - 48).
Proof. unfold digits_value. by rewrite foldl_app. Qed.

Lemma digits_spec w n :
  0 ≤ n < 10 ^ Z.of_nat w →
  digits_value (digits w n) = n ∧ forallb ascii_digit (digits w n) = true.
Proof.
  revert n. induction w as [|w IH]; intros n Hn.
  { cbn in *. split; [|done]. lia. }
  rewrite Nat2Z.inj_succ, Z.pow_succ_r in Hn by lia. cbn [digits].
  destruct (IH (n / 10)) as [Hv Hd].
  { split; [apply Z.div_pos; lia|apply Z.div_lt_upper_bound; lia]. }
  pose proof (Z.div_mod n 10 ltac:(lia)). pose proof (Z.mod_pos_bound n 10 ltac:(lia)).
  rewrite digits_value_snoc, Hv, forallb_app, Hd. split; [lia|].
  cbn. unfold ascii_digit. lia.
Qed.

Lemma take_digits w n rest : take w (digits w n ++ rest) = digits w n.
Proof. rewrite <- (length_digits w n) at 1. apply take_app_length. Qed.

Lemma drop_digits k w n rest : drop (w + k) (digits w n ++ rest) = drop k rest.
Proof. rewrite <- (length_digits w n) at 1. rewrite <- drop_drop. by rewrite drop_app_length. Qed.

Lemma char_at_digits k w n rest : char_at (w + k) (digits w n ++ rest) = char_at k rest.
Proof.
  unfold char_at. rewrite app_nth2; rewrite length_digits; [|lia]. f_equal. lia.
Qed.

Lemma num_digits w n rest :
  0 ≤ n < 10 ^ Z.of_nat w → num w (digits w n ++ rest) = Some n.
Proof.
  intros Hn. destruct (digits_spec w n Hn) as [Hv Hd]. unfold num.
  by rewrite take_digits, length_digits, Nat.eqb_refl, Hd, Hv.
Qed.

Lemma parse_date_iso d :
  valid_date d = true → parse_date (iso_date d) = Some d.
Proof.
  intros Hv. unfold valid_date in Hv. rewrite !andb_true_iff, !Z.leb_le in Hv.
  pose proof (days_in_month_bound (year d) (month d)). destruct d as [y m d].
  cbn [year month day] in *. unfold iso_date, parse_date. cbn [year month day].
  rewrite num_digits by (cbn; lia). cbn [mbind option_bind].
  pose proof (char_at_digits 0 4 y) as C0. cbn [Nat.add] in C0.
  rewrite C0. change (char_at 0 (45 :: digits 2 m ++ 45 :: digits 2 d) =? 45) with true. cbn iota zeta.
  pose proof (char_at_digits 1 4 y) as C1. cbn [Nat.add] in C1. rewrite C1.
  pose proof (drop_digits 1 4 y) as D1. cbn [Nat.add] in D1. rewrite D1. cbn [drop].
  assert ((char_at 1 (45 :: digits 2 m ++ 45 :: digits 2 d) =? 87) = false) as ->.
  { destruct (digits_spec 2 m ltac:(cbn; lia)) as [_ Hm].
    pose proof (length_digits 2 m) as Hl.
    destruct (digits 2 m) as [|a l]; [done|]. cbn in Hm |- *. unfold ascii_digit in Hm. lia. }
  rewrite !drop_0, num_digits by (cbn; lia). cbn [mbind option_bind].
  assert (drop (5 + 2) (digits 4 y ++ 45 :: digits 2 m ++ 45 :: digits 2 d)
          = 45 :: digits 2 d) as ->.
  { pose proof (drop_digits 3 4 y) as D3. cbn [Nat.add] in D3 |- *. rewrite D3. cbn [drop].
    exact (drop_digits 0 2 m _). }
  cbn [drop]. change (char_at 0 (45 :: digits 2 d)) with 45. cbn [Z.eqb Pos.eqb Bool.eqb negb].
  pose proof (num_digits 2 d []) as Hd. rewrite app_nil_r in Hd.
  rewrite drop_0. by rewrite Hd by (cbn; lia).
Qed.

(** The date of a UTC text is its first ten characters. *)
Lemma length_iso_date d : length (iso_date d) = 10%nat.
Proof. unfold iso_date. repeat (rewrite ?length_app; cbn [length]; rewrite ?length_digits). done. Qed.

(** *** Times *)

Definition clock_ok (h m s : Z) : Prop := 0 ≤ h < 24 ∧ 0 ≤ m < 60 ∧ 0 ≤ s < 60.

Lemma parse_components_iso h m s rest :
  clock_ok h m s →
  parse_components (digits 2 h ++ 58 :: digits 2 m ++ 58 :: digits 2 s ++ rest)
  = us ← parse_fraction rest; Some (h, m, s, us).
Proof.
  intros (Hh & Hm & Hs). unfold parse_components.
  pose proof (λ r, char_at_digits 0 2 h r) as C0. cbn [Nat.add] in C0. rewrite C0.
  change (char_at 0 (58 :: digits 2 m ++ 58 :: digits 2 s ++ rest) =? 58) with true.
  assert (∀ x r, drop 2 (digits 2 x ++ r) = r) as D.
  { intros x r. pose proof (drop_digits 0 2 x r) as D. cbn [Nat.add drop] in D. exact D. }
  cbn [more_components]. rewrite num_digits by (cbn; lia). cbn [mbind option_bind].
  rewrite D. cbn [andb negb Z.eqb Pos.eqb].
  rewrite num_digits by (cbn; lia). cbn [mbind option_bind].
  rewrite D. cbn [andb negb Z.eqb Pos.eqb].
  rewrite num_digits by (cbn; lia). cbn [mbind option_bind]. rewrite D. done.
Qed.

Lemma after_app c a b : c ∉ a → after c (a ++ c :: b) = S (length a).
Proof.
  induction a as [|d a IH]; cbn; [by rewrite Z.eqb_refl|].
  intros [Hd Ha]%not_elem_of_cons. rewrite (proj2 (Z.eqb_neq _ _) Hd). by rewrite IH.
Qed.

Lemma after_none c s : c ∉ s → after c s = O.
Proof.
  induction s as [|d s IH]; cbn; [done|].
  intros [Hd Hs]%not_elem_of_cons. rewrite (proj2 (Z.eqb_neq _ _) Hd). by rewrite IH.
Qed.

Lemma digits_range w n c : c ∈ digits w n → 48 ≤ c < 58.
Proof.
  revert n. induction w as [|w IH]; intros n; cbn; [by intros ?%not_elem_of_nil|].
  rewrite elem_of_app, list_elem_of_singleton. intros [H| ->]; [by eapply IH|].
  pose proof (Z.mod_pos_bound n 10 ltac:(lia)). lia.
Qed.

(** The time of a whole second, and of its fraction. *)
Definition iso_fraction (us : Z) : pystr := if us =? 0 then [] else 46 :: digits 6 us.

Lemma parse_fraction_iso us : 0 ≤ us < sec → parse_fraction (iso_fraction us) = Some us.
Proof.
  intros Hus. unfold iso_fraction. destruct (Z.eqb_spec us 0) as [->|Hne]; [done|].
  destruct (digits_spec 6 us Hus) as [Hv Hd]. pose proof (length_digits 6 us) as Hl.
  cbn [parse_fraction Z.eqb Pos.eqb orb negb].
  destruct (digits 6 us) as [|c l] eqn:He; [done|]. rewrite <- He in *. rewrite Hd.
  rewrite take_ge by lia. unfold len. rewrite Hl, Hv. f_equal. cbn. lia.
Qed.

Lemma time_chars us c : c ∈ iso_time us → 48 ≤ c ≤ 58 ∨ c = 46.
Proof.
  unfold iso_time. rewrite !elem_of_app, !elem_of_cons, !elem_of_app, !elem_of_cons, !elem_of_app.
  intros [H|[->|[H|[->|[H|H]]]]]; try (apply digits_range in H); try lia.
  destruct (us mod sec =? 0); [by apply not_elem_of_nil in H|].
  apply elem_of_cons in H as [->|H%digits_range]; lia.
Qed.

Lemma iso_components us :
  0 ≤ us < day_us →
  parse_components (iso_time us)
  = Some (us / sec / 3600, us / sec / 60 mod 60, us / sec mod 60, us mod sec).
Proof.
  intros Hus. unfold iso_time. fold (iso_fraction (us mod sec)).
  rewrite parse_components_iso.
  - by rewrite parse_fraction_iso by by apply Z.mod_pos_bound.
  - unfold clock_ok, day_us, sec in *.
    pose proof (Z.mod_pos_bound (us / 1000000) 60 ltac:(lia)).
    pose proof (Z.mod_pos_bound (us / 1000000 / 60) 60 ltac:(lia)).
    rewrite (Z.div_div us 1000000 3600) by lia.
    split; [split; [apply Z.div_pos; lia|apply Z.div_lt_upper_bound; lia]|done].
Qed.

(** A clock without signs, followed by the offset of UTC. *)
Lemma parse_time_utc t h m s f :
  45 ∉ t → 43 ∉ t → (2 <= length t)%nat → parse_components t = Some (h, m, s, f) →
  parse_time (t ++ u "+00:00") = Some (h, m, s, f, Offset 0).
Proof.
  intros Hm Hp Hlen Hc. assert (after 43 (t ++ u "+00:00") = S (length t)) as Hp'
    by by apply (after_app 43 _ (u "00:00")).
  assert (after 45 (t ++ u "+00:00") = O) as Hm'.
  { apply after_none. rewrite elem_of_app. intros [H|H]; [done|].
    apply list_elem_of_In in H. vm_compute in H. by repeat destruct H as [H|H]. }
  unfold parse_time. rewrite Hm', Hp'.
  rewrite (proj2 (Nat.ltb_ge _ _)) by (rewrite length_app; lia).
  rewrite take_app_length, Hc. cbn [mbind option_bind].
  rewrite (proj2 (Nat.eqb_neq (S (length t)) _))
    by (rewrite length_app; vm_compute (length (u "+00:00")); lia).
  replace (drop (S (length t)) (t ++ u "+00:00")) with (u "00:00").
  2: { replace (S (length t)) with (length t + 1)%nat by lia.
       by rewrite <- drop_drop, drop_app_length. }
  replace (char_at (length t) (t ++ u "+00:00")) with 43; [by vm_compute|].
  unfold char_at. by rewrite app_nth2, Nat.sub_diag by lia.
Qed.

Lemma parse_time_iso us :
  0 ≤ us < day_us →
  parse_time (iso_time us ++ u "+00:00")
  = Some (us / sec / 3600, us / sec / 60 mod 60, us / sec mod 60, us mod sec, Offset 0).
Proof.
  intros Hus. apply parse_time_utc; [| | |by apply iso_components].
  - intros Hin%time_chars. lia.
  - intros Hin%time_chars. lia.
  - unfold iso_time. rewrite length_app, length_digits. lia.
Qed.

Lemma find_separator_iso d t :
  valid_date d = true → find_separator (iso_date d ++ 84 :: t) = Some 10%nat.
Proof.
  intros Hv. unfold valid_date in Hv. rewrite !andb_true_iff, !Z.leb_le in Hv.
  pose proof (length_iso_date d) as Hl.
  unfold find_separator. rewrite length_app, Hl. cbn [length].
  rewrite (proj2 (Nat.eqb_neq _ _)) by lia.
  unfold iso_date. rewrite <- !app_assoc. cbn [app]. rewrite <- !app_assoc. cbn [app].
  pose proof (λ r, char_at_digits 0 4 (year d) r) as C0. cbn [Nat.add] in C0. rewrite C0.
  pose proof (λ r, char_at_digits 1 4 (year d) r) as C1. cbn [Nat.add] in C1. rewrite C1.
  change (char_at 0 (45 :: digits 2 (month d) ++ 45 :: digits 2 (day d) ++ 84 :: t) =? 45)
    with true. cbn iota.
  assert ((char_at 1 (45 :: digits 2 (month d) ++ 45 :: digits 2 (day d) ++ 84 :: t) =? 87)
          = false) as ->; [|done].
  destruct (digits_spec 2 (month d) ltac:(cbn; lia)) as [_ Hm].
  pose proof (length_digits 2 (month d)) as Hl2.
  destruct (digits 2 (month d)) as [|a l]; [done|]. cbn in Hm |- *. unfold ascii_digit in Hm. lia.
Qed.

Section roundtrip.
Context {TD : TzDatabase}.

(** Reading the text of a UTC instant gives the instant. *)
Lemma fromisoformat_isoformat w :
  0 ≤ w ≤ max_wall →
  fromisoformat (isoformat (DT w false (Offset 0))) = Ok (DT w false (Offset 0)).
Proof.
  intros Hw. unfold isoformat. cbn [utcoffset tzinfo wall].
  change (iso_offset 0) with (u "+00:00").
  assert (0 ≤ w / day_us < max_days) as Hday.
  { split; [apply Z.div_pos; [lia|done]|]. apply Z.div_lt_upper_bound; [done|].
    unfold max_wall in Hw. change (days_before_year 10000) with max_days in Hw. lia. }
  destruct (date_of_ordinal_spec _ Hday) as [Hv Ho].
  set (d := date_of_ordinal (w / day_us)) in *. clearbody d.
  pose proof (Z.mod_pos_bound w day_us ltac:(done)) as Hus.
  pose proof (Z.div_mod w day_us ltac:(done)) as Hdm.
  set (us := w mod day_us) in *. clearbody us.
  unfold fromisoformat.
  rewrite (proj2 (Nat.ltb_ge _ _)) by (rewrite length_app, length_iso_date; lia).
  rewrite find_separator_iso by done.
  replace (take 10 (iso_date d ++ 84 :: iso_time us ++ u "+00:00")) with (iso_date d).
  2: { rewrite <- (length_iso_date d). by rewrite take_app_length. }
  rewrite parse_date_iso by done.
  replace (drop (10 + 1) (iso_date d ++ 84 :: iso_time us ++ u "+00:00"))
    with (iso_time us ++ u "+00:00").
  2: { rewrite <- (length_iso_date d) at 1. by rewrite <- drop_drop, drop_app_length. }
  destruct (iso_time us ++ u "+00:00") eqn:He; [by apply app_nil in He as [_ He]|].
  rewrite <- He, parse_time_iso by done. clear He. unfold make_datetime, make_date. destruct d as [y m dd]. cbn [year month day].
  rewrite Hv. cbn [mbind result_bind].
  assert (0 ≤ us / sec < 86400) as Hs.
  { unfold day_us, sec in *. split; [apply Z.div_pos; lia|apply Z.div_lt_upper_bound; lia]. }
  pose proof (Z.div_mod us sec ltac:(done)). pose proof (Z.mod_pos_bound us sec ltac:(done)).
  set (s := us / sec) in *. clearbody s.
  assert (s = (s / 3600 * 60 + s / 60 mod 60) * 60 + s mod 60) as Hparts.
  { pose proof (Z.div_mod s 60 ltac:(lia)). pose proof (Z.div_mod (s / 60) 60 ltac:(lia)).
    rewrite Z.div_div in * by lia. change (60 * 60) with 3600 in *. lia. }
  pose proof (Z.mod_pos_bound s 60 ltac:(lia)). pose proof (Z.mod_pos_bound (s / 60) 60 ltac:(lia)).
  assert (0 ≤ s / 3600 < 24) by
    (split; [apply Z.div_pos; lia|apply Z.div_lt_upper_bound; lia]).
  destruct (_ && _) eqn:Hb.
  - do 2 f_equal. rewrite Ho. rewrite <- Hparts. unfold sec in *. lia.
  - exfalso. apply not_true_iff_false in Hb. apply Hb.
    rewrite !andb_true_iff, !Z.leb_le. unfold sec in *. lia.
Qed.
End roundtrip.
