(* ===== verification/LogStore.v ===== *)
(** * The log store (demo/log_store.py)

    [query] and [catalog] over the table of logs.  A select is the comprehension it
    denotes; the table is the list of its rows in the order an unordered select
    delivers them.  What SQLite computes on a payload (the LEVEL expression) and its
    full-text index are parameters. *)
From S2P Require Import Prelude.
From S2P Require Import PyStr.
From S2P Require Import PyRe.
From S2P Require Import Json.
From S2P Require Import JsonParse.
From S2P Require Import PyTime.
From S2P Require Import IsoTime.

Definition ERROR_LEVELS : list pystr :=
  u <$> ["ERROR"; "FATAL"; "SEVERE"; "FAILURE"; "WARN"; "WARNING"; "CRITICAL"; "ALERT";
         "EMERG"]%string.

(** A row of [logs(id, service, event_time, payload)]. *)
Record row := Row { rid : Z; rservice : pystr; rtime : pystr; rpayload : pystr }.
#[export] Instance row_eq_dec : EqDecision row.
Proof. solve_decision. Defined.

(** [order by event_time, id]. *)
Definition row_leb (a b : row) : bool :=
  negb (str_leb (rtime b) (rtime a))
  || (str_eqb (rtime a) (rtime b) && (rid a <=? rid b)).

(** [(event_time, id) > (t, n)]. *)
Definition row_after (t : pystr) (n : Z) (r : row) : bool :=
  negb (str_leb (rtime r) t) || (str_eqb (rtime r) t && (n <? rid r)).

(** What the control plane authorizes: a service and a window. *)
Record LogScope := { log_service : pystr; log_start : pystr; log_end : pystr }.

Definition invalid (msg : string) : exn := exn_of ValueError msg.

(** [sum(l)]. *)
Definition total_of (l : list Z) : Z := foldr Z.add 0 l.

(** [any(p(x) for x in l)] where the test may raise. *)
Fixpoint any_r {A} (p : A → result bool) (l : list A) : result bool :=
  match l with
  | [] => Ok false
  | x :: l' => b ← p x; if b : bool then Ok true else any_r p l'
  end.

Section log_store.
Context {JR : JsonRuntime} {TD : TzDatabase} {UT : UnicodeTables}.
Variable container_repr : json → pystr.
(** The value of the LEVEL expression on a payload. *)
Variable level_of : pystr → pystr.
(** [select rowid from logs_fts where logs_fts match ?] contains the row. *)
Variable fts : pystr → Z → bool.
(** The rows, in scan order. *)
Variable db : list row.

(** [canonical(value)]. *)
Definition canonical (value : pystr) : result pystr :=
  d ← fromisoformat (replace1 90 (u "+00:00") value);
  d ← dt_astimezone (Offset 0) d;
  Ok (isoformat d).

(** ** The arguments *)

Record Spec := { s_mode : pystr; s_terms : list pystr; s_levels : list pystr }.

Definition modes : list pystr := u <$> ["anomalies"; "search"; "all"]%string.
Definition known_levels : list pystr :=
  ERROR_LEVELS ++ (u <$> ["INFO"; "DEBUG"; "TRACE"; "UNKNOWN"]%string).

(** [not isinstance(t, str) or not 1 <= len(t) <= 100]. *)
Definition bad_term (t : json) : bool :=
  match t with
  | JStr s => negb ((1 <=? len s) && (len s <=? 100))
  | _ => true
  end.

(** [v not in ERROR_LEVELS + (...)]: equal to a string only when it is one. *)
Definition bad_level (v : json) : bool :=
  match v with JStr s => negb (mem s known_levels) | _ => true end.

Definition text_of (v : json) : pystr := match v with JStr s => s | _ => [] end.

Definition read_spec (spec : json) : result Spec :=
  terms ← jget_or (JList []) "terms" spec;
  levels ← jget_or (JList []) "levels" spec;
  mode ← jget_or (js "anomalies") "mode" spec;
  if negb (hashable mode) then Raise type_error
  else if negb (match mode with JStr m => mem m modes | _ => false end)
  then Raise (invalid "invalid_log_query")
  else
    n ← jlen terms;
    if 6 <? n then Raise (invalid "invalid_log_query")
    else
      ts ← jiter terms;
      if existsb bad_term ts then Raise (invalid "invalid_log_query")
      else
        n ← jlen levels;
        if 12 <? n then Raise (invalid "invalid_levels")
        else
          ls ← jiter levels;
          if existsb bad_level ls then Raise (invalid "invalid_levels")
          else Ok {| s_mode := text_of mode; s_terms := text_of <$> ts;
                     s_levels := text_of <$> ls |}.

(** ** What is selected *)

(** The full-text expression: each term quoted, its quotes doubled. *)
Definition fts_expression (terms : list pystr) : pystr :=
  join (u " OR ") ((λ t, 34 :: replace1 34 [34; 34] t ++ [34]) <$> terms).

(** The first conditions of the where clause. *)
Definition in_scope (svc start end_ : pystr) (terms : list pystr) (r : row) : bool :=
  str_eqb (rservice r) svc && str_leb start (rtime r) && str_leb (rtime r) end_
  && match terms with [] => true | _ => fts (fts_expression terms) (rid r) end.

Definition level (r : row) : pystr := level_of (rpayload r).

(** [select LEVEL, count of rows, group by LEVEL], as a dict. *)
Definition histogram_of (rows : list row) : list (pystr * Z) :=
  (λ l, (l, len (filter (λ r, level r = l) rows))) <$> fromkeys (level <$> rows).

Definition count_of (hist : list (pystr * Z)) (l : pystr) : Z := default 0 (assoc l hist).

(** [key=lambda x: (x not in ERROR_LEVELS, x)]. *)
Definition severity_leb (x y : pystr) : bool :=
  match mem x ERROR_LEVELS, mem y ERROR_LEVELS with
  | true, false => true
  | false, true => false
  | _, _ => str_leb x y
  end.

(** The rows of the final where clause, the severity partitions and the counts. *)
Record Selection := {
  sel_rows : list row; sel_partitions : list pystr; sel_hist : list (pystr * Z);
  sel_total : Z; sel_matched : Z }.

Definition selected_levels (q : Spec) : list pystr :=
  match s_levels q with
  | [] => if str_eqb (s_mode q) (u "anomalies") && bool_decide (s_terms q = [])
          then ERROR_LEVELS else []
  | ls => ls
  end.

Definition select (svc start end_ : pystr) (q : Spec) : Selection :=
  let rows := filter (λ r, in_scope svc start end_ (s_terms q) r = true) db in
  let hist := histogram_of rows in
  let total := total_of (hist.*2) in
  let sel := selected_levels q in
  let matched := match sel with
    | [] => total | _ => total_of (count_of hist <$> sel) end in
  let all_levels := hist.*1 in
  let fallback := str_eqb (s_mode q) (u "anomalies") && bool_decide (s_levels q = [])
                  && (matched =? 0) in
  {| sel_rows :=
       if fallback then rows
       else match sel with [] => rows | _ => filter (λ r, mem (level r) sel = true) rows end;
     sel_partitions :=
       if fallback then sort_by str_leb all_levels
       else match sel with [] => sort_by severity_leb all_levels | _ => sel end;
     sel_hist := hist; sel_total := total; sel_matched := matched |}.

(** ** Cursors *)

Definition positions := list (pystr * json).

Definition make_cursor (ps : positions) : result pystr :=
  bytes ← encode (dumps true false (JObj ps)); Ok (b64encode bytes).

Definition decode_positions (s : pystr) : result positions :=
  if 4096 <? len s then Raise (invalid "cursor_too_large")
  else
    bytes ← encode s;
    raw ← b64decode bytes;
    v ← loads_bytes raw;
    match v with JObj kvs => Ok kvs | _ => Raise (invalid "invalid_cursor") end.

(** Any failure to read the cursor is one error. *)
Definition read_cursor (cursor : json) : result positions :=
  if truthy cursor then
    match decode_positions (py_str container_repr cursor) with
    | Ok ps => Ok ps
    | Raise _ => Raise (invalid "invalid_cursor")
    end
  else Ok [].

(** [isinstance(v, int)]: a boolean is one. *)
Definition as_int (v : json) : option Z :=
  match v with
  | JInt z => Some z | JBool true => Some 1 | JBool false => Some 0 | _ => None
  end.

Fixpoint as_ints (l : list json) : option (list Z) :=
  match l with
  | [] => Some []
  | v :: l' => n ← as_int v; ns ← as_ints l'; Some (n :: ns)
  end.

Definition read_featured (ps : positions) : result (list Z) :=
  match default (JList []) (assoc (u "_featured") ps) with
  | JList l =>
      if 50 <? len l then Raise (invalid "invalid_cursor")
      else match as_ints l with
           | Some ns => Ok ns
           | None => Raise (invalid "invalid_cursor")
           end
  | _ => Raise (invalid "invalid_cursor")
  end.

Definition read_position (start : pystr) (ps : positions) (l : pystr)
    : result (pystr * Z) :=
  match default (JList [JStr start; JInt 0]) (assoc l ps) with
  | JList [JStr t; v] =>
      match as_int v with
      | Some n => Ok (t, n)
      | None => Raise (invalid "invalid_cursor")
      end
  | _ => Raise (invalid "invalid_cursor")
  end.

(** ** One page *)

(** [record(row)]. *)
Definition record (svc : pystr) (r : row) : result json :=
  c ← loads (rpayload r);
  Ok (JObj [(u "id", JStr (str_of_Z (rid r))); (u "event_time", JStr (rtime r));
            (u "content", c);
            (u "locator", JStr (u "logs://" ++ svc ++ u "/" ++ str_of_Z (rid r)));
            (u "version", JStr (str_of_Z (rid r))); (u "deleted", JBool false)]).

(** [s.split(" ", n)[-1]]. *)
Fixpoint after_space (s : pystr) : option pystr :=
  match s with
  | [] => None
  | c :: s' => if c =? 32 then Some s' else after_space s'
  end.
Fixpoint last_split (n : nat) (s : pystr) : pystr :=
  match n with
  | O => s
  | S n' => match after_space s with None => s | Some s' => last_split n' s' end
  end.

(** [0x[0-9a-fA-F]+|blk_-?\d+|\d+]. *)
Definition variable_pattern : re :=
  alts [seqs [lit "0x"; plus (either (range 48 57) (either (range 97 102) (range 65 70)))];
        seqs [lit "blk_"; ROpt (RChar (ch 45)); plus is_digit];
        plus is_digit].

Definition message_text (v : json) : result pystr :=
  match v with JStr s => Ok s | _ => Raise attr_error end.

Definition signature_of (r : row) : result pystr :=
  payload ← loads (rpayload r);
  message ← jget_or (js "") "message" payload;
  dataset ← jget "dataset" payload;
  text ← (if py_eqb dataset (js "BGL")
          then s ← message_text message; Ok (last_split 8 s)
          else if py_eqb dataset (js "HDFS")
          then s ← message_text message; Ok (last_split 5 s)
          else match message with JStr s => Ok s | _ => Raise type_error end);
  Ok (upto 500 (sub variable_pattern (λ _, u "#") text)).

(** [groups[signature][0] += 1], with the first row of the group. *)
Definition add_group (sig : pystr) (r : row) (groups : list (pystr * (Z * row)))
    : list (pystr * (Z * row)) :=
  match assoc sig groups with
  | None => assoc_set sig (1, r) groups
  | Some (n, r0) => assoc_set sig (n + 1, r0) groups
  end.

Fixpoint group_rows (rows : list row) (groups : list (pystr * (Z * row)))
    : result (list (pystr * (Z * row))) :=
  match rows with
  | [] => Ok groups
  | r :: rows' => sig ← signature_of r; group_rows rows' (add_group sig r groups)
  end.

Definition rarer (x y : Z * row) : bool :=
  (x.1 <? y.1) || ((x.1 =? y.1) && (rid x.2 <=? rid y.2)).

Definition rare_rows (rows : list row) (limit : Z) : result (list row) :=
  groups ← group_rows rows [];
  Ok (snd <$> upto (Z.max 1 (limit / 2)) (sort_by rarer (groups.*2))).

(** The state of the loop over partitions: the records so far with their rows, the
    next positions, and whether more remains. *)
Record Walk := {
  w_records : list (row * json); w_next : positions; w_more : bool }.

Definition take_row (svc : pystr) (featured : list Z) (l : pystr) (w : result Walk)
    (r : row) : result Walk :=
  w ← w;
  let next := assoc_set l (JList [JStr (rtime r); JInt (rid r)]) (w_next w) in
  if existsb (Z.eqb (rid r)) featured
  then Ok {| w_records := w_records w; w_next := next; w_more := w_more w |}
  else c ← record svc r;
       Ok {| w_records := w_records w ++ [(r, c)]; w_next := next; w_more := w_more w |}.

(** The rows of a partition after a position, in order. *)
Definition partition_rows (rows : list row) (l : pystr) : list row :=
  sort_by row_leb (filter (λ r, level r = l) rows).
Definition rows_after (rows : list row) (l : pystr) (t : pystr) (n : Z) : list row :=
  filter (λ r, row_after t n r = true) (partition_rows rows l).

Definition walk_level (svc start : pystr) (rows : list row) (ps : positions)
    (featured : list Z) (limit quota : Z) (w : Walk) (l : pystr) : result Walk :=
  '(t, n) ← read_position start ps l;
  let count := Z.min quota (limit - len (w_records w)) in
  if count <=? 0
  then Ok {| w_records := w_records w; w_next := w_next w; w_more := true |}
  else
    let got := upto (count + 1) (rows_after rows l t n) in
    foldl (take_row svc featured l)
      (Ok {| w_records := w_records w; w_next := w_next w;
             w_more := w_more w || (count <? len got) |})
      (upto count got).

Fixpoint walk_levels (svc start : pystr) (rows : list row) (ps : positions)
    (featured : list Z) (limit quota : Z) (w : Walk) (ls : list pystr) : result Walk :=
  match ls with
  | [] => Ok w
  | l :: ls' => w ← walk_level svc start rows ps featured limit quota w l;
                walk_levels svc start rows ps featured limit quota w ls'
  end.

(** ** The catalog *)

Record Profile := {
  prof_id : pystr; prof_aliases : list json; prof_from : option pystr;
  prof_to : option pystr; prof_provenance : pystr }.

Definition catalog_one (svc : pystr) : result Profile :=
  let rows := sort_by row_leb (filter (λ r, rservice r = svc) db) in
  payload ← match rows with [] => Ok (JObj []) | r :: _ => loads (rpayload r) end;
  dataset ← jget "dataset" payload;
  name ← jget "service_name" payload;
  Ok {| prof_id := svc; prof_aliases := filter (λ v, truthy v = true) [dataset; name];
        prof_from := rtime <$> head rows; prof_to := rtime <$> last rows;
        prof_provenance := if truthy dataset then u "public-dataset"
                           else u "local-demo" |}.

Definition catalog (services : list pystr) : result (list Profile) :=
  map_r catalog_one services.

(** ** query *)

Record Page := {
  pg_records : list (row * json); pg_cursor : option pystr;
  pg_total : Z; pg_matched : Z; pg_levels : list (pystr * Z); pg_scan : Z;
  pg_spec : Spec; pg_provenance : pystr }.

(** The representatives of rare messages, on the first page of an anomaly query. *)
Definition featured_rows (q : Spec) (sel : Selection) (first : bool) (limit : Z)
    : result (list row * Z) :=
  if first && str_eqb (s_mode q) (u "anomalies") && bool_decide (s_terms q = [])
     && (0 <? sel_matched sel) && (sel_matched sel <=? 10000)
  then rare ← rare_rows (sel_rows sel) limit; Ok (rare, len (sel_rows sel))
  else Ok ([], 0).

Definition eligible (sel : Selection) : list pystr :=
  filter (λ l, count_of (sel_hist sel) l ≠ 0) (sel_partitions sel).

(** The page of a selection after given positions. *)
Definition page_of (svc start : pystr) (q : Spec) (sel : Selection) (first : bool)
    (limit : Z) (ps : positions) : result (Walk * Z) :=
  featured ← read_featured ps;
  '(rare, scanned) ← featured_rows q sel first limit;
  recs ← map_r (λ r, c ← record svc r; Ok (r, c)) rare;
  let seen := match rare with [] => featured | _ => rid <$> rare end in
  let next := match rare with
    | [] => ps
    | _ => assoc_set (u "_featured") (JList (JInt ∘ rid <$> rare)) ps
    end in
  let quota := Z.max 1 ((limit - len recs) / Z.max 1 (len (eligible sel))) in
  w ← walk_levels svc start (sel_rows sel) ps seen limit quota
        {| w_records := recs; w_next := next; w_more := false |} (eligible sel);
  Ok (w, scanned).

Definition clamp_limit (n : Z) : Z := Z.max 1 (Z.min 100 n).

Definition query (sc : LogScope) (spec : json) (limit : Z) (cursor : json) : result Page :=
  let limit := clamp_limit limit in
  q ← read_spec spec;
  start ← canonical (log_start sc);
  end_ ← canonical (log_end sc);
  let sel := select (log_service sc) start end_ q in
  ps ← read_cursor cursor;
  '(w, scanned) ← page_of (log_service sc) start q sel (negb (truthy cursor)) limit ps;
  next ← (if w_more w then c ← make_cursor (w_next w); Ok (Some c) else Ok None);
  prof ← catalog_one (log_service sc);
  Ok {| pg_records := w_records w; pg_cursor := next; pg_total := sel_total sel;
        pg_matched := sel_matched sel; pg_levels := sel_hist sel; pg_scan := scanned;
        pg_spec := q; pg_provenance := prof_provenance prof |}.
End log_store.
