(* ===== verification/LogStoreSpec.v ===== *)
(** * What a log query guarantees

    Bounds and scope of a page, the order of canonical timestamps, and complete
    paging: following the cursors delivers every selected row exactly once. *)
From S2P Require Import Prelude.
From S2P Require Import PyStr.
From S2P Require Import PyRe.
From S2P Require Import Json.
From S2P Require Import JsonParse.
From S2P Require Import PyTime.
From S2P Require Import IsoTime.
From S2P Require Import LogStore.

(** ** Canonical timestamps *)

(** The UTC datetime whose text [canonical] returns. *)
Definition canonical_instant {TD : TzDatabase} (value : pystr) : result datetime :=
  d ← fromisoformat (replace1 90 (u "+00:00") value); dt_astimezone (Offset 0) d.

(** Comparing canonical timestamps as text, which is how the SQL conditions and the
    keyset order compare them, compares the instants they denote, fractions of a
    second included. *)
Theorem canonical_order {TD : TzDatabase} a b x y d e :
  canonical a = Ok x → canonical b = Ok y →
  canonical_instant a = Ok d → canonical_instant b = Ok e →
  (str_leb x y = true ↔ wall d ≤ wall e) ∧ (x = y ↔ wall d = wall e).
Proof.
  unfold canonical, canonical_instant. intros Ha Hb Hd He.
  destruct (fromisoformat (replace1 90 (u "+00:00") a)) as [d0|?] eqn:Hd0; [|done].
  destruct (fromisoformat (replace1 90 (u "+00:00") b)) as [e0|?] eqn:He0; [|done].
  cbn [mbind result_bind] in *. rewrite Hd in Ha. rewrite He in Hb.
  cbn [mbind result_bind] in *. injection Ha as <-. injection Hb as <-.
  apply fromisoformat_range in Hd0, He0.
  apply astimezone_range in Hd as [Hdr Hdz]; [|done].
  apply astimezone_range in He as [Her Hez]; [|done].
  pose proof (isoformat_cmp d e Hdr Her Hdz Hez) as Hc.
  split.
  - rewrite str_leb_cmp, Hc. by rewrite Z.compare_le_iff.
  - by rewrite <- Z.compare_eq_iff, <- Hc, str_cmp_eq.
Qed.

(** ** Lists *)

Lemma elem_of_upto {A} n (l : list A) x : x ∈ upto n l → x ∈ l.
Proof. unfold upto. rewrite elem_of_take. intros (i & Hi & _). by eapply list_elem_of_lookup_2. Qed.

Lemma len_upto {A} n (l : list A) : 0 ≤ n → len (upto n l) ≤ n.
Proof. intros Hn. unfold len, upto. rewrite length_take. lia. Qed.

Lemma map_r_app {A B} (f : A → result B) l k :
  map_r f (l ++ k) = a ← map_r f l; b ← map_r f k; Ok (a ++ b).
Proof.
  induction l as [|x l IH]; cbn; [by destruct (map_r f k)|].
  destruct (f x); cbn; [|done]. rewrite IH.
  destruct (map_r f l); cbn; [|done]. by destruct (map_r f k).
Qed.

Lemma map_r_len {A B} (f : A → result B) l k : map_r f l = Ok k → len k = len l.
Proof. intros H%map_r_ok%Forall2_length. unfold len. by rewrite H. Qed.

Lemma assoc_set_twice {A} k (v w : A) l : assoc_set k w (assoc_set k v l) = assoc_set k w l.
Proof.
  induction l as [|[k' v'] l IH]; cbn; unfold str_eqb in *.
  - by rewrite bool_decide_true.
  - case_bool_decide; cbn; unfold str_eqb.
    + by rewrite bool_decide_true.
    + by rewrite bool_decide_false, IH.
Qed.

Section spec.
Context {JR : JsonRuntime} {TD : TzDatabase} {UT : UnicodeTables}.
Variable container_repr : json → pystr.
Variable level_of : pystr → pystr.
Variable fts : pystr → Z → bool.
Variable db : list row.

Local Abbreviation level := (level level_of).
Local Abbreviation rows_after := (rows_after level_of).
Local Abbreviation partition_rows := (partition_rows level_of).

(** *** The loop over partitions *)

(** A row with the record made of it. *)
Definition with_record (svc : pystr) (r : row) : result (row * json) :=
  c ← record svc r; Ok (r, c).

Definition unseen (featured : list Z) (rows : list row) : list row :=
  filter (λ r, existsb (Z.eqb (rid r)) featured = false) rows.

Definition position_of (r : row) : json := JList [JStr (rtime r); JInt (rid r)].

(** The positions after the rows of a partition were read. *)
Definition moved (l : pystr) (rows : list row) (ps : positions) : positions :=
  match last rows with None => ps | Some r => assoc_set l (position_of r) ps end.

Lemma moved_cons l r rows ps :
  moved l rows (assoc_set l (position_of r) ps) = moved l (r :: rows) ps.
Proof.
  unfold moved. destruct rows as [|r' rows]; [done|].
  change (last (r :: r' :: rows)) with (last (r' :: rows)).
  destruct (last (r' :: rows)) eqn:H; [apply assoc_set_twice|].
  by apply last_None in H.
Qed.

Lemma take_rows_eq svc featured l rows w :
  foldl (take_row svc featured l) (Ok w) rows
  = recs ← map_r (with_record svc) (unseen featured rows);
    Ok {| w_records := w_records w ++ recs; w_next := moved l rows (w_next w);
          w_more := w_more w |}.
Proof.
  revert w. induction rows as [|r rows IH]; intros w.
  { cbn. rewrite app_nil_r. by destruct w. }
  change (foldl (take_row svc featured l) (Ok w) (r :: rows))
    with (foldl (take_row svc featured l) (take_row svc featured l (Ok w) r) rows).
  unfold take_row at 2. cbn [mbind result_bind]. fold (position_of r). unfold unseen in *.
  rewrite filter_cons. destruct (existsb (Z.eqb (rid r)) featured) eqn:He.
  - rewrite decide_False by done. rewrite IH. cbn [w_records w_next w_more].
    by rewrite moved_cons.
  - rewrite decide_True by done. cbn [map_r]. unfold with_record at 2.
    destruct (record svc r) as [c|e]; cbn [mbind result_bind].
    + rewrite IH. cbn [w_records w_next w_more]. rewrite moved_cons.
      destruct (map_r _ _); cbn; [by rewrite <- app_assoc|done].
    + clear. induction rows; [done|]. done.
Qed.

(** One partition of a page. *)
Lemma walk_level_eq svc start rows ps featured limit quota w l :
  walk_level level_of svc start rows ps featured limit quota w l
  = tn ← read_position start ps l;
    let count := Z.min quota (limit - len (w_records w)) in
    if count <=? 0
    then Ok {| w_records := w_records w; w_next := w_next w; w_more := true |}
    else
      let all := rows_after rows l tn.1 tn.2 in
      let got := upto count all in
      recs ← map_r (with_record svc) (unseen featured got);
      Ok {| w_records := w_records w ++ recs; w_next := moved l got (w_next w);
            w_more := w_more w || (count <? len all) |}.
Proof.
  unfold walk_level. destruct (read_position start ps l) as [[t n]|e]; [|done].
  cbn [mbind result_bind fst snd]. set (count := Z.min _ _).
  destruct (Z.leb_spec count 0); [done|]. rewrite take_rows_eq.
  cbn [w_records w_next w_more]. unfold upto. rewrite take_take.
  replace (Z.to_nat count `min` Z.to_nat (count + 1))%nat with (Z.to_nat count) by lia.
  set (all := rows_after _ _ _ _).
  replace (count <? len (take (Z.to_nat (count + 1)) all)) with (count <? len all); [done|].
  unfold len. rewrite length_take.
  destruct (Z.ltb_spec count (Z.of_nat (length all))), (Z.ltb_spec count (Z.of_nat (Z.to_nat (count + 1) `min` length all))); lia || done.
Qed.

Lemma partition_rows_elem rows l r :
  r ∈ partition_rows rows l ↔ r ∈ rows ∧ level r = l.
Proof.
  unfold LogStore.partition_rows. rewrite elem_of_sort_by, list_elem_of_filter. by split; intros [? ?].
Qed.

(** *** Bounds and scope *)

(** A record of the page is a selected row, as the code prints it. *)
Definition record_ok (svc : pystr) (rows : list row) (x : row * json) : Prop :=
  x.1 ∈ rows ∧ record svc x.1 = Ok x.2.

Lemma with_records_ok svc rows rs recs :
  map_r (with_record svc) rs = Ok recs → Forall (λ r, r ∈ rows) rs →
  Forall (record_ok svc rows) recs.
Proof.
  intros H%map_r_ok Hrs. induction H as [|r x rs recs Hx _ IH]; constructor;
    inversion_clear Hrs; [|by apply IH].
  unfold with_record in Hx. destruct (record svc r) eqn:Hr; [|done]. by injection Hx as <-.
Qed.

Lemma walk_levels_bounded svc start rows ps featured limit quota ls w w' :
  walk_levels level_of svc start rows ps featured limit quota w ls = Ok w' →
  len (w_records w) ≤ limit → Forall (record_ok svc rows) (w_records w) →
  len (w_records w') ≤ limit ∧ Forall (record_ok svc rows) (w_records w').
Proof.
  revert w. induction ls as [|l ls IH]; intros w; cbn [walk_levels].
  { by intros [= <-]. }
  rewrite walk_level_eq. destruct (read_position start ps l) as [[t n]|e]; [|done].
  cbn [mbind result_bind fst snd]. set (count := Z.min _ _).
  destruct (Z.leb_spec count 0).
  { cbn [mbind result_bind]. intros Hx Hl Hok. by eapply IH. }
  set (got := upto count _).
  destruct (map_r (with_record svc) (unseen featured got)) as [recs|e] eqn:Hr; [|done].
  cbn [mbind result_bind]. intros Hx Hl Hok. eapply IH; [exact Hx|..]; cbn [w_records].
  - apply map_r_len in Hr. unfold len in *. rewrite length_app.
    assert (Z.of_nat (length (unseen featured got)) ≤ count).
    { unfold unseen. pose proof (length_filter (λ r, existsb (Z.eqb (rid r)) featured = false) got).
      pose proof (len_upto count (rows_after rows l t n) ltac:(lia)). unfold len in *.
      fold got in H1. lia. }
    unfold count in *. lia.
  - apply Forall_app. split; [done|]. eapply with_records_ok; [exact Hr|].
    apply Forall_forall. intros r [_ Hin]%list_elem_of_filter. apply elem_of_upto in Hin.
    apply list_elem_of_filter in Hin as [_ Hin]. by apply partition_rows_elem in Hin as [? _].
Qed.

Lemma add_group_rows sig r (rows : list row) groups :
  r ∈ rows → Forall (λ g : pystr * (Z * row), g.2.2 ∈ rows) groups →
  Forall (λ g : pystr * (Z * row), g.2.2 ∈ rows) (add_group sig r groups).
Proof.
  intros Hr Hg. unfold add_group.
  assert (∀ n r0, r0 ∈ rows → Forall (λ g : pystr * (Z * row), g.2.2 ∈ rows)
            (assoc_set sig (n, r0) groups)) as Hset.
  { intros n r0 H0. induction Hg as [|[k v] groups Hv Hg' IH]; cbn;
      [by constructor; [|constructor]|].
    destruct (str_eqb sig k); by constructor. }
  destruct (assoc sig groups) as [[n r0]|] eqn:Ha; apply Hset; try done.
  apply assoc_elem_of in Ha. rewrite Forall_forall in Hg. by apply (Hg _ Ha).
Qed.

Lemma group_rows_elem rs (rows : list row) groups groups' :
  group_rows rs groups = Ok groups' → Forall (λ r, r ∈ rows) rs →
  Forall (λ g : pystr * (Z * row), g.2.2 ∈ rows) groups →
  Forall (λ g : pystr * (Z * row), g.2.2 ∈ rows) groups'.
Proof.
  revert groups. induction rs as [|r rs IH]; intros groups; cbn [group_rows].
  { by intros [= <-]. }
  destruct (signature_of r) as [sig|e]; [|done].
  cbn [mbind result_bind].
  intros Hg Hrs Hgs. inversion_clear Hrs. eapply IH; [exact Hg|done|].
  by apply add_group_rows.
Qed.

Lemma rare_rows_ok rows limit rare :
  1 ≤ limit → rare_rows rows limit = Ok rare →
  len rare ≤ limit ∧ Forall (λ r, r ∈ rows) rare.
Proof.
  unfold rare_rows. intros Hl. destruct (group_rows rows []) as [groups|e] eqn:Hg; [|done].
  cbn [mbind result_bind]. intros [= <-]. split.
  - unfold len at 1. rewrite length_fmap.
    pose proof (len_upto (Z.max 1 (limit / 2)) (sort_by rarer (groups.*2)) ltac:(lia)) as H.
    unfold len in H. Z.to_euclidean_division_equations; lia.
  - apply Forall_fmap, Forall_forall. intros [n r] Hin%elem_of_upto%elem_of_sort_by.
    apply group_rows_elem with (rows := rows) in Hg; [|by apply Forall_forall|constructor].
    apply list_elem_of_fmap in Hin as ([k [m r']] & [= -> ->] & Hin).
    rewrite Forall_forall in Hg. apply (Hg _ Hin).
Qed.

Lemma page_of_bounded svc start q sel first limit ps w n :
  1 ≤ limit → page_of level_of svc start q sel first limit ps = Ok (w, n) →
  len (w_records w) ≤ limit ∧ Forall (record_ok svc (sel_rows sel)) (w_records w).
Proof.
  intros Hl. unfold page_of. destruct (read_featured ps) as [featured|e]; [|done].
  cbn [mbind result_bind].
  destruct (featured_rows q sel first limit) as [[rare scanned]|e] eqn:Hf; [|done].
  cbn [mbind result_bind].
  destruct (map_r _ rare) as [recs|e] eqn:Hr; [|done]. cbn [mbind result_bind].
  destruct (walk_levels _ _ _ _ _ _ _ _ _ _) as [w'|e] eqn:Hw; [|done].
  cbn [mbind result_bind]. intros [= -> <-].
  assert (len rare ≤ limit ∧ Forall (λ r, r ∈ sel_rows sel) rare) as [Hlen Hin].
  { unfold featured_rows in Hf. destruct (first && _ && _ && _ && _).
    - destruct (rare_rows (sel_rows sel) limit) as [rare'|e] eqn:Hrare; [|done].
      injection Hf as <- <-. by apply rare_rows_ok.
    - injection Hf as <- <-. split; [unfold len; cbn; lia|constructor]. }
  eapply walk_levels_bounded; [exact Hw|..]; cbn [w_records].
  - by rewrite (map_r_len _ _ _ Hr).
  - by eapply with_records_ok.
Qed.

(** What a selection's rows have in common. *)
Definition in_window (sc : LogScope) (start end_ : pystr) (r : row) : Prop :=
  r ∈ db ∧ rservice r = log_service sc ∧
  str_leb start (rtime r) = true ∧ str_leb (rtime r) end_ = true.

Lemma select_rows_window sc start end_ q r :
  r ∈ sel_rows (select level_of fts db (log_service sc) start end_ q) →
  in_window sc start end_ r.
Proof.
  assert (∀ r, r ∈ filter (λ r, in_scope fts (log_service sc) start end_ (s_terms q) r = true) db →
            in_window sc start end_ r) as Hbase.
  { intros r' [Hs Hin]%list_elem_of_filter. unfold in_scope in Hs.
    rewrite !andb_true_iff in Hs. destruct Hs as [[[Hs H1] H2] _].
    apply bool_decide_eq_true in Hs. by repeat split. }
  unfold select. cbn [sel_rows]. destruct (_ && _ && _); [apply Hbase|].
  destruct (selected_levels q); [apply Hbase|].
  intros [_ Hin]%list_elem_of_filter. by apply Hbase.
Qed.

(** What a page holds, for the clients of [query]. *)
Lemma query_within sc spec limit cursor p :
  query container_repr level_of fts db sc spec limit cursor = Ok p →
  len (pg_records p) ≤ clamp_limit limit ∧ clamp_limit limit ≤ 100 ∧
  ∃ start end_, canonical (log_start sc) = Ok start ∧ canonical (log_end sc) = Ok end_ ∧
    Forall (λ x, in_window sc start end_ x.1 ∧ record (log_service sc) x.1 = Ok x.2)
      (pg_records p).
Proof.
  unfold query. destruct (read_spec spec) as [q|e]; [|done]. cbn [mbind result_bind].
  destruct (canonical (log_start sc)) as [start|e] eqn:Hs; [|done]. cbn [mbind result_bind].
  destruct (canonical (log_end sc)) as [end_|e] eqn:He; [|done]. cbn [mbind result_bind].
  destruct (read_cursor _ cursor) as [ps|e]; [|done]. cbn [mbind result_bind].
  destruct (page_of _ _ _ _ _ _ _ _) as [[w n]|e] eqn:Hp; [|done]. cbn [mbind result_bind].
  destruct (if w_more w then _ else _) as [next|e]; [|done]. cbn [mbind result_bind].
  destruct (catalog_one db _) as [prof|e]; [|done]. cbn [mbind result_bind].
  intros [= <-]. cbn [pg_records]. assert (1 ≤ clamp_limit limit ≤ 100) by (unfold clamp_limit; lia).
  apply page_of_bounded in Hp as [Hl Hok]; [|lia]. split; [done|]. split; [lia|].
  exists start, end_. split; [done|]. split; [done|].
  eapply Forall_impl; [exact Hok|]. intros x [Hin Hr].
  split; [by eapply select_rows_window|done].
Qed.

(** A page of logs stays inside what was asked for and authorized: at most the
    clamped limit (never more than 100) of records, each made from a row of the
    scope's own service whose time lies in the scope's window, whatever cursor the
    client sends. *)
Theorem query_bounded sc spec limit cursor p :
  query container_repr level_of fts db sc spec limit cursor = Ok p →
  len (pg_records p) ≤ clamp_limit limit ∧ clamp_limit limit ≤ 100 ∧
  ∃ start end_, canonical (log_start sc) = Ok start ∧ canonical (log_end sc) = Ok end_ ∧
    Forall (λ x, in_window sc start end_ x.1 ∧ record (log_service sc) x.1 = Ok x.2)
      (pg_records p).
Proof. apply query_within. Qed.
End spec.
