(* ===== verification/Paging.v ===== *)
(** * Complete paging of the log store (demo/log_store.py, query)

    Following the cursors from the first page delivers every selected row exactly
    once and stops. *)
From S2P Require Import Prelude.
From S2P Require Import PyStr.
From S2P Require Import PyRe.
From S2P Require Import Json.
From S2P Require Import JsonParse.
From S2P Require Import PyTime.
From S2P Require Import IsoTime.
From S2P Require Import LogStore.
From S2P Require Import LogStoreSpec.

(** ** The order of text and of rows *)

Lemma row_leb_iff a b :
  row_leb a b = true ↔
  (str_leb (rtime b) (rtime a) = false ∨ rtime a = rtime b ∧ rid a ≤ rid b).
Proof.
  unfold row_leb, str_eqb.
  rewrite orb_true_iff, negb_true_iff, andb_true_iff, bool_decide_eq_true, Z.leb_le. done.
Qed.

Lemma row_after_iff t n r :
  row_after t n r = true ↔ (str_leb (rtime r) t = false ∨ rtime r = t ∧ n < rid r).
Proof.
  unfold row_after, str_eqb.
  rewrite orb_true_iff, negb_true_iff, andb_true_iff, bool_decide_eq_true, Z.ltb_lt. done.
Qed.

Lemma row_leb_total a b : row_leb a b = true ∨ row_leb b a = true.
Proof.
  rewrite !row_leb_iff. destruct (str_leb (rtime b) (rtime a)) eqn:H1; [|auto].
  destruct (str_leb (rtime a) (rtime b)) eqn:H2; [|auto].
  pose proof (str_leb_antisym _ _ H2 H1). destruct (Z.le_ge_cases (rid a) (rid b)); auto.
Qed.

Lemma row_leb_trans a b c : row_leb a b = true → row_leb b c = true → row_leb a c = true.
Proof.
  rewrite !row_leb_iff. intros [H1|[H1 I1]] [H2|[H2 I2]].
  - left. destruct (str_leb (rtime c) (rtime a)) eqn:H; [|done].
    destruct (str_leb_total (rtime b) (rtime a)) as [?|Hab]; [congruence|].
    pose proof (str_leb_trans _ _ _ H Hab). congruence.
  - left. by rewrite <- H2.
  - left. by rewrite H1.
  - right. split; [congruence|lia].
Qed.

(** A later row is after an earlier one. *)
Lemma row_after_leb a b : row_after (rtime a) (rid a) b = negb (row_leb b a).
Proof.
  apply eq_bool_prop_intro. rewrite negb_True, !Is_true_true, row_after_iff, row_leb_iff.
  destruct (str_leb (rtime b) (rtime a)) eqn:H1.
  - split.
    + intros [?|[H2 ?]]; [done|]. rewrite H2, str_leb_refl. intros [?|[_ ?]]; [done|lia].
    + intros Hn. right. destruct (str_leb (rtime a) (rtime b)) eqn:H2; [|tauto].
      pose proof (str_leb_antisym _ _ H1 H2) as He. split; [done|].
      destruct (Z.lt_ge_cases (rid a) (rid b)); [done|]. tauto.
  - split; [|auto]. intros _ [H2|[H2 _]]; [|by rewrite H2, str_leb_refl in H1].
    destruct (str_leb_total (rtime a) (rtime b)); congruence.
Qed.

(** ** Sorted lists and prefixes *)

(** Filtering a strictly ordered list by being after its element [j] drops the first
    [j + 1]. *)
Lemma filter_after_drop {A} (after : A → A → bool) (l : list A) j a :
  StronglySorted (λ x y, after x y = true ∧ after y x = false) l →
  (∀ x, after x x = false) → l !! j = Some a →
  filter (λ x, after a x = true) l = drop (S j) l.
Proof.
  intros Hs Hirr. revert j. induction Hs as [|x l Hs IH Hx]; intros j Hj; [done|].
  rewrite Forall_forall in Hx. destruct j as [|j]; cbn in Hj.
  - injection Hj as ->. rewrite filter_cons, decide_False by (rewrite Hirr; done).
    apply filter_all, Forall_forall. intros y Hy. by apply Hx.
  - rewrite filter_cons, decide_False; [by apply IH|].
    apply list_elem_of_lookup_2 in Hj. destruct (Hx _ Hj) as [_ ->]. done.
Qed.

Lemma elem_of_concat_fmap {A B} (f : A → list B) ls x :
  x ∈ concat (f <$> ls) ↔ ∃ l, l ∈ ls ∧ x ∈ f l.
Proof.
  rewrite list_elem_of_In, in_concat. split.
  - intros (ys & Hys & Hx). apply list_elem_of_In, list_elem_of_fmap in Hys as (l & -> & Hl).
    exists l. split; [done|]. by apply list_elem_of_In.
  - intros (l & Hl & Hx). exists (f l). split; [|by apply list_elem_of_In].
    apply list_elem_of_In, list_elem_of_fmap. eauto.
Qed.

Lemma concat_NoDup {A B} (f : A → list B) (ls : list A) (key : B → A) :
  NoDup ls → (∀ l, l ∈ ls → NoDup (f l)) → (∀ l x, x ∈ f l → key x = l) →
  NoDup (concat (f <$> ls)).
Proof.
  intros Hnd Hf Hk. induction Hnd as [|l ls Hl _ IH]; cbn; [constructor|].
  apply NoDup_app. split; [apply Hf, list_elem_of_here|]. split.
  - intros x Hx Hin. apply Hl. apply Hk in Hx as <-.
    apply elem_of_concat_fmap in Hin as (l' & Hl' & Hin). by apply Hk in Hin as ->.
  - apply IH. intros. by apply Hf, list_elem_of_further.
Qed.

(** ** The size of a cursor *)

Lemma digits_value_lower d acc :
  Forall (λ c, ascii_digit c = true) d → 0 ≤ acc →
  acc * 10 ^ len d ≤ foldl (λ a c, a * 10 + (c - 48)) acc d.
Proof.
  intros Hd. revert acc. induction Hd as [|c d Hc _ IH]; intros acc Ha.
  { unfold len. cbn [length foldl]. change (10 ^ Z.of_nat 0) with 1. lia. }
  cbn [foldl]. unfold ascii_digit in Hc. rewrite andb_true_iff, !Z.leb_le in Hc.
  specialize (IH (acc * 10 + (c - 48)) ltac:(lia)). unfold len in *. cbn [length].
  rewrite Nat2Z.inj_succ, Z.pow_succ_r by lia.
  assert (0 ≤ 10 ^ Z.of_nat (length d)) by (apply Z.pow_nonneg; lia). nia.
Qed.

(** An integer below [10 ^ n] has at most [n] digits. *)
Lemma len_str_of_Z z n : 0 ≤ z < 10 ^ n → 1 ≤ n → len (str_of_Z z) ≤ n.
Proof.
  intros Hz Hn. destruct (str_of_Z_digits z) as (d & -> & Hd & Hl & Hv).
  rewrite (proj2 (Z.ltb_ge z 0)) by lia. cbn [app].
  destruct Hl as [->|(c & d' & -> & Hc)]; [unfold len; cbn; lia|].
  inversion_clear Hd as [|? ? H1 Hd']. unfold digits_value in Hv. cbn [foldl] in Hv.
  unfold ascii_digit in H1. rewrite andb_true_iff, !Z.leb_le in H1.
  pose proof (digits_value_lower d' (0 * 10 + (c - 48)) Hd' ltac:(lia)) as Hlow.
  rewrite Hv, Z.abs_eq in Hlow by lia.
  assert (10 ^ len d' < 10 ^ n) as Hp.
  { assert (0 ≤ 10 ^ len d') by (apply Z.pow_nonneg; lia). nia. }
  apply Z.pow_lt_mono_r_iff in Hp; [|lia|lia]. unfold len in *. cbn [length]. lia.
Qed.

Lemma len_app {A} (l k : list A) : len (l ++ k) = len l + len k.
Proof. unfold len. rewrite length_app. lia. Qed.
Lemma len_cons {A} (x : A) l : len (x :: l) = 1 + len l.
Proof. unfold len. cbn. lia. Qed.
Lemma len_nonneg {A} (l : list A) : 0 ≤ len l.
Proof. unfold len. lia. Qed.

Lemma len_join sep l :
  len (join sep l) ≤ total_of (len <$> l) + len sep * len l.
Proof.
  induction l as [|s l IH]; [unfold len; cbn; lia|].
  cbn [fmap list_fmap total_of foldr]. unfold total_of in IH.
  pose proof (len_nonneg sep). pose proof (len_nonneg l). rewrite len_cons.
  destruct l as [|t l]; [cbn [join]; unfold len; cbn; lia|].
  change (join sep (s :: t :: l)) with (s ++ sep ++ join sep (t :: l)).
  rewrite !len_app. nia.
Qed.

Lemma len_b64encode bs : 3 * len (b64encode bs) ≤ 4 * (len bs + 2).
Proof.
  induction bs as [bs IH] using (induction_ltof1 _ length); unfold ltof in IH.
  destruct bs as [|a [|b [|c bs]]]; try by (unfold len; cbn; lia).
  specialize (IH bs ltac:(cbn; lia)). cbn [b64encode]. rewrite !len_cons. lia.
Qed.

(** ** Partitions in order *)

Lemma partition_strict (l : list row) :
  StronglySorted (λ x y, row_leb x y = true) l → NoDup (rid <$> l) →
  StronglySorted (λ x y, row_after (rtime x) (rid x) y = true ∧
                         row_after (rtime y) (rid y) x = false) l.
Proof.
  induction 1 as [|x l Hs IH Hx]; [constructor|]. intros Hnd.
  inversion_clear Hnd as [|? ? Hni Hnd']. constructor; [by apply IH|].
  rewrite Forall_forall in Hx |- *. intros y Hy. specialize (Hx y Hy).
  rewrite !row_after_leb, negb_true_iff, Hx. split; [|done].
  destruct (row_leb y x) eqn:Hyx; [|done]. exfalso. apply Hni.
  apply row_leb_iff in Hx, Hyx.
  assert (rid x = rid y) as ->; [|by apply list_elem_of_fmap_2].
  destruct Hx as [H1|[H1 I1]], Hyx as [H2|[H2 I2]].
  - destruct (str_leb_total (rtime x) (rtime y)); congruence.
  - by rewrite H2, str_leb_refl in H1.
  - by rewrite H1, str_leb_refl in H2.
  - lia.
Qed.

Lemma row_after_irrefl x : row_after (rtime x) (rid x) x = false.
Proof. rewrite row_after_leb. by destruct (row_leb_total x x) as [->| ->]. Qed.

(** What the writer of the table guarantees: identifiers are SQLite's row numbers,
    timestamps print in a bounded number of characters, the level is one a query may
    name and the payload is an object with a text message. *)
Definition row_good (level_of : pystr → pystr) (r : row) : Prop :=
  1 ≤ rid r < 2 ^ 63 ∧ forallb is_scalar (rtime r) = true ∧
  len (dump_str true (rtime r)) ≤ 64 ∧ level_of (rpayload r) ∈ known_levels.

Definition payload_good {JR : JsonRuntime} (r : row) : Prop :=
  ∃ kvs msg, loads (rpayload r) = Ok (JObj kvs) ∧ assoc (u "message") kvs = Some (JStr msg).

Section pages.
Context {JR : JsonRuntime} {TD : TzDatabase} {UT : UnicodeTables}.
Variable level_of : pystr → pystr.
Variables (svc start : pystr) (rows : list row).

Local Abbreviation level := (level level_of).
Local Abbreviation S_ := (partition_rows level_of rows).

Hypothesis rows_ids : NoDup (rid <$> rows).
Hypothesis rows_good : Forall (row_good level_of) rows.
Hypothesis rows_payload : Forall payload_good rows.
Hypothesis rows_start : Forall (λ r, str_leb start (rtime r) = true) rows.

Lemma partition_ids l : NoDup (rid <$> S_ l).
Proof.
  unfold partition_rows. rewrite sort_by_perm.
  eapply sublist_NoDup; [exact rows_ids|]. apply fmap_sublist, sublist_filter.
Qed.

Lemma partition_sorted l :
  StronglySorted (λ x y, row_after (rtime x) (rid x) y = true ∧
                         row_after (rtime y) (rid y) x = false) (S_ l).
Proof.
  apply partition_strict; [|apply partition_ids].
  apply sort_by_strongly_sorted; [apply row_leb_total|apply row_leb_trans].
Qed.

(** The positions say that [k] rows of partition [l] were read. *)
Definition at_ (ps : positions) (l : pystr) (k : nat) : Prop :=
  match k with
  | O => assoc l ps = None
  | S j => ∃ r, S_ l !! j = Some r ∧ assoc l ps = Some (position_of r)
  end.

Lemma at_read ps l k :
  at_ ps l k →
  ∃ t n, read_position start ps l = Ok (t, n) ∧
    rows_after level_of rows l t n = drop k (S_ l).
Proof.
  unfold read_position, rows_after. destruct k as [|j].
  - cbn. intros ->. exists start, 0. split; [done|].
    rewrite drop_0. apply filter_all, Forall_forall. intros r Hr.
    apply partition_rows_elem in Hr as [Hr _]. rewrite Forall_forall in rows_good, rows_start.
    specialize (rows_start r Hr). destruct (rows_good r Hr) as [Hid _].
    apply row_after_iff. destruct (str_leb (rtime r) start) eqn:H; [|by left]. right.
    split; [by apply str_leb_antisym|lia].
  - intros (r & Hr & ->). cbn. exists (rtime r), (rid r). split; [done|].
    apply (filter_after_drop (λ x y, row_after (rtime x) (rid x) y));
      [apply partition_sorted|apply row_after_irrefl|done].
Qed.

Lemma with_record_one r : payload_good r → ∃ c, with_record svc r = Ok (r, c).
Proof.
  intros (kvs & msg & Hl & _). unfold with_record, record. rewrite Hl. cbn. eauto.
Qed.

Lemma with_record_ok rs : Forall payload_good rs →
  ∃ recs, map_r (with_record svc) rs = Ok recs ∧ recs.*1 = rs.
Proof.
  induction 1 as [|r rs [c Hc]%with_record_one _ (recs & Hrecs & Heq)]; [by exists []|].
  cbn [map_r]. rewrite Hc. cbn [mbind result_bind]. rewrite Hrecs. cbn [mbind result_bind].
  eexists. split; [reflexivity|]. cbn. by rewrite Heq.
Qed.

Lemma partition_payload l rs : rs `sublist_of` S_ l → Forall payload_good rs.
Proof.
  intros Hs. apply Forall_forall. intros r Hr. eapply sublist_subseteq in Hr; [|exact Hs].
  apply partition_rows_elem in Hr as [Hr _]. rewrite Forall_forall in rows_payload. auto.
Qed.

(** The rows one partition contributes to a page. *)
Definition contribution (featured : list Z) (k k' : pystr → nat) (l : pystr) : list row :=
  unseen featured (take (k' l - k l) (drop (k l) (S_ l))).

Lemma last_take {A} n (l : list A) : (0 < n ≤ length l)%nat → last (take n l) = l !! (n - 1)%nat.
Proof.
  intros Hn. rewrite last_lookup, length_take, Nat.min_l by lia.
  rewrite lookup_take_lt by lia. by replace (pred n) with (n - 1)%nat by lia.
Qed.

(** One partition: some rows are read, at least one when there is room and any is
    left. *)
Lemma walk_level_spec ps featured limit quota w l k :
  at_ ps l k → at_ (w_next w) l k → (k ≤ length (S_ l))%nat → 1 ≤ quota →
  ∃ w' k', walk_level level_of svc start rows ps featured limit quota w l = Ok w' ∧
    (k ≤ k' ≤ length (S_ l))%nat ∧ at_ (w_next w') l k' ∧
    (∀ l', l' ≠ l → assoc l' (w_next w') = assoc l' (w_next w)) ∧
    (w_records w').*1 = (w_records w).*1 ++ unseen featured (take (k' - k) (drop k (S_ l))) ∧
    (w_next w' = w_next w ∨ ∃ r, r ∈ S_ l ∧ w_next w' = assoc_set l (position_of r) (w_next w)) ∧
    (w_more w' = false → w_more w = false ∧ k' = length (S_ l)) ∧
    (len (w_records w) < limit → k' = k → k = length (S_ l) ∧ w_more w' = w_more w).
Proof.
  intros Hps Hw Hk Hq. rewrite walk_level_eq.
  destruct (at_read ps l k Hps) as (t & n & -> & Hra). cbn [mbind result_bind fst snd].
  set (count := Z.min quota (limit - len (w_records w))).
  destruct (Z.leb_spec count 0) as [Hc|Hc].
  { eexists _, k. split; [reflexivity|]. cbn [w_records w_next w_more].
    rewrite Nat.sub_diag, take_0. unfold unseen. rewrite filter_nil, app_nil_r.
    split; [lia|]. split; [done|]. split; [done|]. split; [done|]. split; [by left|].
    split; [done|]. unfold count in *. lia. }
  rewrite Hra. set (all := drop k (S_ l)). set (got := upto count all).
  destruct (with_record_ok (unseen featured got)) as (recs & -> & Hrecs).
  { apply (partition_payload l). unfold unseen, got, upto, all.
    etrans; [apply sublist_filter|]. etrans; [apply sublist_take|]. apply sublist_drop. }
  cbn [mbind result_bind]. set (m := Nat.min (Z.to_nat count) (length all)).
  assert (got = take m all) as Hgot.
  { unfold got, upto, m. destruct (Nat.le_ge_cases (Z.to_nat count) (length all)).
    - by rewrite Nat.min_l.
    - by rewrite Nat.min_r, !take_ge by lia. }
  assert (length all = length (S_ l) - k)%nat as Hall by apply length_drop.
  eexists _, (k + m)%nat. split; [reflexivity|]. cbn [w_records w_next w_more].
  replace (k + m - k)%nat with m by lia.
  assert (moved l got (w_next w) = w_next w ∧ m = 0%nat ∨
          (∃ r, S_ l !! (k + m - 1)%nat = Some r ∧ (0 < m)%nat ∧
             moved l got (w_next w) = assoc_set l (position_of r) (w_next w))) as Hmoved.
  { rewrite Hgot. destruct m as [|m'] eqn:Hm; [by left|right]. fold m in Hm.
    destruct (lookup_lt_is_Some_2 (S_ l) (k + S m' - 1)) as [r Hr]; [lia|].
    exists r. split; [done|]. split; [lia|]. unfold moved. rewrite last_take by lia.
    unfold all. rewrite lookup_drop. replace (k + (S m' - 1))%nat with (k + S m' - 1)%nat by lia.
    by rewrite Hr. }
  split; [lia|]. split.
  { destruct Hmoved as [[-> ->]|(r & Hr & Hm & ->)]; [by rewrite Nat.add_0_r|].
    replace (k + m)%nat with (S (k + m - 1)) by lia. exists r. split; [done|].
    apply assoc_set_same. }
  split.
  { intros l' Hl'. destruct Hmoved as [[-> _]|(r & _ & _ & ->)]; [done|].
    by apply assoc_set_other. }
  split; [by rewrite fmap_app, Hrecs, Hgot|].
  split.
  { destruct Hmoved as [[-> _]|(r & Hr & _ & ->)]; [by left|right].
    exists r. split; [by eapply list_elem_of_lookup_2|done]. }
  split.
  - intros [? Hlt%Z.ltb_ge]%orb_false_iff. split; [done|]. unfold len in Hlt. lia.
  - intros Hlim Heq. assert (m = 0)%nat as Hm by lia.
    assert (length all = 0)%nat as H0 by (unfold m, count in *; lia). split; [lia|].
    rewrite (proj2 (Z.ltb_ge count (len all))) by (unfold len; lia). by rewrite orb_false_r.
Qed.

(** The entries a cursor may hold: the featured identifiers, and one position per
    partition of [parts]. *)
Variable parts : list pystr.

Definition entry_ok (kv : pystr * json) : Prop :=
  (kv.1 = u "_featured" ∧ ∃ ids, kv.2 = JList (JInt <$> ids) ∧ len ids ≤ 50 ∧
     Forall (λ n, 1 ≤ n < 2 ^ 63) ids) ∨
  (kv.1 ∈ parts ∧ ∃ r, r ∈ rows ∧ kv.2 = position_of r).

Definition positions_ok (ps : positions) : Prop :=
  NoDup (keys ps) ∧ Forall entry_ok ps.

Lemma keys_assoc_set {A} k (v : A) l k' : k' ∈ keys (assoc_set k v l) ↔ k' = k ∨ k' ∈ keys l.
Proof.
  unfold keys. induction l as [|[k1 v1] l IH]; cbn.
  - rewrite list_elem_of_singleton, elem_of_nil. tauto.
  - unfold str_eqb. case_bool_decide; cbn; rewrite !elem_of_cons; [subst; tauto|].
    rewrite IH. tauto.
Qed.

Lemma NoDup_assoc_set {A} k (v : A) l : NoDup (keys l) → NoDup (keys (assoc_set k v l)).
Proof.
  induction l as [|[k1 v1] l IH]; cbn; intros Hnd.
  - apply NoDup_singleton.
  - inversion_clear Hnd as [|? ? Hni Hnd']. unfold str_eqb.
    case_bool_decide; cbn; constructor; [done|done| |by apply IH].
    change (k1 ∉ keys (assoc_set k v l)). rewrite keys_assoc_set. intros [?|?]; [by subst|done].
Qed.

Lemma Forall_assoc_set {A} (P : pystr * A → Prop) k v l :
  P (k, v) → Forall P l → Forall P (assoc_set k v l).
Proof.
  intros Hv. induction 1 as [|[k1 v1] l H1 Hl IH]; cbn; [by constructor|].
  unfold str_eqb. case_bool_decide; [subst|]; by constructor.
Qed.

Lemma positions_ok_set k v ps :
  entry_ok (k, v) → positions_ok ps → positions_ok (assoc_set k v ps).
Proof.
  intros Hv [Hnd Hall]. split; [by apply NoDup_assoc_set|by apply Forall_assoc_set].
Qed.

Hypothesis parts_known : Forall (λ l, l ∈ known_levels) parts.

Lemma featured_not_part : u "_featured" ∉ parts.
Proof.
  intros H. rewrite Forall_forall in parts_known. specialize (parts_known _ H).
  assert (u "_featured" ∉ known_levels) as Hno by (apply (bool_decide_unpack _); by vm_compute).
  done.
Qed.

(** Several partitions, one after the other. *)
Lemma walk_levels_spec ps featured limit quota ls w (k : pystr → nat) :
  NoDup ls → Forall (λ l, l ∈ parts) ls →
  (∀ l, l ∈ ls → at_ ps l (k l)) → (∀ l, l ∈ parts → at_ (w_next w) l (k l)) →
  (∀ l, l ∈ parts → (k l ≤ length (S_ l))%nat) → 1 ≤ quota → positions_ok (w_next w) →
  ∃ w' k', walk_levels level_of svc start rows ps featured limit quota w ls = Ok w' ∧
    (∀ l, (k l ≤ k' l)%nat) ∧ (∀ l, l ∉ ls → k' l = k l) ∧
    (∀ l, l ∈ parts → at_ (w_next w') l (k' l) ∧ (k' l ≤ length (S_ l))%nat) ∧
    positions_ok (w_next w') ∧
    assoc (u "_featured") (w_next w') = assoc (u "_featured") (w_next w) ∧
    (w_records w').*1 = (w_records w).*1 ++ concat (contribution featured k k' <$> ls) ∧
    (w_more w' = false → w_more w = false ∧ ∀ l, l ∈ ls → k' l = length (S_ l)) ∧
    (len (w_records w) < limit → (∀ l, l ∈ ls → k' l = k l) →
     (∀ l, l ∈ ls → k l = length (S_ l)) ∧ w_more w' = w_more w).
Proof.
  intros Hnd. revert w k. induction Hnd as [|l ls Hl Hnd IH]; intros w k Hls Hps Hw Hk Hq Hok.
  { exists w, k. cbn. rewrite app_nil_r. split; [done|]. split; [done|]. split; [done|].
    split; [auto|]. split; [done|]. split; [done|]. split; [done|].
    split; [by intros ->; split; [|intros ? ?%not_elem_of_nil]|].
    intros _ _. split; [by intros ? ?%not_elem_of_nil|done]. }
  inversion_clear Hls as [|? ? Hlp Hls'].
  destruct (walk_level_spec ps featured limit quota w l (k l)) as
    (w1 & n & Hw1 & Hn & Hat & Hother & Hrecs & Hnext & Hmore & Hprog);
    [apply Hps, list_elem_of_here|by apply Hw|by apply Hk|done|].
  cbn [walk_levels]. rewrite Hw1. cbn [mbind result_bind].
  set (k1 := λ l', if decide (l' = l) then n else k l').
  assert (k1 l = n) as Hk1 by (unfold k1; by rewrite decide_True).
  assert (∀ l', l' ≠ l → k1 l' = k l') as Hk1' by (intros; unfold k1; by rewrite decide_False).
  assert (∀ l' ps', assoc l' ps' = assoc l' (w_next w) → l' ≠ l → l' ∈ parts → at_ ps' l' (k l'))
    as Hkeep.
  { intros l' ps' He Hne Hp. specialize (Hw l' Hp). unfold at_ in *. by rewrite He. }
  destruct (IH w1 k1) as (w' & k' & Hw' & Hmono & Hsame & Hats & Hok' & Hf & Hrecs' & Hmore' & Hprog').
  { done. }
  { intros l' Hl'. rewrite Hk1' by (intros ->; done). by apply Hps, list_elem_of_further. }
  { intros l' Hp. destruct (decide (l' = l)) as [->|Hne]; [by rewrite Hk1|].
    rewrite Hk1' by done. apply Hkeep; [by apply Hother|done|done]. }
  { intros l' Hp. destruct (decide (l' = l)) as [->|Hne]; [rewrite Hk1; lia|].
    rewrite Hk1' by done. by apply Hk. }
  { done. }
  { destruct Hnext as [->|(r & Hr & ->)]; [done|]. apply positions_ok_set; [|done]. right.
    split; [done|]. exists r. apply partition_rows_elem in Hr as [Hr _]. done. }
  exists w', k'. split; [exact Hw'|].
  assert (k' l = n) as Hk'l by by rewrite Hsame.
  split.
  { intros l'. destruct (decide (l' = l)) as [->|Hne]; [lia|]. rewrite <- (Hk1' l') by done.
    apply Hmono. }
  split.
  { intros l' Hni. apply not_elem_of_cons in Hni as [Hne Hni].
    rewrite Hsame by done. by apply Hk1'. }
  split; [done|]. split; [done|]. split.
  { rewrite Hf. apply Hother. intros He. apply featured_not_part. by rewrite He. }
  split.
  { rewrite Hrecs', Hrecs. cbn [fmap list_fmap concat]. rewrite <- app_assoc. f_equal.
    f_equal; [unfold contribution; by rewrite Hk'l|]. f_equal. apply list_fmap_ext.
    intros i l' Hi%list_elem_of_lookup_2. unfold contribution. rewrite Hk1'; [done|].
    by intros ->. }
  split.
  - intros Hm. destruct (Hmore' Hm) as [Hm1 Hall]. destruct (Hmore Hm1) as [Hm0 Hn'].
    split; [done|]. intros l' [->|Hl']%elem_of_cons; [congruence|by apply Hall].
  - intros Hlim Hno. destruct Hprog as [Hkl Hm1]; [done| |].
    { rewrite <- Hk'l. apply Hno, list_elem_of_here. }
    assert (n = k l) as Hnk by (rewrite <- Hk'l; apply Hno, list_elem_of_here).
    destruct Hprog' as [Hall Hm'].
    + assert ((w_records w1).*1 = (w_records w).*1) as He.
      { rewrite Hrecs, Hnk, Nat.sub_diag, take_0. unfold unseen.
        by rewrite filter_nil, app_nil_r. }
      apply (f_equal length) in He. rewrite !length_fmap in He. unfold len in *. lia.
    + intros l' Hl'. rewrite Hk1' by (by intros ->). by apply Hno, list_elem_of_further.
    + split; [|congruence]. intros l' [->|Hl']%elem_of_cons; [done|].
      rewrite <- Hall by done. symmetry. apply Hk1'. by intros ->.
Qed.

(** *** Cursors *)

Lemma total_of_app l k : total_of (l ++ k) = total_of l + total_of k.
Proof. unfold total_of. induction l as [|x l IH]; cbn; lia. Qed.

Lemma total_of_perm l k : l ≡ₚ k → total_of l = total_of k.
Proof. unfold total_of. induction 1; cbn; lia. Qed.

Lemma total_of_nonneg l : Forall (λ x, 0 ≤ x) l → 0 ≤ total_of l.
Proof. unfold total_of. induction 1; cbn; lia. Qed.

(** A bound on the printed length of an entry, by its key. *)
Definition entry_weight (k : pystr) : Z :=
  if decide (k = u "_featured") then 1200 else 100.

Lemma id_len n : 1 ≤ n < 2 ^ 63 → len (str_of_Z n) ≤ 19.
Proof. intros Hn. apply len_str_of_Z; lia. Qed.

Lemma id_ok n : 1 ≤ n < 2 ^ 63 → int_ok n.
Proof. intros Hn%id_len. unfold int_ok, max_str_digits. lia. Qed.

Lemma key_len k : k ∈ known_levels → len (dump_str true k) ≤ 10.
Proof.
  intros Hk. apply Z.leb_le. revert k Hk. apply Forall_forall, (bool_decide_unpack _).
  by vm_compute.
Qed.

Lemma key_scalar k : k ∈ known_levels → forallb is_scalar k = true.
Proof. revert k. apply Forall_forall, (bool_decide_unpack _). by vm_compute. Qed.

Lemma len_total_le {A} (f : A → Z) b l :
  Forall (λ x, f x ≤ b) l → total_of (f <$> l) ≤ b * len l.
Proof.
  induction 1 as [|x l Hx _ IH]; [unfold len; cbn; lia|].
  rewrite len_cons. cbn [fmap list_fmap]. change (total_of (f x :: (f <$> l))) with (f x + total_of (f <$> l)).
  lia.
Qed.

Lemma entry_len kv : entry_ok kv → len (dump_pair true kv) ≤ entry_weight kv.1.
Proof.
  destruct kv as [k v]. unfold entry_ok, entry_weight, dump_pair. cbn [fst snd].
  change (len (dump_str true k ++ u ": " ++ dumps true false v))
    with (len (dump_str true k ++ [58; 32] ++ dumps true false v)).
  rewrite !len_app. change (len [58; 32]) with 2.
  intros [(-> & ids & -> & Hn & Hids)|(Hk & r & Hr & ->)].
  - rewrite decide_True by done. change (len (dump_str true (u "_featured"))) with 11.
    cbn [dumps]. unfold dump_seq. rewrite len_cons, len_app. change (len [93]) with 1.
    pose proof (len_join (u ", ") (map (dumps true false) (JInt <$> ids))) as Hj.
    change (len (u ", ")) with 2 in Hj.
    assert (len (map (dumps true false) (JInt <$> ids)) = len ids) as Hl.
    { unfold len. by rewrite length_map, length_fmap. }
    assert (total_of (len <$> map (dumps true false) (JInt <$> ids)) ≤ 19 * len ids) as Ht.
    { change (map (dumps true false) (JInt <$> ids)) with (dumps true false <$> (JInt <$> ids)).
      rewrite <- !list_fmap_compose. apply len_total_le.
      eapply Forall_impl; [exact Hids|]. intros n H. cbn. by apply id_len. }
    lia.
  - rewrite decide_False.
    2: { intros ->. by apply featured_not_part. }
    rewrite Forall_forall in parts_known. rewrite Forall_forall in rows_good. pose proof (key_len k (parts_known k Hk)).
    destruct (rows_good r Hr) as (Hid & _ & Ht & _). pose proof (id_len _ Hid).
    unfold position_of. cbn [dumps map join]. unfold dump_seq.
    change (u ", ") with [44; 32]. cbn [join]. rewrite len_cons, !len_app.
    change (len [44; 32]) with 2. change (len [93]) with 1. lia.
Qed.

Lemma positions_keys ps : positions_ok ps → keys ps ⊆ u "_featured" :: known_levels.
Proof.
  intros [_ Hall] k Hk. unfold keys in Hk. apply list_elem_of_fmap in Hk as (kv & -> & Hin).
  rewrite Forall_forall in Hall. rewrite Forall_forall in parts_known. destruct (Hall _ Hin) as [[-> _]|[Hp _]].
  - apply list_elem_of_here.
  - by apply list_elem_of_further, parts_known.
Qed.

Lemma positions_len ps : positions_ok ps → len (dumps true false (JObj ps)) ≤ 2600.
Proof.
  intros Hok. pose proof (positions_keys ps Hok) as Hsub. destruct Hok as [Hnd Hall].
  rewrite dump_obj, len_cons, len_app. change (len [125]) with 1.
  pose proof (len_join (u ", ") (map (dump_pair true) ps)) as Hj. change (len (u ", ")) with 2 in Hj.
  assert (len (map (dump_pair true) ps) = len ps) as Hl by (unfold len; by rewrite length_map).
  pose proof (NoDup_submseteq _ _ Hnd Hsub) as Hsm.
  pose proof (submseteq_length _ _ Hsm) as Hlen. unfold keys in Hlen. rewrite length_fmap in Hlen.
  change (length (u "_featured" :: known_levels)) with 14%nat in Hlen.
  apply submseteq_Permutation in Hsm as [rest Hperm].
  apply (Permutation_map entry_weight), total_of_perm in Hperm.
  rewrite map_app, total_of_app in Hperm.
  change (total_of (map entry_weight (u "_featured" :: known_levels))) with 2500 in Hperm.
  assert (0 ≤ total_of (map entry_weight rest)) as Hrest.
  { apply total_of_nonneg, Forall_fmap, Forall_forall. intros k _. cbn.
    unfold entry_weight. destruct (decide _); lia. }
  assert (total_of (len <$> map (dump_pair true) ps) ≤ total_of (map entry_weight (keys ps))) as Hle.
  { clear -Hall parts_known rows_good.
    induction Hall as [|kv ps Hkv _ IH]; [done|]. pose proof (entry_len kv Hkv).
    change (len (dump_pair true kv) + total_of (len <$> map (dump_pair true) ps)
            ≤ entry_weight kv.1 + total_of (map entry_weight (keys ps))). lia. }
  unfold len in *. lia.
Qed.

Lemma positions_plain ps : positions_ok ps → plain (JObj ps).
Proof.
  intros [Hnd Hall]. assert (Forall (λ kv, plain kv.2 ∧ forallb is_scalar kv.1 = true) ps) as H.
  { eapply Forall_impl; [exact Hall|]. intros [k v]. unfold entry_ok. cbn [fst snd].
    intros [(-> & ids & -> & _ & Hids)|(Hk & r & Hr & ->)].
    - split; [|by vm_compute]. apply plain_list, Forall_fmap.
      eapply Forall_impl; [exact Hids|]. intros n Hn. by apply id_ok.
    - rewrite Forall_forall in parts_known. rewrite Forall_forall in rows_good.
      split; [|by apply key_scalar, parts_known].
      destruct (rows_good r Hr) as (Hid & Ht & _). apply plain_list.
      constructor; [exact Ht|]. constructor; [by apply id_ok|constructor]. }
  cbn. split; [done|]. clear Hnd Hall. induction H as [|kv ps [H1 H2] _ [IH1 IH2]]; [done|].
  cbn. by rewrite H2, IH1.
Qed.

Lemma cursor_bytes bs c : b64encode bs = c → Forall printable bs → Forall printable c.
Proof.
  intros <- Hbs. assert (Forall is_byte bs) as Hb.
  { eapply Forall_impl; [exact Hbs|]. unfold printable, is_byte. intros; lia. }
  clear Hbs. assert (∀ n, 0 ≤ n < 64 → printable (b64_char n)) as Hc.
  { intros n Hn. assert (n ∈ seqZ 0 64) as Hin by by apply elem_of_seqZ.
    clear Hn. revert n Hin. apply Forall_forall. unfold printable.
    apply (bool_decide_unpack _). by vm_compute. }
  induction bs as [bs IH] using (induction_ltof1 _ length); unfold ltof in IH.
  destruct bs as [|a [|b [|c bs]]]; [constructor|..]; cbn [b64encode].
  - inversion_clear Hb as [|? ? Ha _]. destruct (b64_bits a 0 0 Ha) as ((?&?&_) & _); [done..|].
    rewrite Z.add_0_r in *. repeat apply Forall_cons_2; try apply Forall_nil_2;
      try by apply Hc. all: done.
  - inversion_clear Hb as [|? ? Ha Hb']. inversion_clear Hb' as [|? ? Hb _].
    destruct (b64_bits a b 0 Ha Hb) as ((?&?&?&_) & _); [done|].
    rewrite Z.add_0_r in *. repeat apply Forall_cons_2; try apply Forall_nil_2;
      try by apply Hc. all: done.
  - inversion_clear Hb as [|? ? Ha Hb']. inversion_clear Hb' as [|? ? Hb Hb''].
    inversion_clear Hb'' as [|? ? Hc' Hbs].
    destruct (b64_bits a b c Ha Hb Hc') as ((?&?&?&?) & _).
    constructor; [by apply Hc|]. constructor; [by apply Hc|]. constructor; [by apply Hc|].
    constructor; [by apply Hc|]. apply IH; [cbn; lia|done].
Qed.

(** A cursor the store hands out is accepted and means what it meant. *)
Lemma cursor_roundtrip repr ps :
  positions_ok ps →
  ∃ c, make_cursor ps = Ok c ∧ truthy (JStr c) = true ∧ read_cursor repr (JStr c) = Ok ps.
Proof.
  intros Hok. pose proof (positions_plain ps Hok) as Hp. pose proof (positions_len ps Hok) as Hl.
  pose proof (dump_printable _ Hp) as Hpr. unfold make_cursor.
  rewrite (utf8_printable _ Hpr). cbn [mbind result_bind].
  set (bs := dumps true false (JObj ps)) in *. exists (b64encode bs). split; [done|].
  pose proof (cursor_bytes bs _ eq_refl Hpr) as Hc.
  assert (truthy (JStr (b64encode bs)) = true) as Ht.
  { unfold bs. rewrite dump_obj. cbn [truthy].
    destruct (join _ _ ++ [125]) as [|x [|y l]]; done. }
  split; [done|]. unfold read_cursor. rewrite Ht. cbn [py_str]. unfold decode_positions.
  pose proof (len_b64encode bs). rewrite (proj2 (Z.ltb_ge _ _)) by lia.
  rewrite (utf8_printable _ Hc). cbn [mbind result_bind]. rewrite b64_roundtrip.
  2: { eapply Forall_impl; [exact Hpr|]. unfold printable, is_byte. intros; lia. }
  cbn [mbind result_bind]. destruct (loads_dumps (JObj ps) Hp) as [_ Hb].
  fold bs in Hb. rewrite (utf8_printable _ Hpr) in Hb. cbn [mbind result_bind] in Hb.
  by rewrite Hb.
Qed.

(** *** Rare messages *)

Lemma signature_ok r : payload_good r → ∃ sig, signature_of r = Ok sig.
Proof.
  intros (kvs & msg & Hl & Hm). unfold signature_of. rewrite Hl. cbn [mbind result_bind].
  unfold jget, jget_or. rewrite Hm. cbn [mbind result_bind default from_option].
  destruct (py_eqb _ (js "BGL")); [cbn; eauto|].
  destruct (py_eqb _ (js "HDFS")); cbn; eauto.
Qed.

(** The groups: distinct signatures, each with a row that has it. *)
Definition groups_ok (groups : list (pystr * (Z * row))) : Prop :=
  NoDup (keys groups) ∧ Forall (λ g, signature_of g.2.2 = Ok g.1 ∧ g.2.2 ∈ rows) groups.

Lemma add_group_ok sig r groups :
  r ∈ rows → signature_of r = Ok sig → groups_ok groups → groups_ok (add_group sig r groups).
Proof.
  intros Hr Hs [Hnd Hg]. unfold add_group.
  assert (∀ n r0, signature_of r0 = Ok sig → r0 ∈ rows → groups_ok (assoc_set sig (n, r0) groups))
    as Hset.
  { intros n r0 H1 H2. split; [by apply NoDup_assoc_set|by apply Forall_assoc_set]. }
  destruct (assoc sig groups) as [[n r0]|] eqn:Ha; [|by apply Hset].
  apply assoc_elem_of in Ha. rewrite Forall_forall in Hg. destruct (Hg _ Ha) as [H1 H2].
  by apply Hset.
Qed.

Lemma group_rows_ok rs groups :
  Forall (λ r, r ∈ rows) rs → groups_ok groups →
  ∃ groups', group_rows rs groups = Ok groups' ∧ groups_ok groups'.
Proof.
  intros Hrs. revert groups. induction Hrs as [|r rs Hr _ IH]; intros groups Hg; [by eexists|].
  cbn [group_rows]. rewrite Forall_forall in rows_payload.
  destruct (signature_ok r (rows_payload r Hr)) as [sig Hsig]. rewrite Hsig. cbn [mbind result_bind].
  apply IH. by apply add_group_ok.
Qed.

Lemma rid_inj r r' : r ∈ rows → r' ∈ rows → rid r = rid r' → r = r'.
Proof. by apply NoDup_fmap_inj. Qed.

Lemma rare_rows_total limit :
  1 ≤ limit ≤ 100 →
  ∃ rare, rare_rows rows limit = Ok rare ∧ NoDup (rid <$> rare) ∧
    Forall (λ r, r ∈ rows) rare ∧ len rare ≤ 50 ∧ len rare ≤ limit.
Proof.
  intros Hl. unfold rare_rows.
  destruct (group_rows_ok rows []) as (groups & Hg & Hnd & Hok);
    [by apply Forall_forall|by split; constructor|].
  rewrite Hg. cbn [mbind result_bind]. eexists. split; [reflexivity|].
  set (all := snd <$> groups.*2).
  assert (Forall (λ r, r ∈ rows) all) as Hin.
  { unfold all. rewrite <- list_fmap_compose. apply Forall_fmap.
    eapply Forall_impl; [exact Hok|]. intros g [_ H]. exact H. }
  assert (NoDup all) as Hall.
  { unfold all. rewrite <- list_fmap_compose. apply NoDup_fmap_2_strong.
    - intros g g' Hg1 Hg2 He. rewrite Forall_forall in Hok. cbn in He.
      destruct (Hok _ Hg1) as [H1 _], (Hok _ Hg2) as [H2 _]. rewrite He in H1.
      assert (g.1 = g'.1) as Hk by congruence. unfold keys in Hnd.
      apply list_elem_of_lookup in Hg1 as [a Ha]. apply list_elem_of_lookup in Hg2 as [b Hb].
      assert (a = b) as ->; [|congruence].
      eapply (NoDup_lookup (groups.*1)); [exact Hnd|..]; rewrite list_lookup_fmap;
        [by rewrite Ha|rewrite Hb; cbn; by rewrite Hk].
    - by apply NoDup_fmap_1 in Hnd. }
  assert (Hsub : (snd <$> upto (Z.max 1 (limit / 2)) (sort_by rarer (groups.*2))) ⊆+ all).
  { unfold all. apply fmap_submseteq. unfold upto. etrans; [apply sublist_submseteq, sublist_take|].
    by rewrite sort_by_perm. }
  set (rare := snd <$> upto _ _) in *. split.
  - apply NoDup_fmap_2_strong.
    + intros r r' H1 H2. apply rid_inj; rewrite Forall_forall in Hin; apply Hin;
        by eapply elem_of_submseteq.
    + apply submseteq_Permutation in Hsub as [k Hk]. rewrite Hk in Hall.
      by apply NoDup_app in Hall as [? _].
  - split.
    { apply Forall_forall. intros r Hr. rewrite Forall_forall in Hin. apply Hin.
      by eapply elem_of_submseteq. }
    pose proof (len_upto (Z.max 1 (limit / 2)) (sort_by rarer (groups.*2)) ltac:(lia)) as H.
    assert (len rare = len (upto (Z.max 1 (limit / 2)) (sort_by rarer (groups.*2)))) as ->.
    { unfold len, rare. by rewrite length_fmap. }
    Z.to_euclidean_division_equations; lia.
Qed.

(** *** From page to page *)

Hypothesis parts_nodup : NoDup parts.
Hypothesis rows_parts : Forall (λ r, level r ∈ parts) rows.

(** The rows not yet delivered when [k] rows of each partition were read. *)
Definition remaining (featured : list Z) (k : pystr → nat) : list row :=
  concat ((λ l, unseen featured (drop (k l) (S_ l))) <$> parts).

Lemma concat_app_perm {A B} (f g h : A → list B) ls :
  (∀ l, h l = f l ++ g l) →
  concat (h <$> ls) ≡ₚ concat (f <$> ls) ++ concat (g <$> ls).
Proof.
  intros Hh. induction ls as [|l ls IH]; [done|]. cbn. rewrite Hh, IH. solve_Permutation.
Qed.

Lemma remaining_step featured k k' :
  (∀ l, k l ≤ k' l)%nat →
  remaining featured k ≡ₚ concat (contribution featured k k' <$> parts) ++ remaining featured k'.
Proof.
  intros Hk. apply concat_app_perm. intros l. unfold contribution, unseen.
  rewrite <- filter_app. f_equal.
  replace (drop (k' l) (S_ l)) with (drop (k' l - k l) (drop (k l) (S_ l))).
  - by rewrite take_drop.
  - rewrite drop_drop. f_equal. specialize (Hk l). lia.
Qed.

Lemma unseen_nil rs : unseen [] rs = rs.
Proof. apply filter_all. by apply Forall_forall. Qed.

Lemma all_partitions : remaining [] (λ _, 0%nat) ≡ₚ rows.
Proof.
  assert (NoDup rows) as Hnd by by eapply NoDup_fmap_1.
  apply NoDup_Permutation; [|done|].
  - unfold remaining. apply (concat_NoDup _ _ level); [exact parts_nodup|..].
    + intros l _. rewrite unseen_nil, drop_0. eapply NoDup_fmap_1, partition_ids.
    + intros l r. rewrite unseen_nil, drop_0, partition_rows_elem. by intros [_ ?].
  - intros r. unfold remaining. rewrite elem_of_concat_fmap. split.
    + intros (l & _ & Hr). rewrite unseen_nil, drop_0, partition_rows_elem in Hr. by destruct Hr.
    + intros Hr. exists (level r). rewrite unseen_nil, drop_0, partition_rows_elem.
      rewrite Forall_forall in rows_parts. auto.
Qed.

Lemma featured_split rare :
  NoDup (rid <$> rare) → Forall (λ r, r ∈ rows) rare →
  rare ++ remaining (rid <$> rare) (λ _, 0%nat) ≡ₚ rows.
Proof.
  intros Hnd Hin. etrans; [|exact all_partitions].
  assert (remaining (rid <$> rare) (λ _, 0%nat)
          = filter (λ r, existsb (Z.eqb (rid r)) (rid <$> rare) = false) (remaining [] (λ _, 0%nat)))
    as ->.
  { unfold remaining. generalize parts. intros ls. induction ls as [|l ls IH]; [done|].
    cbn [fmap list_fmap concat]. rewrite filter_app, unseen_nil. f_equal. exact IH. }
  assert (NoDup (remaining [] (λ _, 0%nat))) as Hr.
  { rewrite all_partitions. by eapply NoDup_fmap_1. }
  assert (∀ r, r ∈ rows → existsb (Z.eqb (rid r)) (rid <$> rare) = true ↔ r ∈ rare) as Hex.
  { intros r Hrr. rewrite existsb_exists. split.
    - intros (n & Hn & He%Z.eqb_eq). apply list_elem_of_In, list_elem_of_fmap in Hn as (r' & -> & Hr').
      rewrite Forall_forall in Hin. by rewrite (rid_inj r r' Hrr (Hin r' Hr') He).
    - intros Hr'. exists (rid r). split; [|by apply Z.eqb_eq].
      by apply list_elem_of_In, list_elem_of_fmap_2. }
  apply NoDup_Permutation; [|done|].
  - apply NoDup_app. split; [by eapply NoDup_fmap_1|]. split; [|by apply NoDup_filter].
    intros r Hr1 [Hr2 _]%list_elem_of_filter. rewrite Forall_forall in Hin.
    apply (Hex r (Hin r Hr1)) in Hr1. congruence.
  - intros r. rewrite elem_of_app, list_elem_of_filter, all_partitions.
    rewrite Forall_forall in Hin. split; [intros [?|[_ ?]]; auto|]. intros Hrr.
    destruct (existsb (Z.eqb (rid r)) (rid <$> rare)) eqn:He; [left|by right].
    by apply Hex.
Qed.

Lemma remaining_done featured k :
  (∀ l, l ∈ parts → k l = length (S_ l)) → remaining featured k = [].
Proof.
  intros Hk. unfold remaining. assert (∀ ls, (∀ l, l ∈ ls → k l = length (S_ l)) →
    concat ((λ l, unseen featured (drop (k l) (S_ l))) <$> ls) = []) as H; [|by apply H].
  induction ls as [|l ls IH]; [done|]. intros Hls. cbn.
  rewrite (Hls l) by apply list_elem_of_here. rewrite drop_all, IH.
  - done.
  - intros l' Hl'. by apply Hls, list_elem_of_further.
Qed.

(** The rows of every partition still ahead, featured or not: what shrinks. *)
Lemma remaining_shrinks k k' :
  (∀ l, k l ≤ k' l)%nat → (∃ l, l ∈ parts ∧ (k l < k' l ≤ length (S_ l))%nat) →
  (length (remaining [] k') < length (remaining [] k))%nat.
Proof.
  intros Hk (l & Hl & Hlt). rewrite (remaining_step [] k k') by done. rewrite length_app.
  assert (concat (contribution [] k k' <$> parts) ≠ []) as Hne.
  2: { destruct (concat _); [done|]. cbn. lia. }
  intros He. assert (contribution [] k k' l = []) as Hc.
  { apply elem_of_nil_inv. intros r Hr. assert (r ∈ concat (contribution [] k k' <$> parts)) as Hi
      by (apply elem_of_concat_fmap; eauto). rewrite He in Hi. by apply elem_of_nil in Hi. }
  unfold contribution in Hc. rewrite unseen_nil in Hc. apply (f_equal length) in Hc.
  rewrite length_take, length_drop in Hc. cbn in Hc. lia.
Qed.
End pages.

Section query_pages.
Context {JR : JsonRuntime} {TD : TzDatabase} {UT : UnicodeTables}.
Variable container_repr : json → pystr.
Variable level_of : pystr → pystr.
Variable fts : pystr → Z → bool.
Variable db : list row.
Variables (sc : LogScope) (spec : json) (limit : Z).

(** Follow the cursors from one on, at most [n] pages. *)
Fixpoint pages (n : nat) (cursor : json) : result (list (list (row * json))) :=
  match n with
  | O => Raise (exn_of RuntimeError "out of pages")
  | S n' =>
      p ← query container_repr level_of fts db sc spec limit cursor;
      match pg_cursor p with
      | None => Ok [pg_records p]
      | Some c => rest ← pages n' (JStr c); Ok (pg_records p :: rest)
      end
  end.

Hypothesis ids_distinct : NoDup (rid <$> db).
Hypothesis db_good : Forall (row_good level_of) db.
Hypothesis db_payload : Forall payload_good db.
Variables (q : Spec) (start end_ : pystr).
Hypothesis spec_read : read_spec spec = Ok q.
Hypothesis start_canonical : canonical (log_start sc) = Ok start.
Hypothesis end_canonical : canonical (log_end sc) = Ok end_.
Hypothesis levels_distinct : NoDup (s_levels q).

Local Abbreviation level := (level level_of).
Local Abbreviation svc := (log_service sc).
Local Abbreviation sel := (select level_of fts db svc start end_ q).
Local Abbreviation rows := (sel_rows sel).
Local Abbreviation parts := (eligible sel).
Local Abbreviation lim := (clamp_limit limit).
Local Abbreviation base :=
  (filter (λ r, in_scope fts svc start end_ (s_terms q) r = true) db).

(** *** The partitions of a selection *)

Lemma rows_sublist : rows `sublist_of` db.
Proof.
  unfold select. cbn [sel_rows]. destruct (_ && _ && _); [apply sublist_filter|].
  destruct (selected_levels q); [apply sublist_filter|].
  etrans; apply sublist_filter.
Qed.

Lemma rows_sub r : r ∈ rows → r ∈ db.
Proof. intros Hr. eapply sublist_subseteq; [apply rows_sublist|done]. Qed.

Lemma sel_ids : NoDup (rid <$> rows).
Proof. eapply sublist_NoDup; [exact ids_distinct|]. apply fmap_sublist, rows_sublist. Qed.

Lemma Forall_rows (P : row → Prop) : Forall P db → Forall P rows.
Proof. rewrite !Forall_forall. intros H r Hr. by apply H, rows_sub. Qed.

Lemma sel_start : Forall (λ r, str_leb start (rtime r) = true) rows.
Proof.
  apply Forall_forall. intros r Hr. eapply select_rows_window in Hr. apply Hr.
Qed.

Lemma count_hist l :
  count_of (histogram_of level_of base) l ≠ 0 ↔ ∃ r, r ∈ base ∧ level r = l.
Proof.
  unfold count_of, histogram_of.
  assert (∀ ls, assoc l ((λ l, (l, len (filter (λ r, level r = l) base))) <$> ls)
            = if decide (l ∈ ls) then Some (len (filter (λ r, level r = l) base)) else None) as Ha.
  { induction ls as [|l' ls IH]; [by rewrite decide_False by apply not_elem_of_nil|].
    cbn. unfold str_eqb. case_bool_decide as Hl.
    - subst. rewrite decide_True by apply list_elem_of_here. done.
    - rewrite IH. destruct (decide (l ∈ ls)).
      + by rewrite decide_True by by apply list_elem_of_further.
      + rewrite decide_False; [done|]. by intros [?|?]%elem_of_cons. }
  rewrite Ha. destruct (decide _) as [Hin|Hni]; cbn.
  - apply elem_of_fromkeys, list_elem_of_fmap in Hin as (r & -> & Hr).
    split; [intros _; by exists r|]. intros _ H0.
    assert (r ∈ filter (λ r', level r' = level r) base) as Hf by by apply list_elem_of_filter.
    unfold len in H0. destruct (filter _ base); [by apply elem_of_nil in Hf|]. cbn in H0. lia.
  - split; [done|]. intros (r & Hr & <-). exfalso. apply Hni, elem_of_fromkeys.
    by apply list_elem_of_fmap_2.
Qed.

Lemma hist_levels l : l ∈ (histogram_of level_of base).*1 ↔ ∃ r, r ∈ base ∧ level r = l.
Proof.
  unfold histogram_of. rewrite <- list_fmap_compose.
  replace ((fst ∘ _) <$> fromkeys (level <$> base)) with (fromkeys (level <$> base)).
  - rewrite elem_of_fromkeys, list_elem_of_fmap. split; intros (r & H1 & H2); by exists r.
  - symmetry. etrans; [|apply list_fmap_id]. by apply list_fmap_ext.
Qed.

Lemma partitions_nodup : NoDup (sel_partitions sel).
Proof.
  assert (NoDup (histogram_of level_of base).*1) as Hh.
  { unfold histogram_of. rewrite <- list_fmap_compose. apply NoDup_fmap_2; [|apply NoDup_fromkeys].
    by intros x y. }
  unfold select. cbn [sel_partitions]. destruct (_ && _ && _); [by rewrite sort_by_perm|].
  destruct (selected_levels q) eqn:Hs; [by rewrite sort_by_perm|]. rewrite <- Hs.
  unfold selected_levels. destruct (s_levels q) eqn:Hl; [|done].
  destruct (_ && _); [|constructor]. apply (bool_decide_unpack _). by vm_compute.
Qed.

Lemma parts_nodup : NoDup parts.
Proof. apply NoDup_filter, partitions_nodup. Qed.

Lemma parts_in_base l : l ∈ parts → ∃ r, r ∈ base ∧ level r = l.
Proof. intros [H _]%list_elem_of_filter. by apply count_hist. Qed.

Lemma parts_known : Forall (λ l, l ∈ known_levels) parts.
Proof.
  apply Forall_forall. intros l Hl. apply parts_in_base in Hl as (r & [_ Hr]%list_elem_of_filter & <-).
  rewrite Forall_forall in db_good. by destruct (db_good r Hr) as (_ & _ & _ & ?).
Qed.

Lemma sel_parts : Forall (λ r, level r ∈ parts) rows.
Proof.
  apply Forall_forall. intros r Hr.
  assert (r ∈ base) as Hb.
  { revert Hr. unfold select. cbn [sel_rows]. destruct (_ && _ && _); [done|].
    destruct (selected_levels q); [done|]. by intros [_ ?]%list_elem_of_filter. }
  apply list_elem_of_filter. split; [apply count_hist; by exists r|].
  revert Hr. unfold select. cbn [sel_rows sel_partitions].
  assert (level r ∈ (histogram_of level_of base).*1) as Hh by (apply hist_levels; eauto).
  destruct (_ && _ && _); [by rewrite elem_of_sort_by|].
  destruct (selected_levels q) eqn:Hs; [by rewrite elem_of_sort_by|].
  intros [Hm _]%list_elem_of_filter. unfold mem in Hm. apply existsb_exists in Hm as (l' & Hl' & He).
  apply bool_decide_eq_true in He as ->. by apply list_elem_of_In.
Qed.

Lemma lim_range : 1 ≤ lim ≤ 100.
Proof. unfold clamp_limit. lia. Qed.

(** *** One page and the rest *)

Local Abbreviation remaining := (remaining level_of rows parts).
Local Abbreviation at_ := (at_ level_of rows).
Local Abbreviation positions_ok := (positions_ok rows parts).
Local Abbreviation S_ := (partition_rows level_of rows).

(** The positions record [k] rows of each partition, and the featured rows. *)
Definition walk_inv (ps : positions) (featured : list Z) (k : pystr → nat) : Prop :=
  positions_ok ps ∧ read_featured ps = Ok featured ∧
  ∀ l, l ∈ parts → at_ ps l (k l) ∧ (k l ≤ length (S_ l))%nat.

(** What a page does: [delivered] are the rows of its records. *)
Definition page_step (w' : Walk) (featured : list Z) (k k' : pystr → nat)
    (delivered : list row) : Prop :=
  walk_inv (w_next w') featured k' ∧ (∀ l, k l ≤ k' l)%nat ∧
  (w_records w').*1 = delivered ++ concat (contribution level_of rows featured k k' <$> parts) ∧
  (w_more w' = false → ∀ l, l ∈ parts → k' l = length (S_ l)).

Lemma walk_page featured w k ps quota :
  (∀ l, l ∈ parts → at_ ps l (k l) ∧ (k l ≤ length (S_ l))%nat) →
  w_more w = false → 1 ≤ quota →
  (∀ l, l ∈ parts → at_ (w_next w) l (k l)) → positions_ok (w_next w) →
  read_featured (w_next w) = Ok featured →
  ∃ w' k', walk_levels level_of svc start rows ps featured lim quota w parts = Ok w' ∧
    page_step w' featured k k' (w_records w).*1 ∧
    (len (w_records w) < lim → w_more w' = true →
     (length (remaining [] k') < length (remaining [] k))%nat).
Proof.
  intros Hat Hmore Hq Hat' Hok' Hf.
  destruct (walk_levels_spec level_of svc start rows sel_ids (Forall_rows _ db_good)
    (Forall_rows _ db_payload) sel_start parts parts_known ps featured lim quota parts w k)
    as (w' & k' & Hw & Hmono & _ & Hats & Hok2 & Hf2 & Hrecs & Hdone & Hprog);
    [apply parts_nodup|by apply Forall_forall|intros; by apply Hat|done|intros; by apply Hat
    |done|done|].
  exists w', k'. split; [done|]. split.
  - split; [|split; [done|split; [done|intros Hm; by apply Hdone]]].
    split; [done|]. split; [|done]. unfold read_featured in *. by rewrite Hf2.
  - intros Hlen Hm. apply remaining_shrinks; [done|].
    destruct (decide (Forall (λ l, k' l = k l) parts)) as [Hall|Hnot].
    + rewrite Forall_forall in Hall. destruct (Hprog Hlen Hall) as [_ He]. congruence.
    + apply not_Forall_Exists, Exists_exists in Hnot as (l & Hl & Hne); [|apply _].
      cbn in Hne. exists l. split; [done|]. destruct (Hats l Hl) as [_ ?]. specialize (Hmono l). lia.
Qed.

(** A page after the first. *)
Lemma later_page featured ps k :
  walk_inv ps featured k →
  ∃ w' k', page_of level_of svc start q sel false lim ps = Ok (w', 0) ∧
    page_step w' featured k k' [] ∧
    (w_more w' = true → (length (remaining [] k') < length (remaining [] k))%nat).
Proof.
  intros Hinv. pose proof Hinv as (Hok & Hf & Hat). unfold page_of. rewrite Hf.
  cbn [mbind result_bind featured_rows andb map_r].
  destruct (walk_page featured {| w_records := []; w_next := ps; w_more := false |} k ps
    (Z.max 1 ((lim - len (@nil (row * json))) / Z.max 1 (len parts))) Hat eq_refl ltac:(lia)
    ltac:(intros; by apply Hat) Hok Hf) as (w' & k' & Hw & Hstep & Hshrink).
  rewrite Hw. cbn [mbind result_bind]. exists w', k'. split; [done|]. split; [done|].
  intros Hm. apply Hshrink; [|done]. pose proof lim_range. unfold len. cbn. lia.
Qed.

(** The first page. *)
Lemma first_page :
  ∃ w' k' rare n, page_of level_of svc start q sel true lim [] = Ok (w', n) ∧
    NoDup (rid <$> rare) ∧ Forall (λ r, r ∈ rows) rare ∧
    page_step w' (rid <$> rare) (λ _, 0%nat) k' rare.
Proof.
  unfold page_of. change (read_featured []) with (Ok [] : result (list Z)).
  cbn [mbind result_bind].
  assert (∃ rare n, featured_rows q sel true lim = Ok (rare, n) ∧ NoDup (rid <$> rare) ∧
            Forall (λ r, r ∈ rows) rare ∧ len rare ≤ 50)
    as (rare & n & -> & Hnd & Hin & Hlen).
  { unfold featured_rows. destruct (_ && _ && _ && _ && _).
    - destruct (rare_rows_total rows sel_ids (Forall_rows _ db_payload) lim lim_range)
        as (rare & -> & ? & ? & ? & _). cbn. eauto 10.
    - exists [], 0. repeat split; [constructor|constructor|unfold len; cbn; lia]. }
  cbn [mbind result_bind].
  destruct (with_record_ok svc rare) as (recs & Hrecs & Heq).
  { eapply Forall_impl; [exact Hin|]. intros r Hr.
    pose proof (Forall_rows _ db_payload) as Hp. rewrite Forall_forall in Hp. by apply Hp. }
  change (map_r (λ r, c ← record svc r; Ok (r, c)) rare) with (map_r (with_record svc) rare).
  rewrite Hrecs. cbn [mbind result_bind].
  set (next := match rare return positions with
    | [] => []
    | _ => assoc_set (u "_featured") (JList (JInt ∘ rid <$> rare)) []
    end).
  assert (walk_inv next (rid <$> rare) (λ _, 0%nat)) as Hinv.
  { unfold next. destruct rare as [|r rare].
    - split; [by split; constructor|]. split; [done|]. intros l _. split; [done|lia].
    - split; [|split].
      + apply positions_ok_set; [|by split; constructor]. left. split; [done|].
        exists (rid <$> r :: rare). split; [by rewrite <- list_fmap_compose|].
        split; [unfold len in *; by rewrite length_fmap|].
        apply Forall_fmap. eapply Forall_impl; [exact Hin|]. intros r' Hr'.
        pose proof (Forall_rows _ db_good) as Hg. rewrite Forall_forall in Hg.
        by destruct (Hg r' Hr').
      + unfold read_featured. rewrite assoc_set_same. cbn [default from_option id].
        replace (len (JInt ∘ rid <$> r :: rare)) with (len (r :: rare))
          by (unfold len; by rewrite length_fmap).
        rewrite (proj2 (Z.ltb_ge _ _)) by done.
        assert (∀ rs, as_ints (JInt ∘ rid <$> rs) = Some (rid <$> rs)) as ->; [|done].
        { induction rs as [|r' rs IH]; [done|]. cbn [fmap list_fmap compose as_ints as_int mbind option_bind].
          change (list_fmap row json (JInt ∘ rid) rs) with (JInt ∘ rid <$> rs). by rewrite IH. }
      + intros l Hl. split; [|lia]. cbn [Paging.at_]. rewrite assoc_set_other; [done|].
        intros ->. by apply (featured_not_part parts parts_known). }
  assert (∀ l, l ∈ parts → at_ [] l 0 ∧ (0 ≤ length (S_ l))%nat) as Hat
    by (intros; split; [done|lia]).
  destruct (walk_page (rid <$> rare) {| w_records := recs; w_next := next; w_more := false |}
    (λ _, 0%nat) [] (Z.max 1 ((lim - len recs) / Z.max 1 (len parts))) Hat eq_refl ltac:(lia)
    (λ l Hl, proj1 (proj2 (proj2 Hinv) l Hl)) (proj1 Hinv) (proj1 (proj2 Hinv)))
    as (w' & k' & Hw & Hstep & _).
  assert (match rare with [] => [] | _ => rid <$> rare end = rid <$> rare) as ->
    by by destruct rare.
  fold next. rewrite Hw. cbn [mbind result_bind w_records] in *. rewrite Heq in Hstep.
  by exists w', k', rare, n.
Qed.

(** *** All pages *)

Hypothesis svc_catalog : ∃ prof, catalog_one db svc = Ok prof.

(** The page a query returns from what [page_of] gives. *)
Lemma query_page cursor ps w n k' featured :
  read_cursor container_repr cursor = Ok ps →
  page_of level_of svc start q sel (negb (truthy cursor)) lim ps = Ok (w, n) →
  walk_inv (w_next w) featured k' →
  ∃ p, query container_repr level_of fts db sc spec limit cursor = Ok p ∧
    pg_records p = w_records w ∧
    if w_more w
    then ∃ c, pg_cursor p = Some c ∧ truthy (JStr c) = true ∧
              read_cursor container_repr (JStr c) = Ok (w_next w)
    else pg_cursor p = None.
Proof.
  intros Hc Hp [Hok _]. destruct svc_catalog as [prof Hprof].
  destruct (cursor_roundtrip level_of rows (Forall_rows _ db_good) parts parts_known
    container_repr (w_next w) Hok) as (c & Hmk & Ht & Hr).
  unfold query. rewrite spec_read. cbn [mbind result_bind]. rewrite start_canonical.
  cbn [mbind result_bind]. rewrite end_canonical. cbn [mbind result_bind]. rewrite Hc.
  cbn [mbind result_bind]. rewrite Hp. cbn [mbind result_bind]. rewrite Hprof.
  destruct (w_more w); [rewrite Hmk|]; cbn [mbind result_bind];
    eexists; (split; [reflexivity|]); (split; [reflexivity|]); [eauto|done].
Qed.

Lemma pages_from n featured ps k c :
  walk_inv ps featured k → truthy (JStr c) = true →
  read_cursor container_repr (JStr c) = Ok ps →
  (length (remaining [] k) < n)%nat →
  ∃ pgs, pages n (JStr c) = Ok pgs ∧ (concat pgs).*1 ≡ₚ remaining featured k.
Proof.
  revert ps k c. induction n as [|n IH]; intros ps k c Hinv Ht Hc Hn; [lia|].
  destruct (later_page featured ps k Hinv) as (w & k' & Hp & (Hinv' & Hk & Hrecs & Hdone) & Hsh).
  assert (page_of level_of svc start q sel (negb (truthy (JStr c))) lim ps = Ok (w, 0)) as Hp'
    by by rewrite Ht.
  destruct (query_page (JStr c) ps w 0 k' featured Hc Hp' Hinv') as (p & Hq & Hpr & Hcur).
  cbn [pages]. rewrite Hq. cbn [mbind result_bind].
  destruct (w_more w) eqn:Hm.
  - destruct Hcur as (c' & -> & Ht' & Hc').
    destruct (IH (w_next w) k' c' Hinv' Ht' Hc' ltac:(specialize (Hsh eq_refl); lia))
      as (pgs & Hpgs & Hperm).
    rewrite Hpgs. cbn [mbind result_bind]. eexists. split; [reflexivity|].
    cbn [concat]. rewrite (remaining_step level_of rows parts featured k k') by done.
    by rewrite fmap_app, Hpr, Hrecs, Hperm.
  - rewrite Hcur. eexists. split; [reflexivity|]. cbn [concat].
    rewrite (remaining_step level_of rows parts featured k k') by done.
    rewrite (remaining_done level_of rows parts featured k') by auto.
    by rewrite !app_nil_r, Hpr, Hrecs.
Qed.

(** From the first page on, at most two pages more than there are rows. *)
Lemma all_pages :
  ∃ pgs, pages (length db + 2) JNull = Ok pgs ∧ (concat pgs).*1 ≡ₚ rows.
Proof.
  destruct first_page as (w & k' & rare & n & Hp & Hnd & Hin & Hinv & Hk & Hrecs & Hdone).
  destruct (query_page JNull [] w n k' (rid <$> rare) eq_refl Hp Hinv) as (p & Hq & Hpr & Hcur).
  replace (length db + 2)%nat with (S (length db + 1)) by lia.
  cbn [pages]. rewrite Hq. cbn [mbind result_bind].
  assert (rows ≡ₚ rare ++ concat (contribution level_of rows (rid <$> rare) (λ _, 0%nat) k' <$> parts)
            ++ Paging.remaining level_of rows parts (rid <$> rare) k') as Hall.
  { rewrite <- (featured_split level_of rows sel_ids parts parts_nodup sel_parts rare Hnd Hin) at 1.
    by rewrite (remaining_step level_of rows parts (rid <$> rare) (λ _, 0%nat) k') by done. }
  destruct (w_more w).
  - destruct Hcur as (c & -> & Ht & Hc).
    destruct (pages_from (length db + 1) (rid <$> rare) (w_next w) k' c Hinv Ht Hc)
      as (pgs & Hpgs & Hperm).
    { pose proof (remaining_step level_of rows parts [] (λ _, 0%nat) k' Hk) as Hr.
      rewrite (all_partitions level_of rows sel_ids parts parts_nodup sel_parts) in Hr.
      apply Permutation_length in Hr. rewrite length_app in Hr.
      pose proof (sublist_length _ _ rows_sublist). lia. }
    rewrite Hpgs. cbn [mbind result_bind]. eexists. split; [reflexivity|].
    cbn [concat]. rewrite fmap_app, Hpr, Hrecs, Hperm.
    etrans; [|symmetry; exact Hall]. by rewrite app_assoc.
  - rewrite Hcur. eexists. split; [reflexivity|]. cbn [concat].
    rewrite (remaining_done level_of rows parts (rid <$> rare) k'), app_nil_r in Hall by auto.
    rewrite app_nil_r, Hpr, Hrecs. symmetry. exact Hall.
Qed.
End query_pages.

Lemma catalog_ok {JR : JsonRuntime} db svc :
  Forall payload_good db → ∃ prof, catalog_one db svc = Ok prof.
Proof.
  intros Hdb. unfold catalog_one.
  assert (∃ kvs, match sort_by row_leb (filter (λ r, rservice r = svc) db) with
                 | [] => Ok (JObj []) | r :: _ => loads (rpayload r) end = Ok (JObj kvs))
    as [kvs ->]; [|cbn; eauto].
  destruct (sort_by _ _) as [|r rs] eqn:Hs; [by exists []|].
  assert (r ∈ db) as Hr.
  { assert (r ∈ sort_by row_leb (filter (λ r, rservice r = svc) db)) as H
      by (rewrite Hs; apply list_elem_of_here).
    by apply elem_of_sort_by, list_elem_of_filter in H as [_ ?]. }
  rewrite Forall_forall in Hdb. destruct (Hdb r Hr) as (kvs & msg & Hl & _). eauto.
Qed.

Lemma pages_complete {JR : JsonRuntime} {TD : TzDatabase} {UT : UnicodeTables}
    repr level_of fts db sc spec limit q start end_ :
  NoDup (rid <$> db) → Forall (row_good level_of) db → Forall payload_good db →
  read_spec spec = Ok q → NoDup (s_levels q) →
  canonical (log_start sc) = Ok start → canonical (log_end sc) = Ok end_ →
  ∃ pgs,
    pages repr level_of fts db sc spec limit (length db + 2) JNull = Ok pgs ∧
    (concat pgs).*1 ≡ₚ sel_rows (select level_of fts db (log_service sc) start end_ q).
Proof.
  intros Hids Hgood Hpay Hq Hl Hs He. by eapply all_pages; eauto using catalog_ok.
Qed.

(** C7. Paging is complete and ends.  For a table whose rows are well formed and a valid
    query that names no level twice, following the cursors from the first page stops
    after at most two pages more than there are rows, no cursor is rejected, and the
    records of all pages together are the selected rows, each exactly once, the rare
    representatives of the first page included. *)
Theorem paging_complete {JR : JsonRuntime} {TD : TzDatabase} {UT : UnicodeTables}
    repr level_of fts db sc spec limit q start end_ :
  NoDup (rid <$> db) → Forall (row_good level_of) db → Forall payload_good db →
  read_spec spec = Ok q → NoDup (s_levels q) →
  canonical (log_start sc) = Ok start → canonical (log_end sc) = Ok end_ →
  ∃ pgs,
    pages repr level_of fts db sc spec limit (length db + 2) JNull = Ok pgs ∧
    (concat pgs).*1 ≡ₚ sel_rows (select level_of fts db (log_service sc) start end_ q).
Proof. apply pages_complete. Qed.

(** ** A concrete table *)

Section paging_witness.
#[local] Existing Instances UtcOnly AsciiCjk PlainJson.

Definition log_line (n : Z) (lv msg : string) : row :=
  Row n (u "svc-17") (u "2026-09-24T10:00:00+00:00")
    (dumps true false (JObj [(u "level", js lv); (u "message", js msg)])).

(** [upper] of the level of a payload. *)
Definition level_text (payload : pystr) : pystr :=
  match loads payload with
  | Ok (JObj kvs) => match assoc (u "level") kvs with
                     | Some (JStr s) => upper s | _ => u "UNKNOWN" end
  | _ => u "UNKNOWN"
  end.

Definition some_logs : list row :=
  [log_line 1 "error" "pool exhausted active=1"; log_line 2 "error" "pool exhausted active=2";
   log_line 3 "warn" "slow"; log_line 4 "error" "pool exhausted active=3"].

Definition some_scope : LogScope :=
  {| log_service := u "svc-17"; log_start := u "2026-09-24T09:00:00Z";
     log_end := u "2026-09-24T11:00:00Z" |}.

Definition no_match (_ : pystr) (_ : Z) : bool := false.

Definition page_ids (pgs : list (list (row * json))) : list (list Z) :=
  map (λ pg, map (λ x : row * json, rid x.1) pg) pgs.

Abbreviation repr0 := (dumps false false).

(** The rare messages first, then one partition after the other. *)
Example some_pages :
  match pages repr0 level_text no_match some_logs some_scope (JObj []) 2 6 JNull with
  | Ok pgs => page_ids pgs | Raise _ => [] end = [[3; 1]; [2]; [4]].
Proof. by vm_compute. Qed.

(** A level named twice is read twice: with [levels = (ERROR, ERROR)] three matching
    rows are reported as six matches, and those that are not rare representatives are
    delivered twice on one page.  Distinctness is therefore a hypothesis of complete
    paging. *)
Theorem duplicate_levels_repeat :
  match query repr0 level_text no_match some_logs some_scope
          (JObj [(u "levels", JList [js "ERROR"; js "ERROR"])]) 10 JNull with
  | Ok p => page_ids [pg_records p] = [[1; 2; 4; 2; 4]] ∧ pg_matched p = 6
  | Raise _ => False
  end.
Proof. by vm_compute. Qed.

Lemma paging_complete_witness :
  ∃ pgs, pages repr0 level_text no_match some_logs some_scope (JObj []) 2
           (length some_logs + 2) JNull = Ok pgs ∧
    (concat pgs).*1 ≡ₚ some_logs.
Proof.
  destruct (paging_complete repr0 level_text no_match some_logs some_scope (JObj []) 2
    {| s_mode := u "anomalies"; s_terms := []; s_levels := [] |}
    (u "2026-09-24T09:00:00+00:00") (u "2026-09-24T11:00:00+00:00")) as (pgs & H1 & H2).
  - apply (bool_decide_unpack _). by vm_compute.
  - repeat apply Forall_cons_2; try apply Forall_nil_2; unfold row_good;
      (split; [cbn; lia|]); (split; [by vm_compute|]); (split; [by vm_compute|]);
      apply (bool_decide_unpack _); by vm_compute.
  - repeat apply Forall_cons_2; try apply Forall_nil_2; eexists _, _; by vm_compute.
  - by vm_compute.
  - constructor.
  - by vm_compute.
  - by vm_compute.
  - exists pgs. split; [exact H1|]. etrans; [exact H2|].
    apply (bool_decide_unpack _). by vm_compute.
Defined.

Lemma canonical_order_witness :
  match canonical (u "2026-09-24T10:00:00.5+08:00"), canonical (u "2026-09-24T02:00:01Z") with
  | Ok x, Ok y => str_leb x y = true
  | _, _ => False
  end.
Proof.
  destruct (canonical (u "2026-09-24T10:00:00.5+08:00")) as [x|e] eqn:Hx;
    [|exfalso; revert Hx; vm_compute; discriminate].
  destruct (canonical (u "2026-09-24T02:00:01Z")) as [y|e] eqn:Hy;
    [|exfalso; revert Hy; vm_compute; discriminate].
  destruct (canonical_instant (u "2026-09-24T10:00:00.5+08:00")) as [d|e] eqn:Hd;
    [|exfalso; revert Hd; vm_compute; discriminate].
  destruct (canonical_instant (u "2026-09-24T02:00:01Z")) as [d'|e] eqn:Hd';
    [|exfalso; revert Hd'; vm_compute; discriminate].
  apply (canonical_order _ _ x y d d' Hx Hy Hd Hd').
  revert Hd Hd'. vm_compute. intros [= <-] [= <-]. discriminate.
Defined.

Lemma query_bounded_witness :
  match query repr0 level_text no_match some_logs some_scope (JObj []) 2 JNull with
  | Ok p => len (pg_records p) ≤ 2
  | Raise _ => False
  end.
Proof.
  destruct (query repr0 level_text no_match some_logs some_scope (JObj []) 2 JNull)
    as [p|e] eqn:H; [|exfalso; revert H; vm_compute; discriminate].
  exact (proj1 (query_bounded repr0 level_text no_match some_logs some_scope
    (JObj []) 2 JNull p H)).
Defined.
End paging_witness.
