(* ===== verification/LogIndex.v ===== *)
(** * The full-text index of the log store (demo/log_store.py, [initialize])

    [initialize] creates the index and the triggers that keep it, while other processes
    write logs and other starts run it too.  An initialization is what it does between two
    commits: the test whether the index exists, the transaction that creates and fills it
    (which [executescript] commits before it runs its own text), and one commit for each
    trigger.  The index is the list of its entries, a rowid with the message indexed under
    it; FTS5 defines the deletion of an entry only where the entry is there. *)
From S2P Require Import Prelude.
From S2P Require Import PyStr.
From S2P Require Import LogStore.

(** [connection(db, seconds)] gives up at its deadline: what its progress handler answers,
    nonzero to interrupt the statement. *)
Definition connection (monotonic seconds : Z) : Z := monotonic + seconds.
Definition progress_handler (deadline monotonic : Z) : Z :=
  if deadline <? monotonic then 1 else 0.

Section log_index.
(** [json_extract(payload,'$.message')], and whether a full-text expression matches it. *)
Variable message_of : pystr → option pystr.
Variable matches : pystr → option pystr → bool.

(** ** The database file *)

Definition entry : Type := Z * option pystr.

Record Disk := {
  logs : list row; logs_fts : option (list entry);
  logs_fts_ai : bool; logs_fts_ad : bool; logs_fts_au : bool }.

Definition set_logs (l : list row) (d : Disk) : Disk :=
  {| logs := l; logs_fts := logs_fts d; logs_fts_ai := logs_fts_ai d;
     logs_fts_ad := logs_fts_ad d; logs_fts_au := logs_fts_au d |}.
Definition set_fts (i : option (list entry)) (d : Disk) : Disk :=
  {| logs := logs d; logs_fts := i; logs_fts_ai := logs_fts_ai d;
     logs_fts_ad := logs_fts_ad d; logs_fts_au := logs_fts_au d |}.
Definition set_triggers (i x u : bool) (d : Disk) : Disk :=
  {| logs := logs d; logs_fts := logs_fts d; logs_fts_ai := i; logs_fts_ad := x;
     logs_fts_au := u |}.

(** A row of [logs_search_content]. *)
Definition content (r : row) : entry := (rid r, message_of (rpayload r)).

(** [insert into logs_fts(rowid,message)], and the command ['delete']. *)
Definition fts_insert (e : entry) (i : list entry) : list entry := i ++ [e].
Fixpoint fts_delete (e : entry) (i : list entry) : option (list entry) :=
  match i with
  | [] => None
  | e' :: i' => if decide (e' = e) then Some i' else cons e' <$> fts_delete e i'
  end.

(** [select rowid from logs_fts where logs_fts match ?] contains the row. *)
Definition fts_match (i : list entry) (expression : pystr) (id : Z) : bool :=
  existsb (λ e, (e.1 =? id) && matches expression e.2) i.

(** ** The writers *)

Inductive write := Insert (r : row) | Delete (id : Z) | Update (id : Z) (payload : pystr).

(** A trigger's statements for one row, when the trigger is there. *)
Definition on_insert (d : Disk) (r : row) (i : list entry) : option (list entry) :=
  if logs_fts_ai d then Some (fts_insert (content r) i) else Some i.
Definition on_delete (d : Disk) (r : row) (i : list entry) : option (list entry) :=
  if logs_fts_ad d then fts_delete (content r) i else Some i.
Definition on_update (d : Disk) (old new : row) (i : list entry) : option (list entry) :=
  if logs_fts_au d then fts_insert (content new) <$> fts_delete (content old) i else Some i.

(** The trigger runs for each row of the statement. *)
Fixpoint for_rows (f : row → list entry → option (list entry)) (rs : list row)
    (i : list entry) : option (list entry) :=
  match rs with [] => Some i | r :: rs' => i' ← f r i; for_rows f rs' i' end.

Definition fire (f : row → list entry → option (list entry)) (rs : list row) (d : Disk)
    : option Disk :=
  match logs_fts d with
  | None => Some d
  | Some i => i' ← for_rows f rs i; Some (set_fts (Some i') d)
  end.

Definition with_payload (p : pystr) (r : row) : row :=
  {| rid := rid r; rservice := rservice r; rtime := rtime r; rpayload := p |}.

(** One transaction on [logs]; a second row of an id is refused.  [None]: what FTS5 does is
    not defined. *)
Definition apply_write (w : write) (d : Disk) : option Disk :=
  match w with
  | Insert r =>
      if existsb (λ r', rid r' =? rid r) (logs d) then Some d
      else fire (on_insert d) [r] (set_logs (logs d ++ [r]) d)
  | Delete id =>
      fire (on_delete d) (filter (λ r, rid r = id) (logs d))
        (set_logs (filter (λ r, rid r ≠ id) (logs d)) d)
  | Update id p =>
      fire (λ r, on_update d r (with_payload p r)) (filter (λ r, rid r = id) (logs d))
        (set_logs ((λ r, if decide (rid r = id) then with_payload p r else r) <$> logs d) d)
  end.

(** ** The initialization *)

Inductive pc :=
| PExists
| PBuild (exists_ : bool)
| PInsertTrigger | PDeleteTrigger | PUpdateTrigger
| PDone.

Definition advance (p : pc) (d : Disk) : pc * Disk :=
  match p with
  | PExists => (PBuild (bool_decide (is_Some (logs_fts d))), d)
  | PBuild exists_ =>
      let d := match logs_fts d with None => set_fts (Some []) d | Some _ => d end in
      (PInsertTrigger,
       if exists_ then d else set_fts (Some (content <$> logs d)) d)
  | PInsertTrigger =>
      (PDeleteTrigger, set_triggers true (logs_fts_ad d) (logs_fts_au d) d)
  | PDeleteTrigger =>
      (PUpdateTrigger, set_triggers (logs_fts_ai d) true (logs_fts_au d) d)
  | PUpdateTrigger => (PDone, set_triggers (logs_fts_ai d) (logs_fts_ad d) true d)
  | PDone => (PDone, d)
  end.

(** [initialize] without interference. *)
Fixpoint run_from (fuel : nat) (p : pc) (d : Disk) : pc * Disk :=
  match fuel with
  | O => (p, d)
  | S n => let pd := advance p d in run_from n pd.1 pd.2
  end.
Definition initialize (d : Disk) : Disk := (run_from 5 PExists d).2.

(** ** Starts, writers and failures *)

Record Sys := { disk : Disk; running : list pc }.

(** What may happen next; a write only in a state that [calm] admits. *)
Inductive sys_step (calm : Disk → bool) : Sys → Sys → Prop :=
| step_start d ps : sys_step calm {| disk := d; running := ps |}
    {| disk := d; running := PExists :: ps |}
| step_advance d ps1 p ps2 : sys_step calm {| disk := d; running := ps1 ++ p :: ps2 |}
    {| disk := (advance p d).2; running := ps1 ++ (advance p d).1 :: ps2 |}
| step_stop d ps1 p ps2 : sys_step calm {| disk := d; running := ps1 ++ p :: ps2 |}
    {| disk := d; running := ps1 ++ ps2 |}
| step_write d ps w d' : calm d = true → apply_write w d = Some d' →
    sys_step calm {| disk := d; running := ps |} {| disk := d'; running := ps |}.

(** Between the commit of the index and the last trigger, the index is not kept. *)
Definition no_gap (d : Disk) : bool :=
  match logs_fts d with
  | None => true
  | Some _ => logs_fts_ai d && logs_fts_ad d && logs_fts_au d
  end.

(** A file with logs and nothing else. *)
Definition bare (rows : list row) : Sys :=
  {| disk := {| logs := rows; logs_fts := None; logs_fts_ai := false; logs_fts_ad := false;
                logs_fts_au := false |};
     running := [] |}.
End log_index.
