(* ===== verification/LogIndexSpec.v ===== *)
(** * What the full-text index promises

    Under any interleaving of starts, crashes and writers that writes nothing while an index
    is without one of its triggers, the index is the messages of the table, so a search
    selects exactly the matching rows of its window.  A row written in that gap is never
    found, whatever runs later. *)
From S2P Require Import Prelude.
From S2P Require Import PyStr.
From S2P Require Import LogStore.
From S2P Require Import LogIndex.

Section spec.
Variable message_of : pystr → option pystr.
Variable matches : pystr → option pystr → bool.

Local Abbreviation content := (content message_of).
Local Abbreviation sys_step := (sys_step message_of).
Local Abbreviation initialize := (initialize message_of).

(** ** One statement *)

Lemma fts_delete_perm e i : e ∈ i → ∃ i', fts_delete e i = Some i' ∧ i ≡ₚ e :: i'.
Proof.
  induction i as [|e' i IH]; intros H; [by apply elem_of_nil in H|]. cbn.
  destruct (decide (e' = e)) as [->|Hne]; [by exists i|].
  apply elem_of_cons in H as [?|H]; [done|]. destruct (IH H) as (i' & -> & Hp).
  exists (e' :: i'). split; [done|]. rewrite Hp. apply Permutation_swap.
Qed.

(** The triggers of a statement, in step with what it does to the rows. *)
Lemma deletes_perm d rs keep i :
  logs_fts_ad d = true → i ≡ₚ content <$> rs ++ keep →
  ∃ i', for_rows (on_delete message_of d) rs i = Some i' ∧ i' ≡ₚ content <$> keep.
Proof.
  intros Had. revert i. induction rs as [|r rs IH]; intros i H; [by exists i|]. cbn in H.
  cbn [for_rows].
  assert (on_delete message_of d r i = fts_delete (content r) i) as ->
    by (unfold on_delete; by rewrite Had).
  destruct (fts_delete_perm (content r) i) as (i' & -> & Hp); [rewrite H; apply list_elem_of_here|].
  cbn [mbind option_bind]. apply IH. apply (Permutation_cons_inv (a:=content r)). by rewrite <- Hp.
Qed.

Lemma updates_perm d p rs keep i :
  logs_fts_au d = true → i ≡ₚ content <$> rs ++ keep →
  ∃ i', for_rows (λ r, on_update message_of d r (with_payload p r)) rs i = Some i' ∧
    i' ≡ₚ content <$> (with_payload p <$> rs) ++ keep.
Proof.
  intros Hau. revert keep i. induction rs as [|r rs IH]; intros keep i H; [by exists i|]. cbn in H.
  cbn [for_rows].
  assert (on_update message_of d r (with_payload p r) i
    = fts_insert (content (with_payload p r)) <$> fts_delete (content r) i) as ->
    by (unfold on_update; by rewrite Hau).
  destruct (fts_delete_perm (content r) i) as (i' & -> & Hp); [rewrite H; apply list_elem_of_here|].
  cbn [fmap option_fmap option_map mbind option_bind].
  destruct (IH (with_payload p r :: keep) (fts_insert (content (with_payload p r)) i'))
    as (i2 & Hi2 & Hp2).
  - unfold fts_insert. rewrite <- Permutation_cons_append. rewrite Hp in H.
    apply Permutation_cons_inv in H. rewrite H, !fmap_app, fmap_cons. apply Permutation_middle.
  - exists i2. split; [exact Hi2|]. rewrite Hp2, !fmap_app, !fmap_cons.
    symmetry. apply Permutation_middle.
Qed.

Lemma split_rows id (l : list row) :
  l ≡ₚ filter (λ r, rid r = id) l ++ filter (λ r, rid r ≠ id) l.
Proof. symmetry. apply filter_app_complement. Qed.

Lemma updated_rows id p (l : list row) :
  (λ r, if decide (rid r = id) then with_payload p r else r) <$> l
  ≡ₚ (with_payload p <$> filter (λ r, rid r = id) l) ++ filter (λ r, rid r ≠ id) l.
Proof.
  induction l as [|r l IH]; [done|]. rewrite fmap_cons, !filter_cons.
  destruct (decide (rid r = id)) as [He|He].
  - rewrite decide_False by tauto. cbn. by rewrite IH.
  - rewrite decide_True by done. rewrite IH. apply Permutation_middle.
Qed.

(** ** The invariant *)

Definition disk_ok (d : Disk) : Prop :=
  NoDup (rid <$> logs d) ∧
  match logs_fts d with
  | None => logs_fts_ai d = false ∧ logs_fts_ad d = false ∧ logs_fts_au d = false
  | Some i => i ≡ₚ content <$> logs d
  end.

Definition pc_ok (d : Disk) (p : pc) : Prop :=
  match p with PExists | PBuild false => True | _ => is_Some (logs_fts d) end.

Definition sys_ok (s : Sys) : Prop := disk_ok (disk s) ∧ Forall (pc_ok (disk s)) (running s).

(** The rows a statement leaves. *)
Definition written (w : write) (l : list row) : list row :=
  match w with
  | Insert r => if existsb (λ r', rid r' =? rid r) l then l else l ++ [r]
  | Delete id => filter (λ r, rid r ≠ id) l
  | Update id p => (λ r, if decide (rid r = id) then with_payload p r else r) <$> l
  end.

Lemma written_nodup w l : NoDup (rid <$> l) → NoDup (rid <$> written w l).
Proof.
  intros Hnd. destruct w as [r|id|id p]; cbn.
  - destruct (existsb _ _) eqn:Hx; [done|]. rewrite fmap_app. apply NoDup_app.
    split_and!; [done| |apply NoDup_singleton].
    intros n Hn ->%list_elem_of_singleton. apply list_elem_of_fmap in Hn as (r' & He & Hr').
    apply not_true_iff_false in Hx. apply Hx, existsb_exists. exists r'.
    split; [by apply list_elem_of_In|]. by apply Z.eqb_eq.
  - eapply sublist_NoDup; [exact Hnd|]. apply fmap_sublist, sublist_filter.
  - rewrite <- list_fmap_compose. erewrite list_fmap_ext; [exact Hnd|].
    intros _ r _. cbn. by destruct (decide _).
Qed.

(** Where there is no index, a statement only changes the rows. *)
Lemma write_bare w d :
  logs_fts d = None → apply_write message_of w d = Some (set_logs (written w (logs d)) d).
Proof.
  intros Hi. destruct w as [r|id|id p]; cbn; unfold fire; cbn; rewrite ?Hi; try done.
  destruct (existsb _ _); [|done]. by destruct d.
Qed.

(** Where the index is kept, its entries follow. *)
Lemma write_kept w d i :
  logs_fts d = Some i → no_gap d = true → i ≡ₚ content <$> logs d →
  ∃ i', apply_write message_of w d = Some (set_fts (Some i') (set_logs (written w (logs d)) d)) ∧
    i' ≡ₚ content <$> written w (logs d).
Proof.
  intros Hi Hg Hp. unfold no_gap in Hg. rewrite Hi in Hg.
  apply andb_true_iff in Hg as [[Hai Had]%andb_true_iff Hau].
  assert (Hsplit : ∀ id, i ≡ₚ content <$> filter (λ r, rid r = id) (logs d)
                              ++ filter (λ r, rid r ≠ id) (logs d))
    by (intros id; by rewrite <- split_rows).
  destruct w as [r|id|id p]; cbn [apply_write written]; unfold fire; cbn [logs_fts set_logs];
    rewrite ?Hi.
  - destruct (existsb _ _); [exists i; split; [|done]; by destruct d; cbn in *; subst|].
    cbn. unfold on_insert. rewrite Hai. eexists. split; [done|].
    rewrite fmap_app. by apply Permutation_app_tail.
  - destruct (deletes_perm d _ _ i Had (Hsplit id)) as (i' & -> & Hp').
    by exists i'.
  - destruct (updates_perm d p _ _ i Hau (Hsplit id)) as (i' & -> & Hp').
    exists i'. split; [done|]. by rewrite updated_rows.
Qed.

Lemma write_ok w d :
  disk_ok d → no_gap d = true →
  ∃ d', apply_write message_of w d = Some d' ∧ disk_ok d' ∧
    (is_Some (logs_fts d) → is_Some (logs_fts d')).
Proof.
  intros [Hnd Hd] Hg. destruct (logs_fts d) as [i|] eqn:Hi.
  - destruct (write_kept w d i Hi Hg Hd) as (i' & -> & Hp).
    eexists. split; [done|]. split; [|done]. split; [by apply written_nodup|exact Hp].
  - rewrite write_bare by done. eexists. split; [done|]. split; [|by intros []].
    split; [by apply written_nodup|]. cbn. by rewrite Hi.
Qed.

(** A step of an initialization: only the build needs a table in step. *)
Lemma advance_ok p d :
  disk_ok d → pc_ok d p →
  disk_ok (advance message_of p d).2 ∧
  pc_ok (advance message_of p d).2 (advance message_of p d).1 ∧
  logs (advance message_of p d).2 = logs d ∧
  (is_Some (logs_fts d) → is_Some (logs_fts (advance message_of p d).2)).
Proof.
  intros [Hnd Hd] Hp. destruct p as [|[]| | | |]; cbn in *.
  - split_and!; try done. by case_bool_decide.
  - destruct Hp as [i Hi]. rewrite Hi in *. split_and!; try done; rewrite ?Hi; eauto.
    split; [done|]. by rewrite Hi.
  - unfold disk_ok. destruct (logs_fts d) eqn:Hi; cbn; split_and!; try done; eauto.
  - destruct Hp as [i Hi]. rewrite Hi in *. unfold disk_ok. cbn. rewrite Hi. split_and!; eauto.
  - destruct Hp as [i Hi]. rewrite Hi in *. unfold disk_ok. cbn. rewrite Hi. split_and!; eauto.
  - destruct Hp as [i Hi]. rewrite Hi in *. unfold disk_ok. cbn. rewrite Hi. split_and!; eauto.
  - split_and!; try done.
Qed.

Lemma pc_ok_mono d d' p :
  (is_Some (logs_fts d) → is_Some (logs_fts d')) → pc_ok d p → pc_ok d' p.
Proof. intros H. destruct p as [|[]| | | |]; cbn; auto. Qed.

Lemma sys_step_ok s s' : sys_step no_gap s s' → sys_ok s → sys_ok s'.
Proof.
  intros [d ps|d ps1 p ps2|d ps1 p ps2|d ps w d' Hc Hw] [Hd Hp]; cbn in *.
  - split; [done|]. by constructor.
  - apply Forall_app in Hp as [H1 [H2 H3]%Forall_cons].
    destruct (advance_ok p d Hd H2) as (Hd' & Hp' & _ & Hm). split; [done|]. cbn.
    apply Forall_app. split; [|constructor; [done|]];
      (eapply Forall_impl; [eassumption|]; intros q; by apply pc_ok_mono).
  - split; [done|]. apply Forall_app in Hp as [H1 [H2 H3]%Forall_cons]. by apply Forall_app.
  - destruct (write_ok w d Hd Hc) as (d'' & Hw' & Hd' & Hm). rewrite Hw in Hw'.
    injection Hw' as <-. split; [done|]. cbn. eapply Forall_impl; [exact Hp|].
    intros q. by apply pc_ok_mono.
Qed.

Lemma reachable_ok rows s : NoDup (rid <$> rows) → rtc (sys_step no_gap) (bare rows) s → sys_ok s.
Proof.
  intros Hnd H. assert (sys_ok (bare rows)) as H0 by (by repeat split).
  revert H0. induction H as [|s1 s2 s3 H12 _ IH]; eauto using sys_step_ok.
Qed.

Lemma match_messages i rows e id :
  i ≡ₚ content <$> rows →
  fts_match matches i e id = true ↔
  ∃ r, r ∈ rows ∧ rid r = id ∧ matches e (message_of (rpayload r)) = true.
Proof.
  intros Hp. unfold fts_match. rewrite existsb_exists. split.
  - intros (x & Hx%list_elem_of_In & [Hid%Z.eqb_eq Hm]%andb_true_iff). rewrite Hp in Hx.
    apply list_elem_of_fmap in Hx as (r & -> & Hr). by exists r.
  - intros (r & Hr & <- & Hm). exists (content r). split.
    + apply list_elem_of_In. rewrite Hp. by apply list_elem_of_fmap_2.
    + cbn. by rewrite Z.eqb_refl, Hm.
Qed.

(** The rows a search asks for. *)
Definition found (svc start end_ : pystr) (terms : list pystr) (r : row) : Prop :=
  rservice r = svc ∧ str_leb start (rtime r) = true ∧ str_leb (rtime r) end_ = true ∧
  matches (fts_expression terms) (message_of (rpayload r)) = true.

(** A search selects by the scope and the index alone. *)
Lemma search_rows level_of fts db svc start end_ q :
  s_terms q ≠ [] → s_levels q = [] →
  sel_rows (select level_of fts db svc start end_ q)
  = filter (λ r, in_scope fts svc start end_ (s_terms q) r = true) db.
Proof.
  intros Ht Hl. unfold select, selected_levels. rewrite Hl. cbn [sel_rows].
  rewrite (bool_decide_false (s_terms q = [])) by done. rewrite andb_false_r.
  by destruct (_ && _).
Qed.

Lemma in_scope_found i l svc start end_ terms r :
  NoDup (rid <$> l) → i ≡ₚ content <$> l → terms ≠ [] → r ∈ l →
  in_scope (fts_match matches i) svc start end_ terms r = true ↔ found svc start end_ terms r.
Proof.
  intros Hids Hp Ht Hr. unfold in_scope, found. rewrite !andb_true_iff. unfold str_eqb. rewrite bool_decide_eq_true.
  assert (match terms with [] => true | _ => fts_match matches i (fts_expression terms) (rid r) end
    = fts_match matches i (fts_expression terms) (rid r)) as -> by (by destruct terms).
  rewrite (match_messages i l) by done. split; [|by intros (?&?&?&?); eauto 10].
  intros [[[Hs H1] H2] (r' & Hr' & Hid & Hm)]. split_and!; try done.
  by rewrite (NoDup_fmap_inj rid l r r') by done.
Qed.

Lemma initialize_ok d :
  disk_ok d →
  let d' := initialize d in
  logs d' = logs d ∧ is_Some (logs_fts d') ∧ no_gap d' = true ∧ disk_ok d'.
Proof.
  intros [Hnd Hd]. unfold disk_ok.
  destruct d as [l [i|] ai ad au]; cbn in *; split_and!; eauto.
Qed.

(** C8. The index is the messages of the table.  Starting from a file with any logs, let any
    number of starts run, stop halfway and run again, and writers insert, update and delete
    rows between any two of their commits, so long as nothing is written while the index is
    there and a trigger is not: then no trigger ever deletes an entry that is not there,
    a search for terms selects exactly the rows of its service and window whose message
    matches, and a start that runs through leaves the rows as they are and the index kept. *)
Theorem index_in_sync {rows s} level_of :
  NoDup (rid <$> rows) → rtc (sys_step no_gap) (bare rows) s →
  (∀ w, no_gap (disk s) = true → is_Some (apply_write message_of w (disk s))) ∧
  (∀ i svc start end_ q, logs_fts (disk s) = Some i → s_terms q ≠ [] → s_levels q = [] →
     ∀ r, r ∈ sel_rows (select level_of (fts_match matches i) (logs (disk s)) svc start end_ q)
          ↔ r ∈ logs (disk s) ∧ found svc start end_ (s_terms q) r) ∧
  (let d := initialize (disk s) in
   logs d = logs (disk s) ∧ is_Some (logs_fts d) ∧ no_gap d = true ∧ disk_ok d).
Proof.
  intros Hnd H. apply reachable_ok in H as [Hd Hp]; [|done]. split_and!.
  - intros w Hg. destruct (write_ok w _ Hd Hg) as (d' & -> & _). eauto.
  - intros i svc start end_ q Hi Ht Hl r. destruct Hd as [Hids Hd]. rewrite Hi in Hd.
    rewrite search_rows by done. rewrite list_elem_of_filter. split.
    + intros [Hs Hr]. split; [done|]. by apply (in_scope_found i (logs (disk s))).
    + intros [Hr Hf]. split; [|done]. by apply (in_scope_found i (logs (disk s))).
  - by apply initialize_ok.
Qed.
End spec.

(** ** The gap *)

Section witness.
Definition whole (p : pystr) : option pystr := Some p.
Definition contains (e : pystr) (m : option pystr) : bool := bool_decide (m = Some e).
Definition log (n : Z) (text : string) : row := Row n (u "svc-17") (u "2026-09-24T10:00:00+00:00") (u text).

(** The expression of one term is the term in quotes. *)
Definition term_query : Spec := {| s_mode := u "search"; s_terms := [u "boom"]; s_levels := [] |}.
Definition quoted (text : string) : pystr := fts_expression [u text].
Definition in_quotes (p : pystr) : option pystr := Some (fts_expression [p]).

Abbreviation old_log := [log 1 "boom"].
Definition kept : Disk :=
  default (disk (bare old_log))
    (apply_write in_quotes (Insert (log 2 "boom")) (initialize in_quotes (disk (bare old_log)))).

Lemma run_start calm d :
  rtc (sys_step in_quotes calm) {| disk := d; running := [] |}
    {| disk := initialize in_quotes d; running := [PDone] |}.
Proof.
  eapply rtc_l; [apply step_start|].
  do 4 (eapply rtc_l; [apply (step_advance _ _ _ [])|]).
  eapply rtc_l; [apply (step_advance _ _ _ [])|]. apply rtc_refl.
Qed.

Abbreviation search d := (sel_rows (select id (fts_match contains (default [] (logs_fts d)))
  (logs d) (u "svc-17") (u "2026") (u "2027") term_query)).

Lemma index_in_sync_witness :
  let s := {| disk := kept; running := [PDone] |} in
  rtc (sys_step in_quotes no_gap) (bare old_log) s ∧ log 2 "boom" ∈ search kept ∧
  log 1 "boom" ∈ search kept.
Proof.
  intros s.
  assert (rtc (sys_step in_quotes no_gap) (bare old_log) s) as H.
  { etrans; [apply run_start|]. apply rtc_once, (step_write _ _ _ _ (Insert (log 2 "boom"))); by vm_compute. }
  assert (NoDup (rid <$> old_log)) as Hnd by apply NoDup_singleton.
  assert (logs_fts kept = Some (default [] (logs_fts kept))) as Hi by by vm_compute.
  destruct (index_in_sync in_quotes contains id Hnd H) as (_ & Hs & _).
  split; [exact H|]. split; apply (Hs _ (u "svc-17") (u "2026") (u "2027") term_query Hi);
    try done; (split; [apply (bool_decide_unpack _); by vm_compute|]);
    (split_and!; by vm_compute).
Defined.

(** A start that was at its first trigger while a log was written: the log is in the table,
    every later start leaves it out of the index, and no search finds it. *)
Definition behind : Disk :=
  let built := (run_from in_quotes 2 PExists (disk (bare old_log))).2 in
  initialize in_quotes (default built (apply_write in_quotes (Insert (log 2 "boom")) built)).

Lemma write_in_gap_lost :
  rtc (sys_step in_quotes (λ _, true)) (bare old_log)
    {| disk := behind; running := [PDone; PInsertTrigger] |} ∧
  log 2 "boom" ∈ logs behind ∧ no_gap behind = true ∧ search behind = [log 1 "boom"].
Proof.
  split; [|split; [apply (bool_decide_unpack _); by vm_compute|split]; [by vm_compute|]].
  2: by vm_compute.
  eapply rtc_l; [apply step_start|].
  do 2 (eapply rtc_l; [apply (step_advance _ _ _ [])|]).
  eapply rtc_l; [apply (step_write _ _ _ _ (Insert (log 2 "boom"))); [done|reflexivity]|].
  eapply rtc_l; [apply step_start|].
  do 4 (eapply rtc_l; [apply (step_advance _ _ _ [])|]).
  eapply rtc_l; [apply (step_advance _ _ _ [])|]. apply rtc_refl.
Qed.
End witness.
