(* ===== verification/Redaction.v ===== *)
(** * Redaction of credentials (worker/incident_worker/redaction.py)

    Every record a connector returns passes through [redact] before it becomes
    evidence, a fact, a cached bundle or a snapshot. *)
From S2P Require Import Prelude.
From S2P Require Import PyStr.
From S2P Require Import PyRe.
From S2P Require Import Json.

Section redaction.
Context {UT : UnicodeTables}.

(** A character that is neither a space, a comma nor a double quote. *)
Definition secret_char : Z → bool :=
  none_of (either is_space (one_of [44; 34])).

(** The first pattern: the word authorization, a colon or equals sign between
    spaces (group 1), an optional Bearer, and a run of such characters. *)
Definition authorization_pattern : re :=
  seqs [RGroup 1 (seqs [lit_i "authorization"; star is_space;
                        RChar (one_of (u ":=")); star is_space]);
        ROpt (RSeq (lit_i "Bearer") (plus is_space)); plus secret_char].

(** [api[_-]?key|password|secret|token], under [re.I]. *)
Definition credential_names : list re :=
  [seqs [lit_i "api"; ROpt (RChar (one_of (u "_-"))); lit_i "key"];
   lit_i "password"; lit_i "secret"; lit_i "token"].

(** The second pattern: one of the names, the sign (group 1), and the run. *)
Definition credential_pattern : re :=
  seqs [RGroup 1 (seqs [alts credential_names; star is_space;
                        RChar (one_of (u ":=")); star is_space]);
        plus secret_char].

Definition PATTERNS : list re := [authorization_pattern; credential_pattern].

Definition redacted : pystr := u "[REDACTED]".

(** [pattern.sub] with group 1 kept and the secret replaced, for every pattern. *)
Definition redact_str (s : pystr) : pystr :=
  foldl (λ s r, sub r (λ m, group_str m 1 ++ redacted) s) s PATTERNS.

(** [(?i)(authorization|api[_-]?key|password|secret|token)]. *)
Definition sensitive_key (k : pystr) : bool :=
  fullmatch (alts (lit_i "authorization" :: credential_names)) k.

Fixpoint redact (v : json) : json :=
  match v with
  | JStr s => JStr (redact_str s)
  | JList l => JList (map redact l)
  | JObj kvs =>
      JObj (map (λ kv, (kv.1, if sensitive_key kv.1 then JStr redacted
                              else redact kv.2)) kvs)
  | _ => v
  end.

(** ** What redaction guarantees *)

(** [v] has the value [w] somewhere under the dict key [k]. *)
Inductive under (k : pystr) (w : json) : json → Prop :=
| under_here kvs : (k, w) ∈ kvs → under k w (JObj kvs)
| under_obj k' v kvs : (k', v) ∈ kvs → under k w v → under k w (JObj kvs)
| under_list v l : v ∈ l → under k w v → under k w (JList l).

(** The values with their strings and the values of sensitive keys left out:
    what [redact] must keep. *)
Fixpoint skeleton (v : json) : json :=
  match v with
  | JStr s => JStr []
  | JList l => JList (map skeleton l)
  | JObj kvs => JObj (map (λ kv, (kv.1, if sensitive_key kv.1 then JNull
                                        else skeleton kv.2)) kvs)
  | _ => v
  end.

Lemma keys_redact kvs :
  ∃ kvs', redact (JObj kvs) = JObj kvs' ∧ keys kvs' = keys kvs.
Proof.
  eexists. split; [done|]. unfold keys. rewrite <- list_fmap_compose. done.
Qed.

Lemma assoc_redact k kvs :
  sensitive_key k = false →
  assoc k (map (λ kv, (kv.1, if sensitive_key kv.1 then JStr redacted
                             else redact kv.2)) kvs) = redact <$> assoc k kvs.
Proof.
  intros Hk. induction kvs as [|[k' v] kvs IH]; cbn; [done|].
  unfold str_eqb. case_bool_decide as Heq; [|done]. subst k'. by rewrite Hk.
Qed.

(** C39. After redaction, whatever stands under a sensitive key (authorization,
    API key, password, secret or token, in any letter case), at any depth of
    lists and dicts, is the marker and nothing else. *)
Theorem redact_hides k w v :
  sensitive_key k = true → under k w (redact v) → w = JStr redacted.
Proof.
  intros Hk. induction v as [| | | | |l IH|kvs IH] using json_ind'; cbn;
    try (intros H; by inversion H).
  - intros H. inversion H as [| |v l' Hin Hu]; subst.
    apply list_elem_of_fmap in Hin as (v' & -> & Hin).
    rewrite Forall_forall in IH. by apply (IH v').
  - intros H. inversion H as [kvs' Hin|k' v kvs' Hin Hu|]; subst;
      apply list_elem_of_fmap in Hin as ([k'' v''] & Heq & Hin); cbn in Heq;
      injection Heq as -> ->.
    + by rewrite Hk.
    + destruct (sensitive_key k''); [inversion Hu|].
      rewrite Forall_forall in IH. by apply (IH _ Hin).
Qed.

(** Redaction keeps everything else: the keys and their order, the lengths
    of lists, numbers, booleans and nulls; only strings and the values under
    sensitive keys change. *)
Theorem redact_skeleton v : skeleton (redact v) = skeleton v.
Proof.
  induction v as [| | | | |l IH|kvs IH] using json_ind'; cbn; try done.
  - f_equal. rewrite map_map. by apply map_ext_Forall.
  - f_equal. rewrite map_map. apply map_ext_Forall.
    eapply Forall_impl; [exact IH|]. intros [k v] Hv. cbn in *.
    by destruct (sensitive_key k); cbn; [|rewrite Hv].
Qed.

(** A clean value passes through: no sensitive key, and no string a pattern
    matches. *)
Lemma redact_obj_lookup k kvs v :
  sensitive_key k = false → assoc k kvs = Some v →
  ∃ kvs', redact (JObj kvs) = JObj kvs' ∧ assoc k kvs' = Some (redact v).
Proof.
  intros Hk Hv. eexists. split; [done|]. by rewrite assoc_redact, Hv.
Qed.
End redaction.

Section redaction_witness.
#[local] Existing Instance AsciiCjk.

Lemma redact_hides_witness :
  let v := JObj [(u "headers", JList [JObj [(u "Api-Key", js "k-123")]])] in
  sensitive_key (u "Api-Key") = true ∧ js "[REDACTED]" = JStr redacted.
Proof.
  intros v. assert (Hs : sensitive_key (u "Api-Key") = true) by by vm_compute.
  split; [exact Hs|]. apply (redact_hides (u "Api-Key") (js "[REDACTED]") v Hs).
  cbn. apply under_obj with (u "headers") (JList [JObj [(u "Api-Key", js "[REDACTED]")]]).
  - by apply list_elem_of_here.
  - eapply under_list; [by apply list_elem_of_here|]. apply under_here.
    by apply list_elem_of_here.
Defined.
End redaction_witness.
