(* ===== verification/Contracts.v ===== *)
(** * The worker's data contracts (worker/incident_worker/contracts.py)

    The pydantic models as records, their literal types as inductive types, and
    the field constraints pydantic enforces as boolean predicates ([valid_*]).
    Values of a free-form [dict] or [Any] field are [json]. *)
From S2P Require Import Prelude.
From S2P Require Import PyStr.
From S2P Require Import Json.
From S2P Require Import PyTime.

(** ** Literal types *)

Inductive source := Logs | Deployments | Git | Runbook | Cluster.
#[export] Instance source_eq_dec : EqDecision source.
Proof. solve_decision. Defined.

Inductive otype := OService | ODeployment | OCommit | ORunbook | OIncident.
#[export] Instance otype_eq_dec : EqDecision otype.
Proof. solve_decision. Defined.

Inductive log_mode := Anomalies | SearchMode | All.
#[export] Instance log_mode_eq_dec : EqDecision log_mode.
Proof. solve_decision. Defined.

Definition source_name (s : source) : pystr :=
  match s with
  | Logs => u "logs" | Deployments => u "deployments" | Git => u "git"
  | Runbook => u "runbook" | Cluster => u "cluster"
  end.

Definition object_name (o : otype) : pystr :=
  match o with
  | OService => u "Service" | ODeployment => u "Deployment" | OCommit => u "Commit"
  | ORunbook => u "Runbook" | OIncident => u "Incident"
  end.

Definition mode_name (m : log_mode) : pystr :=
  match m with
  | Anomalies => u "anomalies" | SearchMode => u "search" | All => u "all"
  end.

(** The levels a log query may name. *)
Definition LEVELS : list pystr :=
  u <$> ["ERROR"; "FATAL"; "SEVERE"; "FAILURE"; "WARN"; "WARNING"; "CRITICAL"; "ALERT";
         "EMERG"; "INFO"; "DEBUG"; "TRACE"; "UNKNOWN"]%string.

(** ** Models *)

Record Budget := {
  steps : Z; seconds : Z; output_bytes : Z; model_calls : Z; tokens : Z }.

Definition between (lo hi x : Z) : bool := (lo <=? x) && (x <=? hi).

Definition valid_budget (b : Budget) : bool :=
  between 1 32 (steps b) && between 1 300 (seconds b)
  && between 100 1048576 (output_bytes b) && between 0 5 (model_calls b)
  && between 1 32000 (tokens b).

Record LogQuery := { mode : log_mode; terms : list pystr; levels : list pystr }.

Definition default_log_query : LogQuery :=
  {| mode := Anomalies; terms := []; levels := [] |}.

Definition valid_log_query (q : LogQuery) : bool :=
  (len (terms q) <=? 6) && (len (levels q) <=? 12)
  && forallb (λ l, mem l LEVELS) (levels q).

Record RunContext := {
  run_id : pystr; subject : pystr; team : pystr; service : pystr; symptom : pystr;
  start : datetime; end_ : datetime; source_version : Z; generation : Z; attempt : Z;
  owner : pystr; lease_seconds : Z; query : LogQuery; budget : Budget }.

Definition valid_run (r : RunContext) : bool :=
  valid_log_query (query r) && valid_budget (budget r).

Record PlanStep := {
  step_source : source; object : otype; path : list pystr; limit : Z }.

(** [limit: int = Field(default=50, ge=1, le=100)]. *)
Definition default_limit : Z := 50.
Definition valid_step (s : PlanStep) : bool := between 1 100 (limit s).

Record QueryPlan := {
  plan_service : pystr; plan_start : datetime; plan_end : datetime;
  plan_steps : list PlanStep }.

Definition valid_plan (p : QueryPlan) : bool :=
  (len (plan_steps p) <=? 12) && forallb valid_step (plan_steps p).

(** [step.model_dump()]. *)
Definition dump_step (s : PlanStep) : json :=
  JObj [(u "source", JStr (source_name (step_source s)));
        (u "object", JStr (object_name (object s)));
        (u "path", JList (JStr <$> path s)); (u "limit", JInt (limit s))].

Record Evidence := {
  ev_id : pystr; ev_source : source; locator : pystr; collected_at : pystr;
  event_time : pystr; version : pystr; sha256 : pystr; snippet : json;
  ev_team : pystr; source_record : pystr; available : bool }.

(** The dicts the assembler builds, by the keys it builds them with. *)
Record Fact := {
  fact_id : pystr; fact_kind : pystr; fact_text : pystr; fact_evidence : list pystr;
  transform : pystr; query_step : json }.

Record Conflict := { conflict_text : pystr; conflict_evidence : list pystr }.

Record Freshness := {
  fresh_source : source; observed_at : json; watermark : pystr;
  snapshot_consistency : pystr }.

Inductive Object :=
| ObjService (id team : pystr)
| ObjDeployment (id service : pystr) (evidence : list pystr) (valid_time : pystr)
| ObjCommit (id : json) (deployment : pystr) (evidence : list pystr).

Record Scope := { scope_team : pystr; scope_subject : pystr; scope_service : pystr }.

Record ContextBundle := {
  scope : Scope; objects : list Object; facts : list Fact; evidence : list Evidence;
  missing : list pystr; conflicts : list Conflict; freshness : list Freshness;
  plan : QueryPlan; token_budget : Z; memories : json; retrieval : json }.

Record Candidate := {
  cand_text : pystr; cand_label : pystr; cand_rule : pystr; cand_evidence : list pystr }.

#[export] Instance plan_step_eq_dec : EqDecision PlanStep.
Proof. solve_decision. Defined.
#[export] Instance query_plan_eq_dec : EqDecision QueryPlan.
Proof. solve_decision. Defined.
#[export] Instance evidence_eq_dec : EqDecision Evidence.
Proof. solve_decision. Defined.
#[export] Instance fact_eq_dec : EqDecision Fact.
Proof. solve_decision. Defined.
#[export] Instance conflict_eq_dec : EqDecision Conflict.
Proof. solve_decision. Defined.
#[export] Instance freshness_eq_dec : EqDecision Freshness.
Proof. solve_decision. Defined.
#[export] Instance object_eq_dec : EqDecision Object.
Proof. solve_decision. Defined.
#[export] Instance scope_eq_dec : EqDecision Scope.
Proof. solve_decision. Defined.
#[export] Instance bundle_eq_dec : EqDecision ContextBundle.
Proof. solve_decision. Defined.

(** ** Bounds *)

Lemma valid_budget_steps b : valid_budget b = true → 1 ≤ steps b ≤ 32.
Proof. unfold valid_budget, between. rewrite !andb_true_iff, !Z.leb_le. tauto. Qed.

Lemma source_name_inj s t : source_name s = source_name t → s = t.
Proof. by destruct s, t; vm_compute. Qed.

Lemma object_name_inj s t : object_name s = object_name t → s = t.
Proof. by destruct s, t; vm_compute. Qed.
