(* ===== verification/Runtime.v ===== *)
(** * The worker's application SDK (worker/incident_worker/runtime.py, resilience.py)

    [RuntimeOps] is the interface the evidence assembler uses of a runtime.  The
    live [Runtime] posts to the control plane; the offline one (Evaluation.v)
    records events.  [Circuit] is the breaker in front of every HTTP source. *)
From S2P Require Import Prelude.
From S2P Require Import PyStr.
From S2P Require Import Json.
From S2P Require Import PyTime.
From S2P Require Import Contracts.

(** ** The interface *)

(** What assemble, report and the model adapters call on a runtime object of
    type [R]: every method may change the object and may raise. *)
Class RuntimeOps (R : Type) := {
  rt_run : R → RunContext;
  rt_authorize : pystr → M R json;
  rt_hook : pystr → json → M R ();
  rt_event : pystr → json → M R ();
}.

(** What it promises: the run it was created for never changes, whether a method
    returns or raises. *)
Class RuntimeLaws (R : Type) `{RuntimeOps R} := {
  law_authorize r t : (∀ r' x, rt_authorize t r = (r', x) → rt_run r' = rt_run r);
  law_hook r n d : (∀ r' x, rt_hook n d r = (r', x) → rt_run r' = rt_run r);
  law_event r k d : (∀ r' x, rt_event k d r = (r', x) → rt_run r' = rt_run r);
}.

(** The hook names both runtimes know. *)
Definition HOOKS : list pystr :=
  u <$> ["plan_validated"; "retrieval_returned"; "context_assembled"; "tool_before";
         "tool_after"; "run_finished"]%string.

(** ** HTTP *)

(** A response: its status, and what [r.json()] gives. *)
Record response := Response { status : Z; body : result json }.

(** [r.raise_for_status()]: anything but a 2xx raises. *)
Definition raise_for_status (r : response) : result () :=
  if (200 <=? status r) && (status r <=? 299) then Ok ()
  else Raise (exn_of (HTTPStatusError (status r)) "HTTP error").

Definition billion : Z := 1000000000.

(** ** The live runtime *)

Section runtime.
(** The network, the clocks and the identifiers, over a world [W]: a POST to the
    control plane returns a response or raises a transport error; time is in
    nanoseconds. *)
Context {W : Type}.
Variable post : pystr → json → M W response.
Variable monotonic : W → Z.
Variable sleep : Z → W → W.
Variable uuid4 : M W pystr.

(** The object: [sent] is the sequence of requests made so far. *)
Record Runtime := {
  run : RunContext; started : Z; calls : Z;
  sent : list (pystr * json); world : W }.

Definition set_world (w : W) (r : Runtime) : Runtime :=
  {| run := run r; started := started r; calls := calls r; sent := sent r; world := w |}.
Definition set_calls (n : Z) (r : Runtime) : Runtime :=
  {| run := run r; started := started r; calls := n; sent := sent r; world := world r |}.
Definition add_sent (x : pystr * json) (r : Runtime) : Runtime :=
  {| run := run r; started := started r; calls := calls r; sent := sent r ++ [x];
     world := world r |}.

(** [Runtime(run)]. *)
Definition new_runtime (rc : RunContext) (w : W) : Runtime :=
  {| run := rc; started := monotonic w; calls := 0; sent := []; world := w |}.

Definition on_world {A} (m : M W A) : M Runtime A := λ r,
  match m (world r) with (w, x) => (set_world w r, x) end.

(** [{"owner": ..., "generation": ..., **payload}]. *)
Definition call_body (rc : RunContext) (payload : list (pystr * json)) : json :=
  JObj (foldl (λ b kv, assoc_set kv.1 kv.2 b)
          [(u "owner", JStr (owner rc)); (u "generation", JInt (generation rc))] payload).

Definition call (operation : pystr) (payload : list (pystr * json)) : M Runtime json :=
  r ← get;
  let b := call_body (run r) payload in
  let url := u "/internal/v1/tasks/" ++ run_id (run r) ++ u "/" ++ operation in
  modify (add_sent (url, b)) ;;
  resp ← on_world (post url b);
  lift (raise_for_status resp) ;;
  lift (body resp).

Definition budget_exhausted : exn := exn_of RuntimeError "budget_exhausted".

Definition authorize (tool : pystr) : M Runtime json :=
  r ← get;
  if (steps (budget (run r)) <=? calls r)
     || (seconds (budget (run r)) * billion <? monotonic (world r) - started r)
  then raise budget_exhausted
  else modify (λ r, set_calls (calls r + 1) r) ;;
       call (u "authorize") [(u "tool", JStr tool)].

Definition event (kind : pystr) (payload : json) : M Runtime json :=
  call (u "event") [(u "kind", JStr kind); (u "payload", payload)].

(** The three attempts of [result]: only a transport error is retried. *)
Fixpoint attempts (n : nat) (attempt : Z) (payload : list (pystr * json))
    : M Runtime json :=
  try_except (call (u "result") payload) (λ e,
    match exn_cls e, n with
    | TransportError _, S n' =>
        on_world (λ w, (sleep ((attempt + 1) * (billion / 5)) w, Ok tt)) ;;
        attempts n' (attempt + 1) payload
    | _, _ => raise e
    end).

Definition result_ (st : pystr) (report manifest : json) : M Runtime json :=
  id ← on_world uuid4;
  attempts 2 0 [(u "status", JStr st); (u "report", report);
                (u "manifest", manifest); (u "callback_id", JStr id)].

Definition hook (name : pystr) (data : json) (policy : bool) : M Runtime () :=
  if negb (mem name HOOKS) then raise (exn_of ValueError "unknown_hook")
  else if negb policy then raise (exn_of PermissionError "policy_hook_denied")
  else event (u "hook")
         (JObj [(u "name", JStr name); (u "status", js "pass"); (u "summary", data)]) ;;
       mret ().

#[export] Instance runtime_ops : RuntimeOps Runtime := {|
  rt_run := run;
  rt_authorize := authorize;
  rt_hook n d := hook n d true;
  rt_event k d := event k d ;; mret ();
|}.

(** *** Lemmas *)

Definition task_url (rc : RunContext) (op : pystr) : pystr :=
  u "/internal/v1/tasks/" ++ run_id rc ++ u "/" ++ op.

(** [r'] is [r] after the requests [reqs]: nothing else the runtime owns moved. *)
Definition after_sending (r : Runtime) (reqs : list (pystr * json)) (r' : Runtime)
    : Prop :=
  run r' = run r ∧ started r' = started r ∧ calls r' = calls r
  ∧ sent r' = sent r ++ reqs.

Lemma call_sends op payload r r' x :
  call op payload r = (r', x) →
  after_sending r [(task_url (run r) op, call_body (run r) payload)] r'.
Proof.
  unfold call, after_sending, on_world, lift, modify, get, mbind, M_bind. cbn.
  destruct (post _ _ (world r)) as [w [resp|e]]; cbn; [|by intros [= <- _]].
  destruct (raise_for_status resp) as [[]|e]; cbn; by intros [= <- _].
Qed.

Lemma attempts_sends n i payload r r' x :
  attempts n i payload r = (r', x) →
  ∃ k, (1 ≤ k ≤ S n)%nat ∧
    after_sending r (replicate k (task_url (run r) (u "result"),
                                  call_body (run r) payload)) r'.
Proof.
  revert i r. induction n as [|n IH]; intros i r; cbn [attempts]; unfold try_except;
    destruct (call _ _ r) as [r1 [a|e]] eqn:Hc; apply call_sends in Hc.
  - intros [= <- _]. exists 1%nat. by split; [lia|].
  - intros Hx. exists 1%nat. split; [lia|].
    by destruct (exn_cls e); injection Hx as <- _.
  - intros [= <- _]. exists 1%nat. by split; [lia|].
  - destruct (exn_cls e);
      try (intros [= <- _]; exists 1%nat; by split; [lia|]).
    cbn. unfold mbind, M_bind, on_world at 1. intros Hx. apply IH in Hx as (k & Hk & Hs).
    exists (S k). split; [lia|]. unfold after_sending in *. cbn in Hs.
    destruct Hc as (Hr & Hst & Hca & Hse), Hs as (-> & -> & -> & ->).
    rewrite Hr, Hst, Hca, Hse, <- app_assoc. done.
Qed.

Lemma authorize_laws t r r' x :
  authorize t r = (r', x) →
  run r' = run r ∧ started r' = started r ∧
  (calls r' = calls r ∧ sent r' = sent r ∧ x = Raise budget_exhausted
   ∨ calls r < steps (budget (run r)) ∧ calls r' = calls r + 1
     ∧ sent r' = sent r ++ [(task_url (run r) (u "authorize"),
                            call_body (run r) [(u "tool", JStr t)])]).
Proof.
  unfold authorize, mbind, M_bind, get, raise, modify. cbn.
  destruct (_ || _) eqn:Hb.
  - intros [= <- <-]. auto 6.
  - intros Hc. apply call_sends in Hc as (Hr & Hs & Hc & Hq). cbn in *.
    apply orb_false_iff in Hb as [Hb _]. apply Z.leb_gt in Hb. auto 10.
Qed.

#[export] Instance runtime_laws : RuntimeLaws Runtime.
Proof.
  split.
  - intros r t r' x H. by destruct (authorize_laws _ _ _ _ H) as [? _].
  - intros r n d r' x. cbn [rt_hook rt_run runtime_ops]. unfold hook, raise, event.
    destruct (negb (mem n HOOKS)); [by intros [= <- _]|].
    cbn [negb]. unfold mbind, M_bind.
    destruct (call _ _ r) as [r1 [a|e]] eqn:Hc; intros [= <- _];
      by apply call_sends in Hc as (-> & _).
  - intros r k d r' x. cbn. unfold event, mbind, M_bind.
    destruct (call _ _ r) as [r1 [a|e]] eqn:Hc; intros [= <- _];
      by apply call_sends in Hc as (-> & _).
Qed.

(** A sequence of tool authorizations, each result ignored (an exhausted budget
    included). *)
Fixpoint authorize_all (ts : list pystr) : M Runtime () :=
  match ts with
  | [] => mret ()
  | t :: ts' => try_except (authorize t ;; mret ()) (λ _, mret ()) ;; authorize_all ts'
  end.

Lemma authorize_all_spec ts r r' x :
  authorize_all ts r = (r', x) →
  run r' = run r ∧ calls r' - calls r = len (sent r') - len (sent r) ∧
  calls r ≤ calls r' ∧
  (calls r ≤ steps (budget (run r)) → calls r' ≤ steps (budget (run r))).
Proof.
  revert r. induction ts as [|t ts IH]; intros r; cbn.
  - intros [= <- _]. repeat split; lia.
  - unfold mbind, M_bind, try_except.
    destruct (authorize t r) as [r1 y] eqn:Ha.
    apply authorize_laws in Ha as (Hr & _ & Hcase).
    assert (Hcase' : calls r ≤ calls r1 ∧ len (sent r1) - len (sent r) = calls r1 - calls r ∧
      (calls r ≤ steps (budget (run r)) → calls r1 ≤ steps (budget (run r)))).
    { destruct Hcase as [(-> & -> & _)|(Hlt & -> & ->)]; [lia|].
      unfold len. rewrite length_app. cbn. lia. }
    destruct y; cbn; intros Hx; apply IH in Hx as (Hr' & Hs & Hle & Hb);
      rewrite Hr in *; repeat split; try congruence; lia.
Qed.

(** The step budget bounds the control-plane authorizations of a run: however
    many are attempted, the requests made by [authorize] on a fresh runtime are
    counted exactly by [calls] and never exceed [budget.steps]. *)
Theorem authorize_within_budget rc w ts r' x :
  valid_budget (budget rc) = true →
  authorize_all ts (new_runtime rc w) = (r', x) →
  len (sent r') = calls r' ∧ calls r' ≤ steps (budget rc).
Proof.
  intros Hb H%authorize_all_spec. apply valid_budget_steps in Hb.
  destruct H as (_ & Hs & _ & Hle). unfold len in *. cbn in Hs, Hle.
  rewrite Z.sub_0_r in Hs. split; [lia|]. apply Hle. lia.
Qed.

(** Publishing a result is idempotent under retries: [result] makes at least
    one and at most three requests, all to the same URL with one and the same
    body, so with one callback identifier. *)
Theorem result_retries st rep man r r' x w' id :
  uuid4 (world r) = (w', Ok id) →
  result_ st rep man r = (r', x) →
  ∃ k, (1 ≤ k ≤ 3)%nat ∧
    sent r' = sent r ++ replicate k (task_url (run r) (u "result"),
      call_body (run r) [(u "status", JStr st); (u "report", rep);
                         (u "manifest", man); (u "callback_id", JStr id)]).
Proof.
  intros Hu. unfold result_, mbind, M_bind, on_world at 1. rewrite Hu.
  intros Hx. apply attempts_sends in Hx as (k & Hk & _ & _ & _ & ->). by exists k.
Qed.
End runtime.
#[global] Arguments Runtime : clear implicits.

(** ** The circuit breaker *)

Section circuit.
Context {W : Type}.
Variable monotonic : W → Z.
Variable sleep : Z → W → W.

(** The lock makes each update atomic; the state is what it protects. *)
Record Circuit := { failures : Z; until : Z }.

Definition new_circuit : Circuit := {| failures := 0; until := 0 |}.

(** The status of a failed attempt, 0 when there was no response. *)
Definition error_status (e : exn) : option Z :=
  match exn_cls e with
  | HTTPStatusError s => Some s
  | TransportError _ => Some 0
  | _ => None
  end.

Definition circuit_open : exn := exn_of RuntimeError "source_circuit_open".

Definition record_failure (now : Z) (c : Circuit) : Circuit :=
  let n := failures c + 1 in
  {| failures := n; until := if 5 <=? n then now + 10 * billion else until c |}.

(** Attempt [attempt] with [n] more to come. *)
Fixpoint tries (n : nat) (attempt : Z) (fn : M W response) : M (W * Circuit) response :=
  try_except
    (r ← on_fst fn;
     lift (raise_for_status r) ;;
     on_snd (modify (λ _, new_circuit)) ;;
     mret r)
    (λ e,
      match error_status e with
      | None => raise e
      | Some status =>
          if negb (status =? 0) && negb (status =? 429) && (status <? 500) then raise e
          else
            modify (λ wc, (wc.1, record_failure (monotonic wc.1) wc.2)) ;;
            match n with
            | O => raise e
            | S n' =>
                modify (λ wc, (sleep (2 ^ attempt * (billion / 10)) wc.1, wc.2)) ;;
                tries n' (attempt + 1) fn
            end
      end).

Definition circuit_call (fn : M W response) : M (W * Circuit) response :=
  wc ← get;
  if monotonic wc.1 <? until wc.2 then raise circuit_open else tries 2 0 fn.

(** *** The breaker's state *)

(** It is open (has a deadline) only after five failures in a row. *)
Definition circuit_inv (c : Circuit) : Prop :=
  0 ≤ failures c ∧ (failures c < 5 → until c = 0).

Lemma record_failure_inv now c : circuit_inv c → circuit_inv (record_failure now c).
Proof.
  unfold circuit_inv, record_failure. cbn. intros [H0 H5]. split; [lia|].
  destruct (Z.leb_spec 5 (failures c + 1)); [lia|]. intros _. apply H5. lia.
Qed.

Section counting.
(** A measure of the world that [fn] increases by one per request, and that
    sleeping does not change. *)
Variable requests : W → Z.
Variable fn : M W response.
Hypothesis fn_counts : ∀ w w' x, fn w = (w', x) → requests w' = requests w + 1.
Hypothesis sleep_counts : ∀ d w, requests (sleep d w) = requests w.

(** What [n + 1] attempts do to the counter and the breaker: a success resets
    it, and each counted failure adds one. *)
Definition tries_post (n : nat) (w : W) (c : Circuit) (x : result response)
    (w' : W) (c' : Circuit) : Prop :=
  circuit_inv c' ∧
  ∃ k, 1 ≤ k ≤ Z.of_nat n + 1 ∧ requests w' = requests w + k ∧
    match x with
    | Ok r => c' = new_circuit ∧ 200 ≤ status r ≤ 299
    | Raise e =>
        (failures c' = failures c + k ∧ k = Z.of_nat n + 1
         ∧ is_Some (error_status e))
        ∨ failures c' = failures c + (k - 1)
    end.

Lemma raise_for_status_ok r v :
  raise_for_status r = Ok v → 200 ≤ status r ≤ 299.
Proof.
  unfold raise_for_status. destruct (_ && _) eqn:H; [|done]. intros _.
  apply andb_true_iff in H as [?%Z.leb_le ?%Z.leb_le]. lia.
Qed.

Lemma tries_spec n i w c x w' c' :
  circuit_inv c → tries n i fn (w, c) = ((w', c'), x) → tries_post n w c x w' c'.
Proof.
  revert i w c. induction n as [|n IH]; intros i w c Hc;
    cbn [tries]; unfold try_except, mbind, M_bind, on_fst, on_snd, lift, modify, raise;
    cbn [fst snd]; destruct (fn w) as [w1 [r|e]] eqn:Hfn; apply fn_counts in Hfn;
    try (destruct (raise_for_status r) as [v|e] eqn:Hs); cbn.
  1, 4: intros [= <- <- <-]; split; [by split; cbn; lia|]; exists 1;
    apply raise_for_status_ok in Hs; repeat split; lia.
  1, 2: destruct (error_status e) as [st|] eqn:He;
    [destruct (negb _ && _ && _)|]; intros [= <- <- <-];
    (split; [auto using record_failure_inv|]); exists 1;
    (split; [lia|split; [lia|]]); cbn; rewrite ?He;
    first [right; lia | left; split; [lia|split; [lia|by eauto]]].
  all: destruct (error_status e) as [st|] eqn:He;
    [destruct (negb _ && _ && _)|]; cbn;
    try (intros [= <- <- <-]; split; [done|]; exists 1;
         split; [lia|split; [lia|right; lia]]);
    intros Hx; apply IH in Hx as (Hinv & k & Hk & Hreq & Hres);
    [|by apply record_failure_inv];
    rewrite sleep_counts in Hreq; split; [done|]; exists (k + 1);
    (split; [lia|split; [lia|]]); destruct x as [r'|e']; [done|];
    cbn in Hres; (destruct Hres as [(H1 & H2 & H3)|H1];
      [left; split; [lia|split; [lia|done]]|right; lia]).
Qed.

Definition call_post (w : W) (c : Circuit) (x : result response) (w' : W) (c' : Circuit)
    : Prop :=
  monotonic w < until c ∧ w' = w ∧ c' = c ∧ x = Raise circuit_open
  ∨ until c ≤ monotonic w ∧ tries_post 2 w c x w' c'.

Lemma circuit_call_post w c x w' c' :
  circuit_inv c → circuit_call fn (w, c) = ((w', c'), x) →
  circuit_inv c' ∧ call_post w c x w' c'.
Proof.
  intros Hc. unfold circuit_call, mbind, M_bind, get. cbn [fst snd].
  destruct (Z.ltb_spec (monotonic w) (until c)) as [Hlt|Hge].
  - unfold raise. intros [= <- <- <-]. split; [done|]. left. auto.
  - intros Hx. apply tries_spec in Hx; [|done]. split; [by apply Hx|by right].
Qed.

End counting.
End circuit.

(** ** Witnesses *)

Section runtime_witness.
(** A world that answers from a script and counts the requests. *)
Definition script : Type := list (result response) * Z.
Definition scripted : M script response := λ w,
  match w.1 with
  | x :: rest => ((rest, w.2 + 1), x)
  | [] => (([], w.2 + 1), Raise (exn_of (TransportError "ConnectError") ""))
  end.
Definition refused : result response :=
  Raise (exn_of (TransportError "ConnectError") "connection refused").
Definition status_of (s : Z) : result response := Ok (Response s (Ok (JObj []))).
Definition still (_ : script) : Z := 1000.
Definition no_sleep (_ : Z) (w : script) : script := w.


Definition some_budget : Budget :=
  {| steps := 2; seconds := 60; output_bytes := 262144; model_calls := 1;
     tokens := 12000 |}.
Definition some_time : datetime := DT 63900000000000000 false (Offset 0).
Definition some_run : RunContext :=
  {| run_id := u "run-1"; subject := u "alice"; team := u "orders";
     service := u "svc-17"; symptom := u "timeouts"; start := some_time;
     end_ := some_time; source_version := 1; generation := 1; attempt := 1;
     owner := u "w:1"; lease_seconds := 15; query := default_log_query;
     budget := some_budget |}.

Definition post_script (_ : pystr) (_ : json) : M script response := scripted.

Lemma authorize_within_budget_witness :
  ∃ r', authorize_all post_script still [u "logs"; u "git"; u "runbook"]
          (new_runtime still some_run ([status_of 200; status_of 403], 0))
        = (r', Ok ()) ∧ len (sent r') = calls r' ∧ calls r' ≤ 2.
Proof.
  eexists. split; [by vm_compute|].
  apply (authorize_within_budget post_script still
           some_run ([status_of 200; status_of 403], 0)
           [u "logs"; u "git"; u "runbook"] _ (Ok ())); by vm_compute.
Defined.

Lemma result_retries_witness :
  let r0 := new_runtime still some_run ([refused; refused; status_of 200], 0) in
  let out := result_ post_script no_sleep (λ w, (w, Ok (u "cb-1"))) (u "completed")
               (JObj []) (JObj []) r0 in
  is_ok out.2 = true ∧ length (sent out.1) = 3%nat ∧
  ∃ k, (1 ≤ k ≤ 3)%nat ∧
    sent out.1 = sent r0 ++ replicate k (task_url (run r0) (u "result"),
      call_body (run r0) [(u "status", JStr (u "completed")); (u "report", JObj []);
        (u "manifest", JObj []); (u "callback_id", JStr (u "cb-1"))]).
Proof.
  intros r0 out. split; [by vm_compute|]. split; [by vm_compute|].
  exact (result_retries post_script no_sleep (λ w, (w, Ok (u "cb-1")))
    (u "completed") (JObj []) (JObj []) r0 out.1 out.2 (world r0) (u "cb-1")
    eq_refl (surjective_pairing out)).
Defined.
End runtime_witness.
