(* ===== verification/Context.v ===== *)
(** * Evidence assembly (worker/incident_worker/context.py)

    The ontology and the plan validator, [assemble] (the whole loop over plan
    steps, with the local variables it mutates as a record of the state), and
    [report].  The theorems are proved against the [RuntimeOps] interface, so
    they hold for the live and for the offline runtime. *)
From S2P Require Import Prelude.
From S2P Require Import PyStr.
From S2P Require Import PyRe.
From S2P Require Import Json.
From S2P Require Import Digests.
From S2P Require Import PyTime.
From S2P Require Import Redaction.
From S2P Require Import Contracts.
From S2P Require Import Runtime.

(** ** The ontology *)

Definition ONTOLOGY : list (pystr * list (pystr * pystr)) :=
  [(u "Service", [(u "team", u "Team"); (u "deployments", u "Deployment");
                  (u "runbook", u "Runbook"); (u "incidents", u "Incident")]);
   (u "Deployment", [(u "commit", u "Commit")]);
   (u "Commit", []); (u "Runbook", []);
   (u "Incident", [(u "service", u "Service")]);
   (u "Team", [])].

Definition MAPPINGS : list (pystr * list (pystr * list pystr)) :=
  [(u "logs", [(u "checkout-api", [u "svc-17"]); (u "payment-api", [u "svc-23"]);
               (u "ambiguous", [u "svc-17"; u "svc-23"])]);
   (u "deployments", [(u "svc-17", [u "svc-17"]); (u "svc-23", [u "svc-23"])])].

(** [resolve(source, alias)]: an unhashable alias is not a key of a dict. *)
Definition resolve (src : source) (alias : json) : result pystr :=
  if negb (hashable alias) then Raise type_error else
  let ids := match alias with
    | JStr a => default [] (assoc a (default [] (assoc (source_name src) MAPPINGS)))
    | _ => []
    end in
  match ids with
  | [id] => Ok id
  | _ => Raise (exn_of ValueError "ambiguous_or_unmapped_service")
  end.

(** ** Plans *)

Definition plan_step (s : source) (o : otype) (p : list string) (n : Z) : PlanStep :=
  {| step_source := s; object := o; path := u <$> p; limit := n |}.

(** [default_plan(run)]; [observe] is whether [OBSERVE_NAMESPACE] is set. *)
Definition default_plan (observe : bool) (r : RunContext) : QueryPlan :=
  {| plan_service := service r; plan_start := start r; plan_end := end_ r;
     plan_steps :=
       [plan_step Deployments ODeployment ["Service"; "deployments"] default_limit;
        plan_step Logs OService ["Service"] 20;
        plan_step Git OCommit ["Service"; "deployments"; "commit"] default_limit;
        plan_step Runbook ORunbook ["Service"; "runbook"] default_limit]
       ++ (if observe
           then [plan_step Cluster OIncident ["Service"; "incidents"] default_limit]
           else []) |}.

(** The walk of [s.path[1:]] from [obj]; [ONTOLOGY[obj]] raises [KeyError] for an
    object type that is not a key. *)
Fixpoint walk_path (obj : pystr) (rels : list pystr) : result pystr :=
  match rels with
  | [] => Ok obj
  | rel :: rels' =>
      match assoc obj ONTOLOGY with
      | None => Raise (Exn KeyError obj)
      | Some edges =>
          match assoc rel edges with
          | None => Raise (exn_of ValueError "invalid_relation")
          | Some obj' => walk_path obj' rels'
          end
      end
  end.

(** [expected[s.source]]. *)
Definition expected_object (s : source) : otype :=
  match s with
  | Logs => OService | Deployments => ODeployment | Git => OCommit
  | Runbook => ORunbook | Cluster => OIncident
  end.

Definition validate_step (s : PlanStep) : result () :=
  match path s with
  | [] => Raise (exn_of ValueError "invalid_root")
  | root :: rels =>
      if negb (str_eqb root (u "Service")) then Raise (exn_of ValueError "invalid_root")
      else
        obj ← walk_path root rels;
        if negb (str_eqb obj (object_name (object s)))
        then Raise (exn_of ValueError "object_type_mismatch")
        else if bool_decide (object s = expected_object (step_source s)) then Ok ()
        else Raise (exn_of ValueError "source_object_mismatch")
  end.

Fixpoint validate_steps (ss : list PlanStep) : result () :=
  match ss with
  | [] => Ok ()
  | s :: ss' => validate_step s ;; validate_steps ss'
  end.

Section plans.
Context {TD : TzDatabase}.

Definition plan_scope : exn := exn_of PermissionError "plan_scope".

(** The four comparisons of the first guard, left to right. *)
Definition out_of_scope (p : QueryPlan) (r : RunContext) : result bool :=
  if negb (str_eqb (plan_service p) (service r)) then Ok true else
  early ← dt_ltb (plan_start p) (start r);
  if early : bool then Ok true else
  late ← dt_ltb (end_ r) (plan_end p);
  if late : bool then Ok true else
  dt_ltb (plan_end p) (plan_start p).

Definition validate_plan (p : QueryPlan) (r : RunContext) : result QueryPlan :=
  bad ← out_of_scope p r;
  if bad : bool then Raise plan_scope else
  if steps (budget r) <? len (plan_steps p)
  then Raise (exn_of ValueError "plan_budget")
  else validate_steps (plan_steps p) ;; Ok p.
End plans.

(** *** What a valid plan is *)

(** A relation of the ontology, and a path of relations. *)
Definition edge (o rel o' : pystr) : Prop :=
  ∃ edges, assoc o ONTOLOGY = Some edges ∧ assoc rel edges = Some o'.

Inductive reaches : pystr → list pystr → pystr → Prop :=
| reaches_nil o : reaches o [] o
| reaches_cons o rel o' rels o'' :
    edge o rel o' → reaches o' rels o'' → reaches o (rel :: rels) o''.

Lemma walk_path_reaches o rels o' : walk_path o rels = Ok o' ↔ reaches o rels o'.
Proof.
  split.
  - revert o. induction rels as [|rel rels IH]; intros o; cbn [walk_path].
    + intros [= <-]. constructor.
    + destruct (assoc o ONTOLOGY) as [edges|] eqn:Ho; [|done].
      destruct (assoc rel edges) as [o1|] eqn:Hr; [|done].
      intros H%IH. econstructor; [by exists edges|done].
  - induction 1 as [o|o rel o1 rels o2 (edges & Ho & Hr) _ IH]; [done|].
    cbn [walk_path]. by rewrite Ho, Hr.
Qed.

(** Every relation leads to an object type of the ontology, so the walk from the
    root never meets a missing key. *)
Lemma edge_closed o rel o' : edge o rel o' → is_Some (assoc o' ONTOLOGY).
Proof.
  intros (edges & Ho & Hr).
  assert (Hall : forallb (λ ke, forallb (λ e, match assoc e.2 ONTOLOGY with
      Some _ => true | None => false end) ke.2) ONTOLOGY = true) by by vm_compute.
  apply assoc_elem_of in Ho, Hr.
  rewrite forallb_forall in Hall. apply list_elem_of_In, Hall in Ho.
  rewrite forallb_forall in Ho. apply list_elem_of_In, Ho in Hr. cbn [snd] in Hr.
  destruct (assoc o' ONTOLOGY); [eauto|done].
Qed.

Definition step_ok (s : PlanStep) : Prop :=
  object s = expected_object (step_source s) ∧
  ∃ rels, path s = u "Service" :: rels ∧
    reaches (u "Service") rels (object_name (object s)).

(** The abstract specification of a plan a run may execute. *)
Definition plan_ok {TD : TzDatabase} (p : QueryPlan) (r : RunContext) : Prop :=
  plan_service p = service r ∧
  dt_ltb (plan_start p) (start r) = Ok false ∧
  dt_ltb (end_ r) (plan_end p) = Ok false ∧
  dt_ltb (plan_end p) (plan_start p) = Ok false ∧
  len (plan_steps p) ≤ steps (budget r) ∧
  Forall step_ok (plan_steps p).

Lemma validate_step_ok s : validate_step s = Ok () ↔ step_ok s.
Proof.
  unfold validate_step, step_ok. destruct (path s) as [|root rels].
  { split; [done|]. intros (_ & rels & [=] & _). }
  unfold str_eqb at 1. case_bool_decide as Hroot; cbn [negb].
  2: { split; [done|]. intros (_ & rels' & [=] & _). congruence. }
  subst root. destruct (walk_path (u "Service") rels) as [o|e] eqn:Hw; cbn.
  2: { split; [done|]. intros (_ & rels' & [= <-] & Hr%walk_path_reaches). congruence. }
  unfold str_eqb. repeat case_bool_decide; cbn; subst.
  - split; [|done]. intros _. split; [done|]. exists rels.
    split; [done|]. by apply walk_path_reaches.
  - split; [done|]. by intros [? _].
  - split; [done|]. intros (_ & rels' & [= <-] & Hr%walk_path_reaches). congruence.
  - split; [done|]. by intros [? _].
Qed.

Lemma validate_steps_ok ss : validate_steps ss = Ok () ↔ Forall step_ok ss.
Proof.
  induction ss as [|s ss IH]; cbn; [done|].
  rewrite Forall_cons, <- IH, <- validate_step_ok.
  destruct (validate_step s) as [[]|e]; cbn; [tauto|]. split; [done|]. by intros [? _].
Qed.

(** [validate_plan] accepts exactly the plans of the specification, and returns
    them unchanged: the plan's service is the run's, its window lies inside the
    run's, it has at most [budget.steps] steps, and every step follows relations
    of the ontology from Service to an object of its declared type, which is the
    type its source delivers. *)
Theorem validate_plan_spec {TD : TzDatabase} p r p' :
  validate_plan p r = Ok p' ↔ p' = p ∧ plan_ok p r.
Proof.
  unfold validate_plan, out_of_scope, plan_ok, str_eqb.
  case_bool_decide as Hs; cbn.
  2: { split; [done|]. tauto. }
  destruct (dt_ltb (plan_start p) (start r)) as [[]|e]; cbn;
    [split; [done|intros (_ & _ & [=] & _)]| |split; [done|intros (_ & _ & [=] & _)]].
  destruct (dt_ltb (end_ r) (plan_end p)) as [[]|e]; cbn;
    [split; [done|intros (_ & _ & _ & [=] & _)]|
    |split; [done|intros (_ & _ & _ & [=] & _)]].
  destruct (dt_ltb (plan_end p) (plan_start p)) as [[]|e]; cbn;
    [split; [done|intros (_ & _ & _ & _ & [=] & _)]|
    |split; [done|intros (_ & _ & _ & _ & [=] & _)]].
  destruct (Z.ltb_spec (steps (budget r)) (len (plan_steps p))).
  { split; [done|]. intros (_ & _ & _ & _ & _ & ? & _). lia. }
  rewrite <- validate_steps_ok.
  destruct (validate_steps (plan_steps p)) as [[]|e]; cbn.
  - split; [intros [= <-]; auto 10|]. by intros [-> _].
  - split; [done|]. by intros (_ & _ & _ & _ & _ & _ & ?).
Qed.

Lemma dt_ltb_irrefl {TD : TzDatabase} d : dt_ltb d d = Ok false.
Proof.
  unfold dt_ltb, dt_sub. rewrite decide_True by done. cbn. by rewrite Z.sub_diag.
Qed.

Lemma default_steps_ok observe r : Forall step_ok (plan_steps (default_plan observe r)).
Proof. apply validate_steps_ok. destruct observe; by vm_compute. Qed.

(** The plan the worker makes when nobody proposes one passes its own
    validator: for every run whose window is not reversed and whose budget has a
    step per source, with and without the cluster observer. *)
Theorem default_plan_valid {TD : TzDatabase} (observe : bool) r :
  dt_ltb (end_ r) (start r) = Ok false →
  (if observe then 5 else 4) ≤ steps (budget r) →
  validate_plan (default_plan observe r) r = Ok (default_plan observe r).
Proof.
  intros Ht Hb. apply validate_plan_spec. split; [done|].
  unfold plan_ok. cbn [plan_service plan_start plan_end default_plan].
  rewrite !dt_ltb_irrefl. repeat split; try done; [|apply default_steps_ok].
  by destruct observe.
Qed.
