(* ===== verification/Assemble.v ===== *)
(** * The assembly loop (worker/incident_worker/context.py, assemble and describe)

    [assemble] as the code runs it: the local variables it mutates are the record
    [locals], which survives the exceptions the loop catches. *)
From S2P Require Import Prelude.
From S2P Require Import PyStr.
From S2P Require Import PyRe.
From S2P Require Import Json.
From S2P Require Import Digests.
From S2P Require Import PyTime.
From S2P Require Import Redaction.
From S2P Require Import Contracts.
From S2P Require Import Runtime.
From S2P Require Import Context.

(** ** The local variables *)

Record locals := {
  l_facts : list Fact; l_evidence : list Evidence; l_missing : list pystr;
  l_freshness : list Freshness; l_conflicts : list Conflict;
  l_records : list (pystr * json); v_logs : list json; v_deployments : list json;
  l_retrieval : json; l_objects : list Object }.

Definition no_locals : locals :=
  {| l_facts := []; l_evidence := []; l_missing := []; l_freshness := [];
     l_conflicts := []; l_records := []; v_logs := []; v_deployments := [];
     l_retrieval := JObj []; l_objects := [] |}.

Definition add_fact (x : Fact) (l : locals) : locals :=
  {| l_facts := l_facts l ++ [x]; l_evidence := l_evidence l; l_missing := l_missing l;
     l_freshness := l_freshness l; l_conflicts := l_conflicts l;
     l_records := l_records l; v_logs := v_logs l; v_deployments := v_deployments l;
     l_retrieval := l_retrieval l; l_objects := l_objects l |}.
Definition add_evidence (x : Evidence) (l : locals) : locals :=
  {| l_facts := l_facts l; l_evidence := l_evidence l ++ [x]; l_missing := l_missing l;
     l_freshness := l_freshness l; l_conflicts := l_conflicts l;
     l_records := l_records l; v_logs := v_logs l; v_deployments := v_deployments l;
     l_retrieval := l_retrieval l; l_objects := l_objects l |}.
Definition add_missing (x : pystr) (l : locals) : locals :=
  {| l_facts := l_facts l; l_evidence := l_evidence l; l_missing := l_missing l ++ [x];
     l_freshness := l_freshness l; l_conflicts := l_conflicts l;
     l_records := l_records l; v_logs := v_logs l; v_deployments := v_deployments l;
     l_retrieval := l_retrieval l; l_objects := l_objects l |}.
Definition add_freshness (x : Freshness) (l : locals) : locals :=
  {| l_facts := l_facts l; l_evidence := l_evidence l; l_missing := l_missing l;
     l_freshness := l_freshness l ++ [x]; l_conflicts := l_conflicts l;
     l_records := l_records l; v_logs := v_logs l; v_deployments := v_deployments l;
     l_retrieval := l_retrieval l; l_objects := l_objects l |}.
Definition add_conflict (x : Conflict) (l : locals) : locals :=
  {| l_facts := l_facts l; l_evidence := l_evidence l; l_missing := l_missing l;
     l_freshness := l_freshness l; l_conflicts := l_conflicts l ++ [x];
     l_records := l_records l; v_logs := v_logs l; v_deployments := v_deployments l;
     l_retrieval := l_retrieval l; l_objects := l_objects l |}.
Definition add_object (x : Object) (l : locals) : locals :=
  {| l_facts := l_facts l; l_evidence := l_evidence l; l_missing := l_missing l;
     l_freshness := l_freshness l; l_conflicts := l_conflicts l;
     l_records := l_records l; v_logs := v_logs l; v_deployments := v_deployments l;
     l_retrieval := l_retrieval l; l_objects := l_objects l ++ [x] |}.
Definition set_records (k : pystr) (x : json) (l : locals) : locals :=
  {| l_facts := l_facts l; l_evidence := l_evidence l; l_missing := l_missing l;
     l_freshness := l_freshness l; l_conflicts := l_conflicts l;
     l_records := assoc_set k x (l_records l); v_logs := v_logs l;
     v_deployments := v_deployments l; l_retrieval := l_retrieval l;
     l_objects := l_objects l |}.
Definition set_retrieval (x : json) (l : locals) : locals :=
  {| l_facts := l_facts l; l_evidence := l_evidence l; l_missing := l_missing l;
     l_freshness := l_freshness l; l_conflicts := l_conflicts l;
     l_records := l_records l; v_logs := v_logs l; v_deployments := v_deployments l;
     l_retrieval := x; l_objects := l_objects l |}.

(** [s.add(v)] on a set. *)
Definition set_add (v : json) (s : list json) : list json :=
  if existsb (py_eqb v) s then s else s ++ [v].
(** [s == t] on sets. *)
Definition set_eqb (s t : list json) : bool :=
  forallb (λ v, existsb (py_eqb v) t) s && forallb (λ v, existsb (py_eqb v) s) t.

(** [versions.setdefault(source, set()).add(v)]. *)
Definition add_version (s : source) (v : json) (l : locals) : locals :=
  {| l_facts := l_facts l; l_evidence := l_evidence l; l_missing := l_missing l;
     l_freshness := l_freshness l; l_conflicts := l_conflicts l;
     l_records := l_records l;
     v_logs := if bool_decide (s = Logs) then set_add v (v_logs l) else v_logs l;
     v_deployments := if bool_decide (s = Logs) then v_deployments l
                      else set_add v (v_deployments l);
     l_retrieval := l_retrieval l; l_objects := l_objects l |}.

Section assemble.
Context {UT : UnicodeTables} {TD : TzDatabase} {R : Type} `{RO : RuntimeOps R}.
(** [str()] of a list or dict. *)
Variable container_repr : json → pystr.
(** [REGISTRY[source].query(runtime, step, cursor)]. *)
Variable registry_query : PlanStep → option json → M R json.
(** The milliseconds since the step started, as the hook reports them. *)
Variable elapsed : R → json.
(** pydantic's [bundle.model_dump_json()]. *)
Variable model_dump_json : ContextBundle → result pystr.
Variable observe : bool.

Abbreviation str := (py_str container_repr).
Abbreviation MS := (M (R * locals)).

Definition loc (f : locals → locals) : MS () := modify (λ s, (s.1, f s.2)).
Definition the_run : MS RunContext := s ← get; mret (rt_run s.1).

(** *** describe *)

Definition describe (src : source) (c : json) : result pystr :=
  match src with
  | Logs =>
      lv ← jget_or (js "UNKNOWN") "level" c; msg ← jget_or (js "无消息") "message" c;
      Ok (u "日志记录 " ++ str lv ++ u ": " ++ str msg)
  | Deployments =>
      v ← jget "version" c; sha ← jget "commit_sha" c;
      Ok (u "发布版本 " ++ str v ++ u " 指向提交 " ++ str sha)
  | Git =>
      k ← jget "commit" c; cfg ← jget_or (js "未提供") "config" c;
      Ok (u "代码提交 " ++ str k ++ u "，配置差异：" ++ str cfg)
  | Runbook =>
      m ← jget_or (js "") "markdown" c;
      match m with
      | JStr s => Ok (u "运行手册摘录：" ++ upto 300 s)
      | JObj _ => Raise (Exn KeyError (u "slice(None, 300, None)"))
      | _ => Raise type_error
      end
  | Cluster => Ok (u "集群观测：" ++ upto 1500 (dumps false false c))
  end.

(** *** One record *)

Definition scope_mismatch : exn := exn_of PermissionError "source_scope_mismatch".

(** The mapping check: only the sources of [MAPPINGS] name services of their own. *)
Definition check_mapping (src : source) (content : json) : MS () :=
  match assoc (source_name src) MAPPINGS with
  | None => mret ()
  | Some _ =>
      alias ← lift (jget (if bool_decide (src = Logs) then "service_name"
                          else "app_id") content);
      id ← lift (resolve src alias);
      r ← the_run;
      if str_eqb id (service r) then mret () else raise scope_mismatch
  end.

Definition make_evidence (src : source) (row out content : json) (eid digest raw : pystr)
    (tm : pystr) : result Evidence :=
  loc ← jindex "locator" row; obs ← jindex "observed_at" out;
  et ← jindex "event_time" row; ver ← jindex "version" row;
  rid ← jindex "id" row;
  loc ← jstr loc; obs ← jstr obs; et ← jstr et; ver ← jstr ver; rid ← jstr rid;
  Ok {| ev_id := eid; ev_source := src; locator := loc; collected_at := obs;
        event_time := et; version := ver; sha256 := digest;
        snippet := if len (dumps true false content) <=? 12000 then content
                   else JStr raw;
        ev_team := tm; source_record := rid; available := true |}.

Definition process_row (step : PlanStep) (out row : json) : MS () :=
  let src := step_source step in
  content ← lift (jindex "content" row);
  check_mapping src content ;;
  let raw := dumps false true content in
  bytes ← lift (encode raw);
  let digest := sha256_hex bytes in
  rid ← lift (jindex "id" row);
  let eid := source_name src ++ u ":" ++ str rid ++ u ":" ++ upto 12 digest in
  (if 12000 <? len raw
   then loc (add_missing (source_name src ++ u ": evidence snippet truncated"))
   else mret ()) ;;
  r ← the_run;
  ev ← lift (make_evidence src row out content eid digest (upto 12000 raw) (team r));
  loc (add_evidence ev) ;;
  text ← lift (describe src content);
  loc (add_fact {| fact_id := u "fact:" ++ eid; fact_kind := u "observation";
                   fact_text := text; fact_evidence := [eid];
                   transform := u "normalize-v1"; query_step := dump_step step |}) ;;
  match src with
  | Logs =>
      rel ← lift (jget "release" content);
      if truthy rel
      then if hashable rel then loc (add_version Logs rel) else raise type_error
      else mret ()
  | Deployments =>
      v ← lift (jindex "version" content);
      if hashable v then loc (add_version Deployments v) else raise type_error
  | _ => mret ()
  end.

(** *** Fetching a step's records *)

(** The page loop over log records: at most [n] further pages.  The ids known
    when a page arrives are those of the pages before it. *)
Fixpoint more_pages (n : nat) (step : PlanStep) (pages : Z) (out : json)
    : M R (json * Z) :=
  cursor ← lift (jget "next_cursor" out);
  match n with
  | S n' =>
      if truthy cursor then
        more ← registry_query step (Some cursor);
        recs ← lift (jindex "records" out ≫= jiter);
        known ← lift (map_r (jindex "id") recs);
        (if forallb hashable known then mret () else raise type_error) ;;
        new ← lift (jindex "records" more ≫= jiter);
        fresh ← lift (map_r (λ r,
          id ← jindex "id" r;
          if hashable id then Ok (r, negb (existsb (py_eqb id) known))
          else Raise type_error) new);
        let extra := fst <$> filter (λ x, x.2 = true) fresh in
        out ← lift (jset "records" (JList (recs ++ extra)) out);
        next ← lift (jget "next_cursor" more);
        out ← lift (jset "next_cursor" next out);
        more_pages n' step (pages + 1) out
      else mret (out, pages)
  | O => mret (out, pages)
  end.

(** [{**summary, "pages": ..., ...}]. *)
Definition merge_summary (summary : json) (pages n : Z) (cursor prov : json)
    : result json :=
  match summary with
  | JObj kvs =>
      Ok (JObj (foldl (λ d kv, assoc_set kv.1 kv.2 d) kvs
        [(u "pages", JInt pages); (u "evidence_count", JInt n);
         (u "sampled", JBool (truthy cursor)); (u "provenance", prov)]))
  | _ => Raise type_error
  end.

Definition fetch_live (step : PlanStep) : MS json :=
  out ← on_fst (registry_query step None);
  match step_source step with
  | Logs =>
      op ← on_fst (more_pages 2 step 1 out);
      let '(out, pages) := op in
      summary ← lift (jget_or (JObj []) "summary" out);
      n ← lift (jindex "records" out ≫= jlen);
      cursor ← lift (jget "next_cursor" out);
      prov ← lift (jget_or (js "unknown") "provenance" out);
      ret ← lift (merge_summary summary pages n cursor prov);
      loc (set_retrieval ret) ;;
      lift (jset "retrieval" ret out)
  | _ => mret out
  end.

Definition fetch_recorded (step : PlanStep) (recorded : list (pystr * json)) : MS json :=
  match assoc (source_name (step_source step)) recorded with
  | None => raise (Exn RuntimeError
              (u "unreplayable_missing_recording:" ++ source_name (step_source step)))
  | Some out => on_fst (rt_authorize (source_name (step_source step))) ;; mret out
  end.

Definition fetch (step : PlanStep) (recorded : option (list (pystr * json))) : MS json :=
  match recorded with
  | Some rec => fetch_recorded step rec
  | None => fetch_live step
  end.

(** *** One step *)

Definition truncated_note : pystr :=
  u ": truncated; 已按查询条件检索并分层取样；证据预算内分页结束，仍有更多记录（truncated）".

Definition try_step (step : PlanStep) (recorded : option (list (pystr * json))) : MS () :=
  let src := step_source step in
  let name := source_name src in
  out ← fetch step recorded;
  let out := redact out in
  (if bool_decide (src = Logs) then
     s ← get;
     ret ← lift (jget_or (l_retrieval s.2) "retrieval" out);
     loc (set_retrieval ret)
   else mret ()) ;;
  loc (set_records name out) ;;
  n ← lift (jindex "records" out ≫= jlen);
  on_fst (rt_hook (u "retrieval_returned")
            (JObj [(u "source", JStr name); (u "count", JInt n)])) ;;
  obs ← lift (jindex "observed_at" out);
  wm ← lift (jindex "watermark" out);
  loc (add_freshness {| fresh_source := src; observed_at := obs; watermark := str wm;
                        snapshot_consistency := u "independent_source" |}) ;;
  cursor ← lift (jget "next_cursor" out);
  (if truthy cursor then loc (add_missing (name ++ truncated_note)) else mret ()) ;;
  recs ← lift (jindex "records" out ≫= jiter);
  flags ← lift (map_r (λ r, d ← jget "deleted" r; Ok (r, truthy d)) recs);
  let available := fst <$> filter (λ x, x.2 = false) flags in
  (match available with
   | [] => loc (add_missing (name ++ u ": no accessible records in scope"))
   | _ => mret ()
   end) ;;
  for_each available (process_row step out) ;;
  s ← get;
  on_fst (rt_hook (u "tool_after")
            (JObj [(u "source", JStr name); (u "status", js "ok");
                   (u "milliseconds", elapsed s.1)])).

(** The [except] clauses: permission errors, replay and lost leases are fatal,
    anything else becomes a missing source. *)
Definition fatal_status (e : exn) : bool :=
  match exn_cls e with
  | HTTPStatusError s => (s =? 401) || (s =? 403) || (s =? 409)
  | _ => false
  end.

Definition step_failed (step : PlanStep) (replaying : bool) (e : exn) : MS () :=
  let name := source_name (step_source step) in
  if bool_decide (exn_cls e = PermissionError) then raise e
  else if replaying then raise e
  else if fatal_status e then raise e
  else
    let cls := u (exn_name (exn_cls e)) in
    loc (add_missing (name ++ u ": " ++ cls)) ;;
    on_fst (rt_hook (u "tool_after")
              (JObj [(u "source", JStr name); (u "status", js "error");
                     (u "error_class", JStr cls)])).

Definition do_step (recorded : option (list (pystr * json))) (step : PlanStep) : MS () :=
  on_fst (rt_hook (u "tool_before")
            (JObj [(u "source", JStr (source_name (step_source step)))])) ;;
  try_except (try_step step recorded)
    (step_failed step (match recorded with Some _ => true | None => false end)).

(** *** Relations between sources *)

Definition of_source (src : source) (evs : list Evidence) : list Evidence :=
  filter (λ e, ev_source e = src) evs.

(** [[x for x in l if p(x)]] where the test may raise. *)
Fixpoint filter_r {A} (p : A → result bool) (l : list A) : result (list A) :=
  match l with
  | [] => Ok []
  | x :: l' => b ← p x; l'' ← filter_r p l'; Ok (if b : bool then x :: l'' else l'')
  end.

Definition same_commit (release commit : Evidence) : result bool :=
  c ← jget "commit" (snippet commit); s ← jget "commit_sha" (snippet release);
  Ok (py_eqb c s).

Definition relate_release (commits : list Evidence) (release : Evidence) : MS () :=
  r ← the_run;
  loc (add_object (ObjDeployment (source_record release) (service r) [ev_id release]
                     (event_time release))) ;;
  matched ← lift (filter_r (same_commit release) commits);
  match matched, commits with
  | commit :: _, _ =>
      k ← lift (jindex "commit" (snippet commit));
      loc (add_object (ObjCommit k (source_record release)
                         [ev_id release; ev_id commit])) ;;
      loc (add_fact {| fact_id := u "fact:relation:" ++ ev_id release;
        fact_kind := u "computed";
        fact_text := u "发布记录与 Git 提交标识一致；这只确认变更归属，不证明故障因果。";
        fact_evidence := [ev_id release; ev_id commit];
        transform := u "commit-equality-v1";
        query_step := JObj [(u "relation", js "Deployment.commit")] |})
  | [], _ :: _ =>
      loc (add_conflict {| conflict_text := u "发布指向的提交未匹配已读取的 Git 记录。";
        conflict_evidence := ev_id release :: (ev_id <$> commits) |})
  | [], [] => mret ()
  end.

Definition relate_observation (releases : list Evidence) (obs : Evidence) : MS () :=
  v ← lift (jget "release" (snippet obs));
  matches ← lift (filter_r (λ e,
    w ← jget "version" (snippet e); Ok (py_eqb w v && truthy v)) releases);
  for_each matches (λ release,
    loc (add_fact {|
      fact_id := u "fact:cluster-release:" ++ ev_id obs ++ u ":" ++ ev_id release;
      fact_kind := u "computed";
      fact_text := u "集群工作负载的发布标签与结构化发布版本一致；因果关系仍需验证。";
      fact_evidence := [ev_id obs; ev_id release];
      transform := u "release-label-equality-v1";
      query_step := JObj [(u "relation", js "Incident.service.deployments")] |})).

Definition compare_versions : MS () :=
  s ← get;
  let l := s.2 in
  match v_logs l, v_deployments l with
  | _ :: _, _ :: _ =>
      if set_eqb (v_logs l) (v_deployments l) then mret ()
      else loc (add_conflict {|
        conflict_text := u "日志与发布表的版本记录不一致；需要核对实例与发布时间。";
        conflict_evidence := ev_id <$>
          filter (λ e, ev_source e = Logs ∨ ev_source e = Deployments)
            (l_evidence l) |})
  | _, _ => mret ()
  end.

Definition relate : MS () :=
  compare_versions ;;
  s ← get;
  let r := rt_run s.1 in
  loc (add_object (ObjService (service r) (team r))) ;;
  let releases := of_source Deployments (l_evidence s.2) in
  let commits := of_source Git (l_evidence s.2) in
  for_each releases (relate_release commits) ;;
  for_each (of_source Cluster (l_evidence s.2)) (relate_observation releases).

(** *** The bundle *)

Definition make_bundle (r : RunContext) (p : QueryPlan) (l : locals)
    : result ContextBundle :=
  match l_retrieval l with
  | JObj _ =>
      Ok {| scope := {| scope_team := team r; scope_subject := subject r;
                        scope_service := service r |};
            objects := l_objects l; facts := l_facts l; evidence := l_evidence l;
            missing := l_missing l; conflicts := l_conflicts l;
            freshness := l_freshness l; plan := p; token_budget := tokens (budget r);
            memories := JList []; retrieval := l_retrieval l |}
  | _ => Raise (exn_of ValidationError "Input should be a valid dictionary")
  end.

Definition set_memories (m : json) (b : ContextBundle) : ContextBundle :=
  {| scope := scope b; objects := objects b; facts := facts b; evidence := evidence b;
     missing := missing b; conflicts := conflicts b; freshness := freshness b;
     plan := plan b; token_budget := token_budget b; memories := m;
     retrieval := retrieval b |}.

Definition output_exhausted : exn := exn_of RuntimeError "output_budget_exhausted".

Definition finish (p : QueryPlan) (recorded : option (list (pystr * json)))
    : MS (ContextBundle * list (pystr * json)) :=
  s ← get;
  let r := rt_run s.1 in
  b ← lift (make_bundle r p s.2);
  text ← lift (model_dump_json b);
  bytes ← lift (encode text);
  (if output_bytes (budget r) <? len bytes then raise output_exhausted else mret ()) ;;
  b ← match recorded with
      | Some _ => mret b
      | None =>
          historical ← on_fst (rt_authorize (u "memory"));
          m ← lift (jget_or (JList []) "memories" historical);
          mret (set_memories m b)
      end;
  on_fst (rt_hook (u "context_assembled")
            (JObj [(u "facts", JInt (len (l_facts s.2)));
                   (u "evidence", JInt (len (l_evidence s.2)));
                   (u "conflicts", JInt (len (l_conflicts s.2)))])) ;;
  mret (b, l_records s.2).

Definition assemble_body (p : QueryPlan) (recorded : option (list (pystr * json)))
    : MS (ContextBundle * list (pystr * json)) :=
  on_fst (rt_hook (u "plan_validated")
            (JObj [(u "steps", JInt (len (plan_steps p)))])) ;;
  for_each (plan_steps p) (do_step recorded) ;;
  relate ;;
  finish p recorded.

(** [assemble(runtime, plan, recorded)]. *)
Definition assemble (proposed : option QueryPlan)
    (recorded : option (list (pystr * json)))
    : M R (ContextBundle * list (pystr * json)) := λ rt,
  match validate_plan (default (default_plan observe (rt_run rt)) proposed) (rt_run rt) with
  | Raise e => (rt, Raise e)
  | Ok p => match assemble_body p recorded (rt, no_locals) with
            | ((rt', _), x) => (rt', x)
            end
  end.
End assemble.
