(* ===== verification/AssembleSpec.v ===== *)
(** * What assembled evidence guarantees

    The invariant of [assemble] and its theorems, for any runtime that keeps its
    run ([RuntimeLaws]) and any connectors that do: every evidence row belongs to
    the run, every fact and conflict cites evidence of the bundle, and no planned
    source disappears silently. *)
From S2P Require Import Prelude.
From S2P Require Import PyStr.
From S2P Require Import PyRe.
From S2P Require Import Json.
From S2P Require Import Digests.
From S2P Require Import PyTime.
From S2P Require Import Redaction.
From S2P Require Import Contracts.
From S2P Require Import Runtime.
From S2P Require Import Context.
From S2P Require Import Assemble.

(** ** The invariant *)

(** The service a record's content names is the run's. *)
Definition mapped (src : source) (content : json) (svc : pystr) : Prop :=
  match assoc (source_name src) MAPPINGS with
  | None => True
  | Some _ =>
      ∃ alias, jget (if bool_decide (src = Logs) then "service_name" else "app_id")
                 content = Ok alias ∧ resolve src alias = Ok svc
  end.

(** Evidence is what [assemble] makes of one record of the run's scope: labelled
    with the run's team, identified by its source, record id and digest, with the
    SHA-256 of the canonical JSON of the whole content, and a snippet that is the
    content or its first 12000 characters. *)
Definition evidence_ok (str : json → pystr) (rc : RunContext) (e : Evidence) : Prop :=
  ev_team e = team rc ∧ available e = true ∧
  ∃ content bytes rid,
    mapped (ev_source e) content (service rc) ∧
    encode (dumps false true content) = Ok bytes ∧
    sha256 e = sha256_hex bytes ∧
    ev_id e = source_name (ev_source e) ++ u ":" ++ str rid ++ u ":"
                ++ upto 12 (sha256 e) ∧
    (snippet e = content ∧ len (dumps true false content) ≤ 12000
     ∨ snippet e = JStr (upto 12000 (dumps false true content))
       ∧ 12000 < len (dumps true false content)).

Definition ids (evs : list Evidence) : list pystr := ev_id <$> evs.

(** The evidence a claim cites: at least one identifier, all of the bundle. *)
Definition cites (evs : list Evidence) (cited : list pystr) : Prop :=
  cited ≠ [] ∧ Forall (λ i, i ∈ ids evs) cited.

Definition good (str : json → pystr) (rc : RunContext) (l : locals) : Prop :=
  Forall (evidence_ok str rc) (l_evidence l) ∧
  Forall (λ f, cites (l_evidence l) (fact_evidence f)) (l_facts l) ∧
  Forall (λ c, Forall (λ i, i ∈ ids (l_evidence l)) (conflict_evidence c))
    (l_conflicts l).

(** Nothing recorded is ever dropped. *)
Definition grows (l l' : locals) : Prop :=
  l_evidence l `prefix_of` l_evidence l' ∧ l_missing l `prefix_of` l_missing l' ∧
  l_freshness l `prefix_of` l_freshness l'.

#[export] Instance grows_preorder : PreOrder grows.
Proof.
  split; unfold grows.
  - intros l. done.
  - intros l1 l2 l3 (? & ? & ?) (? & ? & ?). repeat split; by etrans.
Qed.

(** The source delivered: evidence of it is there. *)
Definition delivered (step : PlanStep) (l : locals) : Prop :=
  ∃ e, e ∈ l_evidence l ∧ ev_source e = step_source step.

Definition observed (step : PlanStep) (l : locals) : Prop :=
  ∃ f, f ∈ l_freshness l ∧ fresh_source f = step_source step.

(** A planned source is accounted for: it delivered, with the time of the
    observation, or the report says why not. *)
Definition accounted (step : PlanStep) (l : locals) : Prop :=
  (delivered step l ∧ observed step l) ∨
  (∃ m, m ∈ l_missing l ∧ startswith (source_name (step_source step) ++ u ": ") m = true).

Lemma prefix_elem_of {A} (l l' : list A) x : l `prefix_of` l' → x ∈ l → x ∈ l'.
Proof. intros [k ->] Hx. rewrite elem_of_app. by left. Qed.

Lemma delivered_grows step l l' : grows l l' → delivered step l → delivered step l'.
Proof. intros (He & _) (e & Hin & Hs). exists e. eauto using prefix_elem_of. Qed.

Lemma observed_grows step l l' : grows l l' → observed step l → observed step l'.
Proof. intros (_ & _ & Hf) (f & Hin & Hs). exists f. eauto using prefix_elem_of. Qed.

Lemma accounted_grows step l l' : grows l l' → accounted step l → accounted step l'.
Proof.
  intros Hg. pose proof Hg as (_ & Hm & Hf).
  intros [[Hd Ho]|(m & Hin & Hs)]; [left|right];
    eauto using prefix_elem_of, delivered_grows, observed_grows.
Qed.

Lemma ids_mono evs evs' i : evs `prefix_of` evs' → i ∈ ids evs → i ∈ ids evs'.
Proof.
  intros H Hi. unfold ids in *. rewrite list_elem_of_fmap in *.
  destruct Hi as (e & -> & He). exists e. split; [done|]. by eapply prefix_elem_of.
Qed.

Lemma cites_mono evs evs' c : evs `prefix_of` evs' → cites evs c → cites evs' c.
Proof.
  intros H [Hne Hc]. split; [done|]. eapply Forall_impl; [exact Hc|].
  intros i. by apply ids_mono.
Qed.

Lemma startswith_app p s : startswith p (p ++ s) = true.
Proof. induction p as [|c p IH]; cbn; [done|]. by rewrite Z.eqb_refl. Qed.

(** A note that names its source. *)
Lemma startswith_note n rest : startswith (n ++ u ": ") (n ++ u ": " ++ rest) = true.
Proof. rewrite app_assoc. apply startswith_app. Qed.

Section updates.
Variables (str : json → pystr) (rc : RunContext).
Local Abbreviation good := (good str rc).

Lemma good_empty : good no_locals.
Proof. repeat split; constructor. Qed.

Lemma good_evidence e l : evidence_ok str rc e → good l → good (add_evidence e l).
Proof.
  intros He (Hev & Hf & Hc). unfold AssembleSpec.good. cbn.
  assert (Hp : l_evidence l `prefix_of` l_evidence l ++ [e]) by by eexists.
  split; [|split].
  - apply Forall_app. auto using Forall_cons_2, Forall_nil_2.
  - eapply Forall_impl; [exact Hf|]. intros f. by apply cites_mono.
  - eapply Forall_impl; [exact Hc|]. intros c H. eapply Forall_impl; [exact H|].
    intros i. by apply ids_mono.
Qed.

Lemma good_fact f l :
  cites (l_evidence l) (fact_evidence f) → good l → good (add_fact f l).
Proof.
  intros Hf (Hev & Hfs & Hc). split; [done|]. split; [|done].
  apply Forall_app. auto using Forall_cons_2, Forall_nil_2.
Qed.

Lemma good_conflict c l :
  Forall (λ i, i ∈ ids (l_evidence l)) (conflict_evidence c) →
  good l → good (add_conflict c l).
Proof.
  intros Hc (Hev & Hfs & Hcs). split; [done|]. split; [done|].
  apply Forall_app. auto using Forall_cons_2, Forall_nil_2.
Qed.

(** The remaining updates leave the three lists alone. *)
Lemma good_same l l' :
  l_evidence l' = l_evidence l → l_facts l' = l_facts l →
  l_conflicts l' = l_conflicts l → good l → good l'.
Proof. unfold AssembleSpec.good. by intros -> -> ->. Qed.
End updates.

(** ** The logic of the loop *)

Section keep.
Context {R : Type} `{RO : RuntimeOps R} `{RL : !RuntimeLaws R}.
Variables (str : json → pystr) (rc : RunContext).

Definition inv (s : R * locals) : Prop := rt_run s.1 = rc ∧ good str rc s.2.

(** From an invariant state, [m] keeps the invariant and the record, whether it
    returns (then with [Q]) or raises. *)
Definition K {A} (s : R * locals) (m : M (R * locals) A)
    (Q : A → R * locals → Prop) : Prop :=
  inv s →
  wp m (λ a s', inv s' ∧ grows s.2 s'.2 ∧ Q a s')
       (λ _ s', inv s' ∧ grows s.2 s'.2) s.

Definition anything {A} (_ : A) (_ : R * locals) : Prop := True.

Lemma K_mono {A} s (m : M _ A) (Q Q' : A → R * locals → Prop) :
  K s m Q → (∀ a s', Q a s' → Q' a s') → K s m Q'.
Proof.
  intros Hm HQ Hs. eapply wp_mono; [by apply Hm| |done].
  intros a s' (? & ? & ?). auto.
Qed.

Lemma keep_refl s : inv s → inv s ∧ grows s.2 s.2.
Proof. done. Qed.

Lemma keep_refl_post s (P : Prop) : inv s → P → inv s ∧ grows s.2 s.2 ∧ P.
Proof. done. Qed.

Lemma K_ret {A} s (a : A) (Q : A → R * locals → Prop) : Q a s → K s (mret a) Q.
Proof. intros HQ Hs. apply wp_ret. by apply keep_refl_post. Qed.

Lemma K_raise {A} s e (Q : A → R * locals → Prop) : K s (raise e) Q.
Proof. intros Hs. apply wp_raise. by apply keep_refl. Qed.

Lemma K_lift {A} s (r : result A) (Q : A → R * locals → Prop) :
  (∀ a, r = Ok a → Q a s) → K s (lift r) Q.
Proof. intros HQ Hs. apply wp_lift; [|intros; by apply keep_refl].
  intros a Ha. apply keep_refl_post; auto. Qed.

Lemma K_get s (Q : R * locals → R * locals → Prop) : Q s s → K s get Q.
Proof. intros HQ Hs. apply wp_get. by apply keep_refl_post. Qed.

Lemma K_the_run s (Q : RunContext → R * locals → Prop) : Q rc s → K s the_run Q.
Proof.
  intros HQ Hs. unfold the_run. apply wp_bind, wp_get, wp_ret.
  apply keep_refl_post; [done|]. by destruct Hs as [-> _].
Qed.

Lemma K_loc s f (Q : () → R * locals → Prop) :
  (good str rc s.2 → good str rc (f s.2)) → grows s.2 (f s.2) →
  Q tt (s.1, f s.2) → K s (loc f) Q.
Proof.
  intros Hg Hgr HQ Hs. unfold loc. apply wp_modify. destruct Hs as [Hr Hgood].
  split; [split; [done|by apply Hg]|done].
Qed.

Lemma K_bind {A B} s (m : M _ A) (f : A → M _ B) Q (Q' : B → R * locals → Prop) :
  K s m Q →
  (∀ a s', grows s.2 s'.2 → Q a s' → K s' (f a) Q') →
  K s (m ≫= f) Q'.
Proof.
  intros Hm Hf Hs. apply wp_bind. eapply wp_mono; [by apply Hm| |done].
  cbn. intros a s' (Hs' & Hg & HQ). eapply wp_mono; [by apply (Hf a s')| |].
  - cbn. intros b s'' (? & Hg' & ?). split; [done|]. split; [by etrans|done].
  - cbn. intros e s'' (? & Hg'). split; [done|by etrans].
Qed.

Lemma K_try {A} s (m : M _ A) h (Q : A → R * locals → Prop) :
  K s m Q → (∀ e s', grows s.2 s'.2 → K s' (h e) Q) → K s (try_except m h) Q.
Proof.
  intros Hm Hh Hs. apply wp_try. eapply wp_mono; [by apply Hm|done|].
  cbn. intros e s' (Hs' & Hg). eapply wp_mono; [by apply (Hh e s')| |].
  - cbn. intros b s'' (? & Hg' & ?). split; [done|]. split; [by etrans|done].
  - cbn. intros e' s'' (? & Hg'). split; [done|by etrans].
Qed.

(** An operation of the runtime touches no local variable. *)
Lemma K_on_fst {A} s (m : M R A) :
  (∀ r r' x, m r = (r', x) → rt_run r' = rt_run r) →
  K s (on_fst m) (λ _ s', s'.2 = s.2).
Proof.
  intros Hm [Hr Hg]. destruct s as [r l]. apply wp_on_fst. unfold wp.
  cbn in *. destruct (m r) as [r' [a|e]] eqn:Hx; apply Hm in Hx;
    (split; [split; cbn; [congruence|done]|done]).
Qed.

Lemma K_hook s n d : K s (on_fst (rt_hook n d)) (λ _ s', s'.2 = s.2).
Proof. apply K_on_fst. intros r r' x. apply law_hook. Qed.
Lemma K_authorize s t : K s (on_fst (rt_authorize t)) (λ _ s', s'.2 = s.2).
Proof. apply K_on_fst. intros r r' x. apply law_authorize. Qed.

(** A loop whose every round establishes a property that lasts. *)
Lemma K_for_each {A} s (xs : list A) (body : A → M _ ()) (C : A → locals → Prop) :
  (∀ x l l', grows l l' → C x l → C x l') →
  (∀ x s', x ∈ xs → grows s.2 s'.2 → K s' (body x) (λ _ s'', C x s''.2)) →
  K s (for_each xs body) (λ _ s', Forall (λ x, C x s'.2) xs).
Proof.
  intros HC. revert s. induction xs as [|x xs IH]; intros s Hb; cbn [for_each].
  - by apply K_ret.
  - eapply K_bind; [apply Hb; [by apply list_elem_of_here|done]|].
    cbn. intros [] s1 Hg HCx.
    apply (K_mono _ _ (λ _ s', grows s1.2 s'.2 ∧ Forall (λ x, C x s'.2) xs)).
    2: { intros ? s' [Hg' Hall]. constructor; [by eapply HC|done]. }
    intros Hs1. eapply wp_mono.
    { apply IH; [|done]. intros y s' Hy Hg'. apply Hb; [by apply list_elem_of_further|].
      by etrans. }
    { cbn. intros ? s' (? & ? & ?). done. }
    { done. }
Qed.

Lemma K_for_each_true {A} s (xs : list A) (body : A → M _ ()) :
  (∀ x s', x ∈ xs → grows s.2 s'.2 → K s' (body x) anything) →
  K s (for_each xs body) anything.
Proof.
  intros Hb. eapply K_mono; [apply (K_for_each s xs body (λ _ _, True)); [done|]|done].
  intros x s' Hx Hg. eapply K_mono; [by apply Hb|done].
Qed.

(** The forms a statement sequence takes. *)
Lemma K_bind_lift {A B} s (r : result A) (f : A → M _ B) Q :
  (∀ a, r = Ok a → K s (f a) Q) → K s (lift r ≫= f) Q.
Proof.
  intros Hf Hs. apply wp_bind, wp_lift; [|by intros; apply keep_refl].
  intros a Ha. by apply Hf.
Qed.

Lemma K_bind_get {B} s (f : R * locals → M _ B) Q :
  K s (f s) Q → K s (get ≫= f) Q.
Proof. intros Hf Hs. by apply wp_bind, wp_get, Hf. Qed.

Lemma K_bind_run {B} s (f : RunContext → M _ B) Q :
  K s (f rc) Q → K s (the_run ≫= f) Q.
Proof.
  intros Hf Hs. unfold the_run. apply wp_bind, wp_bind, wp_get, wp_ret.
  destruct Hs as [Hr Hg]. rewrite Hr. by apply Hf.
Qed.

Lemma K_bind_any {A B} s (m : M _ A) (f : A → M _ B) Q :
  K s m anything → (∀ a s', grows s.2 s'.2 → K s' (f a) Q) → K s (m ≫= f) Q.
Proof. intros Hm Hf. eapply K_bind; [exact Hm|]. intros a s' Hg _. by apply Hf. Qed.

Lemma K_bind_same {A B} s (m : M R A) (f : A → M _ B) Q :
  (∀ r r' x, m r = (r', x) → rt_run r' = rt_run r) →
  (∀ a s', s'.2 = s.2 → K s' (f a) Q) → K s (on_fst m ≫= f) Q.
Proof. intros Hm Hf. eapply K_bind; [by apply K_on_fst|]. intros a s' _. apply Hf. Qed.

Lemma K_bind_loc {B} s g (f : () → M (R * locals) B) Q :
  (good str rc s.2 → good str rc (g s.2)) → grows s.2 (g s.2) →
  (∀ s', s'.2 = g s.2 → K s' (f ()) Q) → K s (loc g ≫= f) Q.
Proof.
  intros Hg Hgr Hf.
  eapply (K_bind _ _ _ (λ _ s', s'.2 = g s.2)); [by apply K_loc|].
  intros [] s' _. apply Hf.
Qed.

Lemma K_inv {A} s (m : M _ A) Q : (inv s → K s m Q) → K s m Q.
Proof. intros H Hs. by apply H. Qed.

(** A property that lasts is still there at the end. *)
Lemma K_frame {A} s (m : M _ A) (C : locals → Prop) :
  (∀ l l', grows l l' → C l → C l') → C s.2 →
  K s m anything → K s m (λ _ s', C s'.2).
Proof.
  intros HC Hs Hm Hi. eapply wp_mono; [by apply Hm| |done].
  cbn. intros a s' (? & Hg & _). split; [done|]. split; [done|]. by eapply HC.
Qed.

Lemma K_if {A} s (b : bool) (m m' : M _ A) Q :
  (b = true → K s m Q) → (b = false → K s m' Q) → K s (if b then m else m') Q.
Proof. destruct b; auto. Qed.
End keep.
#[global] Arguments K : simpl never.

(** Updates that touch none of the three claim lists. *)
Ltac same_claims := first [done | by apply good_same].
Ltac grows_tac :=
  unfold grows; cbn; repeat split; first [done | by eexists].

(** Walk through a statement sequence. *)
Ltac keep_step :=
  lazymatch goal with
  | |- K _ _ _ (mret _) _ => apply K_ret
  | |- K _ _ _ (raise _) _ => apply K_raise
  | |- K _ _ _ (lift _) _ => apply K_lift; intros ? ?
  | |- K _ _ _ (loc _) _ => apply K_loc; [same_claims|grows_tac|]
  | |- K _ _ _ (lift _ ≫= _) _ => apply K_bind_lift; intros ? ?
  | |- K _ _ _ (get ≫= _) _ => apply K_bind_get
  | |- K _ _ _ (the_run ≫= _) _ => apply K_bind_run
  | |- K _ _ _ (on_fst (rt_hook _ _) ≫= _) _ =>
      apply K_bind_same; [intros ? ? ?; apply law_hook|intros ? ? ?]
  | |- K _ _ _ (on_fst (rt_authorize _) ≫= _) _ =>
      apply K_bind_same; [intros ? ? ?; apply law_authorize|intros ? ? ?]
  | |- K _ _ _ (loc _ ≫= _) _ => apply K_bind_loc; [same_claims|grows_tac|intros ? ?]
  | |- K _ _ _ (if _ then _ else _) _ => apply K_if; intros ?
  end.
Ltac keep_steps := repeat keep_step.

Section assemble_spec.
Context {UT : UnicodeTables} {TD : TzDatabase} {R : Type} `{RO : RuntimeOps R}
  `{RL : !RuntimeLaws R}.
Variable container_repr : json → pystr.
Variable registry_query : PlanStep → option json → M R json.
Variable elapsed : R → json.
Variable model_dump_json : ContextBundle → result pystr.
Variable observe : bool.
Hypothesis registry_law : ∀ step c r r' x,
  registry_query step c r = (r', x) → rt_run r' = rt_run r.
Variable rc : RunContext.

Local Abbreviation str := (py_str container_repr).
Local Abbreviation KS := (K str rc).

Lemma K_check_mapping s src content :
  KS s (check_mapping src content) (λ _ _, mapped src content (service rc)).
Proof.
  unfold check_mapping, mapped. destruct (assoc (source_name src) MAPPINGS).
  2: { by keep_steps. }
  keep_steps. unfold str_eqb in *. case_bool_decide; [|done]. subst. eauto.
Qed.

Lemma make_evidence_ok src row out content bytes rid e :
  mapped src content (service rc) →
  encode (dumps false true content) = Ok bytes →
  make_evidence src row out content
    (source_name src ++ u ":" ++ str rid ++ u ":" ++ upto 12 (sha256_hex bytes))
    (sha256_hex bytes) (upto 12000 (dumps false true content)) (team rc) = Ok e →
  evidence_ok str rc e.
Proof.
  intros Hmap Henc Hev. unfold make_evidence in Hev. inv_ok.
  split; [done|]. split; [done|]. exists content, bytes, rid. cbn.
  split; [done|]. split; [done|]. split; [done|]. split; [done|].
  destruct (Z.leb_spec (len (dumps true false content)) 12000); [by left|by right].
Qed.

Lemma K_process_row s step out row :
  KS s (process_row container_repr step out row) (λ _ s', delivered step s'.2).
Proof.
  unfold process_row. keep_step. eapply K_bind; [apply K_check_mapping|].
  intros [] s1 _ Hmap. keep_steps.
  apply K_bind_any; [by keep_steps|]. intros _ s2 _. keep_step. keep_step.
  apply K_bind_loc; [|grows_tac|intros s3 Hs3].
  { apply good_evidence. by eapply make_evidence_ok. }
  apply (K_frame _ _ _ _ (delivered step)); [apply delivered_grows| |].
  { eexists. rewrite Hs3. cbn. split; [apply elem_of_app; right; apply list_elem_of_here|].
    match goal with H : make_evidence _ _ _ _ _ _ _ _ = Ok ?e |- _ =>
      unfold make_evidence in H; inv_ok; done end. }
  keep_step. apply K_bind_loc; [|grows_tac|intros s4 _].
  { apply good_fact. split; [done|]. rewrite Hs3. cbn. constructor; [|constructor].
    unfold ids. rewrite fmap_app, elem_of_app. right.
    match goal with H : make_evidence _ _ _ _ _ _ _ _ = Ok ?e |- _ =>
      unfold make_evidence in H; inv_ok end.
    by apply list_elem_of_here. }
  destruct (step_source step); by keep_steps.
Qed.

Lemma more_pages_run n step pages out r r' x :
  more_pages registry_query n step pages out r = (r', x) → rt_run r' = rt_run r.
Proof.
  revert pages out r. induction n as [|n IH]; intros pages out r; cbn [more_pages];
    unfold mbind, M_bind, lift, raise, mret, M_ret.
  all: destruct (jget "next_cursor" out) as [cursor|e]; [|by intros [= <- _]].
  - by intros [= <- _].
  - destruct (truthy cursor); [|by intros [= <- _]].
    destruct (registry_query step (Some cursor) r) as [r1 [more|e]] eqn:Hq;
      apply registry_law in Hq; [|by intros [= <- _]]. rewrite <- Hq.
    repeat match goal with
    | |- context [match ?y with Ok _ => _ | Raise _ => _ end] =>
        destruct y eqn:?; [|by intros [= <- _]]
    | |- context [if ?b then _ else _] => destruct b; [|by intros [= <- _]]
    end.
    intros Hx. by apply IH in Hx.
Qed.

Lemma K_fetch s step recorded :
  KS s (fetch registry_query step recorded) anything.
Proof.
  destruct recorded as [rec|]; cbn [fetch].
  - unfold fetch_recorded. destruct (assoc _ rec); by keep_steps.
  - unfold fetch_live. apply K_bind_same; [intros ? ? ?; apply registry_law|].
    intros out s1 _. destruct (step_source step); try by keep_steps.
    apply K_bind_same; [intros ? ? ?; apply more_pages_run|].
    intros [out' pages] s2 _. by keep_steps.
Qed.

Lemma K_try_step s step recorded :
  KS s (try_step container_repr registry_query elapsed step recorded)
    (λ _ s', accounted step s'.2).
Proof.
  unfold try_step. apply K_bind_any; [apply K_fetch|]. intros out s1 _.
  apply K_bind_any; [by keep_steps|]. intros _ s2 _. do 5 keep_step.
  apply K_bind_loc; [same_claims|grows_tac|]. intros s3 Hs3.
  assert (Hf : observed step s3.2).
  { eexists. rewrite Hs3. cbn. split; [apply elem_of_app; right;
      apply list_elem_of_here|done]. }
  keep_step. apply K_bind_any; [by keep_steps|]. intros _ s4 Hg4.
  keep_step. keep_step. cbn beta zeta.
  apply (observed_grows _ _ _ Hg4) in Hf. destruct (fst <$> _) as [|row rows].
  - replace (u ": no accessible records in scope") with
      (u ": " ++ u "no accessible records in scope") by by vm_compute.
    generalize (u "no accessible records in scope") as note. intros note.
    apply K_bind_loc; [same_claims|grows_tac|]. intros s5 Hs5.
    apply (K_frame _ _ _ _ (accounted step)); [apply accounted_grows| |].
    { right. exists (source_name (step_source step) ++ u ": " ++ note).
      rewrite Hs5. split; [|apply startswith_note].
      apply elem_of_app. right. apply list_elem_of_here. }
    apply K_bind_any; [by keep_steps|]. intros _ s6 _. keep_step.
    eapply K_mono; [apply K_hook|done].
  - eapply (K_bind _ _ _ _ _ (λ _ s', s' = s4)); [by keep_steps|].
    intros _ ? _ ->. eapply K_bind.
    { apply (K_for_each _ _ _ _ _ (λ _ l, delivered step l));
        [intros ? ? ?; apply delivered_grows|].
      intros x s5 _ _. apply K_process_row. }
    intros _ s5 Hg5 Hd%Forall_inv.
    apply (K_frame _ _ _ _ (accounted step)); [apply accounted_grows| |].
    { left. split; [done|by eapply observed_grows]. }
    keep_step. eapply K_mono; [apply K_hook|done].
Qed.

Lemma K_do_step s step recorded :
  KS s (do_step container_repr registry_query elapsed recorded step)
    (λ _ s', accounted step s'.2).
Proof.
  unfold do_step. keep_step. apply K_try; [apply K_try_step|].
  intros e s1 _. unfold step_failed.
  repeat (apply K_if; intros _; [apply K_raise|]).
  apply K_bind_loc; [same_claims|grows_tac|intros s2 Hs2].
  eapply K_mono; [apply K_hook|]. intros ? s3 Hs3. cbn in Hs3. right.
  eexists. rewrite Hs3, Hs2. cbn. split.
  - apply elem_of_app. right. apply list_elem_of_here.
  - apply startswith_note.
Qed.

(** *** Relations *)

Lemma filter_r_sub {A} (p : A → result bool) l l' x :
  filter_r p l = Ok l' → x ∈ l' → x ∈ l.
Proof.
  revert l'. induction l as [|y l IH]; intros l' H Hx; cbn in H; inv_ok; [done|].
  match type of Hx with context [if ?b then _ else _] => destruct b end;
    [apply elem_of_cons in Hx as [->|Hx]; [apply list_elem_of_here|]|];
    apply list_elem_of_further; eauto.
Qed.

Definition known_to (l : locals) (e : Evidence) : Prop := ev_id e ∈ ids (l_evidence l).

Lemma known_grows l l' e : grows l l' → known_to l e → known_to l' e.
Proof. intros (H & _) He. by eapply ids_mono. Qed.

Lemma known_filter (P : Evidence → Prop) `{∀ e, Decision (P e)} l :
  Forall (known_to l) (filter P (l_evidence l)).
Proof.
  apply Forall_forall. intros e He%list_elem_of_filter. unfold known_to, ids.
  apply list_elem_of_fmap. exists e. by split; [|apply He].
Qed.

Lemma K_compare_versions s : KS s compare_versions anything.
Proof.
  unfold compare_versions. keep_step.
  destruct (v_logs s.2); [by keep_steps|].
  destruct (v_deployments s.2); [by keep_steps|]. keep_step; [by keep_steps|].
  apply K_loc; [|grows_tac|done]. apply good_conflict. cbn.
  apply Forall_fmap. eapply Forall_impl; [apply known_filter|]. done.
Qed.

Lemma K_relate_release s commits release :
  known_to s.2 release → Forall (known_to s.2) commits →
  KS s (relate_release commits release) anything.
Proof.
  intros Hr Hc. unfold relate_release. keep_step.
  apply K_bind_loc; [same_claims|grows_tac|intros s1 Hs1]. keep_step.
  assert (Hr1 : known_to s1.2 release) by by rewrite Hs1.
  assert (Hc1 : Forall (known_to s1.2) commits) by by rewrite Hs1.
  match goal with H : filter_r _ _ = Ok ?m |- _ => rename m into matched, H into Hm end.
  destruct matched as [|commit matched].
  - destruct commits as [|c commits]; [by keep_steps|].
    apply K_loc; [|grows_tac|done]. apply good_conflict. cbn [conflict_evidence].
    constructor; [done|]. by apply Forall_fmap.
  - keep_step. apply K_bind_loc; [same_claims|grows_tac|intros s2 Hs2].
    apply K_loc; [|grows_tac|done]. apply good_fact. split; [done|].
    rewrite Hs2. cbn. constructor; [done|]. constructor; [|constructor].
    rewrite Forall_forall in Hc1. apply Hc1.
    eapply filter_r_sub; [exact Hm|apply list_elem_of_here].
Qed.

Lemma K_relate_observation s releases obs :
  known_to s.2 obs → Forall (known_to s.2) releases →
  KS s (relate_observation releases obs) anything.
Proof.
  intros Ho Hr. unfold relate_observation. keep_step. keep_step.
  apply K_for_each_true. intros e s1 He Hg.
  apply K_loc; [|grows_tac|done]. apply good_fact. split; [done|]. cbn.
  constructor; [by eapply known_grows|]. constructor; [|constructor].
  eapply known_grows; [done|]. rewrite Forall_forall in Hr. apply Hr.
  by eapply filter_r_sub.
Qed.

Lemma K_relate s : KS s relate anything.
Proof.
  unfold relate. apply K_bind_any; [apply K_compare_versions|]. intros _ s1 _.
  keep_step. apply K_bind_loc; [same_claims|grows_tac|intros s2 Hs2].
  assert (Hk : ∀ src, Forall (known_to s2.2) (of_source src (l_evidence s1.2))).
  { intros src. rewrite Hs2. apply (known_filter _ s1.2). }
  apply K_bind_any.
  { apply K_for_each_true. intros e s3 He Hg. apply K_relate_release.
    - eapply known_grows; [done|]. specialize (Hk Deployments).
      rewrite Forall_forall in Hk. by apply Hk.
    - eapply Forall_impl; [apply Hk|]. intros c. by apply known_grows. }
  intros _ s3 Hg. apply K_for_each_true. intros e s4 He Hg'.
  assert (grows s2.2 s4.2) by by etrans.
  apply K_relate_observation.
  - eapply known_grows; [done|]. specialize (Hk Cluster).
    rewrite Forall_forall in Hk. by apply Hk.
  - eapply Forall_impl; [apply Hk|]. intros c. by apply known_grows.
Qed.

(** *** The bundle *)

(** The bundle shows the locals and the run, and nothing else. *)
Definition bundle_of (l : locals) (p : QueryPlan) (b : ContextBundle) : Prop :=
  evidence b = l_evidence l ∧ facts b = l_facts l ∧ conflicts b = l_conflicts l ∧
  missing b = l_missing l ∧ freshness b = l_freshness l ∧ plan b = p ∧
  scope b = {| scope_team := team rc; scope_subject := subject rc;
               scope_service := service rc |} ∧
  token_budget b = tokens (budget rc) ∧
  ∃ b0 text bytes, model_dump_json b0 = Ok text ∧ encode text = Ok bytes ∧
    len bytes ≤ output_bytes (budget rc) ∧ b = set_memories (memories b) b0.

Lemma make_bundle_of l p b text bytes :
  make_bundle rc p l = Ok b → model_dump_json b = Ok text → encode text = Ok bytes →
  len bytes ≤ output_bytes (budget rc) →
  ∀ m, bundle_of l p (set_memories m b).
Proof.
  unfold make_bundle. destruct (l_retrieval l); try done. intros [= <-] Ht Hb Hle m.
  repeat (split; [done|]). eexists _, text, bytes. eauto.
Qed.

Lemma set_memories_id b : set_memories (memories b) b = b.
Proof. by destruct b. Qed.

Lemma K_finish s p recorded :
  KS s (finish model_dump_json p recorded)
    (λ br s', bundle_of s.2 p br.1 ∧ s'.2 = s.2).
Proof.
  unfold finish. apply K_inv. intros [Hrun _]. keep_step. cbn. rewrite Hrun.
  apply K_bind_lift. intros b Hb. apply K_bind_lift. intros text Ht.
  apply K_bind_lift. intros bytes Hby.
  eapply (K_bind _ _ _ _ _ (λ _ s', s' = s ∧ len bytes ≤ output_bytes (budget rc))).
  { apply K_if; intros Hlt; [apply K_raise|apply K_ret].
    apply Z.ltb_ge in Hlt. by split. }
  intros _ s1 _ [-> Hle]. pose proof (make_bundle_of _ _ _ _ _ Hb Ht Hby Hle) as Hof.
  eapply (K_bind _ _ _ _ _ (λ b' s', bundle_of s.2 p b' ∧ s'.2 = s.2)).
  { destruct recorded.
    - apply K_ret. split; [|done]. rewrite <- (set_memories_id b). apply Hof.
    - keep_step. keep_step. apply K_ret. split; [apply Hof|done]. }
  intros b' s2 _ [Hb' Hs2]. keep_step. apply K_ret. cbn. split; [done|congruence].
Qed.

Local Abbreviation assemble_ :=
  (assemble container_repr registry_query elapsed model_dump_json observe).

Lemma K_body s p recorded :
  KS s (assemble_body container_repr registry_query elapsed model_dump_json p recorded)
    (λ br s', bundle_of s'.2 p br.1 ∧ Forall (λ st, accounted st s'.2) (plan_steps p)).
Proof.
  unfold assemble_body. keep_step. eapply K_bind.
  { apply (K_for_each _ _ _ _ _ accounted); [intros ? ? ?; apply accounted_grows|].
    intros step s2 _ _. apply K_do_step. }
  intros [] s2 _ Hacc. cbn in Hacc. apply K_bind_any; [apply K_relate|].
  intros _ s3 Hg. eapply K_mono; [apply K_finish|].
  intros [b recs] s4 [Hb Hs]. rewrite Hs. split; [done|].
  eapply Forall_impl; [exact Hacc|]. intros st. by apply accounted_grows.
Qed.

Lemma assemble_inv proposed recorded rt rt' b recs :
  rt_run rt = rc → assemble_ proposed recorded rt = (rt', Ok (b, recs)) →
  plan_ok (plan b) rc ∧ plan b = default (default_plan observe rc) proposed ∧
  ∃ l, good str rc l ∧ bundle_of l (plan b) b ∧
    Forall (λ st, accounted st l) (plan_steps (plan b)).
Proof.
  intros Hrt. unfold assemble. rewrite Hrt.
  destruct (validate_plan _ rc) as [p|e] eqn:Hp; [|done].
  apply validate_plan_spec in Hp as [Hpeq Hok].
  pose proof (K_body (rt, no_locals) p recorded (conj Hrt (good_empty str rc))) as Hw.
  rewrite <- Hpeq in Hok. intros Hx.
  destruct (assemble_body _ _ _ _ p recorded (rt, no_locals)) as [[r1 l1] y] eqn:Hb.
  injection Hx as <- ->. eapply wp_run in Hw; [|exact Hb].
  destruct Hw as ((_ & Hgood) & _ & Hof & Hacc). cbn in *.
  assert (plan b = p) as Hpl by apply Hof. rewrite Hpl. split; [done|].
  split; [done|]. exists l1. auto.
Qed.

Lemma assemble_run proposed recorded rt rt' x :
  rt_run rt = rc → assemble_ proposed recorded rt = (rt', x) → rt_run rt' = rc.
Proof.
  intros Hrt. unfold assemble. rewrite Hrt.
  destruct (validate_plan _ rc) as [p|e]; [|by intros [= <- _]].
  pose proof (K_body (rt, no_locals) p recorded (conj Hrt (good_empty str rc))) as Hw.
  destruct (assemble_body _ _ _ _ p recorded (rt, no_locals)) as [[r1 l1] y] eqn:Hb.
  intros [= <- _]. eapply wp_run in Hw; [|exact Hb]. destruct y; apply Hw.
Qed.

(** C1. Grounding: every fact of an assembled bundle cites at least one piece of
    evidence, and every identifier a fact or a conflict cites is the identifier
    of evidence in the same bundle. *)
Theorem assemble_grounded proposed recorded rt rt' b recs :
  rt_run rt = rc → assemble_ proposed recorded rt = (rt', Ok (b, recs)) →
  Forall (λ f, cites (evidence b) (fact_evidence f)) (facts b) ∧
  Forall (λ c, Forall (λ i, i ∈ ids (evidence b)) (conflict_evidence c)) (conflicts b).
Proof.
  intros Hrt (_ & _ & l & (_ & Hf & Hc) & Hof & _)%assemble_inv; [|done].
  destruct Hof as (-> & -> & -> & _). by split.
Qed.

(** C3. Scope: every piece of evidence of a bundle carries the run's team and
    comes from a record whose own service name (for the sources that have one)
    resolves to the run's service and to no other; its digest is the SHA-256 of
    the whole canonical content, also when the snippet is cut.  The plan that
    was executed is one the validator accepts. *)
Theorem assemble_scoped proposed recorded rt rt' b recs :
  rt_run rt = rc → assemble_ proposed recorded rt = (rt', Ok (b, recs)) →
  Forall (evidence_ok str rc) (evidence b) ∧ plan_ok (plan b) rc ∧
  scope b = {| scope_team := team rc; scope_subject := subject rc;
               scope_service := service rc |}.
Proof.
  intros Hrt (Hp & _ & l & (He & _) & Hof & _)%assemble_inv; [|done].
  destruct Hof as (-> & _ & _ & _ & _ & _ & Hs & _). by split.
Qed.

(** The bundle shows what it knows of a planned source: evidence of it and when it
    was observed, or, under the source's name, what is missing. *)
Definition accounts_for (b : ContextBundle) (st : PlanStep) : Prop :=
  ((∃ e, e ∈ evidence b ∧ ev_source e = step_source st) ∧
   ∃ f, f ∈ freshness b ∧ fresh_source f = step_source st) ∨
  (∃ m, m ∈ missing b ∧
     startswith (source_name (step_source st) ++ u ": ") m = true).

(** The serialization of the bundle without the memories the control plane attaches
    later fits in [n] bytes of UTF-8. *)
Definition fits (n : Z) (b : ContextBundle) : Prop :=
  ∃ b0 text bytes,
    b = set_memories (memories b) b0 ∧ model_dump_json b0 = Ok text ∧
    encode text = Ok bytes ∧ len bytes ≤ n.

(** C29. No silent gap: for every step of the executed plan, the bundle either
    holds evidence of its source, with the time of the observation, or says under
    the source's name what is missing, whatever the connectors did. *)
Theorem assemble_accounts proposed recorded rt rt' b recs :
  rt_run rt = rc → assemble_ proposed recorded rt = (rt', Ok (b, recs)) →
  plan b = default (default_plan observe rc) proposed ∧
  Forall (accounts_for b) (plan_steps (plan b)).
Proof.
  intros Hrt (_ & Hpl & l & _ & Hof & Hacc)%assemble_inv; [|done]. split; [done|].
  destruct Hof as (He & _ & _ & Hm & Hf & _). eapply Forall_impl; [exact Hacc|].
  intros st. unfold accounted, delivered, observed, accounts_for. by rewrite He, Hm, Hf.
Qed.

(** The output budget: the serialized bundle, before the memories of the
    control plane are attached, is at most [budget.output_bytes] bytes of
    UTF-8. *)
Theorem assemble_within_output proposed recorded rt rt' b recs :
  rt_run rt = rc → assemble_ proposed recorded rt = (rt', Ok (b, recs)) →
  fits (output_bytes (budget rc)) b.
Proof.
  intros Hrt (_ & _ & l & _ & Hof & _)%assemble_inv; [|done].
  destruct Hof as (_ & _ & _ & _ & _ & _ & _ & _ & b0 & text & bytes & ? & ? & ? & ?).
  unfold fits. eauto 10.
Qed.
End assemble_spec.
