(* ===== verification/Report.v ===== *)
(** * The deterministic report (worker/incident_worker/context.py, report)

    The report of a bundle: candidate explanations drawn from the text of log and
    cluster evidence, and the bundle's own facts, gaps and conflicts. *)
From S2P Require Import Prelude.
From S2P Require Import PyStr.
From S2P Require Import PyRe.
From S2P Require Import Json.
From S2P Require Import Digests.
From S2P Require Import PyTime.
From S2P Require Import Redaction.
From S2P Require Import Contracts.
From S2P Require Import Runtime.
From S2P Require Import Context.
From S2P Require Import Assemble.
From S2P Require Import AssembleSpec.

Record Report := {
  impact : pystr; r_retrieval : json; answer : pystr; r_facts : list Fact;
  candidates : list Candidate; r_conflicts : list Conflict; r_missing : list pystr;
  next_steps : list pystr; r_evidence : list Evidence; r_freshness : list Freshness;
  r_context : ContextBundle; confidence_rule : pystr; historical_memory : json;
  r_mode : pystr }.

(** The terms looked for in log snippets, with what each suggests. *)
Definition LOG_RULES : list (pystr * pystr) :=
  [(u "pool", u "连接池耗尽可能导致请求等待；核对活跃连接、池上限和等待时间。");
   (u "timed out", u "上游依赖延迟可能超过超时阈值；核对依赖耗时与阈值变更。");
   (u "invalid", u "配置值可能不合法；对照运行时配置与发布提交。");
   (u "after release", u "发布与异常时间相关；需要对照变更和实例指标验证因果。")].

Definition unverified : pystr := u "有待验证".

(** [[e.id for e in evs if term in json.dumps(e.snippet)]]. *)
Definition mentioning (term : pystr) (evs : list Evidence) : list pystr :=
  ev_id <$> filter (λ e, contains term (dumps true false (snippet e)) = true) evs.

Definition candidate (text rule : pystr) (cited : list pystr) : list Candidate :=
  match cited with
  | [] => []
  | _ => [{| cand_text := text; cand_label := unverified; cand_rule := rule;
             cand_evidence := cited |}]
  end.

Definition report_candidates (evs : list Evidence) : list Candidate :=
  let logs := of_source Logs evs in
  let cluster := of_source Cluster evs in
  concat ((λ r, candidate r.2 (u "日志直接观测支持候选；时间相关不证明因果。")
                  (mentioning r.1 logs)) <$> LOG_RULES)
  ++ candidate (u "观测到 OOMKilled 退出；内存为何超限仍需工作集、限制值及请求分布验证。")
       (u "退出原因是观测事实，应用层原因仍是待验证解释。")
       (mentioning (u "OOMKilled") cluster)
  ++ candidate (u "观测到探针失败事件；对照对应发布的探针路径与应用启动状态。")
       (u "集群事件支持探针失败，尚不能单独确定应用故障根因。")
       (mentioning (u "Unhealthy") cluster).

Section report.
Variable container_repr : json → pystr.

Definition report_answer (b : ContextBundle) : result pystr :=
  if truthy (retrieval b) then
    total ← jget_or (JInt 0) "total_in_query" (retrieval b);
    matched ← jget_or (JInt 0) "matched" (retrieval b);
    Ok (u "检索范围内共 " ++ py_str container_repr total ++ u " 条日志，匹配 "
        ++ py_str container_repr matched ++ u " 条；以下展示 "
        ++ str_of_Z (len (of_source Logs (evidence b))) ++ u " 条可追溯证据。")
  else Ok (u "以下为检索到的证据；候选原因需要进一步验证。").

Definition report (b : ContextBundle) : result Report :=
  a ← report_answer b;
  Ok {| impact := scope_service (scope b); r_retrieval := retrieval b; answer := a;
        r_facts := facts b; candidates := report_candidates (evidence b);
        r_conflicts := conflicts b; r_missing := missing b;
        next_steps := [u "核对实际部署版本与日志时间窗口。";
                       u "检查连接池和依赖延迟指标，补齐缺失来源后确认原因。"];
        r_evidence := evidence b; r_freshness := freshness b; r_context := b;
        confidence_rule := u "事实有直接来源；候选有待验证；无日志时不推断根因。";
        historical_memory := memories b; r_mode := u "deterministic-baseline" |}.
End report.

(** ** Candidates *)

Lemma mentioning_sub term evs : Forall (λ i, i ∈ ids evs) (mentioning term evs).
Proof.
  unfold mentioning, ids. apply Forall_fmap, Forall_forall. cbn.
  intros e [_ He]%list_elem_of_filter. by apply list_elem_of_fmap_2.
Qed.

Lemma of_source_ids src evs i : i ∈ ids (of_source src evs) → i ∈ ids evs.
Proof.
  unfold ids, of_source. rewrite !list_elem_of_fmap.
  intros (e & -> & [_ He]%list_elem_of_filter). eauto.
Qed.

Definition grounded_candidate (evs : list Evidence) (c : Candidate) : Prop :=
  cites evs (cand_evidence c) ∧ cand_label c = unverified.

Lemma candidate_grounded evs text rule cited :
  Forall (λ i, i ∈ ids evs) cited →
  Forall (grounded_candidate evs) (candidate text rule cited).
Proof.
  intros H. destruct cited as [|i cited]; constructor; [|constructor].
  by repeat split.
Qed.

Lemma mentioning_source src term evs :
  Forall (λ i, i ∈ ids evs) (mentioning term (of_source src evs)).
Proof.
  eapply Forall_impl; [apply mentioning_sub|]. intros i. apply of_source_ids.
Qed.

Lemma report_candidates_grounded evs :
  Forall (grounded_candidate evs) (report_candidates evs).
Proof.
  unfold report_candidates. rewrite !Forall_app. repeat split;
    try apply candidate_grounded, mentioning_source.
  apply Forall_concat, Forall_fmap, Forall_forall. cbn. intros r _.
  apply candidate_grounded, mentioning_source.
Qed.

(** Without log and cluster evidence there is nothing to explain. *)
Lemma report_candidates_none evs :
  of_source Logs evs = [] → of_source Cluster evs = [] → report_candidates evs = [].
Proof. unfold report_candidates. by intros -> ->. Qed.

#[global] Arguments report_candidates : simpl never.

(** C5. The report never asserts a cause: each candidate cites at least one piece of
      evidence, all of it evidence of the report, and is labelled as unverified; and
      with neither log nor cluster evidence there are no candidates at all. *)
Theorem report_grounded repr b r :
  report repr b = Ok r →
  Forall (grounded_candidate (r_evidence r)) (candidates r) ∧
  (of_source Logs (r_evidence r) = [] → of_source Cluster (r_evidence r) = [] →
   candidates r = []).
Proof.
  unfold report. destruct (report_answer repr b) as [a|e]; [|done].
  intros [= <-].
  split; [apply report_candidates_grounded|apply report_candidates_none].
Qed.
