(* ===== verification/Natural.v ===== *)
(** * Natural language to a retrieval plan (worker/incident_worker/natural.py)

    [rules] and [interpret].  The language model is a parameter: whatever it
    answers, the scope, the window and the terms of a ready plan are checked by the
    code modelled here. *)
From S2P Require Import Prelude.
From S2P Require Import PyStr.
From S2P Require Import PyRe.
From S2P Require Import Json.
From S2P Require Import JsonParse.
From S2P Require Import PyTime.
From S2P Require Import IsoTime.
From S2P Require Import Contracts.

(** ** Models *)

Record ServiceOption := {
  sid : pystr; sname : pystr; saliases : list pystr; available_from : option pystr;
  available_to : option pystr; provenance : pystr }.

Record NaturalRequest := {
  text : pystr; timezone : pystr; now : datetime; services : list ServiceOption }.

(** The bounds pydantic enforces on a request. *)
Definition valid_request (b : NaturalRequest) : bool :=
  between 3 4000 (len (text b)) && (len (services b) <=? 100).

Record Interpretation := {
  i_service : option pystr; i_start : option datetime; i_end : option datetime;
  i_query : LogQuery; explanation : pystr; clarification : option pystr }.

(** What [interpret] returns: a question, or a plan with the mode and the model's
    usage. *)
Inductive Reply :=
| Clarify (question mode : pystr)
| Ready (plan : Interpretation) (mode : pystr) (usage : json).

Definition ask (question : pystr) : Interpretation :=
  {| i_service := None; i_start := None; i_end := None; i_query := default_log_query;
     explanation := []; clarification := Some question |}.

(** ** Expressions *)

Section expressions.
Context {UT : UnicodeTables}.

Definition name_char : Z → bool :=
  either (either (range 65 90) (range 97 122)) (either (range 48 57) (one_of (u "_-"))).

(** [(?<![A-Za-z0-9_-])(?:BGL|HDFS|svc-\d+|checkout-api|payment-api)(?![A-Za-z0-9_-])],
    under [re.I]. *)
Definition service_name_pattern : re :=
  seqs [RNotBehind name_char;
        alts [lit_i "BGL"; lit_i "HDFS"; RSeq (lit_i "svc-") (plus is_digit);
              lit_i "checkout-api"; lit_i "payment-api"];
        RNotAhead name_char].

Definition known_name_pattern : re :=
  alts [service_name_pattern; lit "订单"; lit "支付"].

Definition date_sep : re := RChar (one_of (u "-年/")).
Definition month_sep : re := RChar (one_of (u "-月/")).

(** A date, and optionally a time of day, in six groups. *)
Definition date_pattern : re :=
  seqs [RGroup 1 (times is_digit 4 4); date_sep;
        RGroup 2 (times is_digit 1 2); month_sep;
        RGroup 3 (times is_digit 1 2); ROpt (lit "日");
        ROpt (seqs [RChar (one_of (u " T")); RGroup 4 (times is_digit 1 2); lit ":";
                    RGroup 5 (times is_digit 2 2);
                    ROpt (RSeq (lit ":") (RGroup 6 (times is_digit 2 2)))])].

Definition recently : re := alts [lit "最近"; lit "过去"; lit "近"].
Definition time_unit : re := alts [lit "分钟"; lit "小时"; lit "天"].

Definition relative_pattern : re :=
  seqs [recently; star is_space; RGroup 1 (plus is_digit); star is_space;
        RGroup 2 time_unit].

(** A quoted phrase, in straight or curly quotes; [inner] is what it may not
    contain besides its closing quote. *)
Definition quoted_pattern (also : pystr) : re :=
  alts [seqs [lit_by ch [34]; RGroup 1 (plus (none_of (one_of (34 :: also)))); lit_by ch [34]];
        seqs [lit "“"; RGroup 2 (plus (none_of (one_of (u "”" ++ also)))); lit "”"]].

Definition block_pattern : re := seqs [lit "blk_"; ROpt (RChar (ch 45)); plus is_digit].

Definition term_pattern : re :=
  alts [block_pattern; times (either (range 48 57) (range 97 102)) 40 40; quoted_pattern []].

(** The expressions whose meaning [rules] decides, not the model. *)
Definition temporal_pattern : re :=
  alts [seqs [times is_digit 4 4; date_sep; times is_digit 1 2; month_sep;
              times is_digit 1 2];
        lit "昨天"; lit "昨日"; lit "今天"; lit "今日";
        seqs [recently; star is_space; plus is_digit; star is_space; time_unit]].

Definition word (s : string) : re := seqs [RBoundary; lit_i s; RBoundary].

(** [re.findall] of a pattern without groups, and of one with groups 1 and 2 whose
    empty groups are left out. *)
Definition findall (r : re) (s : pystr) : list pystr := m_text <$> finditer r s.
Definition findall_either (r : re) (s : pystr) : list pystr :=
  concat ((λ m, filter (λ x, x ≠ []) [group_str m 1; group_str m 2]) <$> finditer r s).
Definition findall_first (r : re) (s : pystr) : list pystr :=
  (λ m, match group_str m 1 with [] => group_str m 2 | a => a end) <$> finditer r s.
End expressions.

Section natural.
Context {UT : UnicodeTables} {TD : TzDatabase}.
Variable container_repr : json → pystr.

(** ** rules *)

Definition zone_error : exn := exn_of (OtherError "ZoneInfoNotFoundError") "No time zone found".

Definition names (s : ServiceOption) : list pystr := sid s :: sname s :: saliases s.

(** [any(a and a.lower() in text.lower() for a in ...)]. *)
Definition mentioned (t : pystr) (s : ServiceOption) : bool :=
  existsb (λ a, negb (str_eqb a []) && contains (lower a) (lower t)) (names s).

(** [int(x or 0)] of a group. *)
Definition int_group (m : match_obj) (n : nat) : Z := int_of_digits (group_str m n).

Definition parse_parts (zone : tz) (m : match_obj) : result datetime :=
  make_datetime (int_group m 1) (int_group m 2) (int_group m 3) (int_group m 4)
    (int_group m 5) (int_group m 6) 0 zone.

Definition hour_us : Z := 3600 * sec.

(** The window two dates, or one, name. *)
Definition dated_window (zone : tz) (m : match_obj) (ms : list match_obj)
    : result (datetime * datetime) :=
  start ← parse_parts zone m;
  end_ ← match ms with
         | m2 :: _ => parse_parts zone m2
         | [] => dt_add start (match group_str m 4 with [] => day_us | _ => hour_us end)
         end;
  end_ ← match ms with
         | m2 :: _ => match group_str m2 4 with [] => dt_add end_ day_us | _ => Ok end_ end
         | [] => Ok end_
         end;
  end_ ← dt_add end_ (-1);
  Ok (start, end_).

Definition unit_seconds (unit_ : pystr) : Z :=
  if str_eqb unit_ (u "分钟") then 60 else if str_eqb unit_ (u "小时") then 3600 else 86400.

Definition relative_window (now : datetime) (m : match_obj)
    : result (datetime * datetime) :=
  let d := group_str m 1 in
  if max_str_digits <? len d
  then Raise (exn_of ValueError "Exceeds the limit for integer string conversion")
  else start ← dt_add now (- (unit_seconds (group_str m 2) * int_of_digits d * sec));
       Ok (start, now).

(** Without any time in the text: the last day, or the last day of an archive. *)
Definition default_window (zone : tz) (now : datetime) (service : ServiceOption)
    : result (datetime * datetime * list pystr) :=
  '(end_, why) ← match available_to service with
    | None | Some [] => Ok (now, [])
    | Some a =>
        latest ← fromisoformat (replace1 90 (u "+00:00") a);
        yesterday ← dt_add now (- day_us);
        b ← dt_ltb latest yesterday;
        if b : bool
        then e ← dt_astimezone zone latest;
             Ok (e, [u "未指定时间，使用该数据源最新日志之前的24小时"])
        else Ok (now, [])
    end;
  start ← dt_add end_ (- day_us);
  Ok (start, end_, match why with [] => [u "未指定时间，使用最近24小时"] | _ => why end).

Definition window (zone : tz) (now : datetime) (service : ServiceOption) (t : pystr)
    : result (datetime * datetime * list pystr) :=
  match finditer date_pattern t with
  | m :: ms => '(s, e) ← dated_window zone m ms; Ok (s, e, [])
  | [] =>
      if contains (u "昨天") t || contains (u "昨日") t then
        let midnight := dt_midnight now in
        start ← dt_add midnight (- day_us);
        end_ ← dt_add midnight (-1);
        Ok (start, end_, [])
      else if contains (u "今天") t || contains (u "今日") t then
        Ok (dt_midnight now, now, [])
      else
        match search relative_pattern t with
        | Some m => '(s, e) ← relative_window now m; Ok (s, e, [])
        | None => default_window zone now service
        end
  end.

Definition concepts : list (list pystr * pystr) :=
  [([u "超时"; u "timeout"], u "timed out"); ([u "连接池"; u "pool"], u "pool");
   ([u "校验"; u "checksum"], u "checksum"); ([u "磁盘"; u "disk"], u "disk");
   ([u "内存"; u "memory"], u "memory"); ([u "终止"; u "terminated"], u "terminated")].

Definition rule_terms (t : pystr) : list pystr :=
  findall_either term_pattern t ++ findall block_pattern t
  ++ concat ((λ c, if existsb (λ a, contains a (lower t)) c.1 then [c.2] else [])
               <$> concepts).

Definition rule_levels (t : pystr) : list pystr :=
  u <$> filter (λ l, found (word l) t = true)
          ["ERROR"; "FATAL"; "WARN"; "WARNING"; "INFO"; "DEBUG"]%string.

Definition rule_mode (t : pystr) (terms : list pystr) : log_mode :=
  match terms with
  | _ :: _ => SearchMode
  | [] => if existsb (λ x, contains x t) [u "全部"; u "所有日志"; u "正常日志"]
          then All else Anomalies
  end.

Definition service_list (b : NaturalRequest) : pystr := join (u "、") (sname <$> services b).

Definition rules_for (b : NaturalRequest) (zone : tz) (now : datetime)
    (service : ServiceOption) : result Interpretation :=
  '(start, end_, why) ← window zone now service (text b);
  let terms := rule_terms (text b) in
  Ok {| i_service := Some (sid service); i_start := Some start; i_end := Some end_;
        i_query := {| mode := rule_mode (text b) terms;
                      terms := upto 6 (fromkeys terms); levels := rule_levels (text b) |};
        explanation := match why with
                       | [] => u "按描述中的服务和历史时间检索"
                       | _ => join (u "；") why end;
        clarification := None |}.

Definition rules (b : NaturalRequest) : result Interpretation :=
  if negb (zone_exists (timezone b)) then Raise zone_error
  else
    let zone := Zone (timezone b) in
    now ← dt_astimezone zone (now b);
    match filter (λ s, mentioned (text b) s = true) (services b) with
    | _ :: _ :: _ => Ok (ask (u "请一次指定一个服务，或明确要查哪一个。"))
    | [service] => rules_for b zone now service
    | [] =>
        match services b with
        | [service] =>
            if found known_name_pattern (text b)
            then Ok (ask (u "请指定一个可访问的服务：" ++ service_list b))
            else rules_for b zone now service
        | _ => Ok (ask (u "请指定一个可访问的服务：" ++ service_list b))
        end
    end.

(** ** interpret *)

(** The model: [None] when no key is configured, otherwise what [complete] returns
    or raises; and pydantic's [Interpretation.model_validate]. *)
Variable model_reply : NaturalRequest → option (result (json * json)).
Variable validate_interpretation : json → result Interpretation.

Definition accessible (b : NaturalRequest) : list pystr :=
  casefold <$> concat (names <$> services b).

(** The names that are scope and never search terms. *)
Definition entities (b : NaturalRequest) : list pystr :=
  casefold <$> filter (λ a, a ≠ []) (concat (names <$> services b)).

Definition noise : list pystr := u <$> ["logs"; "log"; "异常"; "日志"; "错误"]%string.

(** The levels of the model's query, as upper-case text. *)
Definition upper_levels (value : json) : result json :=
  q ← jget "query" value;
  match q with
  | JObj kvs =>
      ls ← jget_or (JList []) "levels" q;
      ls ← jiter ls;
      q' ← jset "levels" (JList ((λ l, JStr (upper (py_str container_repr l))) <$> ls)) q;
      jset "query" q' value
  | _ => Ok value
  end.

(** The plan of the model or of the rules, its mode and the model's usage. *)
Definition first_plan (b : NaturalRequest) : result (Interpretation * pystr * json) :=
  match model_reply b with
  | Some reply =>
      '(value, usage) ← reply;
      value ← upper_levels value;
      plan ← validate_interpretation value;
      Ok (plan, u "mistral", usage)
  | None => plan ← rules b; Ok (plan, u "rules-no-model", JNull)
  end.

Definition set_query (q : LogQuery) (p : Interpretation) : Interpretation :=
  {| i_service := i_service p; i_start := i_start p; i_end := i_end p; i_query := q;
     explanation := explanation p; clarification := clarification p |}.

Definition set_window (s e : option datetime) (why : pystr) (p : Interpretation)
    : Interpretation :=
  {| i_service := i_service p; i_start := s; i_end := e; i_query := i_query p;
     explanation := why; clarification := clarification p |}.

(** Entity names and noise words are never terms. *)
Definition keep_term (b : NaturalRequest) (t : pystr) : bool :=
  negb (mem (casefold (strip t)) (entities b)) && negb (mem (casefold (strip t)) noise).

Definition quoted (b : NaturalRequest) : list pystr :=
  findall_first (quoted_pattern [10]) (text b).
Definition identifiers (b : NaturalRequest) : list pystr :=
  findall block_pattern (text b) ++ quoted b.

Definition final_query (b : NaturalRequest) (q : LogQuery) : LogQuery :=
  let kept := strip <$> filter (λ t, keep_term b t = true) (terms q) in
  match identifiers b with
  | (_ :: _) as ids => {| mode := SearchMode; terms := upto 6 (fromkeys ids); levels := levels q |}
  | [] =>
      let ts := if contains (u "连接池") (text b) then u "pool" :: kept else kept in
      let ts := if contains (u "超时") (text b)
                then u "timed out" :: u "timeout" :: ts else ts in
      let ts := upto 6 (fromkeys ts) in
      {| mode := match ts with [] => mode q | _ => SearchMode end; terms := ts;
         levels := levels q |}
  end.

Definition invalid_time : pystr := u "日期或时间无效，请提供一个有效的起止时间。".
Definition time_note : pystr :=
  u "按问题中明确给出的时间与所选时区执行，不按来源最新日期改写范围。".
Definition need_window : pystr := u "请给出明确的起止时间，且单次范围不超过7天。".

(** A temporal expression of the text decides the window. *)
Definition fix_window (b : NaturalRequest) (p : Interpretation)
    : result (option Interpretation) :=
  if found temporal_pattern (text b) then
    match rules b with
    | Raise e => if is_value_error (exn_cls e) || bool_decide (exn_cls e = OverflowError)
                 then Ok None else Raise e
    | Ok concrete =>
        match clarification concrete with
        | None | Some [] => Ok (Some (set_window (i_start concrete) (i_end concrete) time_note p))
        | Some _ => Ok (Some p)
        end
    end
  else Ok (Some p).

Definition week_us : Z := 7 * day_us.

Definition is_aware (d : datetime) : bool :=
  match tzinfo d with Naive => false | _ => true end.

(** The window is missing, naive, reversed or longer than a week. *)
Definition bad_window (p : Interpretation) : result bool :=
  match i_start p, i_end p with
  | Some s, Some e =>
      if negb (is_aware s) || negb (is_aware e) then Ok true
      else
        rev ← dt_ltb e s;
        if rev : bool then Ok true
        else d ← dt_sub e s; Ok (week_us <? d)
  | _, _ => Ok true
  end.

Definition outside_scope : exn := exn_of ValueError "planner_service_outside_scope".

Definition check_plan (b : NaturalRequest) (p : Interpretation) (mode : pystr) (usage : json)
    : result Reply :=
  match clarification p with
  | Some ((_ :: _) as q) => Ok (Clarify q mode)
  | _ =>
      if negb (match i_service p with
               | Some s => mem s (sid <$> services b) | None => false end)
      then Raise outside_scope
      else
        bad ← bad_window p;
        if bad : bool then Ok (Clarify need_window mode) else Ok (Ready p mode usage)
  end.

Definition interpret (b : NaturalRequest) : result Reply :=
  match services b with
  | [] => Ok (Clarify (u "当前账号没有可访问的服务。") (u "unavailable"))
  | _ =>
      if negb (zone_exists (timezone b))
      then Raise (exn_of ValueError "invalid_timezone")
      else if existsb (λ n, negb (mem (casefold n) (accessible b)))
                (findall service_name_pattern (text b))
      then Ok (Clarify (u "该服务不在当前账号可查询的来源中。可选：" ++ service_list b)
                 (u "scope-check"))
      else
        '(p, mode, usage) ← first_plan b;
        let p := set_query (final_query b (i_query p)) p in
        fixed ← fix_window b p;
        match fixed with
        | None => Ok (Clarify invalid_time mode)
        | Some p => check_plan b p mode usage
        end
  end.

(** ** What a ready plan guarantees *)

(** A window both ends of which are aware, in order, at most seven days long. *)
Definition window_ok (p : Interpretation) : Prop :=
  ∃ s e d, i_start p = Some s ∧ i_end p = Some e ∧ is_aware s = true ∧ is_aware e = true ∧
    dt_sub e s = Ok d ∧ 0 ≤ d ≤ week_us.

Lemma bad_window_ok p : bad_window p = Ok false → window_ok p.
Proof.
  unfold bad_window. destruct (i_start p) as [s|] eqn:Hs; [|done].
  destruct (i_end p) as [e|] eqn:He; [|done].
  destruct (is_aware s) eqn:Ha; [|done]. destruct (is_aware e) eqn:Hb; [|done].
  cbn [negb orb]. unfold dt_ltb. destruct (dt_sub e s) as [d|x] eqn:Hd; [|done].
  cbn [mbind result_bind]. destruct (Z.ltb_spec d 0); [done|].
  intros [= Hw%Z.ltb_ge]. exists s, e, d. repeat split; auto.
Qed.

Lemma upto_fromkeys n (l : list pystr) :
  0 ≤ n → len (upto n (fromkeys l)) ≤ n ∧ NoDup (upto n (fromkeys l)) ∧
  upto n (fromkeys l) ⊆ l.
Proof.
  intros Hn. unfold upto. split; [unfold len; rewrite length_take; lia|]. split.
  - eapply sublist_NoDup; [apply NoDup_fromkeys|]. apply sublist_take.
  - intros x Hx. eapply sublist_subseteq in Hx; [|apply sublist_take].
    by apply elem_of_fromkeys.
Qed.

(** The search terms of a plan: at most six, distinct, and with terms the mode is
    [search]. *)
Definition terms_ok (q : LogQuery) : Prop :=
  len (terms q) ≤ 6 ∧ NoDup (terms q) ∧ (terms q ≠ [] → mode q = SearchMode).

Lemma final_query_ok b q : terms_ok (final_query b q).
Proof.
  unfold final_query, terms_ok. destruct (identifiers b) as [|x xs]; cbn [terms mode].
  - set (ts := if contains (u "超时") (text b) then _ else _).
    destruct (upto_fromkeys 6 ts ltac:(lia)) as (H1 & H2 & _).
    split; [done|]. split; [done|]. by destruct (upto 6 (fromkeys ts)).
  - by destruct (upto_fromkeys 6 (x :: xs) ltac:(lia)) as (H1 & H2 & _).
Qed.

Lemma fix_window_query b p p' :
  fix_window b p = Ok (Some p') →
  i_query p' = i_query p ∧ i_service p' = i_service p ∧ clarification p' = clarification p.
Proof.
  unfold fix_window. destruct (found _ _); [|by intros [= <-]].
  destruct (rules b) as [c|e]; [|by destruct (_ || _)].
  destruct (clarification c) as [[|x q]|]; by intros [= <-].
Qed.

Lemma check_plan_ready b p1 m us p mode usage :
  check_plan b p1 m us = Ok (Ready p mode usage) →
  p1 = p ∧ m = mode ∧ us = usage ∧
  (∃ s, i_service p = Some s ∧ s ∈ sid <$> services b) ∧ window_ok p.
Proof.
  unfold check_plan. intros H.
  assert ((if negb (match i_service p1 with
                    | Some s => mem s (sid <$> services b) | None => false end)
           then Raise outside_scope
           else bad ← bad_window p1;
                if bad : bool then Ok (Clarify need_window m) else Ok (Ready p1 m us))
          = Ok (Ready p mode usage)) as H'.
  { destruct (clarification p1) as [[|]|]; [exact H|discriminate H|exact H]. }
  clear H. destruct (i_service p1) as [s|] eqn:Hs; [|done].
  destruct (mem s _) eqn:Hm; [|done]. cbn [negb] in H'.
  destruct (bad_window p1) as [[]|] eqn:Hb; cbn [mbind result_bind] in H'; try done.
  injection H' as -> -> ->. split; [done|]. split; [done|]. split; [done|].
  split; [exists s; by rewrite mem_elem_of in Hm|]. by apply bad_window_ok.
Qed.

(** The parts of a successful interpretation. *)
Lemma interpret_ready b p mode usage :
  interpret b = Ok (Ready p mode usage) →
  forallb (λ n, mem (casefold n) (accessible b))
    (findall service_name_pattern (text b)) = true ∧
  ∃ p0, first_plan b = Ok (p0, mode, usage) ∧
    fix_window b (set_query (final_query b (i_query p0)) p0) = Ok (Some p) ∧
    check_plan b p mode usage = Ok (Ready p mode usage).
Proof.
  unfold interpret. destruct (services b); [done|].
  destruct (zone_exists _); [|done]. cbn [negb].
  destruct (existsb _ _) eqn:Hex; [done|].
  destruct (first_plan b) as [[[p0 m] us]|e]; [|done]. cbn [mbind result_bind].
  destruct (fix_window b _) as [[p1|]|e] eqn:Hf; [| |done]; cbn [mbind result_bind]; [|done].
  intros Hc. pose proof (check_plan_ready _ _ _ _ _ _ _ Hc) as (-> & -> & -> & _).
  split; [|eauto]. apply forallb_forall. intros n Hn.
  destruct (mem (casefold n) (accessible b)) eqn:Hm; [done|].
  assert (existsb (λ n, negb (mem (casefold n) (accessible b)))
            (findall service_name_pattern (text b)) = true) as Ht; [|congruence].
  apply existsb_exists. exists n. by rewrite Hm.
Qed.

(** C31. A ready plan is safe whatever the model answered: its service is one the
    account can access, every service name in the text is accessible, both ends of
    the window are time-zone aware, in order and at most seven days apart, and there
    are at most six distinct search terms, with which the mode is search. *)
Theorem interpret_safe b p mode usage :
  interpret b = Ok (Ready p mode usage) →
  (∃ s, i_service p = Some s ∧ s ∈ sid <$> services b) ∧
  Forall (λ n, casefold n ∈ accessible b) (findall service_name_pattern (text b)) ∧
  window_ok p ∧ terms_ok (i_query p).
Proof.
  intros (Hnames & p0 & _ & Hf & Hc)%interpret_ready.
  apply fix_window_query in Hf as (Hq & _ & _).
  apply check_plan_ready in Hc as (_ & _ & _ & Hs & Hw). split; [exact Hs|]. split.
  - apply Forall_forall. intros n Hn%list_elem_of_In. apply mem_elem_of.
    rewrite forallb_forall in Hnames. by apply Hnames.
  - split; [exact Hw|]. rewrite Hq. apply final_query_ok.
Qed.

(** What the text says explicitly is not the model's to change: when the text names
    a time and [rules] reads it, the window of a ready plan is the one of [rules], and
    when it quotes phrases or names blocks, the terms are those, in order and at most
    six, and the mode is search. *)
Theorem interpret_explicit b p mode usage :
  interpret b = Ok (Ready p mode usage) →
  (∀ c, found temporal_pattern (text b) = true → rules b = Ok c → clarification c = None →
    i_start p = i_start c ∧ i_end p = i_end c) ∧
  (identifiers b ≠ [] →
    terms (i_query p) = upto 6 (fromkeys (identifiers b)) ∧
    Contracts.mode (i_query p) = SearchMode).
Proof.
  intros (_ & p0 & _ & Hf & _)%interpret_ready. split.
  - intros c Ht Hr Hc. unfold fix_window in Hf. rewrite Ht, Hr, Hc in Hf.
    by injection Hf as <-.
  - intros Hids. apply fix_window_query in Hf as (Hq & _ & _). rewrite Hq.
    cbn [set_query i_query]. unfold final_query. by destruct (identifiers b).
Qed.
End natural.

(** ** A concrete request *)

Section natural_witness.
#[local] Existing Instances UtcOnly AsciiCjk.

Definition checkout : ServiceOption :=
  {| sid := u "svc-17"; sname := u "checkout-api"; saliases := []; available_from := None;
     available_to := None; provenance := u "local-demo" |}.

(** Yesterday's log lines of a quoted phrase. *)
Definition some_request : NaturalRequest :=
  {| text := u "昨天 checkout-api 的“connection reset”日志"; timezone := u "UTC";
     now := DT (ordinal (Date 2026 9 24) * day_us + 10 * hour_us) false (Offset 0);
     services := [checkout] |}.

Definition no_model (_ : NaturalRequest) : option (result (json * json)) := None.
Definition no_validation (_ : json) : result Interpretation :=
  Raise (exn_of ValidationError "").

Definition interpret0 : NaturalRequest → result Reply :=
  interpret (dumps false false) no_model no_validation.

Definition yesterday_plan : Interpretation :=
  {| i_service := Some (u "svc-17");
     i_start := Some (DT (ordinal (Date 2026 9 23) * day_us) false (Zone (u "UTC")));
     i_end := Some (DT (ordinal (Date 2026 9 24) * day_us - 1) false (Zone (u "UTC")));
     i_query := {| mode := SearchMode; terms := [u "connection reset"]; levels := [] |};
     explanation := time_note; clarification := None |}.

Example interpret_yesterday :
  interpret0 some_request = Ok (Ready yesterday_plan (u "rules-no-model") JNull).
Proof. by vm_compute. Qed.

Lemma interpret_safe_witness :
  (∃ s, i_service yesterday_plan = Some s ∧ s ∈ sid <$> services some_request) ∧
  window_ok yesterday_plan.
Proof.
  destruct (interpret_safe (dumps false false) no_model no_validation some_request
    yesterday_plan (u "rules-no-model") JNull) as (H1 & _ & H2 & _).
  - by vm_compute.
  - split; [exact H1|exact H2].
Defined.

Lemma interpret_explicit_witness :
  identifiers some_request ≠ [] ∧
  terms (i_query yesterday_plan) = upto 6 (fromkeys (identifiers some_request)).
Proof.
  assert (identifiers some_request ≠ []) as Hne by by vm_compute.
  split; [exact Hne|].
  destruct (interpret_explicit (dumps false false) no_model no_validation some_request
    yesterday_plan (u "rules-no-model") JNull) as [_ H].
  - by vm_compute.
  - exact (proj1 (H Hne)).
Defined.
End natural_witness.
