(* ===== verification/Evaluation.v ===== *)
(** * Offline replay (worker/incident_worker/evaluation.py)

    The runtime of the evaluation suite, which has no network, and [replay] with
    its checks. *)
From S2P Require Import Prelude.
From S2P Require Import PyStr.
From S2P Require Import PyRe.
From S2P Require Import Json.
From S2P Require Import Digests.
From S2P Require Import PyTime.
From S2P Require Import Redaction.
From S2P Require Import Contracts.
From S2P Require Import Runtime.
From S2P Require Import Context.
From S2P Require Import Assemble.
From S2P Require Import AssembleSpec.
From S2P Require Import Report.

(** ** The offline runtime *)

Record OfflineRuntime := { o_run : RunContext; events : list json; o_calls : Z }.

Definition new_offline (rc : RunContext) : OfflineRuntime :=
  {| o_run := rc; events := []; o_calls := 0 |}.

Definition offline_tools : list pystr :=
  u <$> ["logs"; "deployments"; "git"; "runbook"; "cluster"; "context"]%string.

Definition offline_authorize (tool : pystr) : M OfflineRuntime json := λ o,
  if negb (mem tool offline_tools)
  then (o, Raise (exn_of PermissionError "offline_write_denied"))
  else
    let o' := {| o_run := o_run o; events := events o; o_calls := o_calls o + 1 |} in
    if steps (budget (o_run o')) <? o_calls o'
    then (o', Raise (exn_of RuntimeError "budget_exhausted"))
    else (o', Ok (JObj [(u "team", JStr (team (o_run o)));
                        (u "service", JStr (service (o_run o)))])).

Definition log_event (e : json) (o : OfflineRuntime) : OfflineRuntime :=
  {| o_run := o_run o; events := events o ++ [e]; o_calls := o_calls o |}.

Definition offline_hook (name : pystr) (data : json) (policy : bool)
    : M OfflineRuntime () :=
  if negb policy then raise (exn_of PermissionError "policy_denied")
  else modify (log_event (JObj [(u "hook", JStr name); (u "data", data);
                                (u "status", js "pass")])).

Definition offline_event (kind : pystr) (payload : json) : M OfflineRuntime () :=
  modify (log_event (JObj [(u "kind", JStr kind); (u "payload", payload)])).

#[export] Instance offline_ops : RuntimeOps OfflineRuntime := {|
  rt_run := o_run;
  rt_authorize := offline_authorize;
  rt_hook n d := offline_hook n d true;
  rt_event := offline_event;
|}.

#[export] Instance offline_laws : RuntimeLaws OfflineRuntime.
Proof.
  split.
  - intros r t r' x. cbn. unfold offline_authorize.
    destruct (negb _); [by intros [= <- _]|].
    destruct (_ <? _); by intros [= <- _].
  - intros r n d r' x. by intros [= <- _].
  - intros r k d r' x. by intros [= <- _].
Qed.

(** ** Replay *)

(** What a case expects: the four counts. *)
Record Expected := {
  exp_facts : Z; exp_candidates : Z; exp_conflicts : Z; exp_missing : Z }.
Record Case := {
  case_id : pystr; split_ : pystr; case_run : RunContext;
  recording : list (pystr * json); expected : Expected }.

Record Checks := {
  fact_count : bool; candidate_count : bool; conflict_count : bool;
  missing_count : bool; grounding : bool; no_writes : bool }.

Definition all_checks (c : Checks) : bool :=
  fact_count c && candidate_count c && conflict_count c && missing_count c
  && grounding c && no_writes c.

Record Replayed := {
  rp_case : pystr; rp_variant : pystr; rp_split : pystr; checks : Checks;
  pass : bool; tool_calls : Z; hooks : list json }.

(** [c["evidence"] and set(c["evidence"]) <= ids], as a boolean. *)
Definition cites_b (known cited : list pystr) : bool :=
  match cited with [] => false | _ => forallb (λ i, mem i known) cited end.

Definition regressed_candidate : Candidate :=
  {| cand_text := u "unsupported definite root cause"; cand_label := u "confirmed";
     cand_rule := []; cand_evidence := [] |}.

Section replay.
Context {UT : UnicodeTables} {TD : TzDatabase}.
Variable container_repr : json → pystr.
Variable registry_query : PlanStep → option json → M OfflineRuntime json.
Variable elapsed : OfflineRuntime → json.
Variable model_dump_json : ContextBundle → result pystr.
Variable observe : bool.

Definition replay_checks (c : Case) (r : Report) (cands : list Candidate) (calls : Z)
    : Checks :=
  let known := ids (r_evidence r) in
  {| fact_count := len (r_facts r) =? exp_facts (expected c);
     candidate_count := len cands =? exp_candidates (expected c);
     conflict_count := len (r_conflicts r) =? exp_conflicts (expected c);
     missing_count := len (r_missing r) =? exp_missing (expected c);
     grounding := forallb (cites_b known)
       ((fact_evidence <$> r_facts r) ++ (cand_evidence <$> cands));
     no_writes := calls <=? len (recording c) |}.

(** [replay(case, variant)]; the latency it also reports is left out. *)
Definition replay (c : Case) (variant : pystr) : result Replayed :=
  let '(rt, x) := assemble container_repr registry_query elapsed model_dump_json observe
                    None (Some (recording c)) (new_offline (case_run c)) in
  br ← x;
  r ← report container_repr br.1;
  let cands := if str_eqb variant (u "regressed") then [regressed_candidate]
               else candidates r in
  let ch := replay_checks c r cands (o_calls rt) in
  Ok {| rp_case := case_id c; rp_variant := variant; rp_split := split_ c;
        checks := ch; pass := all_checks ch; tool_calls := o_calls rt;
        hooks := events rt |}.
End replay.

(** ** The counter of authorized calls *)

(** [m] makes no call: the counter is the same before and after. *)
Definition quiet {A} (m : M (OfflineRuntime * locals) A) : Prop :=
  ∀ s s' x, m s = (s', x) → o_calls s'.1 = o_calls s.1.

Section quiet.
Abbreviation MS := (M (OfflineRuntime * locals)).

Lemma quiet_pure {A} (m : MS A) : (∀ s, (m s).1.1 = s.1) → quiet m.
Proof. intros H s s' x Hm. specialize (H s). rewrite Hm in H. cbn in H. by rewrite H. Qed.

Lemma quiet_ret {A} (a : A) : quiet (mret a : MS A).
Proof. by apply quiet_pure. Qed.
Lemma quiet_raise {A} e : quiet (raise e : MS A).
Proof. by apply quiet_pure. Qed.
Lemma quiet_lift {A} (r : result A) : quiet (lift r : MS A).
Proof. by apply quiet_pure. Qed.
Lemma quiet_get : quiet (get : MS _).
Proof. by apply quiet_pure. Qed.
Lemma quiet_run : quiet (the_run : MS _).
Proof. by apply quiet_pure. Qed.
Lemma quiet_loc f : quiet (loc f : MS ()).
Proof. by apply quiet_pure. Qed.
Lemma quiet_hook n d : quiet (on_fst (rt_hook n d) : MS ()).
Proof. intros [r l] s' x [= <- _]. done. Qed.

Lemma quiet_bind {A B} (m : MS A) (f : A → MS B) :
  quiet m → (∀ a, quiet (f a)) → quiet (m ≫= f).
Proof.
  intros Hm Hf s s' x. unfold mbind, M_bind.
  destruct (m s) as [s1 [a|e]] eqn:H; apply Hm in H; [|by intros [= <- _]].
  intros Hx. apply Hf in Hx. congruence.
Qed.

Lemma quiet_for_each {A} (xs : list A) (body : A → MS ()) :
  (∀ x, quiet (body x)) → quiet (for_each xs body).
Proof.
  intros Hb. induction xs; cbn; [apply quiet_ret|by apply quiet_bind].
Qed.
End quiet.

Ltac quiet_steps :=
  repeat lazymatch goal with
  | |- quiet (mret _) => apply quiet_ret
  | |- quiet (raise _) => apply quiet_raise
  | |- quiet (lift _) => apply quiet_lift
  | |- quiet get => apply quiet_get
  | |- quiet the_run => apply quiet_run
  | |- quiet (loc _) => apply quiet_loc
  | |- quiet (on_fst (rt_hook _ _)) => apply quiet_hook
  | |- quiet (mbind _ _) => apply quiet_bind; [|intros ?]
  | |- quiet (for_each _ _) => apply quiet_for_each; intros ?
  | |- quiet (if ?b then _ else _) => destruct b
  | |- quiet (let _ := _ in _) => cbv zeta
  | |- quiet (match ?y with _ => _ end) => destruct y
  end.

Section replay_spec.
Context {UT : UnicodeTables} {TD : TzDatabase}.
Variable container_repr : json → pystr.
Variable registry_query : PlanStep → option json → M OfflineRuntime json.
Variable elapsed : OfflineRuntime → json.
Variable model_dump_json : ContextBundle → result pystr.
Variable observe : bool.

Lemma process_row_quiet step out row : quiet (process_row container_repr step out row).
Proof. unfold process_row, check_mapping. quiet_steps. Qed.

Lemma relate_quiet : quiet relate.
Proof. unfold relate, compare_versions, relate_release, relate_observation. quiet_steps. Qed.

Lemma finish_quiet p rec : quiet (finish model_dump_json p (Some rec)).
Proof. unfold finish. quiet_steps. Qed.

(** Replaying a step makes at most one call, and one that returns makes it for a
    recorded source. *)
Lemma offline_authorize_calls t o o' x :
  offline_authorize t o = (o', x) →
  o_run o' = o_run o ∧ o_calls o ≤ o_calls o' ≤ o_calls o + 1.
Proof.
  unfold offline_authorize. destruct (negb _); [intros [= <- _]; split; [done|lia]|].
  destruct (_ <? _); intros [= <- _]; cbn; split; try done; lia.
Qed.

Lemma fetch_recorded_calls step rec s s' x :
  fetch_recorded step rec s = (s', x) →
  o_calls s'.1 ≤ o_calls s.1 + 1 ∧
  (is_ok x = true → is_Some (assoc (source_name (step_source step)) rec)).
Proof.
  unfold fetch_recorded. destruct (assoc _ rec) as [out|] eqn:Ha.
  2: { unfold raise. intros [= <- <-]. split; [lia|done]. }
  unfold mbind, M_bind, on_fst. destruct s as [r l]. cbn.
  destruct (offline_authorize _ r) as [r1 [a|e]] eqn:Hq;
    apply offline_authorize_calls in Hq as [_ Hq]; intros [= <- <-]; cbn;
    split; eauto; lia.
Qed.

Lemma bind_calls {A B} (m : M (OfflineRuntime * locals) A) (f : A → M _ B) s s' x :
  (∀ a, quiet (f a)) → (m ≫= f) s = (s', x) →
  ∃ s1 y, m s = (s1, y) ∧ o_calls s'.1 = o_calls s1.1 ∧
    (is_ok x = true → is_ok y = true).
Proof.
  intros Hf. unfold mbind, M_bind. destruct (m s) as [s1 [a|e]].
  - intros Hx. eexists _, _. split; [done|]. split; [by eapply Hf|done].
  - intros [= <- <-]. eauto.
Qed.

(** While replaying, the handler lets every exception through. *)
Lemma step_failed_replaying step e s :
  step_failed step true e s = ((s, Raise e) : _ * result ()).
Proof. unfold step_failed. by case_bool_decide. Qed.

Lemma do_step_calls rec step s s' x :
  do_step container_repr registry_query elapsed (Some rec) step s = (s', x) →
  o_calls s'.1 ≤ o_calls s.1 + 1 ∧
  (is_ok x = true → is_Some (assoc (source_name (step_source step)) rec)).
Proof.
  unfold do_step. unfold mbind at 1, M_bind at 1.
  destruct (on_fst _ s) as [s0 [[]|e]] eqn:H0; apply quiet_hook in H0;
    [|intros [= <- <-]; split; [lia|done]].
  unfold try_except. destruct (try_step _ _ _ step (Some rec) s0) as [s1 y] eqn:Ht.
  unfold try_step, fetch in Ht. apply bind_calls in Ht as (s2 & z & Hf & Hs & Hok).
  2: { intros out. unfold truncated_note. pose proof process_row_quiet.
       quiet_steps; try done. }
  apply fetch_recorded_calls in Hf as [Hle Hin]. destruct y as [[]|e].
  - intros [= <- <-]. split; [lia|]. auto.
  - rewrite step_failed_replaying. intros [= <- <-]. split; [lia|done].
Qed.

Lemma steps_calls rec steps s s' x :
  for_each steps (do_step container_repr registry_query elapsed (Some rec)) s
    = (s', x) →
  o_calls s'.1 ≤ o_calls s.1 + len steps ∧
  (is_ok x = true →
   Forall (λ st, is_Some (assoc (source_name (step_source st)) rec)) steps).
Proof.
  revert s. induction steps as [|st steps IH]; intros s; cbn [for_each].
  { intros [= <- _]. unfold len. cbn. split; [lia|by constructor]. }
  unfold len in *. cbn [length]. unfold mbind, M_bind.
  destruct (do_step _ _ _ _ st s) as [s1 [[]|e]] eqn:Hd; apply do_step_calls in Hd as [Hd Hi].
  - intros Hx. apply IH in Hx as [Hx Hj]. split; [lia|]. intros Hok. constructor; auto.
  - intros [= <- <-]. split; [lia|done].
Qed.

(** A recording that has an entry for each of some distinct names is at least as
    long. *)
Lemma recorded_length (rec : list (pystr * json)) (names : list pystr) :
  NoDup names → Forall (λ n, is_Some (assoc n rec)) names → len names ≤ len rec.
Proof.
  intros Hnd Hall. unfold len.
  cut (length names ≤ length (rec.*1))%nat; [rewrite length_fmap; lia|].
  apply submseteq_length, NoDup_submseteq; [done|].
  intros n Hn. rewrite Forall_forall in Hall. destruct (Hall n Hn) as [v Hv].
  apply assoc_elem_of in Hv. apply list_elem_of_fmap. by exists (n, v).
Qed.

Lemma default_sources_distinct r :
  NoDup ((λ st, source_name (step_source st)) <$> plan_steps (default_plan observe r)).
Proof. apply (bool_decide_unpack _). destruct observe; by vm_compute. Qed.

Lemma replay_calls c rt br :
  assemble container_repr registry_query elapsed model_dump_json observe
    None (Some (recording c)) (new_offline (case_run c)) = (rt, Ok br) →
  o_calls rt ≤ len (recording c).
Proof.
  unfold assemble. cbn [default]. destruct (validate_plan _ _) as [p|e] eqn:Hp; [|done].
  apply validate_plan_spec in Hp as [-> _]. unfold assemble_body.
  set (p := default_plan _ _). unfold mbind at 1, M_bind at 1.
  destruct (on_fst _ _) as [s0 [[]|e]] eqn:H0; apply quiet_hook in H0; [|by destruct s0].
  unfold mbind at 1, M_bind at 1. destruct (for_each _ _ s0) as [s1 [[]|e]] eqn:H1;
    [|by destruct s1].
  apply steps_calls in H1 as [Hle Hin]. specialize (Hin eq_refl).
  destruct ((relate ≫= _) s1) as [[r2 l2] y] eqn:H2.
  assert (o_calls r2 = o_calls s1.1) as Heq.
  { refine ((_ : quiet _) _ _ _ H2). apply quiet_bind; [apply relate_quiet|].
    intros []. apply finish_quiet. }
  intros [= <- _]. cbn in H0. rewrite Heq.
  pose proof (recorded_length (recording c) _ (default_sources_distinct (case_run c))
    (proj2 (Forall_fmap (λ st, source_name (step_source st)) _ _) Hin)) as Hlen.
  unfold len in *. rewrite length_fmap in Hlen.
  change (default_plan observe (case_run c)) with p in Hlen. lia.
Qed.

(** A replay does not touch the network: the connectors do not matter. *)
Lemma assemble_recorded_offline rec query query' :
  assemble container_repr query elapsed model_dump_json observe None (Some rec)
  = assemble container_repr query' elapsed model_dump_json observe None (Some rec).
Proof. reflexivity. Qed.

Lemma cites_b_spec evs cited : cites evs cited → cites_b (ids evs) cited = true.
Proof.
  intros [Hne Hall]. destruct cited as [|i cited]; [done|].
  apply forallb_forall. intros j Hj%list_elem_of_In.
  rewrite Forall_forall in Hall.
  apply existsb_exists. exists j. split; [by apply list_elem_of_In, Hall|].
  by apply bool_decide_eq_true.
Qed.

Lemma replay_grounding c rt b recs :
  assemble container_repr registry_query elapsed model_dump_json observe
    None (Some (recording c)) (new_offline (case_run c)) = (rt, Ok (b, recs)) →
  Forall (λ f, cites_b (ids (evidence b)) (fact_evidence f) = true) (facts b).
Proof.
  rewrite (assemble_recorded_offline _ _ (λ _ _, raise (exn_of RuntimeError "offline"))).
  intros H. eapply assemble_inv in H; [|by intros ? ? ? ? ? [= <- _]|done].
  destruct H as (_ & _ & l & (_ & Hf & _) & Hof & _).
  destruct Hof as (-> & -> & _). eapply Forall_impl; [exact Hf|].
  intros f. apply cites_b_spec.
Qed.

(** What the regression suite can and cannot catch.  Whenever a replay returns,
    its grounding check is true for every variant but the deliberately regressed
    one, for which it is always false, so that one never passes; and the no-writes
    check holds: the replay called the control plane at most once per recorded
    source. *)
Theorem replay_checks_hold c variant r :
  replay container_repr registry_query elapsed model_dump_json observe c variant = Ok r →
  grounding (checks r) = negb (str_eqb variant (u "regressed")) ∧
  no_writes (checks r) = true ∧
  (variant = u "regressed" → pass r = false).
Proof.
  unfold replay. destruct (assemble _ _ _ _ _ _ _ _) as [rt x] eqn:Ha.
  destruct x as [[b recs]|e]; [|done]. cbn [mbind result_bind fst].
  destruct (report container_repr b) as [rep|e] eqn:Hr; [|done].
  cbn [mbind result_bind]. intros [= <-]. cbn [checks pass].
  pose proof (replay_calls _ _ _ Ha) as Hcalls.
  apply replay_grounding in Ha.
  assert (facts b = r_facts rep ∧ evidence b = r_evidence rep) as [Hf He].
  { unfold report in Hr. destruct (report_answer _ b); [|done]. by injection Hr as <-. }
  unfold replay_checks. cbn [grounding no_writes].
  split; [|split; [by apply Z.leb_le|]].
  - rewrite forallb_app. rewrite He in Ha. rewrite Hf in Ha.
    rewrite (proj2 (forallb_forall _ _)), andb_true_l.
    2: { intros cs (f & -> & Hin)%list_elem_of_In%list_elem_of_fmap.
         rewrite Forall_forall in Ha. by apply Ha. }
    destruct (str_eqb variant (u "regressed")); [done|].
    apply forallb_forall. intros cs (f & -> & Hin)%list_elem_of_In%list_elem_of_fmap.
    unfold report in Hr. destruct (report_answer _ b); [|done]. injection Hr as <-.
    pose proof (report_candidates_grounded (evidence b)) as Hc.
    rewrite Forall_forall in Hc. apply cites_b_spec. by apply Hc.
  - intros ->. unfold all_checks. cbn [grounding]. rewrite forallb_app.
    change (str_eqb (u "regressed") (u "regressed")) with true.
    cbn [fmap list_fmap cand_evidence regressed_candidate forallb cites_b].
    by rewrite !andb_false_r, andb_false_l.
Qed.
End replay_spec.
