(* ===== verification/ModelCases.v ===== *)
(** * The model adapter on concrete answers

    A scripted provider answers an investigation of three pieces of evidence: once
    with a grounded answer, once with a false denial.  The theorems of Mistral.v are
    applied to both. *)
From S2P Require Import Prelude.
From S2P Require Import PyStr.
From S2P Require Import PyRe.
From S2P Require Import Json.
From S2P Require Import JsonParse.
From S2P Require Import PyTime.
From S2P Require Import Contracts.
From S2P Require Import Runtime.
From S2P Require Import Context.
From S2P Require Import Assemble.
From S2P Require Import AssembleSpec.
From S2P Require Import Report.
From S2P Require Import Mistral.
From S2P Require Import Evaluation.
From S2P Require Import Cases.

#[local] Existing Instances UtcOnly AsciiCjk PlainJson.

(** A runtime that authorizes everything and records the provider's requests. *)
Record Desk := {
  desk_run : RunContext; desk_posts : list (pystr * json); desk_reply : json }.

#[local] Instance desk_ops : RuntimeOps Desk := {|
  rt_run := desk_run;
  rt_authorize _ := mret (JObj []);
  rt_hook _ _ := mret ();
  rt_event _ _ := mret ();
|}.

Definition desk_post (url : pystr) (d : json) : M Desk response := λ r,
  ({| desk_run := desk_run r; desk_posts := desk_posts r ++ [(url, d)];
      desk_reply := desk_reply r |},
   Ok (Response 200 (Ok (JObj
     [(u "model", js "mistral-small-latest");
      (u "choices", JList [JObj [(u "finish_reason", js "stop");
        (u "message", JObj [(u "content", JStr (dumps true false (desk_reply r)))])]])])))).

Definition desk_env (k : string) : option pystr :=
  if bool_decide (k = "MISTRAL_API_KEY"%string) then Some (u "key") else None.

Definition evidence_of (i : string) (s : source) (content : list (pystr * json)) : Evidence :=
  {| ev_id := u i; ev_source := s; locator := u "fixture://0";
     collected_at := u "2026-09-24T10:00:00+00:00";
     event_time := u "2026-09-24T10:00:00+00:00"; version := u "1"; sha256 := u "00";
     snippet := JObj content; ev_team := u "orders"; source_record := u i;
     available := true |}.

Definition desk_bundle : ContextBundle :=
  {| scope := {| scope_team := u "orders"; scope_subject := u "alice";
                 scope_service := u "svc-17" |};
     objects := []; facts := [];
     evidence :=
       [evidence_of "logs:1" Logs [(u "level", js "ERROR");
          (u "message", js "database pool exhausted active=1 max=1");
          (u "service_name", js "checkout-api")];
        evidence_of "logs:2" Logs [(u "level", js "WARN"); (u "message", js "slow query")];
        evidence_of "git:1" Git [(u "commit", js "demo-sha");
          (u "config", js "pool_size=1")]];
     missing := []; conflicts := []; freshness := [];
     plan := default_plan false case_run_00; token_budget := 12000;
     memories := JList [];
     retrieval := JObj [(u "total_in_query", JInt 7); (u "matched", JInt 2)] |}.

(** The parts of pydantic's schema of [Answer] that [constrain_references] writes
    to. *)
Definition answer_schema0 : json :=
  let strings := JObj [(u "type", js "array"); (u "items", JObj [(u "type", js "string")])] in
  JObj [(u "$defs", JObj [(u "Claim", JObj [(u "properties",
           JObj [(u "text", JObj []); (u "evidence", strings)])])]);
        (u "properties", JObj [(u "answer", JObj []); (u "answer_evidence", strings);
                               (u "candidates", JObj []); (u "next_steps", strings)])].

Definition reply (text : string) (cited : list string) (claimed : list (list string)) : json :=
  JObj [(u "answer", JStr (u text)); (u "answer_evidence", JList (js <$> cited));
        (u "candidates", JList ((λ es,
          JObj [(u "text", js "连接池过小"); (u "evidence", JList (js <$> es))]) <$> claimed));
        (u "next_steps", JList [js "核对池上限"])].

Definition desk_for (answer : json) (allowed_tokens : Z) : Desk :=
  {| desk_run := {| run_id := run_id case_run_00; subject := subject case_run_00;
       team := team case_run_00; service := service case_run_00;
       symptom := symptom case_run_00; start := start case_run_00;
       end_ := end_ case_run_00; source_version := 1; generation := 1; attempt := 1;
       owner := owner case_run_00; lease_seconds := 15; query := default_log_query;
       budget := {| steps := 12; seconds := 120; output_bytes := 262144;
                    model_calls := 1; tokens := allowed_tokens |} |};
     desk_posts := []; desk_reply := answer |}.

Definition grounded_reply : json :=
  reply "连接池已耗尽。" ["logs:1"; "git:1"]%string [["logs:1"]]%string.
Definition denial_reply : json := reply "没有查到日志。" [] [].
Definition invented_reply : json := reply "见日志。" ["logs:9"]%string [].

Abbreviation ask0 d :=
  (investigate repr0 desk_env desk_post (λ _, JInt 0) answer_schema0 id desk_bundle d).

(** With less room less evidence is shown, and below the fixed prompt nothing is sent;
    an identifier that was not shown is refused. *)
Definition shown_count (d : Desk) : result Z := p_model_evidence_count <$> (ask0 d).2.

Example evidence_shown :
  shown_count (desk_for grounded_reply 12000) = Ok 3 ∧
  shown_count (desk_for (reply "有。" ["git:1"]%string []) 5700) = Ok 2 ∧
  shown_count (desk_for grounded_reply 3000) = Raise input_exhausted ∧
  shown_count (desk_for invented_reply 12000) = Raise ungrounded.
Proof. by vm_compute. Qed.

(** ** Witnesses *)

Abbreviation desk_grounded := (desk_for grounded_reply 12000).
Abbreviation desk_denial := (desk_for denial_reply 12000).

Lemma investigate_grounded_witness :
  match (ask0 desk_grounded).2 with
  | Ok p => p_answer_evidence p = [u "logs:1"; u "git:1"] ∧
            Forall (grounded_candidate (evidence desk_bundle)) (candidates (p_report p))
  | Raise _ => False
  end.
Proof.
  assert (match (ask0 desk_grounded).2 with
          | Ok p => p_answer_evidence p = [u "logs:1"; u "git:1"]
          | Raise _ => False end) as Hc by by vm_compute.
  revert Hc. destruct (ask0 desk_grounded) as [rt' [p|e]] eqn:H; cbn [snd]; [|done].
  intros Hc. split; [exact Hc|].
  exact (proj1 (proj2 (investigate_grounded repr0 desk_env desk_post (λ _, JInt 0)
    answer_schema0 id desk_bundle desk_grounded rt' p H))).
Defined.

Lemma investigate_no_false_denial_witness :
  match (ask0 desk_denial).2 with
  | Ok p => has_hits desk_bundle = Ok true ∧
      (found denies_pattern (answer (p_report p)) = false ∨
       p_answer_validation p = Some contradiction_note) ∧
      p_answer_evidence p = [u "logs:1"; u "logs:2"]
  | Raise _ => False
  end.
Proof.
  assert (match (ask0 desk_denial).2 with
          | Ok p => p_answer_evidence p = [u "logs:1"; u "logs:2"]
          | Raise _ => False end) as Hc by by vm_compute.
  revert Hc. destruct (ask0 desk_denial) as [rt' [p|e]] eqn:H; cbn [snd]; [|done].
  assert (has_hits desk_bundle = Ok true) as Hh by by vm_compute.
  intros Hc. split; [exact Hh|]. split; [|exact Hc].
  destruct (investigate_no_false_denial repr0 desk_env desk_post (λ _, JInt 0)
    answer_schema0 id desk_bundle desk_denial rt' p H Hh) as [?|[? _]]; auto.
Defined.

Lemma desk_authorize_law t : keeps (unchanged desk_posts) (rt_authorize t).
Proof. by intros r r' y [= <- _]. Qed.
Lemma desk_event_law k d : keeps (unchanged desk_posts) (rt_event k d).
Proof. by intros r r' y [= <- _]. Qed.
Lemma desk_post_law url d r r' x : desk_post url d r = (r', x) →
  rt_run r' = rt_run r ∧ desk_posts r' = desk_posts r ++ [(url, d)].
Proof. by intros [= <- _]. Qed.

Lemma investigate_one_request_witness :
  len (desk_posts (ask0 desk_grounded).1) = 1 ∧
  ∃ q, prompt_fits repr0 desk_env id (desk_run desk_grounded) desk_bundle q ∧
       desk_posts (ask0 desk_grounded).1 = [q].
Proof.
  assert (len (desk_posts (ask0 desk_grounded).1) = 1) as Hc by by vm_compute.
  split; [exact Hc|]. revert Hc.
  destruct (ask0 desk_grounded) as [rt' x] eqn:H; cbn [fst]. intros Hc.
  destruct (investigate_one_request repr0 desk_env desk_post (λ _, JInt 0)
    answer_schema0 id desk_posts (desk_run desk_grounded) desk_authorize_law
    desk_event_law desk_post_law desk_bundle desk_grounded rt' x eq_refl H)
    as [Hp|(_ & _ & q & Hq & Hp)].
  - rewrite Hp in Hc. discriminate Hc.
  - exists q. split; [exact Hq|exact Hp].
Defined.
