(* ===== verification/Connectors.v ===== *)
(** * The connectors (worker/incident_worker/connectors.py)

    [HTTPSource] asks the source service through the circuit breaker; the query of
    [DeploymentSource] is its SQL statement as a list comprehension over the table.
    Both authorize first, and the deployments are limited to the scope the control
    plane returned. *)
From S2P Require Import Prelude.
From S2P Require Import PyStr.
From S2P Require Import Json.
From S2P Require Import PyTime.
From S2P Require Import Contracts.
From S2P Require Import Runtime.

(** ** The HTTP sources *)

Section http_source.
Context {W : Type}.
Variable post : pystr → json → M W response.
Variable monotonic : W → Z.
Variable sleep : Z → W → W.
(** The request to the source service: path and body. *)
Variable source_post : pystr → json → M W response.

Record HTTPSource := { hs_name : pystr; circuit : Circuit }.

Definition new_source (n : pystr) : HTTPSource :=
  {| hs_name := n; circuit := new_circuit |}.

Definition source_body (r : RunContext) (step : PlanStep) (cursor : json) : json :=
  JObj [(u "task", JObj [(u "id", JStr (run_id r)); (u "owner", JStr (owner r));
                         (u "generation", JInt (generation r))]);
        (u "cursor", cursor); (u "limit", JInt (limit step))].

(** [self.circuit.call(fn)], in a runtime's world. *)
Definition with_circuit (fn : M W response) : M (Runtime W * HTTPSource) response := λ s,
  match circuit_call monotonic sleep fn (world s.1, circuit s.2) with
  | ((w, c), x) =>
      ((set_world w s.1, {| hs_name := hs_name s.2; circuit := c |}), x)
  end.

Definition http_query (step : PlanStep) (cursor : json) : M (Runtime W * HTTPSource) json :=
  s ← get;
  on_fst (authorize post monotonic (hs_name s.2)) ;;
  resp ← with_circuit
           (source_post (u "/sources/" ++ hs_name s.2) (source_body (run s.1) step cursor));
  lift (raise_for_status resp) ;;
  lift (body resp).
End http_source.

(** ** The deployments *)

(** A row of [sources.deployments]: [event_time] is an instant, and [deleted] may be
    null. *)
Record Deployment := {
  dep_id : pystr; dep_service : pystr; app_id : pystr; dep_version : pystr;
  commit_sha : pystr; dep_time : Z; watermark : Z; deleted : option bool }.

(** [order by event_time desc, watermark desc] and [order by watermark, id]. *)
Definition latest_leb (a b : Deployment) : bool :=
  (dep_time b <? dep_time a)
  || ((dep_time b =? dep_time a) && (watermark b <=? watermark a)).
Definition mark_leb (a b : Deployment) : bool :=
  (watermark a <? watermark b)
  || ((watermark a =? watermark b) && str_leb (dep_id a) (dep_id b)).

Definition not_deleted (d : Deployment) : bool :=
  match deleted d with Some b => negb b | None => false end.

(** The subquery: the release in force when the window opens. *)
Definition in_force (svc : pystr) (start : Z) (table : list Deployment) : option pystr :=
  dep_id <$> head (sort_by latest_leb (filter (λ d,
    dep_service d = svc ∧ not_deleted d = true ∧ dep_time d ≤ start) table)).

(** The [where] clause without the cursor. *)
Definition in_window (svc : pystr) (start end_ : Z) (table : list Deployment)
    (d : Deployment) : bool :=
  str_eqb (dep_service d) svc && (dep_time d <=? end_)
  && ((start <=? dep_time d) || bool_decide (in_force svc start table = Some (dep_id d))).

Definition eligible_rows (svc : pystr) (start end_ : Z) (table : list Deployment)
    : list Deployment :=
  sort_by mark_leb (filter (λ d, in_window svc start end_ table d = true) table).

(** The whole statement: [and watermark > after order by watermark, id limit n]. *)
Definition select_rows (svc : pystr) (start end_ after n : Z) (table : list Deployment)
    : list Deployment :=
  upto n (sort_by mark_leb (filter (λ d,
    in_window svc start end_ table d = true ∧ after < watermark d) table)).

(** The rows of a page and the cursor of the next one. *)
Definition page (n : Z) (rows : list Deployment) : list Deployment * option Z :=
  (upto n rows,
   if n <? len rows then watermark <$> rows !! Z.to_nat (n - 1) else None).

(** Following the cursor from [after]; [fuel] bounds the pages. *)
Fixpoint pages (fuel : nat) (svc : pystr) (start end_ after n : Z) (t : list Deployment)
    : list (list Deployment) :=
  match fuel with
  | O => []
  | S fuel' =>
      let '(rows, next) := page n (select_rows svc start end_ after (n + 1) t) in
      rows :: match next with
              | Some after => pages fuel' svc start end_ after n t
              | None => []
              end
  end.

Section deployment_source.
Context {W : Type}.
Variable post : pystr → json → M W response.
Variable monotonic : W → Z.
(** What a connection to the database shows (it may fail), the text of an instant in
    the session's zone, the instant a [timestamptz] parameter means, what [int] makes
    of a float, and the wall clock. *)
Variable connect : M W (list Deployment).
Variable instant_iso : Z → pystr.
Variable timestamptz : json → result Z.
Variable trunc : pystr → result Z.
Variable now_iso : W → pystr.

Definition flag (b : option bool) : json :=
  match b with Some b => JBool b | None => JNull end.

Definition dep_record (d : Deployment) : json :=
  JObj [(u "id", JStr (dep_id d));
        (u "content",
          JObj [(u "id", JStr (dep_id d)); (u "service", JStr (dep_service d));
                (u "app_id", JStr (app_id d)); (u "version", JStr (dep_version d));
                (u "commit_sha", JStr (commit_sha d)); (u "watermark", JInt (watermark d));
                (u "deleted", flag (deleted d))]);
        (u "event_time", JStr (instant_iso (dep_time d)));
        (u "version", JStr (str_of_Z (watermark d)));
        (u "locator", JStr (u "postgres://sources/deployments/" ++ dep_id d));
        (u "deleted", flag (deleted d))].

Definition cursor_value (cursor : json) : result Z :=
  py_int trunc (if truthy cursor then cursor else JInt 0).

Definition deployments_query (step : PlanStep) (cursor : json) : M (Runtime W) json :=
  scope ← authorize post monotonic (u "deployments");
  table ← on_world connect;
  svc ← lift (jindex "service" scope);
  end_ ← lift (jindex "end" scope);
  start ← lift (jindex "start" scope);
  after ← lift (cursor_value cursor);
  svc ← lift (jstr svc); end_ ← lift (timestamptz end_); start ← lift (timestamptz start);
  let '(rows, next) := page (limit step)
    (select_rows svc start end_ after (limit step + 1) table) in
  wm ← lift (jindex "watermark" scope);
  rt ← get;
  mret (JObj [(u "records", JList (dep_record <$> rows));
              (u "next_cursor",
                match next with Some n => JStr (str_of_Z n) | None => JNull end);
              (u "watermark", wm); (u "observed_at", JStr (now_iso (world rt)));
              (u "scope", scope)]).

End deployment_source.

(** ** The registry *)

Definition register {A} (name : pystr) (connector : A) (registry : list (pystr * A))
    : result (list (pystr * A)) :=
  match assoc name registry with
  | Some _ => Raise (exn_of ValueError "duplicate_connector")
  | None => Ok (assoc_set name connector registry)
  end.

Section registry.
Context {W : Type}.
Variable post : pystr → json → M W response.
Variable monotonic : W → Z.
Variable sleep : Z → W → W.
Variable source_post : pystr → json → M W response.
Variable connect : M W (list Deployment).
Variable instant_iso : Z → pystr.
Variable timestamptz : json → result Z.
Variable trunc : pystr → result Z.
Variable now_iso : W → pystr.

(** The HTTP sources of [REGISTRY]; the deployments keep no state. *)
Record Registry := {
  reg_logs : HTTPSource; reg_git : HTTPSource; reg_runbook : HTTPSource;
  reg_cluster : HTTPSource }.

Definition REGISTRY : Registry :=
  {| reg_logs := new_source (u "logs"); reg_git := new_source (u "git");
     reg_runbook := new_source (u "runbook"); reg_cluster := new_source (u "cluster") |}.

Definition set_logs (h : HTTPSource) (g : Registry) : Registry :=
  {| reg_logs := h; reg_git := reg_git g; reg_runbook := reg_runbook g;
     reg_cluster := reg_cluster g |}.
Definition set_git (h : HTTPSource) (g : Registry) : Registry :=
  {| reg_logs := reg_logs g; reg_git := h; reg_runbook := reg_runbook g;
     reg_cluster := reg_cluster g |}.
Definition set_runbook (h : HTTPSource) (g : Registry) : Registry :=
  {| reg_logs := reg_logs g; reg_git := reg_git g; reg_runbook := h;
     reg_cluster := reg_cluster g |}.
Definition set_cluster (h : HTTPSource) (g : Registry) : Registry :=
  {| reg_logs := reg_logs g; reg_git := reg_git g; reg_runbook := reg_runbook g;
     reg_cluster := h |}.

(** A computation over one source of the registry. *)
Definition on_source {A} (src : Registry → HTTPSource)
    (upd : HTTPSource → Registry → Registry) (m : M (Runtime W * HTTPSource) A)
    : M (Runtime W * Registry) A := λ s,
  match m (s.1, src s.2) with ((r, h), x) => ((r, upd h s.2), x) end.

(** [REGISTRY[source].query(runtime, step, cursor)]. *)
Definition source_query (src : source) (step : PlanStep) (cursor : option json)
    : M (Runtime W * Registry) json :=
  let q := http_query post monotonic sleep source_post step (default JNull cursor) in
  match src with
  | Logs => on_source reg_logs set_logs q
  | Git => on_source reg_git set_git q
  | Runbook => on_source reg_runbook set_runbook q
  | Cluster => on_source reg_cluster set_cluster q
  | Deployments =>
      on_fst (deployments_query post monotonic connect instant_iso timestamptz trunc
                now_iso step (default JNull cursor))
  end.

(** [REGISTRY[step.source].query(runtime, step, cursor)]. *)
Definition registry_query (step : PlanStep) (cursor : option json)
    : M (Runtime W * Registry) json := source_query (step_source step) step cursor.

(** The worker's runtime with its sources, for the assembler. *)
#[export] Instance desk_runtime : RuntimeOps (Runtime W * Registry) := {|
  rt_run s := run s.1;
  rt_authorize t := on_fst (authorize post monotonic t);
  rt_hook n d := on_fst (hook post n d true);
  rt_event k d := on_fst (event post k d ;; mret ());
|}.
End registry.

(** ** Completeness of the pages *)

Lemma mark_leb_total a b : mark_leb a b = true ∨ mark_leb b a = true.
Proof.
  unfold mark_leb. destruct (str_leb_total (dep_id a) (dep_id b)) as [->| ->]; lia.
Qed.

Lemma mark_leb_trans a b c :
  mark_leb a b = true → mark_leb b c = true → mark_leb a c = true.
Proof.
  unfold mark_leb. pose proof (str_leb_trans (dep_id a) (dep_id b) (dep_id c)).
  destruct (str_leb (dep_id a) (dep_id b)), (str_leb (dep_id b) (dep_id c)),
    (str_leb (dep_id a) (dep_id c)); intuition lia.
Qed.

Definition after_mark (after : Z) (l : list Deployment) : list Deployment :=
  filter (λ d, after < watermark d) l.

Lemma select_rows_eq svc start end_ after n t :
  select_rows svc start end_ after n t =
  upto n (after_mark after (eligible_rows svc start end_ t)).
Proof.
  unfold select_rows, after_mark, eligible_rows. f_equal.
  rewrite filter_sort_by by eauto using mark_leb_total, mark_leb_trans.
  f_equal. rewrite list_filter_filter. apply list_filter_iff. tauto.
Qed.

Definition mark_lt (a b : Deployment) : Prop := watermark a < watermark b.

(** Distinct watermarks make the order of the rows strict. *)
Lemma eligible_strict svc start end_ t :
  NoDup (watermark <$> eligible_rows svc start end_ t) →
  StronglySorted mark_lt (eligible_rows svc start end_ t).
Proof.
  unfold eligible_rows. set (l := filter _ t). intros Hnd.
  pose proof (sort_by_strongly_sorted mark_leb l mark_leb_total mark_leb_trans) as Hs.
  induction Hs as [|x l' Hs IH Hx]; [constructor|].
  cbn in Hnd. inversion Hnd as [|? ? Hni Hnd']; subst. constructor; [by apply IH|].
  apply Forall_forall. intros y Hy. unfold mark_lt.
  apply (proj1 (Forall_forall _ _) Hx) in Hy as Hle. unfold mark_leb in Hle.
  assert (watermark x ≠ watermark y).
  { intros E. apply Hni. rewrite E. by apply list_elem_of_fmap_2. }
  destruct (str_leb (dep_id x) (dep_id y)); lia.
Qed.

Lemma after_mark_all after l : Forall (λ d, after < watermark d) l → after_mark after l = l.
Proof.
  induction 1 as [|x l Hx _ IH]; [done|]. unfold after_mark in *. rewrite filter_cons.
  rewrite decide_True by done. by rewrite IH.
Qed.

Lemma after_mark_none after l : Forall (λ d, watermark d ≤ after) l → after_mark after l = [].
Proof.
  induction 1 as [|x l Hx _ IH]; [done|]. unfold after_mark in *. rewrite filter_cons.
  rewrite decide_False by lia. by rewrite IH.
Qed.

(** What follows the row the cursor names. *)
Lemma after_mark_drop l i d :
  StronglySorted mark_lt l → l !! i = Some d →
  after_mark (watermark d) l = drop (S i) l.
Proof.
  intros Hs. revert i. induction Hs as [|x l Hs IH Hx]; intros [|i] Hi; try done.
  - injection Hi as ->. change (d :: l) with ([d] ++ l). unfold after_mark.
    rewrite filter_app. fold (after_mark (watermark d) l) (after_mark (watermark d) [d]).
    rewrite (after_mark_none _ [d]), after_mark_all; [done|exact Hx|].
    by repeat constructor.
  - cbn in Hi. unfold after_mark. rewrite filter_cons, decide_False.
    + by apply IH.
    + apply list_elem_of_lookup_2 in Hi. apply (proj1 (Forall_forall _ _) Hx) in Hi.
      unfold mark_lt in Hi. lia.
Qed.

Lemma after_mark_after a b l : a ≤ b → after_mark b l = after_mark b (after_mark a l).
Proof.
  intros H. unfold after_mark. rewrite list_filter_filter. apply list_filter_iff.
  intros x. lia.
Qed.

Lemma page_spec n l :
  0 < n → (page n (upto (n + 1) l)).1 = upto n l ∧
  (page n (upto (n + 1) l)).2 =
    if n <? len l then watermark <$> l !! Z.to_nat (n - 1) else None.
Proof.
  intros Hn. unfold page, upto, len. cbn. rewrite take_take, length_take. split.
  - f_equal. lia.
  - destruct (Z.ltb_spec n (Z.of_nat (length l))).
    + destruct (Z.ltb_spec n (Z.of_nat (Z.to_nat (n + 1) `min` length l))); [|lia].
      f_equal. apply lookup_take_lt. lia.
    + destruct (Z.ltb_spec n (Z.of_nat (Z.to_nat (n + 1) `min` length l))); [lia|done].
Qed.

Lemma pages_spec fuel svc start end_ after n t :
  0 < n → StronglySorted mark_lt (eligible_rows svc start end_ t) →
  (length (after_mark after (eligible_rows svc start end_ t)) < fuel)%nat →
  concat (pages fuel svc start end_ after n t) =
    after_mark after (eligible_rows svc start end_ t) ∧
  Forall (λ p, len p ≤ n) (pages fuel svc start end_ after n t).
Proof.
  intros Hn Hs. revert after. induction fuel as [|fuel IH]; intros after Hf; [lia|].
  cbn [pages]. rewrite select_rows_eq.
  set (l := after_mark after (eligible_rows svc start end_ t)) in *.
  destruct (page n (upto (n + 1) l)) as [rows next] eqn:Hp.
  pose proof (page_spec n l Hn) as [H1 H2]. rewrite Hp in H1, H2. cbn in H1, H2. subst.
  assert (len (upto n l) ≤ n) by (unfold len, upto; rewrite length_take; lia).
  destruct (Z.ltb_spec n (len l)) as [Hlt|Hge]; cbn.
  2: { unfold len, upto in *. rewrite app_nil_r, take_ge by lia.
       split; [done|]. repeat constructor. rewrite take_ge in * by lia. lia. }
  destruct (l !! Z.to_nat (n - 1)) as [d|] eqn:Hd.
  2: { apply lookup_ge_None in Hd. unfold len in Hlt. lia. }
  cbn. assert (after_mark (watermark d) (eligible_rows svc start end_ t)
               = drop (Z.to_nat n) l) as Hdrop.
  { pose proof (list_elem_of_lookup_2 _ _ _ Hd) as Hin.
    apply list_elem_of_filter in Hin as [Hafter _].
    rewrite (after_mark_after after) by lia. fold l.
    rewrite (after_mark_drop _ (Z.to_nat (n - 1))); [f_equal; lia| |done].
    unfold l, after_mark. by apply StronglySorted_filter. }
  destruct (IH (watermark d)) as [Hc Hl].
  { rewrite Hdrop, length_drop. unfold len in Hlt. lia. }
  rewrite Hc, Hdrop. split; [apply take_drop|]. by constructor.
Qed.

Lemma elem_of_eligible svc start end_ t d :
  d ∈ eligible_rows svc start end_ t ↔
  d ∈ t ∧ dep_service d = svc ∧ dep_time d ≤ end_ ∧
  (start ≤ dep_time d ∨ in_force svc start t = Some (dep_id d)).
Proof.
  unfold eligible_rows, in_window. rewrite elem_of_sort_by, list_elem_of_filter.
  rewrite !andb_true_iff, orb_true_iff, !Z.leb_le, bool_decide_eq_true.
  unfold str_eqb. rewrite bool_decide_eq_true. tauto.
Qed.

(** Paging the deployments: when the rows of the window have distinct
    watermarks, following the cursor from [after] yields exactly the rows of the
    window with a later watermark, each once and in watermark order, in pages of at
    most [n]; and one page more than there are rows is enough.  A row of the window
    belongs to the scope's service, is not later than its end, and is not earlier
    than its start unless it is the release then in force. *)
Theorem deployments_pages_complete svc start end_ after n t :
  0 < n → NoDup (watermark <$> eligible_rows svc start end_ t) →
  let ps := pages (S (length t)) svc start end_ after n t in
  concat ps = filter (λ d, after < watermark d) (eligible_rows svc start end_ t) ∧
  StronglySorted mark_lt (concat ps) ∧ Forall (λ p, len p ≤ n) ps ∧
  Forall (λ d, d ∈ t ∧ dep_service d = svc ∧ dep_time d ≤ end_ ∧
    (start ≤ dep_time d ∨ in_force svc start t = Some (dep_id d))) (concat ps).
Proof.
  intros Hn Hnd. apply eligible_strict in Hnd as Hs. cbn zeta.
  destruct (pages_spec (S (length t)) svc start end_ after n t) as [Hc Hl]; [done..| |].
  { unfold after_mark, eligible_rows. apply Nat.lt_succ_r.
    etrans; [apply length_filter|]. rewrite sort_by_perm. apply length_filter. }
  rewrite Hc. split; [done|]. split; [by apply StronglySorted_filter|].
  split; [done|]. apply Forall_forall. intros d [_ Hd]%list_elem_of_filter.
  by apply elem_of_eligible.
Qed.

Lemma latest_leb_total a b : latest_leb a b = true ∨ latest_leb b a = true.
Proof. unfold latest_leb. lia. Qed.
Lemma latest_leb_trans a b c :
  latest_leb a b = true → latest_leb b c = true → latest_leb a c = true.
Proof. unfold latest_leb. lia. Qed.

(** A release of the service that is in force at [start] or was before. *)
Definition released (svc : pystr) (start : Z) (d : Deployment) : Prop :=
  dep_service d = svc ∧ not_deleted d = true ∧ dep_time d ≤ start.

(** The release in force: when the service had a release before the window opens
    that is not deleted, the rows of the window include one, and no such release is
    later than it (nor of the same time with a higher watermark). *)
Theorem release_in_force_included svc start end_ t d0 :
  start ≤ end_ → d0 ∈ t → released svc start d0 →
  ∃ d, d ∈ eligible_rows svc start end_ t ∧ released svc start d ∧
    ∀ d', d' ∈ t → released svc start d' → latest_leb d d' = true.
Proof.
  intros Hse Hin Hrel.
  set (P d := dep_service d = svc ∧ not_deleted d = true ∧ dep_time d ≤ start).
  pose proof (sort_by_strongly_sorted latest_leb (filter P t) latest_leb_total
                latest_leb_trans) as Hs.
  assert (∀ d, d ∈ sort_by latest_leb (filter P t) ↔ d ∈ t ∧ released svc start d) as Hel.
  { intros d. rewrite elem_of_sort_by, list_elem_of_filter. unfold released, P. tauto. }
  destruct (sort_by latest_leb (filter P t)) as [|d l] eqn:Hl.
  { exfalso. by apply (not_elem_of_nil d0), Hel. }
  exists d. destruct (proj1 (Hel d)) as [Hd Hr]; [by left|]. split; [|split; [done|]].
  - apply elem_of_eligible. unfold in_force, P in *. rewrite Hl. cbn.
    destruct Hr as (? & ? & ?). repeat split; [done..|lia|by right].
  - intros d' Hd' Hr'. assert (d' ∈ d :: l) as Hd'l by by apply Hel.
    inversion Hs as [|? ? _ Hall]; subst. apply elem_of_cons in Hd'l as [->|Hd'l].
    + unfold latest_leb. lia.
    + by apply (proj1 (Forall_forall _ _) Hall).
Qed.

(** ** The HTTP sources *)

Section http_spec.
Context {W : Type}.
Variable post : pystr → json → M W response.
Variable monotonic : W → Z.
Variable sleep : Z → W → W.
Variable source_post : pystr → json → M W response.
(** The requests to the source service so far: the control plane's and the clock's
    work is not counted. *)
Variable requests : W → Z.
Hypothesis source_counts : ∀ p b w w' x,
  source_post p b w = (w', x) → requests w' = requests w + 1.
Hypothesis post_counts : ∀ p b w w' x, post p b w = (w', x) → requests w' = requests w.
Hypothesis sleep_counts : ∀ d w, requests (sleep d w) = requests w.

Lemma call_requests op payload (r r' : Runtime W) x :
  call post op payload r = (r', x) → requests (world r') = requests (world r).
Proof.
  unfold call, on_world, lift, modify, get, mbind, M_bind. cbn.
  destruct (post _ _ (world r)) as [w [resp|e]] eqn:Hp; apply post_counts in Hp; cbn;
    [|by intros [= <- _]].
  destruct (raise_for_status resp) as [[]|e]; cbn; by intros [= <- _].
Qed.

Lemma authorize_requests t (r r' : Runtime W) x :
  authorize post monotonic t r = (r', x) → requests (world r') = requests (world r).
Proof.
  unfold authorize, mbind, M_bind, get, raise, modify. cbn.
  destruct (_ || _); [by intros [= <- _]|]. intros H. by apply call_requests in H.
Qed.

Abbreviation query_ := (http_query post monotonic sleep source_post).

(** A source is only asked after the control plane authorized it.  If
    [authorize] raises, its error is the answer, and the source and the breaker are
    untouched.  Otherwise an open breaker fails fast, and a closed one makes one to
    three requests and keeps its invariant; an answer is returned only for a 2xx
    response that closed the breaker. *)
Theorem http_query_authorized step cursor r h r' h' x :
  circuit_inv (circuit h) →
  http_query post monotonic sleep source_post step cursor (r, h) = ((r', h'), x) →
  ∃ r1 y, authorize post monotonic (hs_name h) r = (r1, y) ∧
  requests (world r1) = requests (world r) ∧ hs_name h' = hs_name h ∧
  match y with
  | Raise e => x = Raise e ∧ r' = r1 ∧ h' = h
  | Ok _ =>
      circuit_inv (circuit h') ∧ calls r' = calls r1 ∧ sent r' = sent r1 ∧
      (x = Raise circuit_open ∧ requests (world r') = requests (world r) ∧ h' = h ∨
       (∃ k, 1 ≤ k ≤ 3 ∧ requests (world r') = requests (world r) + k) ∧
       (is_ok x = true → circuit h' = new_circuit))
  end.
Proof.
  intros Hc. unfold http_query, mbind, M_bind, get, on_fst. cbn [fst snd].
  destruct (authorize post monotonic (hs_name h) r) as [r1 [scope|e]] eqn:Ha;
    apply authorize_requests in Ha as Hreq.
  2: { intros [= <- <- <-]. exists r1, (Raise e). auto 10. }
  unfold with_circuit, lift. cbn [fst snd].
  destruct (circuit_call monotonic sleep _ (world r1, circuit h)) as [[w c] y] eqn:Hcall.
  pose proof (circuit_call_post monotonic sleep requests _
    (source_counts _ _) sleep_counts _ _ _ _ _ Hc Hcall) as (Hinv & Hcase).
  intros H. exists r1, (Ok scope).
  assert (∃ z, ((set_world w r1, {| hs_name := hs_name h; circuit := c |}), z) = ((r', h'), x)
    ∧ (is_ok z = true → is_ok y = true) ∧ (∀ e, y = Raise e → z = Raise e)) as (z & Hz & Hok & He).
  { destruct y as [resp|e]; [destruct (raise_for_status resp) as [v|e]|];
      injection H as <- <- <-; (eexists; split; [done|]); naive_solver. }
  injection Hz as <- <- <-. do 3 (split; [done|]). do 3 (split; [done|]). cbn.
  destruct Hcase as [(_ & -> & -> & ->)|(_ & _ & k & Hk & Hrq & Hres)].
  - left. rewrite Hreq, (He _ eq_refl). by destruct h.
  - right. split; [exists k; lia|]. intros Hz%Hok. by destruct y as [resp|e]; [apply Hres|].
Qed.
End http_spec.

(** ** The worker's runtime keeps its run *)

Section registry_laws.
Context {W : Type}.
Variable post : pystr → json → M W response.
Variable monotonic : W → Z.
Variable sleep : Z → W → W.
Variable source_post : pystr → json → M W response.
Variable connect : M W (list Deployment).
Variable instant_iso : Z → pystr.
Variable timestamptz : json → result Z.
Variable trunc : pystr → result Z.
Variable now_iso : W → pystr.

Definition same_run (r r' : Runtime W) : Prop := run r' = run r.
#[local] Instance same_run_preorder : PreOrder same_run.
Proof. split; unfold same_run; [done|]. intros r1 r2 r3 H1 H2. by rewrite H2. Qed.

Lemma on_world_keeps {A} (m : M W A) : keeps same_run (on_world m).
Proof. intros r r' x. unfold on_world. destruct (m (world r)). by intros [= <- _]. Qed.
Lemma authorize_keeps t : keeps same_run (authorize post monotonic t).
Proof. intros r r' x H. by apply authorize_laws in H as [? _]. Qed.
#[local] Hint Extern 1 (keeps _ (on_world _)) => apply on_world_keeps : keeps.
#[local] Hint Extern 1 (keeps _ (authorize _ _ _)) => apply authorize_keeps : keeps.

Lemma deployments_keeps step cursor :
  keeps same_run (deployments_query post monotonic connect instant_iso timestamptz trunc
                    now_iso step cursor).
Proof. unfold deployments_query. keeps_steps. Qed.

Lemma http_keeps step cursor (r r' : Runtime W) h h' x :
  http_query post monotonic sleep source_post step cursor (r, h) = ((r', h'), x) →
  run r' = run r.
Proof.
  unfold http_query, mbind, M_bind, get, on_fst, with_circuit, lift. cbn [fst snd].
  destruct (authorize _ _ _ r) as [r1 [scope|e]] eqn:Ha;
    apply authorize_keeps in Ha; [|by intros [= <- _ _]].
  destruct (circuit_call _ _ _ _) as [[w c] [resp|e]]; [|by intros [= <- _ _]].
  destruct (raise_for_status resp) as [v|e]; by intros [= <- _ _].
Qed.

Abbreviation query_ := (registry_query post monotonic sleep source_post connect
  instant_iso timestamptz trunc now_iso).

(** What the assembler assumes of its connectors, for the worker's own. *)
Lemma registry_law step cursor (s s' : Runtime W * Registry) x :
  query_ step cursor s = (s', x) → run s'.1 = run s.1.
Proof.
  destruct s as [r g]. unfold registry_query, source_query, on_source, on_fst. cbn [fst snd].
  destruct (step_source step); match goal with
  | |- context [http_query ?a ?b ?c ?d ?e ?f ?g] =>
      destruct (http_query a b c d e f g) as [[r1 h] y] eqn:H; intros [= <- _];
      by apply http_keeps in H
  | |- context [deployments_query ?a ?b ?c ?d ?e ?f ?g ?h ?i ?j] =>
      destruct (deployments_query a b c d e f g h i j) as [r1 y] eqn:H; intros [= <- _];
      by apply deployments_keeps in H
  end.
Qed.

#[export] Instance desk_runtime_laws :
  @RuntimeLaws (Runtime W * Registry) (desk_runtime post monotonic).
Proof.
  pose proof (runtime_laws post monotonic) as [Ha Hh He].
  split; intros [r g] *; cbn; unfold on_fst; cbn [fst snd].
  - destruct (authorize _ _ _ r) as [r1 y] eqn:H. intros [= <- _]. by apply Ha in H.
  - destruct (hook _ _ _ _ r) as [r1 y] eqn:H. intros [= <- _].
    by apply (Hh _ n d) in H.
  - destruct ((event _ _ _ ;; mret ()) r) as [r1 y] eqn:H. intros [= <- _].
    by apply (He _ k d) in H.
Qed.
End registry_laws.

(** ** Witnesses *)

Section connector_witness.
Definition dep (i : string) (at_ mark : Z) : Deployment :=
  {| dep_id := u i; dep_service := u "svc-17"; app_id := u "svc-17"; dep_version := u "v1";
     commit_sha := u "demo-sha"; dep_time := at_; watermark := mark; deleted := Some false |}.

Definition releases : list Deployment := [dep "d3" 30 3; dep "d1" 10 1; dep "d2" 20 2].

Lemma deployments_pages_complete_witness :
  concat (pages 4 (u "svc-17") 15 40 0 1 releases) = [dep "d1" 10 1; dep "d2" 20 2; dep "d3" 30 3]
  ∧ StronglySorted mark_lt (concat (pages 4 (u "svc-17") 15 40 0 1 releases)).
Proof.
  split; [by vm_compute|].
  apply (deployments_pages_complete (u "svc-17") 15 40 0 1 releases);
    [lia|apply (bool_decide_unpack _); by vm_compute].
Defined.

(** When two rows share a watermark and a page ends between them, the second is
    skipped: the cursor is a watermark alone. *)
Example tie_is_skipped :
  concat (pages 4 (u "svc-17") 5 40 0 1 [dep "d1" 10 1; dep "d2" 20 1]) = [dep "d1" 10 1].
Proof. by vm_compute. Qed.

Lemma release_in_force_included_witness :
  ∃ d, d ∈ eligible_rows (u "svc-17") 15 40 releases ∧ released (u "svc-17") 15 d.
Proof.
  destruct (release_in_force_included (u "svc-17") 15 40 releases (dep "d1" 10 1))
    as (d & Hd & Hr & _).
  - lia.
  - apply list_elem_of_further, list_elem_of_here.
  - split; [by vm_compute|]. split; [by vm_compute|]. by vm_compute.
  - exists d. split; [exact Hd|exact Hr].
Defined.

(** The control plane and a source that answer 200, the source counted. *)
Definition plane (_ : pystr) (_ : json) : M Z response := λ n, (n, Ok (Response 200 (Ok (JObj [])))).
Definition source_ok (_ : pystr) (_ : json) : M Z response := λ n,
  (n + 1, Ok (Response 200 (Ok (JObj [(u "records", JList [])])))).

Lemma http_query_authorized_witness :
  ∃ r' h' v, http_query plane (λ _, 0) (λ _ n, n) source_ok
      (Build_PlanStep Git OCommit [] 50) JNull
      (new_runtime (λ _, 0) some_run 0, new_source (u "git")) = ((r', h'), Ok v) ∧
    world r' = 1 ∧ circuit h' = new_circuit.
Proof.
  destruct (http_query plane (λ _, 0) (λ _ n, n) source_ok
    (Build_PlanStep Git OCommit [] 50) JNull
    (new_runtime (λ _, 0) some_run 0, new_source (u "git"))) as [[r' h'] [v|e]] eqn:H;
    [|exfalso; revert H; vm_compute; discriminate].
  exists r', h', v. split; [reflexivity|].
  split; [revert H; vm_compute; by intros [= <- _ _]|].
  destruct (http_query_authorized plane (λ _, 0) (λ _ n, n) source_ok id) with
    (step := Build_PlanStep Git OCommit [] 50) (cursor := JNull)
    (r := new_runtime (λ _, 0) some_run 0) (h := new_source (u "git"))
    (r' := r') (h' := h') (x := Ok v) as (r1 & [y|e] & _ & _ & _ & Hx).
  - by intros p b w w' x [= <- _].
  - by intros p b w w' x [= <- _].
  - reflexivity.
  - by split.
  - exact H.
  - destruct Hx as (_ & _ & _ & [(Hx & _)|(_ & Hx)]); [discriminate Hx|by apply Hx].
  - destruct Hx as (Hx & _). discriminate Hx.
Defined.
End connector_witness.
