(* ===== verification/Cache.v ===== *)
(** * The context cache (worker/incident_worker/cache.py)

    Two database tables as finite maps: [context_cache] keeps serialized bundles by a
    digest of the scope they were assembled for, [source_index] the records they
    came from.  Every access is authorized first, and a transaction that raises
    leaves the tables as they were. *)
From S2P Require Import Prelude.
From S2P Require Import PyStr.
From S2P Require Import Json.
From S2P Require Import JsonParse.
From S2P Require Import Digests.
From S2P Require Import PyTime.
From S2P Require Import Contracts.
From S2P Require Import Runtime.

(** ** SQL values *)

Definition type_mismatch : exn := exn_of (OtherError "ProgrammingError") "type mismatch".
Definition not_null : exn := exn_of (OtherError "NotNullViolation") "null value in column".

(** A parameter of a [text] or [bigint] column; [None] is NULL. *)
Definition sql_text (v : json) : result (option pystr) :=
  match v with
  | JStr s => Ok (Some s)
  | JNull => Ok None
  | _ => Raise type_mismatch
  end.
Definition sql_int (v : json) : result (option Z) :=
  match v with
  | JInt z => Ok (Some z)
  | JNull => Ok None
  | _ => Raise type_mismatch
  end.

(** [a = b] and [a <> b] in a [where] clause: NULL compares as neither. *)
Definition sql_eqb {A} `{EqDecision A} (a b : option A) : bool :=
  match a, b with Some x, Some y => bool_decide (x = y) | _, _ => false end.
Definition sql_neb {A} `{EqDecision A} (a b : option A) : bool :=
  match a, b with Some x, Some y => negb (bool_decide (x = y)) | _, _ => false end.

(** ** The tables *)

Record Entry := {
  c_service : option pystr; c_watermark : option Z; c_bundle : pystr;
  c_recording : pystr; created_at : Z }.

Record IndexRow := { x_version : option pystr; x_watermark : option Z; x_available : bool }.

Record Tables := {
  context_cache : gmap (list Z) Entry;
  source_index : gmap (list Z * list Z * list Z) IndexRow }.

Definition no_tables : Tables := {| context_cache := ∅; source_index := ∅ |}.

(** [str(d)] of a [datetime]: its ISO form with a blank. *)
Definition str_datetime {TD : TzDatabase} (d : datetime) : pystr :=
  upto 10 (isoformat d) ++ u " " ++ drop 11 (isoformat d).

Section cache.
Context {TD : TzDatabase} {JR : JsonRuntime} {R : Type} `{RO : RuntimeOps R}.
(** The clock of the database in microseconds, pydantic's serializer and validator
    of bundles, and what a [jsonb] column gives back for the text stored in it. *)
Variable now : R → Z.
Variable model_dump_json : ContextBundle → result pystr.
Variable validate_bundle : json → result ContextBundle.
Variable jsonb : pystr → result json.

Abbreviation MC := (M (R * Tables)).

(** [with psycopg.connect(db) as c]: committed at the end, rolled back when the body
    raises. *)
Definition transaction {A} (m : MC A) : MC A := λ s,
  match m s with
  | (s', Ok a) => (s', Ok a)
  | (s', Raise e) => ((s'.1, s.2), Raise e)
  end.

(** *** The key *)

Definition key_value (r : RunContext) (scope : json) : result json :=
  sub ← jindex "subject" scope; tm ← jindex "team" scope; svc ← jindex "service" scope;
  wm ← jindex "watermark" scope; q ← jget_or (JObj []) "query" scope;
  Ok (JList [sub; tm; svc; JStr (str_datetime (start r)); JStr (str_datetime (end_ r));
             wm; q; js "retrieval:2"; js "ontology:1"; js "mapping:2"]).

Definition key (r : RunContext) (scope : json) : result pystr :=
  v ← key_value r scope; bytes ← encode (dumps true false v); Ok (sha256_hex bytes).

(** *** get *)

(** A service whose watermark moved keeps no bundle, and its index no record that is
    available. *)
Definition invalidate (svc : option pystr) (wm : option Z) (t : Tables) : Tables :=
  {| context_cache := filter (λ kv,
       sql_eqb (c_service kv.2) svc && sql_neb (c_watermark kv.2) wm = false)
       (context_cache t);
     source_index := map_imap (λ k x, Some (
       if sql_eqb (Some k.1.1) svc && sql_neb (x_watermark x) wm
       then {| x_version := x_version x; x_watermark := x_watermark x;
               x_available := false |}
       else x)) (source_index t) |}.

Definition fresh_window : Z := 30 * 1000000.

Definition find_entry (k : pystr) (now : Z) (t : Tables) : option Entry :=
  match context_cache t !! k with
  | Some e => if now - fresh_window <? created_at e then Some e else None
  | None => None
  end.

Definition cache_get : MC (option (ContextBundle * json)) :=
  scope ← on_fst (rt_authorize (u "context"));
  row ← transaction (
    svc ← lift (jindex "service" scope ≫= sql_text);
    wm ← lift (jindex "watermark" scope ≫= sql_int);
    modify (λ s, (s.1, invalidate svc wm s.2)) ;;
    s ← get;
    k ← lift (key (rt_run s.1) scope);
    mret (find_entry k (now s.1) s.2));
  match row with
  | None => mret None
  | Some e =>
      v ← lift (jsonb (c_bundle e)); rec ← lift (jsonb (c_recording e));
      b ← lift (validate_bundle v);
      mret (Some (b, rec))
  end.

(** *** put *)

Definition index_row (svc : option pystr) (wm : option Z) (src : pystr) (row : json)
    (t : Tables) : result Tables :=
  rid ← jindex "id" row ≫= sql_text; ver ← jindex "version" row ≫= sql_text;
  del ← jget_or (JBool false) "deleted" row;
  match svc, rid with
  | Some svc, Some rid =>
      Ok {| context_cache := context_cache t;
            source_index := <[(svc, src, rid) :=
              {| x_version := ver; x_watermark := wm;
                 x_available := negb (truthy del) |}]> (source_index t) |}
  | _, _ => Raise not_null
  end.

Definition index_source (svc : option pystr) (wm : option Z) (kv : pystr * json) : MC () :=
  recs ← lift (jindex "records" kv.2 ≫= jiter);
  for_each recs (λ row,
    s ← get; t ← lift (index_row svc wm kv.1 row s.2);
    modify (λ s, (s.1, t))).

(** [insert ... on conflict(key) do update set bundle, recording, created_at]. *)
Definition upsert_entry (k : pystr) (e : Entry) (t : Tables) : Tables :=
  {| context_cache := <[k :=
       match context_cache t !! k with
       | Some old => {| c_service := c_service old; c_watermark := c_watermark old;
                        c_bundle := c_bundle e; c_recording := c_recording e;
                        created_at := created_at e |}
       | None => e
       end]> (context_cache t);
     source_index := source_index t |}.

Definition source_changed : exn := exn_of PermissionError "source_changed".

Definition cache_put (b : ContextBundle) (recording : list (pystr * json)) : MC () :=
  scope ← on_fst (rt_authorize (u "context"));
  wm ← lift (jindex "watermark" scope);
  s ← get;
  (if py_eqb wm (JInt (source_version (rt_run s.1))) then mret ()
   else raise source_changed) ;;
  transaction (
    s ← get;
    k ← lift (key (rt_run s.1) scope);
    svc ← lift (jindex "service" scope);
    text ← lift (model_dump_json b);
    svc ← lift (sql_text svc); w ← lift (sql_int wm);
    modify (λ s, (s.1, upsert_entry k
      {| c_service := svc; c_watermark := w; c_bundle := text;
         c_recording := dumps true false (JObj recording); created_at := now s.1 |} s.2)) ;;
    for_each recording (index_source svc w)).

(** ** What a key stands for *)

(** Two scopes that agree on what the key is made of. *)
Definition same_scope (r r' : RunContext) (sc sc' : json) : Prop :=
  jindex "subject" sc = jindex "subject" sc' ∧ jindex "team" sc = jindex "team" sc' ∧
  jindex "service" sc = jindex "service" sc' ∧
  jindex "watermark" sc = jindex "watermark" sc' ∧
  jget_or (JObj []) "query" sc = jget_or (JObj []) "query" sc' ∧
  str_datetime (start r) = str_datetime (start r') ∧
  str_datetime (end_ r) = str_datetime (end_ r').

(** The [n]th part of a key. *)
Definition part (n : nat) (v : json) : json :=
  match v with JList l => nth n l JNull | _ => JNull end.
Definition text_of (v : json) : pystr := match v with JStr s => s | _ => [] end.

(** The parts of a key's value. *)
Lemma key_value_parts r sc v :
  key_value r sc = Ok v →
  ∃ sub tm svc wm q,
    jindex "subject" sc = Ok sub ∧ jindex "team" sc = Ok tm ∧ jindex "service" sc = Ok svc ∧
    jindex "watermark" sc = Ok wm ∧ jget_or (JObj []) "query" sc = Ok q ∧
    part 0 v = sub ∧ part 1 v = tm ∧ part 2 v = svc ∧
    text_of (part 3 v) = str_datetime (start r) ∧
    text_of (part 4 v) = str_datetime (end_ r) ∧ part 5 v = wm ∧ part 6 v = q.
Proof.
  unfold key_value. intros H.
  do 5 (apply bind_ok in H as (? & ? & H)). apply (f_equal (λ r,
    match r with Ok v => v | Raise _ => JNull end)) in H. cbn beta iota in H.
  rewrite <- H. do 5 eexists. do 5 (split; [eassumption|]). by repeat split.
Qed.

Lemma key_value_inj r r' sc sc' v :
  key_value r sc = Ok v → key_value r' sc' = Ok v → same_scope r r' sc sc'.
Proof.
  intros (? & ? & ? & ? & ? & E1 & E2 & E3 & E4 & E5 & <- & <- & <- & F3 & F4 & <- & <-)
    %key_value_parts
    (? & ? & ? & ? & ? & E1' & E2' & E3' & E4' & E5' & <- & <- & <- & F3' & F4' & <- & <-)
    %key_value_parts.
  exact (conj (eq_trans E1 (eq_sym E1')) (conj (eq_trans E2 (eq_sym E2'))
    (conj (eq_trans E3 (eq_sym E3')) (conj (eq_trans E4 (eq_sym E4'))
    (conj (eq_trans E5 (eq_sym E5')) (conj (eq_trans (eq_sym F3) F3')
    (eq_trans (eq_sym F4) F4'))))))).
Qed.

(** A cache key separates scopes: the text that is digested determines the
    subject, the team, the service, the watermark, the query and the window, so two
    runs share the text only if they agree on all of them.  (The digest itself is
    SHA-256 of the text.) *)
Theorem key_text_separates r r' sc sc' v v' :
  key_value r sc = Ok v → key_value r' sc' = Ok v' → plain v → plain v' →
  dumps true false v = dumps true false v' → same_scope r r' sc sc'.
Proof.
  intros H H' Hp Hp' E. apply (key_value_inj _ _ _ _ v); [done|].
  assert (Ok v = Ok v') as [= ->]; [|done].
  rewrite <- (scan_dump_loads true v Hp), <- (scan_dump_loads true v' Hp'). by rewrite E.
Qed.

(** ** The invariant of the tables *)

(** Every entry was put under the key of some authorized scope, by a run for which
    the bundle satisfies [Q]. *)
Variable Q : RunContext → ContextBundle → Prop.

Definition entry_ok (k : list Z) (e : Entry) : Prop :=
  ∃ r sc b rec, key r sc = Ok k ∧ model_dump_json b = Ok (c_bundle e) ∧
    c_recording e = dumps true false (JObj rec) ∧ Q r b.
Definition tables_ok (t : Tables) : Prop :=
  ∀ k e, context_cache t !! k = Some e → entry_ok k e.

Lemma tables_ok_empty : tables_ok no_tables.
Proof. intros k e. cbn. by rewrite lookup_empty. Qed.

Lemma invalidate_lookup svc wm t k e :
  context_cache (invalidate svc wm t) !! k = Some e ↔
  context_cache t !! k = Some e ∧ sql_eqb (c_service e) svc && sql_neb (c_watermark e) wm = false.
Proof. cbn. rewrite map_lookup_filter_Some. done. Qed.

Lemma tables_ok_invalidate svc wm t : tables_ok t → tables_ok (invalidate svc wm t).
Proof. intros H k e [He _]%invalidate_lookup. by apply H. Qed.

Lemma tables_ok_upsert k e t : entry_ok k e → tables_ok t → tables_ok (upsert_entry k e t).
Proof.
  intros (r & sc & b & rec & Hk & Hb & Hr & HQ) H k' e'. cbn.
  destruct (decide (k = k')) as [<-|Hne]; [|rewrite lookup_insert_ne by done; apply H].
  rewrite lookup_insert_eq. intros [= <-]. exists r, sc, b, rec.
  by destruct (context_cache t !! k).
Qed.

Lemma index_row_cache svc wm src row t t' :
  index_row svc wm src row t = Ok t' → context_cache t' = context_cache t.
Proof.
  unfold index_row. intros H. inv_ok. destruct svc; [|done].
  match goal with H : match ?x with _ => _ end = Ok _ |- _ => destruct x; [|done] end.
  by inv_ok.
Qed.

(** Indexing touches neither the runtime nor the bundles. *)
Definition same_cache (s s' : R * Tables) : Prop :=
  s'.1 = s.1 ∧ context_cache s'.2 = context_cache s.2.
#[local] Instance same_cache_preorder : PreOrder same_cache.
Proof.
  split; unfold same_cache; [done|]. intros s1 s2 s3 [H1 H2] [H3 H4]. by rewrite H3, H4.
Qed.

Lemma index_source_keeps svc wm kv : keeps same_cache (index_source svc wm kv).
Proof.
  unfold index_source. apply (keeps_bind same_cache); [apply keeps_lift; apply _|].
  intros recs. apply (keeps_for_each same_cache). intros row s s' x.
  unfold mbind, M_bind, get, lift. destruct (index_row _ _ _ _ s.2) as [t|e] eqn:Ht.
  - intros [= <- _]. split; [done|]. by apply index_row_cache in Ht.
  - by intros [= <- _].
Qed.

Lemma tables_ok_cache t t' :
  context_cache t' = context_cache t → tables_ok t → tables_ok t'.
Proof. intros E H k e. rewrite E. apply H. Qed.

(** *** A hit, and a put *)

Lemma cache_get_run s s' b rec :
  cache_get s = (s', Ok (Some (b, rec))) →
  ∃ r1 scope svc wm k e,
    rt_authorize (u "context") s.1 = (r1, Ok scope) ∧
    (jindex "service" scope ≫= sql_text) = Ok svc ∧
    (jindex "watermark" scope ≫= sql_int) = Ok wm ∧
    key (rt_run r1) scope = Ok k ∧ s' = (r1, invalidate svc wm s.2) ∧
    context_cache (invalidate svc wm s.2) !! k = Some e ∧
    now r1 - fresh_window < created_at e ∧
    (jsonb (c_bundle e) ≫= validate_bundle) = Ok b ∧ jsonb (c_recording e) = Ok rec.
Proof.
  unfold cache_get, on_fst. destruct s as [r t].
  unfold mbind at 1, M_bind at 1. cbn [fst snd].
  destruct (rt_authorize (u "context") r) as [r1 [scope|e]] eqn:Ha; [|done].
  unfold mbind at 1, M_bind at 1, transaction.
  unfold mbind at 1, M_bind at 1, lift at 1.
  destruct (jindex "service" scope ≫= sql_text) as [svc|e] eqn:Hs; [|done].
  unfold mbind at 1, M_bind at 1, lift at 1.
  destruct (jindex "watermark" scope ≫= sql_int) as [wm|e] eqn:Hw; [|done].
  unfold mbind at 1, M_bind at 1, modify at 1. cbn [fst snd].
  unfold mbind at 1, M_bind at 1, get at 1.
  unfold mbind at 1, M_bind at 1, lift at 1. cbn [fst snd].
  destruct (key (rt_run r1) scope) as [k|e] eqn:Hk; [|done]. cbn -[invalidate].
  unfold find_entry. destruct (context_cache (invalidate svc wm t) !! k) as [e|] eqn:He;
    [|done].
  destruct (Z.ltb_spec (now r1 - fresh_window) (created_at e)); [|done].
  intros H0. inv_run.
  exists r1, scope, svc, wm, k, e. repeat (split; [done|]).
  split; [|done]. by rewrite Hr1.
Qed.

Lemma cache_put_run b rec s s' :
  cache_put b rec s = (s', Ok ()) →
  ∃ r1 scope v svc wm k text,
    rt_authorize (u "context") s.1 = (r1, Ok scope) ∧
    jindex "watermark" scope = Ok v ∧ py_eqb v (JInt (source_version (rt_run r1))) = true ∧
    sql_int v = Ok wm ∧ (jindex "service" scope ≫= sql_text) = Ok svc ∧
    key (rt_run r1) scope = Ok k ∧ model_dump_json b = Ok text ∧
    s'.1 = r1 ∧
    context_cache s'.2 = context_cache (upsert_entry k
      {| c_service := svc; c_watermark := wm; c_bundle := text;
         c_recording := dumps true false (JObj rec); created_at := now r1 |} s.2).
Proof.
  unfold cache_put, on_fst. destruct s as [r t].
  unfold mbind at 1, M_bind at 1. cbn [fst snd].
  destruct (rt_authorize (u "context") r) as [r1 [scope|e]] eqn:Ha; [|done].
  unfold mbind at 1, M_bind at 1, lift at 1.
  destruct (jindex "watermark" scope) as [v|e] eqn:Hw; [|done].
  unfold mbind at 1, M_bind at 1, get at 1. cbn [fst snd].
  unfold mbind at 1, M_bind at 1.
  destruct (py_eqb v (JInt (source_version (rt_run r1)))) eqn:Hv; [|done]. cbn [mret M_ret].
  unfold transaction. intros H. match type of H with
    (match ?m with _ => _ end = _) => destruct m as [s1 [[]|e]] eqn:Hm; [|done] end.
  injection H as <-.
  unfold mbind at 1, M_bind at 1, get at 1 in Hm. cbn [fst snd] in Hm.
  unfold mbind at 1, M_bind at 1, lift at 1 in Hm.
  destruct (key (rt_run r1) scope) as [k|e] eqn:Hk; [|done].
  unfold mbind at 1, M_bind at 1, lift at 1 in Hm.
  destruct (jindex "service" scope) as [sv|e] eqn:Hs; [|done].
  unfold mbind at 1, M_bind at 1, lift at 1 in Hm.
  destruct (model_dump_json b) as [text|e] eqn:Ht; [|done].
  unfold mbind at 1, M_bind at 1, lift at 1 in Hm.
  destruct (sql_text sv) as [svc|e] eqn:Hsv; [|done].
  unfold mbind at 1, M_bind at 1, lift at 1 in Hm.
  destruct (sql_int v) as [wm|e] eqn:Hwm; [|done].
  unfold mbind at 1, M_bind at 1, modify at 1 in Hm. cbn [fst snd] in Hm.
  apply (keeps_for_each same_cache) in Hm; [|intros kv; apply index_source_keeps].
  destruct Hm as [H1 H2]. cbn [fst snd] in H1, H2.
  exists r1, scope, v, svc, wm, k, text. do 4 (split; [done|]).
  split; [rewrite Hs; exact Hsv|]. by do 3 (split; [done|]).
Qed.

(** What a run of a cache operation leaves behind satisfies the invariant. *)
Lemma cache_put_ok b rec s s' x :
  tables_ok s.2 → (∀ r1 y, rt_authorize (u "context") s.1 = (r1, y) → Q (rt_run r1) b) →
  cache_put b rec s = (s', x) → tables_ok s'.2.
Proof.
  intros Ht HQ H. destruct x as [[]|e].
  - apply cache_put_run in H as (r1 & sc & v & svc & wm & k & text & Ha & _ & _ & _ & _ & Hk
      & Hb & _ & Hc).
    eapply tables_ok_cache; [exact Hc|]. apply tables_ok_upsert; [|done].
    exists (rt_run r1), sc, b, rec. do 3 (split; [done|]). by eapply HQ.
  - assert (s'.2 = s.2) as ->; [|done]. revert H. unfold cache_put, on_fst.
    destruct s as [r t]. unfold mbind at 1, M_bind at 1. cbn [fst snd].
    destruct (rt_authorize _ r) as [r1 [scope|e']]; [|by intros [= <- _]].
    unfold mbind at 1, M_bind at 1, lift at 1.
    destruct (jindex "watermark" scope) as [v|e']; [|by intros [= <- _]].
    unfold mbind at 1, M_bind at 1, get at 1. cbn [fst snd].
    unfold mbind at 1, M_bind at 1.
    destruct (py_eqb _ _); [|by intros [= <- _]]. cbn [mret M_ret].
    unfold transaction. match goal with |- (match ?m with _ => _ end = _ → _) =>
      destruct m as [s1 [[]|e']]; [done|by intros [= <- _]] end.
Qed.

(** Reading a stored bundle back gives the bundle: what pydantic promises of its own
    serializer, through a [jsonb] column. *)
Definition reads_back : Prop :=
  ∀ b text, model_dump_json b = Ok text → (jsonb text ≫= validate_bundle) = Ok b.


(** A put is found: when the bundle of a run was stored, the same run, authorized
    with the same scope within the next 30 seconds, gets that bundle back (and a run
    is refused with [source_changed] before it stores a bundle of an older
    watermark). *)
Theorem cache_put_get b rec s s1 r1 r2 scope k svc wm rec' :
  reads_back →
  rt_authorize (u "context") s.1 = (r1, Ok scope) →
  key (rt_run r1) scope = Ok k →
  (jindex "service" scope ≫= sql_text) = Ok svc →
  (jindex "watermark" scope ≫= sql_int) = Ok wm →
  (∀ e, context_cache s.2 !! k = Some e → c_service e = svc ∧ c_watermark e = wm) →
  cache_put b rec s = (s1, Ok ()) →
  rt_authorize (u "context") s1.1 = (r2, Ok scope) →
  rt_run r2 = rt_run r1 → now r2 < now r1 + fresh_window →
  jsonb (dumps true false (JObj rec)) = Ok rec' →
  ∃ s2, cache_get s1 = (s2, Ok (Some (b, rec'))) ∧
  wm = Some (source_version (rt_run r1)).
Proof.
  intros Hrb Ha Hk Hs Hw Hold Hput Ha2 Hrun Hnow Hrec.
  apply cache_put_run in Hput as (r1' & sc' & v & svc' & wm' & k' & text & Ha' & Hv & Hsv &
    Hwm & Hs' & Hk' & Hb & Hr1 & Hc).
  assert (r1' = r1 ∧ sc' = scope) as [-> ->] by (split; congruence).
  assert (k' = k) as -> by congruence. assert (svc' = svc) as -> by congruence.
  assert (wm' = wm) as -> by (rewrite Hv in Hw; cbn in Hw; congruence).
  assert (wm = Some (source_version (rt_run r1))) as Hwv.
  { destruct v; try done. cbn in Hwm.
    injection Hwm as <-. cbn in Hsv. apply Z.eqb_eq in Hsv. by subst. }
  set (t := s1.2) in *. set (e := {| c_service := svc; c_watermark := wm; c_bundle := text;
    c_recording := dumps true false (JObj rec); created_at := now r1 |}) in *.
  assert (context_cache (invalidate svc wm t) !! k = Some e) as He.
  { apply invalidate_lookup. rewrite Hc. cbn. rewrite lookup_insert_eq. split.
    - destruct (context_cache s.2 !! k) as [e0|] eqn:H0; [|done].
      destruct (Hold e0 eq_refl) as [-> ->]. done.
    - cbn. destruct wm; cbn; [|by rewrite andb_false_r].
      rewrite bool_decide_true by done. by rewrite andb_false_r. }
  exists (r2, invalidate svc wm t). split; [|done].
  unfold cache_get, on_fst, transaction, mbind, M_bind, lift, modify, get, mret, M_ret.
  cbn [fst snd]. rewrite Ha2.
  change (result_bind _ _ ?f ?m) with (m ≫= f). rewrite Hs, Hw. cbn [fst snd].
  rewrite Hrun, Hk. cbn [fst snd]. unfold find_entry. fold t. rewrite He.
  rewrite (proj2 (Z.ltb_lt _ _)) by (cbn; lia). apply Hrb in Hb.
  cbn [c_bundle c_recording e].
  destruct (jsonb text) as [v'|] eqn:Hj; [|done]. cbn in Hb.
  rewrite Hrec, Hb. done.
Qed.
End cache.

(** ** Witnesses *)

Section cache_witness.
#[local] Existing Instances UtcOnly PlainJson.

(** A runtime whose control plane always answers the same scope. *)
#[local] Instance fixed_ops : RuntimeOps (RunContext * json) := {|
  rt_run := fst;
  rt_authorize _ := λ r, (r, Ok r.2);
  rt_hook _ _ := mret ();
  rt_event _ _ := mret ();
|}.

Definition scope0 : json :=
  JObj [(u "subject", js "alice"); (u "team", js "orders"); (u "service", js "svc-17");
        (u "watermark", JInt 1); (u "query", JObj [(u "mode", js "all")])].
Definition cached_run : RunContext * json := (some_run, scope0).

Definition bundle0 : ContextBundle :=
  {| scope := {| scope_team := u "orders"; scope_subject := u "alice";
                 scope_service := u "svc-17" |};
     objects := []; facts := []; evidence := []; missing := [u "git: none"];
     conflicts := []; freshness := [];
     plan := {| plan_service := u "svc-17"; plan_start := some_time;
                plan_end := some_time; plan_steps := [] |};
     token_budget := 12000; memories := JList []; retrieval := JObj [] |}.

(** A serializer of that one bundle. *)
Definition dump0 (b : ContextBundle) : result pystr :=
  if decide (b = bundle0) then Ok (u "bundle0") else Raise type_error.
Definition jsonb0 (s : pystr) : result json := Ok (JStr s).
Definition validate0 (_ : json) : result ContextBundle := Ok bundle0.

Lemma reads_back0 : reads_back dump0 validate0 jsonb0.
Proof. unfold dump0. intros b text. case_decide; [by subst|done]. Qed.

Definition recording0 : list (pystr * json) :=
  [(u "git", JObj [(u "records", JList [JObj [(u "id", js "c1"); (u "version", js "1")]])])].

Definition key0 : pystr :=
  match key some_run scope0 with Ok k => k | Raise _ => [] end.

Abbreviation put0 :=
  (cache_put (λ _, 5) dump0 bundle0 recording0 (cached_run, no_tables)).
Abbreviation get0 s := (cache_get (λ _, 5) validate0 jsonb0 s).

Lemma cache_put_get_witness :
  ∃ s1 s2, put0 = (s1, Ok ()) ∧ get0 s1 = (s2, Ok (Some (bundle0, JStr
    (dumps true false (JObj recording0))))).
Proof.
  assert (is_ok put0.2 = true ∧ put0.1.1 = cached_run) as [Hok H1] by by vm_compute.
  assert (key some_run scope0 = Ok key0) as Hk by by vm_compute.
  assert (rt_authorize (u "context") cached_run = (cached_run, Ok scope0)) as Ha by done.
  assert ((jindex "service" scope0 ≫= sql_text) = Ok (Some (u "svc-17"))) as Hs
    by by vm_compute.
  assert ((jindex "watermark" scope0 ≫= sql_int) = Ok (Some 1)) as Hw by by vm_compute.
  revert Hok H1. destruct put0 as [s1 [[]|e]] eqn:H; cbn [fst snd is_ok]; [|done].
  intros _ H1.
  destruct (cache_put_get (λ _, 5) dump0 validate0 jsonb0 bundle0 recording0
    (cached_run, no_tables) s1 cached_run cached_run scope0 key0 (Some (u "svc-17"))
    (Some 1) (JStr (dumps true false (JObj recording0))) reads_back0 Ha Hk Hs Hw)
    as (s2 & Hg & _).
  - intros e [=].
  - exact H.
  - rewrite H1. exact Ha.
  - reflexivity.
  - reflexivity.
  - reflexivity.
  - exists s1, s2. split; [reflexivity|exact Hg].
Defined.

Definition any (_ : RunContext) (_ : ContextBundle) : Prop := True.


(** Two scopes that differ in the team have different key texts. *)
Lemma key_text_separates_witness :
  match key_value some_run scope0 with
  | Ok v => same_scope some_run some_run scope0 scope0
  | Raise _ => False
  end.
Proof.
  destruct (key_value some_run scope0) as [v|e] eqn:H;
    [|exfalso; revert H; vm_compute; discriminate].
  assert (plain v) as Hp.
  { assert (match key_value some_run scope0 with Ok v => plain v | Raise _ => False end) as Hv.
    - vm_compute. repeat match goal with |- _ ∧ _ => split end; try done;
        by apply (bool_decide_unpack _).
    - by rewrite H in Hv. }
  exact (key_text_separates some_run some_run scope0 scope0 v v H H Hp Hp eq_refl).
Defined.
End cache_witness.
