(* ===== verification/Harness.v ===== *)
(** * The agent harness (worker/incident_worker/harness.py)

    [gather], the node of the LangGraph graph: a bundle from the cache, authorized
    again, or a freshly assembled one.  For the Deep Agents adapter: its two
    middlewares ([token_budget], [bounded_tools]), its two tools, and [deep_report],
    which checks what the agent claims.  The agent itself is a library: an arbitrary
    computation. *)
From S2P Require Import Prelude.
From S2P Require Import PyStr.
From S2P Require Import Json.
From S2P Require Import JsonParse.
From S2P Require Import PyTime.
From S2P Require Import Contracts.
From S2P Require Import Runtime.
From S2P Require Import Context.
From S2P Require Import Assemble.
From S2P Require Import AssembleSpec.
From S2P Require Import Report.
From S2P Require Import Cache.

(** ** The graph's node *)

(** The state the graph checkpoints. *)
Record State := { st_report : Report; st_recording : json; st_source_version : Z }.

Section gather.
Context {UT : UnicodeTables} {TD : TzDatabase} {R : Type} `{RO : RuntimeOps R}.
Variable container_repr : json → pystr.
Variable registry_query : PlanStep → option json → M R json.
Variable elapsed : R → json.
Variable model_dump_json : ContextBundle → result pystr.
Variable observe : bool.
Variable now : R → Z.
Variable validate_bundle : json → result ContextBundle.
Variable jsonb : pystr → result json.

Abbreviation assemble_ :=
  (assemble container_repr registry_query elapsed model_dump_json observe).

(** The bundle and the recording [gather] reports on. *)
Definition gather_bundle : M (R * Tables) (ContextBundle * json) :=
  cached ← cache_get now validate_bundle jsonb;
  match cached with
  | Some (b, recording) =>
      historical ← on_fst (rt_authorize (u "memory"));
      m ← lift (jget_or (JList []) "memories" historical);
      on_fst (rt_event (u "cache_hit")
                (JObj [(u "scope", js "reauthorized"); (u "version", js "1")])) ;;
      mret (set_memories m b, recording)
  | None =>
      br ← on_fst (assemble_ None None);
      cache_put now model_dump_json br.1 br.2 ;;
      mret (br.1, JObj br.2)
  end.

Definition gather : M (R * Tables) State :=
  br ← gather_bundle;
  rep ← lift (report container_repr br.1);
  s ← get;
  mret {| st_report := rep; st_recording := br.2;
          st_source_version := source_version (rt_run s.1) |}.
End gather.

(** ** The middlewares *)

(** The tools an agent may call. *)
Definition TOOLS : list pystr :=
  u <$> ["read_context"; "query_context"; "write_todos"; "read_file"; "write_file";
         "edit_file"; "ls"; "glob"; "grep"]%string.

Definition denied : pystr := u "Tool denied by application policy".

(** A request to the model: the text of its messages, and of its system message; a
    response: the total tokens its messages report. *)
Record ModelRequest := { rq_messages : list pystr; rq_system : option pystr }.

Section middleware.
Context {W : Type}.
(** tiktoken's count of a text. *)
Variable count_tokens : pystr → Z.

(** [sum((m.usage_metadata or {}).get("total_tokens", 0) for m in result)]. *)
Definition known_tokens (result : list (option Z)) : Z :=
  foldr Z.add 0 (default 0 <$> result).

Definition estimate (rq : ModelRequest) : Z :=
  count_tokens (join [10] (rq_messages rq) ++ default [] (rq_system rq)) + 1000.

Definition over_budget : exn := exn_of RuntimeError "model_token_budget_before_call".

(** [token_budget(request, handler)]; the state is [used_tokens]. *)
Definition token_budget (limit : Z) (handler : ModelRequest → M W (list (option Z)))
    (rq : ModelRequest) : M (W * Z) (list (option Z)) :=
  s ← get;
  if limit <? s.2 + estimate rq then raise over_budget
  else
    response ← on_fst (handler rq);
    let known := known_tokens response in
    modify (λ s, (s.1, s.2 + (if known =? 0 then estimate rq else known))) ;;
    mret response.

(** [bounded_tools(request, handler)]: the answer of a tool, by its name. *)
Definition bounded_tools (handler : pystr → M W pystr) (name : pystr) : M W pystr :=
  if mem name TOOLS then handler name else mret denied.

(** Calls one after another, for as long as none raises. *)
Fixpoint model_calls_ (limit : Z) (handler : ModelRequest → M W (list (option Z)))
    (rqs : list ModelRequest) : M (W * Z) () :=
  match rqs with
  | [] => mret tt
  | rq :: rqs' => token_budget limit handler rq ;; model_calls_ limit handler rqs'
  end.
End middleware.

(** ** The Deep Agents report *)

(** A message of the agent's output: its content, and the total tokens it reports
    when it carries usage. *)
Record Message := { m_content : json; m_usage : option Z }.

(** [final]: the report, with the candidates and the next steps of the agent. *)
Record DeepReport := { d_report : Report; d_candidates : json; d_next_steps : json }.

Definition ungrounded_claim : exn := exn_of ValueError "ungrounded_model_claim".

(** [not c.get("evidence") or not set(c["evidence"]) <= ids] must be false. *)
Definition check_claim (known : list pystr) (c : json) : result () :=
  e ← jget "evidence" c;
  if negb (truthy e) then Raise ungrounded_claim else
  cited ← jiter e;
  if negb (forallb hashable cited) then Raise type_error else
  guard_r (forallb (λ v, existsb (λ i, py_eqb v (JStr i)) known) cited) ungrounded_claim.

Fixpoint check_claims (known : list pystr) (cs : list json) : result () :=
  match cs with
  | [] => Ok ()
  | c :: cs' => check_claim known c ;; check_claims known cs'
  end.

(** The JSON of the last message, without its code fence. *)
Definition unfence (s : pystr) : pystr :=
  strip (removesuffix (u "```") (removeprefix (u "```json") s)).

Section deep.
Context {UT : UnicodeTables} {TD : TzDatabase} {JR : JsonRuntime}.
Context {R : Type} `{RO : RuntimeOps R}.
Variable container_repr : json → pystr.
Variable registry_query : PlanStep → option json → M R json.
Variable elapsed : R → json.
Variable model_dump_json : ContextBundle → result pystr.
Variable observe : bool.
(** pydantic's validator of plans, [os.getenv("MODEL_NAME", "test-model")], and the
    agent: what [agent.invoke] does and the messages it returns. *)
Variable validate_plan_json : json → result QueryPlan.
Variable model : pystr.
Variable invoke : M R (list Message).

(** The tools. *)
Definition query_context (p : json) : M R pystr :=
  candidate ← lift (validate_plan_json p);
  extra ← assemble container_repr registry_query elapsed model_dump_json observe
            (Some candidate) None;
  lift (model_dump_json extra.1).

Definition read_context (b : ContextBundle) : M R pystr :=
  rt_authorize (u "context") ;; lift (model_dump_json b).

Definition usage_of (ms : list Message) : list Z := omap m_usage ms.

Definition last_content (ms : list Message) : result json :=
  match last ms with
  | Some m => Ok (m_content m)
  | None => Raise (exn_of IndexError "list index out of range")
  end.

Definition deep_report (b : ContextBundle) : M R DeepReport :=
  output ← invoke;
  let usage := usage_of output in
  let total := foldr Z.add 0 usage in
  rt_event (u "model_usage")
    (JObj [(u "model", JStr model);
           (u "tokens", match usage with [] => JNull | _ => JInt total end);
           (u "calls", JInt (len usage)); (u "cost_usd", JNull)]) ;;
  rt ← get;
  (if tokens (budget (rt_run rt)) <? total
   then raise (exn_of RuntimeError "model_token_budget") else mret ()) ;;
  content ← lift (last_content output);
  text ← match content with
         | JStr s => mret s
         | _ => raise (exn_of ValueError "unsupported_model_output")
         end;
  v ← lift (loads (unfence text));
  cs ← lift (jget_or (JList []) "candidates" v);
  cs ← lift (jiter cs);
  lift (check_claims (ids (evidence b)) cs) ;;
  final ← lift (report container_repr b);
  candidates ← lift (jindex "candidates" v);
  next ← lift (jindex "next_steps" v);
  mret {| d_report := {|
            impact := impact final; r_retrieval := r_retrieval final;
            answer := answer final; r_facts := r_facts final; candidates := [];
            r_conflicts := r_conflicts final; r_missing := r_missing final;
            next_steps := []; r_evidence := r_evidence final;
            r_freshness := r_freshness final; r_context := r_context final;
            confidence_rule := confidence_rule final;
            historical_memory := historical_memory final; r_mode := u "deepagents" |};
          d_candidates := candidates; d_next_steps := next |}.
End deep.

(** ** What the graph reports on *)

Section gather_spec.
Context {UT : UnicodeTables} {TD : TzDatabase} {R : Type} `{RO : RuntimeOps R}
  `{RL : !RuntimeLaws R}.
Variable container_repr : json → pystr.
Variable registry_query : PlanStep → option json → M R json.
Variable elapsed : R → json.
Variable model_dump_json : ContextBundle → result pystr.
Variable observe : bool.
Variable now : R → Z.
Variable validate_bundle : json → result ContextBundle.
Variable jsonb : pystr → result json.
Hypothesis registry_law : ∀ step c r r' x,
  registry_query step c r = (r', x) → rt_run r' = rt_run r.

(** The bundle's evidence is evidence of the run [r] (see [evidence_ok]). *)
Definition scoped_to (r : RunContext) (b : ContextBundle) : Prop :=
  Forall (evidence_ok (py_str container_repr) r) (evidence b).

Abbreviation ok_ := (tables_ok model_dump_json scoped_to).
Abbreviation gather_bundle_ := (gather_bundle container_repr registry_query elapsed
  model_dump_json observe now validate_bundle jsonb).

Lemma cache_get_runs s s' x :
  cache_get now validate_bundle jsonb s = (s', x) →
  rt_run s'.1 = rt_run s.1 ∧
  (ok_ s.2 → ok_ s'.2).
Proof.
  unfold cache_get, on_fst. destruct s as [r t].
  unfold mbind at 1, M_bind at 1. cbn [fst snd].
  destruct (rt_authorize (u "context") r) as [r1 [scope|e]] eqn:Ha;
    apply law_authorize in Ha; [|by intros [= <- _]].
  unfold mbind at 1, M_bind at 1, transaction.
  unfold mbind at 1, M_bind at 1, lift at 1.
  destruct (jindex "service" scope ≫= sql_text) as [svc|e]; [|by intros [= <- _]].
  unfold mbind at 1, M_bind at 1, lift at 1.
  destruct (jindex "watermark" scope ≫= sql_int) as [wm|e]; [|by intros [= <- _]].
  unfold mbind at 1, M_bind at 1, modify at 1. cbn [fst snd].
  unfold mbind at 1, M_bind at 1, get at 1.
  unfold mbind at 1, M_bind at 1, lift at 1. cbn [fst snd].
  destruct (key (rt_run r1) scope) as [k|e]; [|by intros [= <- _]]. cbn -[invalidate].
  intros H. assert (s' = (r1, invalidate svc wm t)) as ->; [|split; [done|]; cbn [snd];
    by apply tables_ok_invalidate].
  revert H. destruct (find_entry _ _ _) as [e|]; [|by intros [= <- _]].
  unfold mbind, M_bind, lift. destruct (jsonb _); [|by intros [= <- _]].
  destruct (jsonb _); [|by intros [= <- _]]. destruct (validate_bundle _); by intros [= <- _].
Qed.

Lemma set_memories_scoped r m b : scoped_to r b → scoped_to r (set_memories m b).
Proof. done. Qed.

(** The runs a bundle may have been assembled for: this one, or one whose scope has
    the same cache key. *)
Definition same_key_run (rc r0 : RunContext) : Prop :=
  r0 = rc ∨ ∃ sc sc0 k, key rc sc = Ok k ∧ key r0 sc0 = Ok k.

Lemma gather_bundle_scoped s s' b rec :
  reads_back model_dump_json validate_bundle jsonb → ok_ s.2 →
  gather_bundle_ s = (s', Ok (b, rec)) →
  ok_ s'.2 ∧ rt_run s'.1 = rt_run s.1 ∧
  ∃ r0, same_key_run (rt_run s.1) r0 ∧ scoped_to r0 b.
Proof.
  intros Hrb Hok. unfold gather_bundle. unfold mbind at 1, M_bind at 1.
  destruct (cache_get now validate_bundle jsonb s) as [s1 [[[b0 rec0]|]|e]] eqn:Hg; [| |done].
  - pose proof (cache_get_runs _ _ _ Hg) as [Hrun Hok1].
    eapply cache_get_run in Hg as (r1 & sc & svc & wm & k & e & Ha & _ & _ & Hk & -> & He & _ & Hb & _).
    intros H. inv_run. unfold on_fst in *. cbn [fst snd] in *.
    repeat match goal with
    | H : (let (_, _) := ?m in _) = _ |- _ => destruct m as [? ?] eqn:?; injection H as ? ?; subst
    end. cbn [fst snd] in *.
    match goal with
    | E : rt_authorize _ r1 = _, F : rt_event _ _ _ = _ |- _ =>
        apply law_authorize in E; apply law_event in F; rewrite E in F
    end.
    split; [by apply Hok1|]. split; [congruence|].
    destruct (Hok1 Hok k e He) as (r2 & sc0 & b1 & rec1 & Hk0 & Hb0 & _ & Hs0).
    apply Hrb in Hb0. assert (b0 = b1) as -> by congruence.
    exists r2. split; [right|by apply set_memories_scoped].
    rewrite <- Hrun. by exists sc, sc0, k.
  - apply cache_get_runs in Hg as [Hrun Hok1]. intros H. inv_run.
    match goal with E : on_fst _ _ = (_, Ok ?br) |- _ =>
      destruct br as [b1 recs]; unfold on_fst in E;
      destruct (assemble _ _ _ _ _ _ _ s1.1) as [r2 y] eqn:Ha; injection E as <- -> end.
    cbn [fst snd] in *. pose proof Ha as Hinv.
    eapply (assemble_inv _ _ _ _ _ registry_law) in Hinv as (_ & _ & l & (He & _) & (Hev & _) & _);
      [|reflexivity].
    assert (scoped_to (rt_run s1.1) b1) as Hs1 by (unfold scoped_to; by rewrite Hev).
    assert (rt_run r2 = rt_run s1.1) as Hr2.
    { by eapply (assemble_run _ _ _ _ _ registry_law) in Ha. }
    match goal with E : _ = (s', Ok ?a) |- _ =>
      destruct a; pose proof E as Hput; apply cache_put_run in E as (r3 & ? & ? & ? & ? & ? & ? & Ha3 & _ & _ & _
        & _ & _ & _ & Hr3 & _);
      eapply (cache_put_ok _ _ scoped_to) in Hput end.
    + split; [exact Hput|]. apply law_authorize in Ha3. cbn [fst] in Ha3.
      split; [congruence|]. exists (rt_run s.1). split; [by left|]. congruence.
    + by apply Hok1.
    + intros r4 y4 Ha4. apply law_authorize in Ha4. cbn [fst] in Ha4. congruence.
Qed.

(** What a run reports is its own: the evidence of the report [gather] produces is
    evidence of a run that is this one or whose scope (subject, team, service, window,
    watermark, query) has the same cache key, whether the bundle was assembled or
    came from the cache; the tables keep only bundles of the run that put them. *)
Theorem gather_scoped s s' g :
  reads_back model_dump_json validate_bundle jsonb → ok_ s.2 →
  gather container_repr registry_query elapsed model_dump_json observe now
    validate_bundle jsonb s = (s', Ok g) →
  ok_ s'.2 ∧ st_source_version g = source_version (rt_run s.1) ∧
  ∃ r0, same_key_run (rt_run s.1) r0 ∧
    Forall (evidence_ok (py_str container_repr) r0) (r_evidence (st_report g)).
Proof.
  intros Hrb Hok H. unfold gather in H. inv_run. cbn [fst snd] in *.
  match goal with E : gather_bundle_ _ = (_, Ok ?br) |- _ =>
    destruct br as [b rec]; eapply gather_bundle_scoped in E as (Hok' & Hrun & r0 & Hk & Hs);
    [|done..] end.
  cbn [fst snd st_report st_source_version] in *. split; [done|]. split; [by rewrite Hrun|].
  exists r0. split; [done|].
  match goal with E : report _ _ = Ok _ |- _ => revert E end. unfold report.
  destruct (report_answer _ _); [|done]. by intros [= <-].
Qed.
End gather_spec.

(** ** The token budget *)

Section budget_spec.
Context {W : Type}.
Variable count_tokens : pystr → Z.
Variable limit : Z.
Variable handler : ModelRequest → M W (list (option Z)).

(** What a response is charged. *)
Definition charge (rq : ModelRequest) (resp : list (option Z)) : Z :=
  if known_tokens resp =? 0 then estimate count_tokens rq else known_tokens resp.

Lemma token_budget_run rq w used w' used' x :
  token_budget count_tokens limit handler rq (w, used) = ((w', used'), x) →
  (limit < used + estimate count_tokens rq ∧ w' = w ∧ used' = used ∧ x = Raise over_budget) ∨
  (used + estimate count_tokens rq ≤ limit ∧ handler rq w = (w', x) ∧
   used' = used + match x with Ok resp => charge rq resp | Raise _ => 0 end).
Proof.
  unfold token_budget, mbind, M_bind, get, on_fst, modify, raise, mret, M_ret. cbn [fst snd].
  destruct (Z.ltb_spec limit (used + estimate count_tokens rq)).
  - intros [= <- <- <-]. by left.
  - cbn. destruct (handler rq w) as [w1 [resp|e]]; cbn; intros [= <- <- <-]; right;
      (split; [done|]); (split; [done|]); unfold charge; lia.
Qed.

End budget_spec.

(** ** Claims of the agent *)

(** A claim cites at least one piece of evidence, and only evidence of the bundle. *)
Definition claim_grounded (evs : list Evidence) (c : json) : Prop :=
  ∃ e cited, jget "evidence" c = Ok e ∧ jiter e = Ok (JStr <$> cited) ∧ cites evs cited.

Lemma jiter_truthy e l : truthy e = true → jiter e = Ok l → l ≠ [].
Proof.
  destruct e as [| | | |s|l'|kvs]; cbn; try done.
  - destruct s; [done|]. by intros _ [= <-].
  - destruct l'; [done|]. by intros _ [= <-].
  - destruct kvs as [|[k v] kvs]; [done|]. by intros _ [= <-].
Qed.

Lemma check_claim_grounded evs c : check_claim (ids evs) c = Ok () → claim_grounded evs c.
Proof.
  unfold check_claim. intros H. apply bind_ok in H as (e & He & H).
  destruct (truthy e) eqn:Ht; [|done]. cbn [negb] in H.
  apply bind_ok in H as (l & Hl & H). destruct (forallb hashable l); [|done].
  cbn [negb] in H. apply guard_r_ok in H.
  assert (∃ cited, l = JStr <$> cited ∧ Forall (λ i, i ∈ ids evs) cited) as (cited & -> & Hc).
  { clear Hl. revert H. induction l as [|v l IH]; cbn; [by exists []|].
    intros [Hv Hl]%andb_true_iff. destruct (IH Hl) as (cited & -> & Hc).
    apply existsb_exists in Hv as (i & Hi & Hv%py_eqb_str). subst.
    exists (i :: cited). split; [done|]. constructor; [by apply list_elem_of_In|done]. }
  exists e, cited. do 2 (split; [done|]). split; [|done].
  intros ->. by apply jiter_truthy in Hl.
Qed.

Lemma check_claims_grounded evs cs :
  check_claims (ids evs) cs = Ok () → Forall (claim_grounded evs) cs.
Proof.
  induction cs as [|c cs IH]; [constructor|]. cbn. intros H.
  apply bind_ok in H as ([] & Hc & H). constructor; [by apply check_claim_grounded|auto].
Qed.

Section deep_spec.
Context {JR : JsonRuntime} {R : Type} `{RO : RuntimeOps R}.
Variable container_repr : json → pystr.
Variable model : pystr.
Variable invoke : M R (list Message).

End deep_spec.

(** ** Witnesses *)

Section harness_witness.
#[local] Existing Instances UtcOnly AsciiCjk PlainJson fixed_ops.

(** A provider that reports 600 tokens for every call. *)
Definition provider600 (_ : ModelRequest) : M Z (list (option Z)) := λ n, (n + 1, Ok [Some 600]).
Definition hello : ModelRequest := {| rq_messages := [u "hi"]; rq_system := None |}.


Definition one_log : Evidence :=
  {| ev_id := u "logs:1"; ev_source := Logs; locator := u "fixture://0";
     collected_at := u "t"; event_time := u "t"; version := u "1"; sha256 := u "00";
     snippet := JObj []; ev_team := u "orders"; source_record := u "1";
     available := true |}.
Definition bundle1 : ContextBundle :=
  {| scope := scope bundle0; objects := []; facts := []; evidence := [one_log];
     missing := []; conflicts := []; freshness := []; plan := plan bundle0;
     Contracts.token_budget := 12000; memories := JList []; retrieval := JObj [] |}.

(** The final message of an agent, in a code fence. *)
Definition claims (cited : list string) : json :=
  JObj [(u "candidates", JList [JObj [(u "text", js "pool"); (u "evidence", JList (js <$> cited))]]);
        (u "next_steps", JList [])].
Definition agent (cited : list string) : M (RunContext * json) (list Message) :=
  mret [{| m_content := js "looking"; m_usage := Some 900 |};
        {| m_content := JStr (u "```json" ++ [10] ++ dumps true false (claims cited) ++ [10] ++ u "```");
           m_usage := Some 500 |}].

Example invented_claim_refused :
  (deep_report (dumps false false) (u "m") (agent ["logs:2"]%string) bundle1 cached_run).2
  = Raise ungrounded_claim.
Proof. by vm_compute. Qed.


#[local] Instance fixed_laws : RuntimeLaws (RunContext * json).
Proof. split; by intros r *; intros [= <- _]. Qed.

(** A hit: the bundle put before is what is reported. *)
Definition no_source (_ : PlanStep) (_ : option json) : M (RunContext * json) json :=
  raise (exn_of RuntimeError "offline").
Lemma no_source_law step c r r' x : no_source step c r = (r', x) → rt_run r' = rt_run r.
Proof. by intros [= <- _]. Qed.

Abbreviation put0 :=
  (cache_put (λ _, 5) dump0 bundle0 recording0 (cached_run, no_tables)).
Abbreviation gather0 s :=
  (gather (dumps false false) no_source (λ _, JInt 0) dump0 false (λ _, 5) validate0 jsonb0 s).

Lemma gather_scoped_witness :
  match (gather0 put0.1).2 with
  | Ok g => st_source_version g = 1 ∧ r_missing (st_report g) = missing bundle0
  | Raise _ => False
  end.
Proof.
  assert (match (gather0 put0.1).2 with
          | Ok g => r_missing (st_report g) = missing bundle0 | Raise _ => False end) as Hm
    by by vm_compute.
  assert (source_version put0.1.1.1 = 1) as Hsv by by vm_compute.
  revert Hm Hsv. destruct put0 as [s1 x] eqn:Hput. cbn [fst].
  destruct (gather0 s1) as [s' [g|e]] eqn:H; cbn [snd]; [|done]. intros Hm Hsv.
  split; [|exact Hm].
  assert (tables_ok dump0 (scoped_to (dumps false false)) s1.2) as Hok.
  { eapply (cache_put_ok (λ _, 5) dump0 (scoped_to (dumps false false))); [| |exact Hput].
    - apply tables_ok_empty.
    - intros r1 y _. constructor. }
  destruct (gather_scoped (dumps false false) no_source (λ _, JInt 0) dump0 false (λ _, 5)
    validate0 jsonb0 no_source_law s1 s' g reads_back0 Hok H) as (_ & Hv & _).
  rewrite Hv. exact Hsv.
Defined.
End harness_witness.
