(* ===== verification/Artifacts.v ===== *)
(** * Staged artifacts (worker/incident_worker/artifacts.py)

    A snapshot is written in three steps, a staged row, the object, the row made
    ready, and read back only when all three happened and the bytes still have the
    recorded digest.  Every call to the object store may fail, with or without having
    taken effect: the outcomes are part of the state. *)
From S2P Require Import Prelude.
From S2P Require Import PyStr.
From S2P Require Import Json.
From S2P Require Import JsonParse.
From S2P Require Import Digests.
From S2P Require Import PyTime.
From S2P Require Import Contracts.
From S2P Require Import Runtime.
From S2P Require Import Cache.

(** ** The stores *)

Inductive row_state := Staged | Ready.
#[export] Instance row_state_eq_dec : EqDecision row_state.
Proof. solve_decision. Defined.

Record Row := {
  a_task : pystr; a_team : pystr; a_watermark : option Z; a_digest : pystr;
  a_state : row_state; a_created : Z }.

(** What becomes of one call to the object store: done; done, but the answer was lost;
    or not done. *)
Inductive outcome := Done | Lost | Refused.

Record Store := {
  rows : gmap (list Z) Row; objects : gmap (list Z) (list Z); outcomes : list outcome }.

Definition set_rows (r : gmap (list Z) Row) (s : Store) : Store :=
  {| rows := r; objects := objects s; outcomes := outcomes s |}.

Definition client_error : exn := exn_of (OtherError "ClientError") "s3".

(** One call whose effect on the objects is [f]. *)
Definition s3_call (f : gmap (list Z) (list Z) → gmap (list Z) (list Z)) : M Store () := λ s,
  let '(o, os) := match outcomes s with o :: os => (o, os) | [] => (Done, []) end in
  let done_ := {| rows := rows s; objects := f (objects s); outcomes := os |} in
  match o with
  | Done => (done_, Ok tt)
  | Lost => (done_, Raise client_error)
  | Refused => ({| rows := rows s; objects := objects s; outcomes := os |}, Raise client_error)
  end.

Definition get_object (k : pystr) : M Store (list Z) := λ s,
  let '(o, os) := match outcomes s with o :: os => (o, os) | [] => (Done, []) end in
  let s' := {| rows := rows s; objects := objects s; outcomes := os |} in
  match o, objects s !! k with
  | Done, Some bytes => (s', Ok bytes)
  | _, _ => (s', Raise client_error)
  end.

Definition none_json (z : option Z) : json := match z with Some z => JInt z | None => JNull end.

Section artifacts.
Context {JR : JsonRuntime} {R : Type} `{RO : RuntimeOps R}.
Variable uuid4 : M R pystr.
(** The clocks of the database and of the worker, in microseconds. *)
Variable now : R → Z.

Abbreviation MA := (M (R * Store)).

Definition duplicate_key : exn := exn_of (OtherError "UniqueViolation") "artifacts_pkey".

Definition insert_row (k : pystr) (r : Row) : M Store () :=
  s ← get;
  match rows s !! k with
  | Some _ => raise duplicate_key
  | None => modify (set_rows (<[k := r]> (rows s)))
  end.

Definition set_ready (k : pystr) : M Store () :=
  modify (λ s, set_rows (alter (λ r,
    {| a_task := a_task r; a_team := a_team r; a_watermark := a_watermark r;
       a_digest := a_digest r; a_state := Ready; a_created := a_created r |}) k (rows s)) s).

(** [scope["team"] + "/" + ...]. *)
Definition text (v : json) : result pystr :=
  match v with JStr s => Ok s | _ => Raise type_error end.

Definition artifact_put (data : json) : MA json :=
  scope ← on_fst (rt_authorize (u "context"));
  raw ← lift (encode (dumps true true data));
  let digest := sha256_hex raw in
  team ← lift (jindex "team" scope ≫= text);
  s ← get;
  id ← on_fst uuid4;
  let task := run_id (rt_run s.1) in
  let k := team ++ u "/" ++ task ++ u "/" ++ id in
  wm ← lift (jindex "watermark" scope ≫= sql_int);
  on_snd (insert_row k {| a_task := task; a_team := team; a_watermark := wm;
                          a_digest := digest; a_state := Staged;
                          a_created := now s.1 |}) ;;
  on_snd (s3_call (λ os, <[k := raw]> os)) ;;
  on_snd (set_ready k) ;;
  mret (JObj [(u "key", JStr k); (u "sha256", JStr digest); (u "state", js "ready")]).

Definition unavailable : exn := exn_of PermissionError "artifact_unavailable".
Definition integrity : exn := exn_of ValueError "artifact_integrity".

Definition artifact_get (k : pystr) : MA json :=
  scope ← on_fst (rt_authorize (u "context"));
  s ← get;
  match rows s.2 !! k with
  | None => raise unavailable
  | Some r =>
      team ← lift (jindex "team" scope);
      wm ← lift (jindex "watermark" scope);
      if negb (str_eqb (a_task r) (run_id (rt_run s.1)) && py_eqb (JStr (a_team r)) team
               && py_eqb (none_json (a_watermark r)) wm)
         || bool_decide (a_state r ≠ Ready)
      then raise unavailable
      else
        raw ← on_snd (get_object k);
        if str_eqb (sha256_hex raw) (a_digest r) then lift (loads_bytes raw)
        else raise integrity
  end.

(** *** Retention *)

Definition hour_us : Z := 3600 * 1000000.

Definition expired (days now : Z) (r : Row) : bool :=
  (a_created r <? now - days * 24 * hour_us)
  || (bool_decide (a_state r = Staged) && (a_created r <? now - hour_us)).

(** The loop of [cleanup] over the keys the [select] returned. *)
Fixpoint remove_all (ks : list pystr) : M Store () :=
  match ks with
  | [] => mret tt
  | k :: ks' =>
      s3_call (delete k) ;; modify (λ s, set_rows (delete k (rows s)) s) ;; remove_all ks'
  end.

(** [cleanup(days)]: one transaction, so a failing deletion restores every row. *)
Definition cleanup (days : Z) : MA Z := λ s,
  let ks := fst <$> filter (λ kr, expired days (now s.1) kr.2 = true)
                      (map_to_list (rows s.2)) in
  match remove_all ks s.2 with
  | (t, Ok _) => ((s.1, t), Ok (len ks))
  | (t, Raise e) => ((s.1, set_rows (rows s.2) t), Raise e)
  end.
End artifacts.

(** ** Canonical JSON reads back in key order *)

(** A value with every dict in key order: what [sort_keys] prints. *)
Fixpoint sort_json (v : json) : json :=
  match v with
  | JList l => JList (map sort_json l)
  | JObj kvs => JObj (sort_by key_leb (map (λ kv, (kv.1, sort_json kv.2)) kvs))
  | _ => v
  end.

Lemma insert_by_map {A B} (f : A → B) (le : A → A → bool) (le' : B → B → bool) x l :
  (∀ x y, le' (f x) (f y) = le x y) →
  map f (insert_by le x l) = insert_by le' (f x) (map f l).
Proof.
  intros H. induction l as [|y l IH]; [done|]. cbn. rewrite H.
  destruct (le x y); cbn; [done|by rewrite IH].
Qed.

Lemma sort_by_map {A B} (f : A → B) (le : A → A → bool) (le' : B → B → bool) l :
  (∀ x y, le' (f x) (f y) = le x y) → map f (sort_by le l) = sort_by le' (map f l).
Proof.
  intros H. induction l as [|x l IH]; [done|].
  change (sort_by le (x :: l)) with (insert_by le x (sort_by le l)).
  by rewrite (insert_by_map f le le'), IH.
Qed.

Lemma dumps_sorted ascii v : dumps ascii true v = dumps ascii false (sort_json v).
Proof.
  induction v as [| | | | |l IH|kvs IH] using json_ind'; try done; cbn.
  - f_equal. rewrite map_map. induction IH as [|v l Hv _ IH]; [done|]. cbn. by rewrite Hv, IH.
  - f_equal. unfold dump_items. f_equal.
    rewrite (sort_by_map _ key_leb key_leb) by done. f_equal.
    rewrite map_map. cbn. induction IH as [|kv l Hv _ IH]; [done|]. cbn. by rewrite Hv, IH.
Qed.

Lemma plain_sort v : plain v → plain (sort_json v).
Proof.
  induction v as [| | | | |l IH|kvs IH] using json_ind'; try done.
  - rewrite plain_list. cbn [sort_json]. rewrite plain_list. intros H.
    induction IH as [|v l Hv _ IH]; [constructor|]. inversion_clear H.
    constructor; auto.
  - intros Hp. apply plain_obj_iff in Hp as (Hnd & Hk & Hv). apply plain_obj_iff.
    assert (keys (map (λ kv, (kv.1, sort_json kv.2)) kvs) = keys kvs) as Hkeys.
    { unfold keys. rewrite <- list_fmap_compose. by apply list_fmap_ext. }
    split; [|split].
    + assert (keys (sort_by key_leb (map (λ kv, (kv.1, sort_json kv.2)) kvs)) ≡ₚ keys kvs)
        as ->; [|done].
      rewrite <- Hkeys. apply fmap_Permutation, sort_by_perm.
    + rewrite forallb_forall. intros kv Hin. apply list_elem_of_In in Hin.
      rewrite elem_of_sort_by in Hin. apply list_elem_of_fmap in Hin as (kv' & -> & Hin).
      rewrite forallb_forall in Hk. by apply (Hk kv'), list_elem_of_In.
    + apply Forall_forall. intros kv Hin. rewrite elem_of_sort_by in Hin.
      apply list_elem_of_fmap in Hin as (kv' & -> & Hin). cbn.
      apply (proj1 (Forall_forall _ _) IH); [done|].
      by apply (proj1 (Forall_forall _ _) Hv).
Qed.

(** ** What the stores guarantee *)

Section artifacts_spec.
Context {JR : JsonRuntime} {R : Type} `{RO : RuntimeOps R}.
Variable uuid4 : M R pystr.
Variable now : R → Z.

(** The object of an artifact is there with the recorded digest. *)
Definition intact (s : Store) (k : pystr) (r : Row) : Prop :=
  ∃ bytes, objects s !! k = Some bytes ∧ sha256_hex bytes = a_digest r.

(** Every artifact that is ready and was created at [cutoff] or later is intact. *)
Definition ready_ok (cutoff : Z) (s : Store) : Prop :=
  ∀ k r, rows s !! k = Some r → a_state r = Ready → cutoff ≤ a_created r → intact s k r.

(** The operations of the workers, whatever they return. *)
Inductive store_step (cutoff : Z) : R * Store → R * Store → Prop :=
| step_put s s' data x :
    artifact_put uuid4 now data s = (s', x) → store_step cutoff s s'
| step_get s s' k x :
    artifact_get k s = (s', x) → store_step cutoff s s'
| step_cleanup s s' days x :
    now s.1 - days * 24 * hour_us ≤ cutoff →
    cleanup now days s = (s', x) → store_step cutoff s s'.

Lemma s3_call_rows f s s' x : s3_call f s = (s', x) → rows s' = rows s ∧
  (objects s' = objects s ∨ objects s' = f (objects s)) ∧
  (is_ok x = true → objects s' = f (objects s)).
Proof.
  unfold s3_call. destruct (outcomes s) as [|[] os]; intros [= <- <-]; cbn; naive_solver.
Qed.

Lemma get_object_same k s s' x :
  get_object k s = (s', x) → rows s' = rows s ∧ objects s' = objects s.
Proof.
  unfold get_object. destruct (outcomes s) as [|[] os]; destruct (objects s !! k);
    by intros [= <- _].
Qed.

Lemma ready_ok_same c s s' :
  rows s' = rows s → objects s' = objects s → ready_ok c s → ready_ok c s'.
Proof. unfold ready_ok, intact. by intros -> ->. Qed.

(** The steps of [put] from the insertion on. *)
Definition write_steps (k : pystr) (r : Row) (raw : list Z) : M Store () :=
  insert_row k r ;; s3_call (λ os, <[k := raw]> os) ;; set_ready k.

Lemma write_steps_ok c k r raw s s' x :
  a_state r = Staged → a_digest r = sha256_hex raw → ready_ok c s →
  write_steps k r raw s = (s', x) → ready_ok c s'.
Proof.
  intros Hst Hd Hok. unfold write_steps, insert_row, mbind, M_bind, get. cbn.
  destruct (rows s !! k) as [r0|] eqn:Hk; [by intros [= <- _]|]. cbn.
  destruct (s3_call _ _) as [s1 y] eqn:H3. apply s3_call_rows in H3 as (Hr & Ho & Hdone).
  cbn in Hr, Ho, Hdone.
  assert (ready_ok c s1) as Hok1.
  { intros k' r'. rewrite Hr. destruct (decide (k = k')) as [<-|Hne].
    - rewrite lookup_insert_eq. intros [= <-]. congruence.
    - rewrite lookup_insert_ne by done. intros Hk' Hrd Hc.
      destruct (Hok k' r' Hk' Hrd Hc) as (bytes & Hb & Hs). exists bytes.
      split; [|done]. destruct Ho as [-> | ->]; [done|]. by rewrite lookup_insert_ne. }
  destruct y as [[]|e]; [|by intros [= <- _]].
  unfold set_ready, modify. intros [= <- _]. intros k' r'. cbn.
  destruct (decide (k = k')) as [<-|Hne].
  - rewrite lookup_alter, decide_True by done. rewrite Hr, lookup_insert_eq.
    intros [= <-] _ _. exists raw. cbn. rewrite (Hdone eq_refl), lookup_insert_eq. done.
  - rewrite lookup_alter_ne by done. intros Hk' Hrd Hc.
    by destruct (Hok1 k' r' Hk' Hrd Hc) as (bytes & Hb & Hs); exists bytes.
Qed.

(** [put] is the authorization, pure work, and the three steps. *)
Lemma artifact_put_run data s s' x :
  artifact_put uuid4 now data s = (s', x) →
  rows s'.2 = rows s.2 ∧ objects s'.2 = objects s.2 ∧ is_ok x = false ∨
  ∃ k r raw y, a_state r = Staged ∧ a_digest r = sha256_hex raw ∧
    encode (dumps true true data) = Ok raw ∧
    write_steps k r raw s.2 = (s'.2, y) ∧ (is_ok x = true → is_ok y = true) ∧
    (∀ p, x = Ok p → p = JObj [(u "key", JStr k); (u "sha256", JStr (a_digest r));
                               (u "state", js "ready")]).
Proof.
  unfold artifact_put. destruct s as [r0 t].
  unfold mbind at 1, M_bind at 1, on_fst at 1. cbn [fst snd].
  destruct (rt_authorize _ r0) as [r1 [sc|e]]; [|intros [= <- <-]; by left].
  unfold mbind at 1, M_bind at 1, lift at 1.
  destruct (encode _) as [raw|e]; [|intros [= <- <-]; by left]. cbn zeta.
  unfold mbind at 1, M_bind at 1, lift at 1.
  destruct (jindex "team" sc ≫= text) as [team|e]; [|intros [= <- <-]; by left].
  unfold mbind at 1, M_bind at 1, get at 1. cbn [fst snd].
  unfold mbind at 1, M_bind at 1, on_fst at 1. cbn [fst snd].
  destruct (uuid4 r1) as [r2 [id|e]]; [|intros [= <- <-]; by left].
  unfold mbind at 1, M_bind at 1, lift at 1.
  destruct (jindex "watermark" sc ≫= sql_int) as [wm|e]; [|intros [= <- <-]; by left].
  set (k := team ++ _). set (r := {| a_task := _ |}). intros H. right.
  exists k, r, raw. unfold write_steps, mbind, M_bind, on_snd in *. cbn [fst snd] in *.
  destruct (insert_row k r t) as [t1 [[]|e]];
    [|injection H as <- <-; eexists; repeat split; [done..|discriminate]].
  cbn [fst snd] in H. destruct (s3_call _ t1) as [t2 [[]|e]];
    [|injection H as <- <-; eexists; repeat split; [done..|discriminate]].
  cbn [fst snd] in H. destruct (set_ready k t2) as [t3 y3] eqn:Hs.
  unfold set_ready, modify in Hs. injection Hs as <- <-. injection H as <- <-.
  eexists. repeat split; [done..|]. by intros p [= <-].
Qed.

Lemma artifact_put_ok data s s' p :
  artifact_put uuid4 now data s = (s', Ok p) →
  ∃ k r raw, a_digest r = sha256_hex raw ∧ encode (dumps true true data) = Ok raw ∧
    write_steps k r raw s.2 = (s'.2, Ok ()) ∧
    p = JObj [(u "key", JStr k); (u "sha256", JStr (a_digest r)); (u "state", js "ready")].
Proof.
  intros [(_ & _ & [=])|(k & r & raw & [[]|e] & _ & Hd & Hraw & Hw & Hok & Hp)]
    %artifact_put_run; [|by specialize (Hok eq_refl)].
  exists k, r, raw. auto.
Qed.

Lemma remove_all_objects ks s s' x k :
  k ∉ ks → remove_all ks s = (s', x) →
  objects s' !! k = objects s !! k ∧ rows s' !! k = rows s !! k.
Proof.
  revert s. induction ks as [|k' ks IH]; intros s Hk; cbn [remove_all];
    [by intros [= <- _]|].
  apply not_elem_of_cons in Hk as [Hne Hk].
  unfold mbind at 1, M_bind at 1.
  destruct (s3_call _ s) as [s1 y] eqn:H3. apply s3_call_rows in H3 as (Hr & Ho & _).
  assert (objects s1 !! k = objects s !! k) as E.
  { destruct Ho as [-> | ->]; [done|]. by rewrite lookup_delete_ne. }
  destruct y as [[]|e]; [|intros [= <- _]; by rewrite E, Hr].
  unfold mbind at 1, M_bind at 1, modify. intros H. apply IH in H as [-> ->]; [|done].
  cbn. by rewrite lookup_delete_ne, Hr.
Qed.

Lemma cleanup_ok c days s s' x :
  now s.1 - days * 24 * hour_us ≤ c → ready_ok c s.2 →
  cleanup now days s = (s', x) → ready_ok c s'.2.
Proof.
  intros Hc Hok. unfold cleanup. set (ks := fst <$> _). set (f := λ kr : _ * Row, _) in ks.
  assert (∀ k r, rows s.2 !! k = Some r → a_state r = Ready → c ≤ a_created r → k ∉ ks) as Hks.
  { intros k r Hk Hrd Hcr. unfold ks. intros ([k' r'] & -> & Hin)%list_elem_of_fmap.
    apply list_elem_of_filter in Hin as [He Hin]. apply elem_of_map_to_list in Hin.
    cbn in *. assert (r' = r) as -> by congruence.
    unfold f, expired in He. cbn [snd] in He. rewrite Hrd in He. cbn in He. rewrite orb_false_r in He.
    apply Z.ltb_lt in He. lia. }
  destruct (remove_all ks s.2) as [t y] eqn:H.
  destruct y as [[]|e]; intros [= <- _]; cbn [snd]; intros k r Hk Hrd Hcr.
  - destruct (decide (k ∈ ks)) as [Hin|Hni].
    + exfalso. assert (rows t !! k = None ∨ rows t !! k = rows s.2 !! k) as [E|E].
      { clear - H. revert H. generalize (s.2). intros s2. revert s2.
        induction ks as [|k' ks IH]; intros s2; cbn [remove_all]; [intros [= <-]; by right|].
        unfold mbind at 1, M_bind at 1. destruct (s3_call _ s2) as [s1 [[]|e]] eqn:H3; [|done].
        apply s3_call_rows in H3 as (Hr & _ & _).
        unfold mbind at 1, M_bind at 1, modify. intros [E|E]%IH; [by left|].
        cbn in E. rewrite E. destruct (decide (k = k')) as [->|Hne];
          [left; apply lookup_delete_eq|right; by rewrite lookup_delete_ne, Hr]. }
      * congruence.
      * rewrite E in Hk. by apply (Hks k r).
    + destruct (remove_all_objects _ _ _ _ _ Hni H) as [Ho Hr]. rewrite Hr in Hk.
      destruct (Hok k r Hk Hrd Hcr) as (bytes & Hb & Hd). exists bytes. by rewrite Ho.
  - cbn in Hk. pose proof (Hks k r Hk Hrd Hcr) as Hni.
    destruct (remove_all_objects _ _ _ _ _ Hni H) as [Ho _].
    destruct (Hok k r Hk Hrd Hcr) as (bytes & Hb & Hd). exists bytes. cbn. by rewrite Ho.
Qed.

Lemma artifact_get_same k s s' x :
  artifact_get k s = (s', x) → rows s'.2 = rows s.2 ∧ objects s'.2 = objects s.2.
Proof.
  unfold artifact_get. destruct s as [r0 t].
  unfold mbind at 1, M_bind at 1, on_fst at 1. cbn [fst snd].
  destruct (rt_authorize _ r0) as [r1 [sc|e]]; [|by intros [= <- _]].
  unfold mbind at 1, M_bind at 1, get at 1. cbn [fst snd].
  destruct (rows t !! k) as [r|]; [|by intros [= <- _]].
  unfold mbind at 1, M_bind at 1, lift at 1. destruct (jindex _ _); [|by intros [= <- _]].
  unfold mbind at 1, M_bind at 1, lift at 1. destruct (jindex _ _); [|by intros [= <- _]].
  destruct (_ || _); [by intros [= <- _]|].
  unfold mbind at 1, M_bind at 1, on_snd at 1. cbn [fst snd].
  destruct (get_object k t) as [t1 y] eqn:Hg. apply get_object_same in Hg.
  destruct y; [|by intros [= <- _]]. by destruct (str_eqb _ _); intros [= <- _].
Qed.

(** C21. Artifacts are never announced before they exist: in every state the workers can
    reach from empty stores, by any sequence of puts, gets and cleanups with any
    outcome of the calls to the object store, every artifact whose row is ready and
    that no cleanup was old enough to remove has its object, with the digest of the
    row. *)
Theorem artifacts_ready_ok cutoff r os s :
  rtc (store_step cutoff) (r, {| rows := ∅; objects := ∅; outcomes := os |}) s →
  ready_ok cutoff s.2.
Proof.
  assert (∀ s1 s2, rtc (store_step cutoff) s1 s2 → ready_ok cutoff s1.2 → ready_ok cutoff s2.2)
    as Hinv.
  { induction 1 as [|s1 s2 s3 Hstep _ IH]; [done|]. intros Hok. apply IH.
    destruct Hstep as [s1 s2 data x H|s1 s2 k x H|s1 s2 days x Hc H].
    - apply artifact_put_run in H as [(Hr & Ho & _)|(k & r0 & raw & y & Hst & Hd & _ & H & _)];
        [by eapply ready_ok_same|by eapply write_steps_ok].
    - apply artifact_get_same in H as [Hr Ho]. by eapply ready_ok_same.
    - by eapply cleanup_ok. }
  intros H. apply (Hinv _ _ H). intros k r0. cbn. by rewrite lookup_empty.
Qed.

Lemma write_steps_ready k r raw s s' :
  write_steps k r raw s = (s', Ok ()) →
  objects s' !! k = Some raw ∧
  ∃ r', rows s' !! k = Some r' ∧ a_state r' = Ready ∧ a_task r' = a_task r ∧
    a_team r' = a_team r ∧ a_watermark r' = a_watermark r ∧ a_digest r' = a_digest r.
Proof.
  unfold write_steps, insert_row, mbind, M_bind, get. cbn.
  destruct (rows s !! k) as [r0|] eqn:Hk; [done|]. cbn.
  destruct (s3_call _ _) as [s1 y] eqn:H3. apply s3_call_rows in H3 as (Hr & _ & Hdone).
  destruct y as [[]|e]; [|done]. unfold set_ready, modify. intros [= <-]. cbn.
  rewrite (Hdone eq_refl), lookup_insert_eq. split; [done|].
  rewrite lookup_alter, decide_True by done. rewrite Hr. cbn. rewrite lookup_insert_eq.
  cbn. by eexists.
Qed.

Lemma none_json_eqb w : py_eqb (none_json w) (none_json w) = true.
Proof. destruct w; cbn; [by rewrite Z.eqb_refl|done]. Qed.

(** An artifact reads back: when [put] returns, its pointer names a row that is
    ready, and [get] with that key, for the same task, team and watermark, and with
    the object store answering, returns the data (with the keys of every dict in
    order), its digest verified. *)
Theorem artifact_roundtrip data s s1 ptr :
  plain data → artifact_put uuid4 now data s = (s1, Ok ptr) →
  ∃ k r, ptr = JObj [(u "key", JStr k); (u "sha256", JStr (a_digest r)); (u "state", js "ready")] ∧
    rows s1.2 !! k = Some r ∧ a_state r = Ready ∧ intact s1.2 k r ∧
    ∀ r2 scope,
      rt_authorize (u "context") s1.1 = (r2, Ok scope) →
      a_task r = run_id (rt_run r2) →
      jindex "team" scope = Ok (JStr (a_team r)) →
      jindex "watermark" scope = Ok (none_json (a_watermark r)) →
      default Done (head (outcomes s1.2)) = Done →
      ∃ s2, artifact_get k s1 = (s2, Ok (sort_json data)).
Proof.
  intros Hp H.
  pose proof H as Hrun. apply artifact_put_ok in Hrun
    as (k & r0 & raw & Hd & Hraw & Hw & ->).
  apply write_steps_ready in Hw as (Ho & r & Hr & Hrd & Htask & Hteam & Hwm & Hdig).
  exists k, r. rewrite Hdig. do 3 (split; [done|]).
  split; [exists raw; by rewrite Hdig|].
  intros r2 scope Ha Ht Htm Hw Hout.
  assert (loads_bytes raw = Ok (sort_json data)) as Hl.
  { rewrite dumps_sorted in Hraw.
    destruct (loads_dumps (sort_json data) (plain_sort _ Hp)) as [_ Hl].
    rewrite Hraw in Hl. exact Hl. }
  assert (∃ t, get_object k s1.2 = (t, Ok raw)) as [t Hget].
  { unfold get_object. rewrite Ho. destruct (outcomes s1.2) as [|o os]; [by eexists|].
    cbn in Hout. subst o. by eexists. }
  assert (∀ x, str_eqb x x = true) as Heq by (intros x; by apply bool_decide_true).
  assert (∀ x, py_eqb (JStr x) (JStr x) = true) as Hpeq by (intros x; apply Heq).
  exists (r2, t). unfold artifact_get, mbind, M_bind, on_fst, on_snd, lift, get.
  cbn [fst snd]. rewrite Ha. cbn [fst snd]. rewrite Hr, Htm, Hw, Ht, Hrd.
  rewrite Heq, Hpeq, none_json_eqb. cbn [andb orb negb].
  rewrite (bool_decide_eq_false_2 (Ready ≠ Ready)) by (intros HN; by apply HN).
  cbn [fst snd]. rewrite Hget. cbn [fst snd]. rewrite Hdig, Hd, Heq. by rewrite Hl.
Qed.
End artifacts_spec.

(** ** Witnesses *)

Section artifact_witness.
#[local] Existing Instances UtcOnly PlainJson fixed_ops.

Definition id0 : M (RunContext * json) pystr := mret (u "id-1").
Definition clock0 (_ : RunContext * json) : Z := 100.
Definition data0 : json := JObj [(u "logs", JList [JInt 2]); (u "git", JNull)].
Definition stores (os : list outcome) : (RunContext * json) * Store :=
  (cached_run, {| rows := ∅; objects := ∅; outcomes := os |}).

Abbreviation put_ os := (artifact_put id0 clock0 data0 (stores os)).

(** When the answer of the object store is lost, the artifact stays staged. *)
Example lost_stays_staged :
  let '(s, x) := put_ [Lost] in
  is_ok x = false ∧ a_state <$> rows s.2 !! u "orders/run-1/id-1" = Some Staged ∧
  is_Some (objects s.2 !! u "orders/run-1/id-1").
Proof. vm_compute. split; [done|]. split; [done|]. by eexists. Qed.

Lemma artifacts_ready_ok_witness :
  ready_ok 0 (put_ [Lost]).1.2 ∧ ready_ok 0 (put_ []).1.2.
Proof.
  split.
  - apply (artifacts_ready_ok id0 clock0 0 cached_run [Lost]). apply rtc_once.
    eapply step_put. apply surjective_pairing.
  - apply (artifacts_ready_ok id0 clock0 0 cached_run []). apply rtc_once.
    eapply step_put. apply surjective_pairing.
Defined.

Lemma artifact_roundtrip_witness :
  ∃ k r, rows (put_ []).1.2 !! k = Some r ∧ a_state r = Ready ∧
    intact (put_ []).1.2 k r.
Proof.
  assert (is_ok (put_ []).2 = true) as Hok by by vm_compute.
  revert Hok. destruct (put_ []) as [s1 [ptr|e]] eqn:H; cbn [fst snd]; [|done]. intros _.
  assert (plain data0) as Hp.
  { vm_compute. repeat match goal with |- _ ∧ _ => split end; try done;
      by apply (bool_decide_unpack _). }
  destruct (artifact_roundtrip id0 clock0 data0 (stores []) s1 ptr Hp H)
    as (k & r & _ & Hr & Hrd & Hi & _).
  exists k, r. split; [exact Hr|]. split; [exact Hrd|exact Hi].
Defined.
End artifact_witness.
