(* ===== verification/Gateway.v ===== *)
(** * Skills and the log-analysis tool (worker/incident_worker/gateway.py, mcp_server.py)

    [skill] runs a tool of an approved skill; [mcp_analyze] hands log records to the
    MCP server and accepts its answer only when the server offers exactly the one tool
    it should; [analyze_logs] is that tool. *)
From S2P Require Import Prelude.
From S2P Require Import PyStr.
From S2P Require Import Json.
From S2P Require Import JsonParse.
From S2P Require Import PyTime.
From S2P Require Import Contracts.
From S2P Require Import Runtime.

(** ** Skills *)

Record Skill := {
  sk_version : pystr; sk_review : pystr; sk_tools : list source; sk_budget : Z;
  sk_output : pystr }.

Definition SKILLS : list (pystr * Skill) :=
  [(u "log-analysis",
    {| sk_version := u "1"; sk_review := u "approved"; sk_tools := [Logs];
       sk_budget := 2; sk_output := u "error_counts" |});
   (u "release-compare",
    {| sk_version := u "1"; sk_review := u "approved"; sk_tools := [Deployments; Git];
       sk_budget := 2; sk_output := u "commit_comparison" |})].

Definition tool_denied : exn := exn_of PermissionError "skill_tool_denied".

(** The tool of an approved skill that has this name. *)
Definition allowed_tool (name tool : pystr) : option (Skill * source) :=
  match assoc name SKILLS with
  | Some spec =>
      if str_eqb (sk_review spec) (u "approved") then
        match filter (λ s, source_name s = tool) (sk_tools spec) with
        | s :: _ => Some (spec, s)
        | [] => None
        end
      else None
  | None => None
  end.

Section gateway.
Context {JR : JsonRuntime} {R : Type} `{RO : RuntimeOps R}.
(** [REGISTRY[tool].query(runtime, step)]. *)
Variable query_tool : source → PlanStep → M R json.

Definition skill (name tool : pystr) (step : PlanStep) : M R json :=
  match allowed_tool name tool with
  | None => raise tool_denied
  | Some (spec, src) =>
      rt_hook (u "tool_before")
        (JObj [(u "skill", JStr name); (u "version", JStr (sk_version spec))]) ;;
      result ← query_tool src step;
      rt_hook (u "tool_after") (JObj [(u "skill", JStr name); (u "status", js "ok")]) ;;
      mret result
  end.

(** A session with the MCP server: the tools it lists, with their schemas, and the
    answer of a call: whether it is an error, and the text of its first content. *)
Variable list_tools : M R (list (pystr * json)).
Variable call_tool : pystr → json → M R (bool * pystr).

Definition input_limit : exn := exn_of ValueError "mcp_input_limit".
Definition discovery_mismatch : exn := exn_of PermissionError "mcp_discovery_mismatch".
Definition tool_error : exn := exn_of RuntimeError "mcp_tool_error".

(** [{t.name for t in tools} == {"analyze_logs"}]. *)
Definition only_analyze (tools : list (pystr * json)) : bool :=
  bool_decide (tools ≠ []) && forallb (λ t, str_eqb t.1 (u "analyze_logs")) tools.

Definition mcp_analyze (records : list json) : M R json :=
  rt_authorize (u "logs") ;;
  (if 100 <? len records then raise input_limit else mret ()) ;;
  tools ← list_tools;
  (if only_analyze tools then mret () else raise discovery_mismatch) ;;
  rt_event (u "mcp_discovery")
    (JObj [(u "server", js "log-analysis@1"); (u "tools", JList [js "analyze_logs"]);
           (u "schema", match tools with t :: _ => t.2 | [] => JNull end)]) ;;
  result ← call_tool (u "analyze_logs") (JObj [(u "records", JList records)]);
  if result.1 : bool then raise tool_error else lift (loads result.2).
End gateway.

(** ** The tool *)

(** [Counter(texts)] as a dict: in the order of first occurrence. *)
Definition counter (texts : list pystr) : list (pystr * Z) :=
  foldl (λ c t, assoc_set t (1 + default 0 (assoc t c)) c) [] texts.

Section analyze.
Variable container_repr : json → pystr.

Definition level_text (r : json) : result pystr :=
  v ← jget_or (js "UNKNOWN") "level" r; Ok (py_str container_repr v).

Definition analyze_logs (records : list json) : result json :=
  guard_r (len records <=? 100) (exn_of ValueError "record_limit") ;;
  ts ← map_r level_text records;
  Ok (JObj [(u "version", js "1"); (u "count", JInt (len records));
            (u "levels", JObj ((λ kv, (kv.1, JInt kv.2)) <$> counter ts))]).
End analyze.

(** ** The counts *)

Definition occurrences (t : pystr) (ts : list pystr) : Z := len (filter (λ s, s = t) ts).

Lemma keys_set_once {A} k (v : A) l :
  keys (assoc_set k v l) = if bool_decide (k ∈ keys l) then keys l else keys l ++ [k].
Proof.
  induction l as [|[k' v'] l IH]; cbn [assoc_set]; [done|]. unfold str_eqb.
  destruct (decide (k = k')) as [<-|Hne].
  - rewrite (bool_decide_true (k = k)) by done.
    rewrite bool_decide_true by apply list_elem_of_here. done.
  - rewrite (bool_decide_false (k = k')) by done.
    change (k' :: keys (assoc_set k v l) =
      if bool_decide (k ∈ k' :: keys l) then k' :: keys l else k' :: keys l ++ [k]).
    rewrite IH. destruct (decide (k ∈ keys l)).
    + by rewrite !bool_decide_true by (done || by apply list_elem_of_further).
    + rewrite !bool_decide_false; [done| |done]. by intros [->|?]%elem_of_cons.
Qed.

Lemma NoDup_keys_set {A} k (v : A) l : NoDup (keys l) → NoDup (keys (assoc_set k v l)).
Proof.
  intros H. rewrite keys_set_once. case_bool_decide; [done|].
  apply NoDup_app. split; [done|]. split; [|apply NoDup_singleton].
  by intros x Hx ->%list_elem_of_singleton.
Qed.

Definition total (c : list (pystr * Z)) : Z := foldr (λ kv n, kv.2 + n) 0 c.

Lemma total_set t l :
  total (assoc_set t (1 + default 0 (assoc t l)) l) = 1 + total l.
Proof.
  unfold total. induction l as [|[k n] l IH]; cbn; [done|]. unfold str_eqb in *.
  case_bool_decide; cbn; [lia|]. rewrite IH. lia.
Qed.

(** What the counter holds after [ts]. *)
Definition counted (c : list (pystr * Z)) (ts : list pystr) : Prop :=
  NoDup (keys c) ∧ total c = len ts ∧ ∀ t, default 0 (assoc t c) = occurrences t ts.

Lemma counter_counted ts : counted (counter ts) ts.
Proof.
  unfold counter. induction ts as [|t ts IH] using rev_ind; [by repeat constructor|].
  rewrite foldl_app. cbn. destruct IH as (Hnd & Ht & Ho). set (c := foldl _ _ ts) in *.
  split; [by apply NoDup_keys_set|]. split.
  - rewrite total_set, Ht. unfold len. rewrite length_app. cbn. lia.
  - intros s. unfold occurrences, len. rewrite filter_app, length_app.
    destruct (decide (s = t)) as [->|Hne].
    + rewrite assoc_set_same. cbn. rewrite decide_True by done. cbn.
      rewrite (Ho t). unfold occurrences, len. lia.
    + rewrite assoc_set_other by done. cbn. rewrite decide_False by congruence. cbn.
      rewrite (Ho s). unfold occurrences, len. lia.
Qed.

(** The log-analysis tool counts what it is given: for at most 100 records it
    returns each level once, with the number of records of that level, and the counts
    add up to the number of records; for more it refuses. *)
Theorem analyze_logs_counts repr records v :
  analyze_logs repr records = Ok v →
  len records ≤ 100 ∧
  ∃ ts c, map_r (level_text repr) records = Ok ts ∧
    v = JObj [(u "version", js "1"); (u "count", JInt (len records));
              (u "levels", JObj ((λ kv, (kv.1, JInt kv.2)) <$> c))] ∧
    NoDup (keys c) ∧ foldr (λ kv n, kv.2 + n) 0 c = len records ∧
    ∀ t, default 0 (assoc t c) = len (filter (λ s, s = t) ts).
Proof.
  unfold analyze_logs. intros H. apply bind_ok in H as ([] & Hn%guard_r_ok & H).
  apply Z.leb_le in Hn. apply bind_ok in H as (ts & Hts & H).
  split; [done|]. exists ts, (counter ts). destruct (counter_counted ts) as (H1 & H2 & H3).
  split; [done|]. split; [by injection H as <-|]. split; [done|]. split; [|done].
  unfold total in H2. rewrite H2. apply map_r_ok, Forall2_length in Hts.
  unfold len. by rewrite Hts.
Qed.

Definition some_levels : list json :=
  [JObj [(u "level", js "ERROR")]; JObj []; JObj [(u "level", js "ERROR")]].

Lemma analyze_logs_counts_witness :
  match analyze_logs (dumps false false) some_levels with
  | Ok v => len some_levels ≤ 100 ∧
      v = JObj [(u "version", js "1"); (u "count", JInt 3);
                (u "levels", JObj [(u "ERROR", JInt 2); (u "UNKNOWN", JInt 1)])]
  | Raise _ => False
  end.
Proof.
  assert (analyze_logs (dumps false false) some_levels = Ok (JObj
    [(u "version", js "1"); (u "count", JInt 3);
     (u "levels", JObj [(u "ERROR", JInt 2); (u "UNKNOWN", JInt 1)])])) as H by by vm_compute.
  rewrite H. split; [|reflexivity].
  exact (proj1 (analyze_logs_counts (dumps false false) some_levels _ H)).
Defined.

(** ** Which tools a skill reaches *)

(** An approved skill reaches the sources it lists and no other. *)
Lemma allowed_tool_spec name tool spec src :
  allowed_tool name tool = Some (spec, src) →
  assoc name SKILLS = Some spec ∧ src ∈ sk_tools spec ∧ source_name src = tool.
Proof.
  unfold allowed_tool. destruct (assoc name SKILLS) as [sp|]; [|done].
  destruct (str_eqb _ _); [|done].
  destruct (filter _ _) as [|s l] eqn:Hf; [done|]. intros [= <- <-].
  assert (s ∈ filter (λ s, source_name s = tool) (sk_tools sp)) as Hin
    by (rewrite Hf; apply list_elem_of_here).
  apply list_elem_of_filter in Hin as [? ?]. done.
Qed.

Section skill_spec.
Context {R : Type} `{RO : RuntimeOps R}.
Variable query_tool : source → PlanStep → M R json.

(** A skill that is unknown or does not list the tool touches nothing. *)
Lemma skill_denied name tool step r :
  allowed_tool name tool = None → skill query_tool name tool step r = (r, Raise tool_denied).
Proof. unfold skill. by intros ->. Qed.
End skill_spec.
