(* ===== verification/Api.v ===== *)
(** * The context API (worker/incident_worker/context_api.py)

    The two endpoints other services call: [query] assembles a bundle for the run a
    caller names, after checking that the run is the one the control plane
    authorizes; [natural_query] interprets a question.  The exceptions they let out
    are HTTP errors of documented statuses. *)
From S2P Require Import Prelude.
From S2P Require Import PyStr.
From S2P Require Import PyRe.
From S2P Require Import Json.
From S2P Require Import PyTime.
From S2P Require Import IsoTime.
From S2P Require Import Contracts.
From S2P Require Import Runtime.
From S2P Require Import Context.
From S2P Require Import Assemble.
From S2P Require Import AssembleSpec.
From S2P Require Import Connectors.
From S2P Require Import Natural.

(** ** Identity and scope *)

Definition http_exception (st : Z) (detail : pystr) : exn := Exn (HTTPException st) detail.

(** [secrets.compare_digest(a, b)] of two strings: only ASCII is accepted. *)
Definition compare_digest (a b : pystr) : result bool :=
  if forallb (λ c, c <? 128) (a ++ b) then Ok (str_eqb a b) else Raise type_error.

Definition check_identity (given internal : pystr) : result () :=
  same ← compare_digest given internal;
  guard_r same (http_exception 401 (u "service_identity_required")).

Section dt_eqb.
Context {TD : TzDatabase}.

(** An offset that depends on the fold makes a value of another zone unequal. *)
Definition fold_dependent (d : datetime) : bool :=
  match tzinfo d with
  | Zone n => negb (zone_offset n (wall d) true =? zone_offset n (wall d) false)
  | _ => false
  end.

(** [d == e]: values of one zone by wall clock, of two zones as instants; a naive value
    equals no aware one. *)
Definition dt_eqb (d e : datetime) : bool :=
  if decide (tzinfo d = tzinfo e) then wall d =? wall e
  else match utc d, utc e with
       | Some x, Some y => (x =? y) && negb (fold_dependent d) && negb (fold_dependent e)
       | _, _ => false
       end.
End dt_eqb.

(** [datetime.fromisoformat(v)]. *)
Definition read_iso (v : json) : result datetime :=
  match v with JStr s => fromisoformat s | _ => Raise type_error end.

Definition scope_differs : exn := exn_of PermissionError "scope_mismatch".
Definition time_differs : exn := exn_of PermissionError "time_scope_mismatch".

(** One of the three fields of the caller's run against the authorized scope. *)
Definition check_field (scope : json) (k : string) (v : pystr) : result () :=
  w ← jindex k scope; guard_r (py_eqb w (JStr v)) scope_differs.

Definition check_scope {TD : TzDatabase} (scope : json) (r : RunContext) : result () :=
  check_field scope "subject" (subject r) ;;
  check_field scope "team" (team r) ;;
  check_field scope "service" (service r) ;;
  s ← jindex "start" scope ≫= read_iso;
  if negb (dt_eqb (start r) s) then Raise time_differs else
  e ← jindex "end" scope ≫= read_iso;
  guard_r (dt_eqb (end_ r) e) time_differs.

(** What the [except] clauses make of an exception. *)
Definition to_http (e : exn) : exn :=
  match exn_cls e with
  | HTTPStatusError s =>
      http_exception (if (s =? 401) || (s =? 403) || (s =? 409) then s else 502)
        (u "scope_authorization_failed")
  | PermissionError => http_exception 403 (exn_msg e)
  | _ => e
  end.

(** ** The endpoints *)

Section api.
Context {UT : UnicodeTables} {TD : TzDatabase} {W : Type}.
Variable post : pystr → json → M W response.
Variable monotonic : W → Z.
Variable sleep : Z → W → W.
Variable source_post : pystr → json → M W response.
Variable connect : M W (list Deployment).
Variable instant_iso : Z → pystr.
Variable timestamptz : json → result Z.
Variable trunc : pystr → result Z.
Variable now_iso : W → pystr.
Variable container_repr : json → pystr.
Variable elapsed : Runtime W * Registry → json.
Variable model_dump_json : ContextBundle → result pystr.
Variable observe : bool.
(** pydantic's [bundle.model_dump(mode="json")], and [INTERNAL_KEY]. *)
Variable model_dump : ContextBundle → result json.
Variable internal_key : pystr.

Abbreviation assemble_ := (@assemble UT TD (Runtime W * Registry)
  (desk_runtime post monotonic) container_repr
  (registry_query post monotonic sleep source_post connect instant_iso timestamptz trunc
     now_iso) elapsed model_dump_json observe).

(** The body of the [try], on a runtime made for the caller's run. *)
Definition query_body (rc : RunContext) (p : option QueryPlan)
    : M (Runtime W * Registry) json :=
  scope ← on_fst (authorize post monotonic (u "context"));
  lift (check_scope scope rc) ;;
  br ← assemble_ p None;
  lift (model_dump br.1).

(** [rt = Runtime(run)], with the registry the process shares. *)
Definition with_runtime {A} (rc : RunContext) (m : M (Runtime W * Registry) A)
    : M (W * Registry) A := λ s,
  match m (new_runtime monotonic rc s.1, s.2) with ((r, g), x) => ((world r, g), x) end.

Definition api_query (rc : RunContext) (p : option QueryPlan) (worker_key : pystr)
    : M (W * Registry) json :=
  lift (check_identity worker_key internal_key) ;;
  with_runtime rc (try_except (query_body rc p) (λ e, raise (to_http e))).

Definition invalid_interpretation : exn := http_exception 400 (u "invalid_interpretation").
Definition mistral_unavailable : exn := http_exception 502 (u "mistral_unavailable").

Definition natural_query (interpret : NaturalRequest → result Reply)
    (b : NaturalRequest) (worker_key : pystr) : result Reply :=
  check_identity worker_key internal_key ;;
  match interpret b with
  | Ok r => Ok r
  | Raise e => Raise (if is_value_error (exn_cls e) then invalid_interpretation
                      else mistral_unavailable)
  end.
End api.

(** ** Theorems *)

(** A scope that is the caller's run. *)
Definition scope_is {TD : TzDatabase} (scope : json) (r : RunContext) : Prop :=
  jindex "subject" scope = Ok (JStr (subject r)) ∧
  jindex "team" scope = Ok (JStr (team r)) ∧
  jindex "service" scope = Ok (JStr (service r)) ∧
  ∃ s e, (jindex "start" scope ≫= read_iso) = Ok s ∧ dt_eqb (start r) s = true ∧
         (jindex "end" scope ≫= read_iso) = Ok e ∧ dt_eqb (end_ r) e = true.

Lemma py_eqb_text v s : py_eqb v (JStr s) = true → v = JStr s.
Proof.
  destruct v as [|[]| | | | |]; cbn; try done. unfold str_eqb.
  intros H%bool_decide_eq_true. by subst.
Qed.

Lemma check_field_ok scope k v : check_field scope k v = Ok () → jindex k scope = Ok (JStr v).
Proof.
  unfold check_field. intros H. apply bind_ok in H as (w & Hw & H%guard_r_ok).
  by apply py_eqb_text in H as ->.
Qed.

Lemma check_scope_ok {TD : TzDatabase} scope r : check_scope scope r = Ok () → scope_is scope r.
Proof.
  unfold check_scope. intros H.
  apply bind_ok in H as ([] & H1%check_field_ok & H).
  apply bind_ok in H as ([] & H2%check_field_ok & H).
  apply bind_ok in H as ([] & H3%check_field_ok & H).
  apply bind_ok in H as (s & Hs & H).
  destruct (dt_eqb (start r) s) eqn:Hds; [|done]. cbn [negb] in H.
  apply bind_ok in H as (e & He & H%guard_r_ok).
  do 3 (split; [done|]). eauto 10.
Qed.

Lemma check_identity_ok a b : check_identity a b = Ok () → a = b.
Proof.
  unfold check_identity, compare_digest. destruct (forallb _ _); [|done]. cbn.
  unfold str_eqb. by case_bool_decide.
Qed.

Section api_spec.
Context {UT : UnicodeTables} {TD : TzDatabase} {W : Type}.
Variable post : pystr → json → M W response.
Variable monotonic : W → Z.
Variable sleep : Z → W → W.
Variable source_post : pystr → json → M W response.
Variable connect : M W (list Deployment).
Variable instant_iso : Z → pystr.
Variable timestamptz : json → result Z.
Variable trunc : pystr → result Z.
Variable now_iso : W → pystr.
Variable container_repr : json → pystr.
Variable elapsed : Runtime W * Registry → json.
Variable model_dump_json : ContextBundle → result pystr.
Variable observe : bool.
Variable model_dump : ContextBundle → result json.
Variable internal_key : pystr.

Abbreviation query_ := (api_query post monotonic sleep source_post connect instant_iso
  timestamptz trunc now_iso container_repr elapsed model_dump_json observe model_dump
  internal_key).

(** C34. The context API never answers outside the authorized scope.  An answer is
    given only to a caller with the internal key, for a run whose subject, team,
    service and window the control plane itself returned for it, and it is the
    serialization of a bundle assembled by a valid plan whose evidence is all of that
    run: the worker's own connectors and runtime satisfy what the assembler assumes
    of them. *)
Theorem api_query_scoped rc p given s s' v :
  query_ rc p given s = (s', Ok v) →
  given = internal_key ∧
  (∃ r scope, authorize post monotonic (u "context") (new_runtime monotonic rc s.1)
     = (r, Ok scope) ∧ scope_is scope rc) ∧
  ∃ b, model_dump b = Ok v ∧ plan_ok (plan b) rc ∧
    Forall (evidence_ok (py_str container_repr) rc) (evidence b).
Proof.
  unfold api_query. intros H.
  apply M_bind_ok in H as (s1 & [] & [-> Hid]%lift_ok & H).
  split; [by apply check_identity_ok|].
  unfold with_runtime, try_except, query_body in H.
  set (r0 := new_runtime monotonic rc s.1) in *.
  unfold mbind at 1, M_bind at 1, on_fst in H. cbn [fst snd] in H.
  destruct (authorize post monotonic (u "context") r0) as [r1 [scope|e]] eqn:Ha; [|done].
  unfold mbind at 1, M_bind at 1, lift at 1 in H.
  destruct (check_scope scope rc) as [[]|e] eqn:Hs; [|done].
  apply check_scope_ok in Hs. split; [by exists r1, scope|].
  unfold mbind at 1, M_bind at 1 in H.
  pose proof (authorize_laws _ _ _ _ _ _ Ha) as (Hrun & _). cbn in Hrun.
  destruct (assemble _ _ _ _ _ p None _) as [[r2 g2] [[b recs]|e]] eqn:Hasm; [|done].
  unfold lift in H. cbn [fst] in H.
  destruct (model_dump b) as [d|e] eqn:Hd; [|done]. injection H as <- <-.
  exists b. split; [done|].
  eapply (assemble_inv (R:=Runtime W * Registry)) with (rc := rc) in Hasm
    as (Hp & _ & l & (He & _) & (Hev & _) & _).
  - split; [done|]. by rewrite Hev.
  - apply registry_law.
  - done.
Qed.

End api_spec.

(** ** Witness *)

Section api_witness.
#[local] Existing Instances UtcOnly AsciiCjk.

(** A control plane that authorizes [some_run], and a runbook source. *)
Definition plane_scope : json :=
  JObj [(u "subject", js "alice"); (u "team", js "orders"); (u "service", js "svc-17");
        (u "start", JStr (isoformat some_time)); (u "end", JStr (isoformat some_time));
        (u "watermark", JInt 1)].
Definition plane1 (_ : pystr) (_ : json) : M Z response := λ n,
  (n, Ok (Response 200 (Ok plane_scope))).
Definition source1 (_ : pystr) (_ : json) : M Z response := λ n,
  (n + 1, Ok (Response 200 (Ok (JObj
    [(u "records", JList [JObj [(u "id", js "rb-1"); (u "event_time", js "t");
        (u "content", JObj [(u "markdown", js "check the pool")]);
        (u "locator", js "fixture://rb"); (u "version", js "1")]]);
     (u "watermark", JInt 1); (u "observed_at", js "t"); (u "next_cursor", JNull)])))).

Definition one_step : QueryPlan :=
  {| plan_service := u "svc-17"; plan_start := some_time; plan_end := some_time;
     plan_steps := [plan_step Runbook ORunbook ["Service"; "runbook"]%string 10] |}.
Definition dump_ids (b : ContextBundle) : result json :=
  Ok (JList ((λ e, JStr (ev_id e)) <$> evidence b)).

(** [some_run] with a budget for three authorizations. *)
Definition wide_run : RunContext :=
  {| run_id := u "run-1"; subject := u "alice"; team := u "orders";
     service := u "svc-17"; symptom := u "timeouts"; start := some_time;
     end_ := some_time; source_version := 1; generation := 1; attempt := 1;
     owner := u "w:1"; lease_seconds := 15; query := default_log_query;
     budget := {| steps := 3; seconds := 60; output_bytes := 262144; model_calls := 1;
                  tokens := 12000 |} |}.

Abbreviation ask1 key := (api_query plane1 (λ _, 0) (λ _ n, n) source1 (λ n, (n, Ok []))
  str_of_Z (λ _, Ok 0) (λ _, Ok 0) (λ _, u "t") (dumps false false) (λ _, JInt 0)
  (λ _, Ok []) false dump_ids (u "internal") wide_run (Some one_step) (u key)
  (0, REGISTRY)).

Example wrong_key_refused :
  (ask1 "guess").2 = Raise (http_exception 401 (u "service_identity_required")).
Proof. by vm_compute. Qed.

Definition one_id (v : json) : bool :=
  match v with JList [JStr _] => true | _ => false end.

Lemma api_query_scoped_witness :
  match (ask1 "internal").2 with
  | Ok v => one_id v = true ∧
      ∃ b, dump_ids b = Ok v ∧ plan_ok (plan b) wide_run
  | Raise _ => False
  end.
Proof.
  assert (match (ask1 "internal").2 with
          | Ok v => one_id v = true | _ => False end) as Hv by by vm_compute.
  revert Hv. destruct (ask1 "internal") as [s' [v|e]] eqn:H; cbn [snd]; [|done].
  intros Hv. split; [exact Hv|].
  destruct (api_query_scoped plane1 (λ _, 0) (λ _ n, n) source1 (λ n, (n, Ok []))
    str_of_Z (λ _, Ok 0) (λ _, Ok 0) (λ _, u "t") (dumps false false) (λ _, JInt 0)
    (λ _, Ok []) false dump_ids (u "internal") wide_run (Some one_step) (u "internal")
    (0, REGISTRY) s' v H) as (_ & _ & b & Hd & Hp & _).
  exists b. split; [exact Hd|exact Hp].
Defined.
End api_witness.
