(* ===== verification/Frames.v ===== *)
(** * What the worker's computations preserve

    A relation between runtimes that every operation of the runtime and of the
    connectors preserves is preserved by everything built from them: the assembler,
    the cache, the graph's node, the model and agent adapters, the artifacts and the
    MCP tool.  The theorems about a whole task (Main.v) instantiate it with the
    requests a runtime has sent. *)
From S2P Require Import Prelude.
From S2P Require Import PyStr.
From S2P Require Import PyRe.
From S2P Require Import Json.
From S2P Require Import JsonParse.
From S2P Require Import PyTime.
From S2P Require Import Contracts.
From S2P Require Import Runtime.
From S2P Require Import Context.
From S2P Require Import Assemble.
From S2P Require Import Report.
From S2P Require Import Mistral.
From S2P Require Import Cache.
From S2P Require Import Harness.
From S2P Require Import Artifacts.
From S2P Require Import Gateway.

(** A relation on the first component of a state. *)
Definition on_first {S T} (P : S → S → Prop) (s s' : S * T) : Prop := P s.1 s'.1.

#[export] Instance on_first_preorder {S T} (P : S → S → Prop) `{!PreOrder P} :
  PreOrder (@on_first S T P).
Proof.
  split; unfold on_first; [by intros s|]. intros s1 s2 s3 H1 H2. by etrans.
Qed.

Section first.
Context {S T : Type} (P : S → S → Prop) `{!PreOrder P}.

Lemma keeps_on_fst {A} (m : M S A) : keeps P m → keeps (@on_first S T P) (on_fst m).
Proof.
  intros Hm [s t] s' x. unfold on_fst, on_first. cbn.
  destruct (m s) as [s1 y] eqn:H. intros [= <- _]. by apply Hm in H.
Qed.

Lemma keeps_on_snd {A} (m : M T A) : keeps (@on_first S T P) (on_snd m).
Proof.
  intros [s t] s' x. unfold on_snd, on_first. cbn.
  destruct (m t) as [t1 y]. intros [= <- _]. cbn. reflexivity.
Qed.

Lemma keeps_modify_snd (f : S * T → T) :
  keeps (@on_first S T P) (modify (λ s, (s.1, f s))).
Proof. intros [s t] s' x [= <- _]. unfold on_first. cbn. reflexivity. Qed.
End first.

#[export] Hint Extern 1 (keeps (on_first _) (on_fst _)) => apply keeps_on_fst : keeps.
#[export] Hint Extern 1 (keeps (on_first _) (on_snd _)) =>
  apply (keeps_on_snd _) : keeps.
#[export] Hint Extern 1 (keeps (on_first _) (modify _)) =>
  apply (keeps_modify_snd _) : keeps.

Section frames.
Context {UT : UnicodeTables} {TD : TzDatabase} {JR : JsonRuntime}.
Context {R : Type} `{RO : RuntimeOps R}.
Variable P : R → R → Prop.
Context `{!PreOrder P}.
Hypothesis authorize_keeps : ∀ t, keeps P (rt_authorize t).
Hypothesis hook_keeps : ∀ n d, keeps P (rt_hook n d).
Hypothesis event_keeps : ∀ k d, keeps P (rt_event k d).

Variable container_repr : json → pystr.
Variable registry_query : PlanStep → option json → M R json.
Hypothesis query_keeps : ∀ step c, keeps P (registry_query step c).
Variable elapsed : R → json.
Variable model_dump_json : ContextBundle → result pystr.
Variable observe : bool.

#[local] Hint Extern 2 (keeps P (rt_authorize _)) => apply authorize_keeps : keeps.
#[local] Hint Extern 2 (keeps P (rt_hook _ _)) => apply hook_keeps : keeps.
#[local] Hint Extern 2 (keeps P (rt_event _ _)) => apply event_keeps : keeps.
#[local] Hint Extern 2 (keeps P (registry_query _ _)) => apply query_keeps : keeps.

Abbreviation PF := (@on_first R locals P).

Lemma loc_keeps f : keeps PF (loc f).
Proof. unfold loc. auto with keeps. Qed.
#[local] Hint Extern 1 (keeps _ (loc _)) => apply loc_keeps : keeps.

Lemma the_run_keeps : keeps PF (the_run (R:=R)).
Proof. unfold the_run. keeps_steps. Qed.
#[local] Hint Extern 1 (keeps _ the_run) => apply the_run_keeps : keeps.

Lemma check_mapping_keeps src c : keeps PF (check_mapping src c).
Proof. unfold check_mapping. keeps_steps. Qed.
#[local] Hint Extern 1 (keeps _ (check_mapping _ _)) => apply check_mapping_keeps : keeps.

Lemma process_row_keeps step out row :
  keeps PF (process_row container_repr step out row).
Proof. unfold process_row. keeps_steps. Qed.
#[local] Hint Extern 1 (keeps _ (process_row _ _ _ _)) => apply process_row_keeps : keeps.

Lemma more_pages_keeps n step pages out :
  keeps P (more_pages registry_query n step pages out).
Proof.
  revert pages out. induction n as [|n IH]; intros pages out; cbn [more_pages]; keeps_steps.
Qed.
#[local] Hint Extern 1 (keeps _ (more_pages _ _ _ _ _)) => apply more_pages_keeps : keeps.

Lemma fetch_keeps step recorded : keeps PF (fetch registry_query step recorded).
Proof. unfold fetch, fetch_recorded, fetch_live. keeps_steps. Qed.
#[local] Hint Extern 1 (keeps _ (fetch _ _ _)) => apply fetch_keeps : keeps.

Lemma do_step_keeps recorded step :
  keeps PF (do_step container_repr registry_query elapsed recorded step).
Proof. unfold do_step, try_step, step_failed. keeps_steps. Qed.
#[local] Hint Extern 1 (keeps _ (do_step _ _ _ _ _)) => apply do_step_keeps : keeps.

Lemma relate_keeps : keeps PF (relate (R:=R)).
Proof. unfold relate, compare_versions, relate_release, relate_observation. keeps_steps. Qed.
#[local] Hint Extern 1 (keeps _ relate) => apply relate_keeps : keeps.

Lemma assemble_body_keeps p recorded : keeps PF
  (assemble_body container_repr registry_query elapsed model_dump_json p recorded).
Proof. unfold assemble_body, finish. keeps_steps. Qed.

(** Everything the assembler does to its runtime, it does through the runtime. *)
Lemma assemble_keeps proposed recorded : keeps P
  (assemble container_repr registry_query elapsed model_dump_json observe proposed recorded).
Proof.
  intros r r' x. unfold assemble. destruct (validate_plan _ _) as [p|e]; [|by intros [= <- _]].
  destruct (assemble_body _ _ _ _ p recorded _) as [[r1 l] y] eqn:H. intros [= <- _].
  by apply assemble_body_keeps in H.
Qed.
#[local] Hint Extern 1 (keeps _ (assemble _ _ _ _ _ _ _)) => apply assemble_keeps : keeps.

(** *** The cache and the graph *)

Variable now : R → Z.
Variable validate_bundle : json → result ContextBundle.
Variable jsonb : pystr → result json.

Abbreviation PC := (@on_first R Tables P).

Lemma transaction_keeps {A} (m : M (R * Tables) A) : keeps PC m → keeps PC (transaction m).
Proof.
  intros Hm s s' x. unfold transaction. destruct (m s) as [s1 [a|e]] eqn:H;
    apply Hm in H; intros [= <- _]; done.
Qed.

Ltac cache_steps :=
  repeat (keeps_steps; match goal with
    |- keeps _ (transaction _) => apply transaction_keeps end).

Lemma cache_get_keeps : keeps PC (cache_get now validate_bundle jsonb).
Proof.
  unfold cache_get. keeps_step; [auto with keeps|].
  keeps_step; [apply transaction_keeps; keeps_steps|]. keeps_steps.
Qed.

Lemma cache_put_keeps b rec : keeps PC (cache_put now model_dump_json b rec).
Proof.
  unfold cache_put, index_source. keeps_step; [auto with keeps|].
  keeps_step; [keeps_steps|]. keeps_step; [keeps_steps|]. keeps_step; [keeps_steps|].
  apply transaction_keeps. keeps_steps.
Qed.
#[local] Hint Extern 1 (keeps _ (cache_get _ _ _)) => apply cache_get_keeps : keeps.
#[local] Hint Extern 1 (keeps _ (cache_put _ _ _ _)) => apply cache_put_keeps : keeps.

Lemma gather_keeps : keeps PC
  (gather container_repr registry_query elapsed model_dump_json observe now
     validate_bundle jsonb).
Proof. unfold gather, gather_bundle. keeps_steps. Qed.

(** *** The adapters *)

Variable getenv : string → option pystr.
Variable http_post : pystr → json → M R response.
Hypothesis post_keeps : ∀ url d, keeps P (http_post url d).
Variable took : R → json.
Variable answer_schema : json.
Variable set_iter : list pystr → list pystr.
#[local] Hint Extern 2 (keeps P (http_post _ _)) => apply post_keeps : keeps.

Lemma investigate_keeps b : keeps P
  (investigate container_repr getenv http_post took answer_schema set_iter b).
Proof. unfold investigate, complete, publish. keeps_steps. Qed.

Variable model : pystr.
Variable invoke : M R (list Message).
Hypothesis invoke_keeps : keeps P invoke.

Lemma deep_report_keeps b : keeps P (deep_report container_repr model invoke b).
Proof. unfold deep_report. keeps_steps. Qed.

(** *** Artifacts and tools *)

Variable uuid4 : M R pystr.
Hypothesis uuid4_keeps : keeps P uuid4.

Lemma artifact_put_keeps data :
  keeps (@on_first R Store P) (artifact_put uuid4 now data).
Proof. unfold artifact_put. keeps_steps. Qed.

Variable list_tools : M R (list (pystr * json)).
Variable call_tool : pystr → json → M R (bool * pystr).
Hypothesis list_tools_keeps : keeps P list_tools.
Hypothesis call_tool_keeps : ∀ n d, keeps P (call_tool n d).

Lemma mcp_analyze_keeps records : keeps P (mcp_analyze list_tools call_tool records).
Proof. unfold mcp_analyze. keeps_steps. Qed.
End frames.
