(* ===== verification/Main.v ===== *)
(** * The worker (worker/incident_worker/main.py)

    [process], one claimed task from its checkpoint to its published result or its
    failure report, composed of the components the other files model, and the claim
    loop.  The runtime is the live one, so the requests a task sends to the control
    plane are a trace the theorems can speak about. *)
From S2P Require Import Prelude.
From S2P Require Import PyStr.
From S2P Require Import PyRe.
From S2P Require Import Json.
From S2P Require Import JsonParse.
From S2P Require Import PyTime.
From S2P Require Import Contracts.
From S2P Require Import Runtime.
From S2P Require Import Context.
From S2P Require Import Assemble.
From S2P Require Import Report.
From S2P Require Import Mistral.
From S2P Require Import Connectors.
From S2P Require Import Cache.
From S2P Require Import Harness.
From S2P Require Import Artifacts.
From S2P Require Import Gateway.
From S2P Require Import Frames.

(** ** Results *)

(** [result], whichever adapter made it. *)
Inductive Final :=
| FReport (r : Report)
| FModel (p : Published)
| FDeep (d : DeepReport).

Definition final_report (f : Final) : Report :=
  match f with FReport r => r | FModel p => p_report p | FDeep d => d_report d end.

(** [result.get("answer_evidence", [])] and [result.get("model", {})]. *)
Definition final_cited (f : Final) : list pystr :=
  match f with FModel p => p_answer_evidence p | _ => [] end.
Definition final_model (f : Final) : json :=
  match f with FModel p => p_model p | _ => JObj [] end.

Definition report_status (f : Final) : pystr :=
  let r := final_report f in
  let has_logs := existsb (λ e, bool_decide (ev_source e = Logs)) (r_evidence r) in
  let known := ev_id <$> r_evidence r in
  let has_answer := existsb (λ i, mem i known) (final_cited f) in
  if negb has_logs && negb has_answer then u "waiting_information"
  else match r_missing r with [] => u "completed" | _ => u "partial" end.

Definition log_snippets (f : Final) : list json :=
  snippet <$> of_source Logs (r_evidence (final_report f)).

Section manifest.
Variable getenv : string → option pystr.

Definition env_or (k : string) (d : pystr) : pystr := default d (getenv k).
Definition harness_is (h : string) : bool := bool_decide (getenv "HARNESS" = Some (u h)).

Definition manifest (r : RunContext) (recording : json) (f : Final) : result json :=
  m ← jget "model" (final_model f);
  usage ← jget_or (JObj []) "usage" (final_model f);
  known ← jget "total_tokens" usage;
  let name := if truthy m then m else JStr
    (if harness_is "deepagents" then env_or "MODEL_NAME" (u "unknown")
     else u "none-deterministic") in
  Ok (JObj
    [(u "version", js "1"); (u "code", JStr (env_or "CODE_VERSION" (u "working-tree")));
     (u "model", name);
     (u "model_parameters", JObj [(u "temperature",
        if harness_is "mistral" then JInt 0 else js "provider-default")]);
     (u "prompt", js "investigate-v1");
     (u "skills", JList [js "release-compare@1"; js "log-analysis@1"]);
     (u "tool_schema", js "1"); (u "ontology", js "1"); (u "source_mapping", js "2");
     (u "retrieval", js "indexed-stratified-3-pages-v2");
     (u "permission_policy", js "go-v1"); (u "snapshots", recording);
     (u "evaluator", js "rules-v1");
     (u "cost", JObj [(u "known_model_tokens", known); (u "estimated_usd", JNull);
        (u "unknown", js "USD cost not calculated; interpretation usage is in queued event")]);
     (u "generation", JInt (generation r))]).
End manifest.

(** ** What is logged of a failure *)

Definition LOGGED_PREFIXES : list pystr :=
  u <$> ["mistral_"; "model_"; "budget_"; "lease_"; "ungrounded_"]%string.

Definition failure_reason (e : exn) : pystr :=
  if (bool_decide (exn_cls e = RuntimeError) || is_value_error (exn_cls e))
     && existsb (λ p, startswith p (exn_msg e)) LOGGED_PREFIXES
  then exn_msg e else u "redacted".

(** ** The state of a worker process *)

(** A checkpoint of a thread: the values of the graph's channels once its node has
    run. *)
Record Checkpoint := { cp_values : option State }.

Record Side := {
  tables : Tables; store : Store; checkpoints : gmap (list Z) Checkpoint;
  log : list (pystr * pystr) }.

Definition set_tables (t : Tables) (s : Side) : Side :=
  {| tables := t; store := store s; checkpoints := checkpoints s; log := log s |}.
Definition set_store (t : Store) (s : Side) : Side :=
  {| tables := tables s; store := t; checkpoints := checkpoints s; log := log s |}.
Definition set_checkpoint (k : pystr) (c : Checkpoint) (s : Side) : Side :=
  {| tables := tables s; store := store s; checkpoints := <[k := c]> (checkpoints s);
     log := log s |}.
Definition add_log (l : pystr * pystr) (s : Side) : Side :=
  {| tables := tables s; store := store s; checkpoints := checkpoints s;
     log := log s ++ [l] |}.

Section lenses.
Context {R : Type}.

Definition on_tables {A} (m : M (R * Tables) A) : M (R * Side) A := λ s,
  match m (s.1, tables s.2) with ((r, t), x) => ((r, set_tables t s.2), x) end.
Definition on_store {A} (m : M (R * Store) A) : M (R * Side) A := λ s,
  match m (s.1, store s.2) with ((r, t), x) => ((r, set_store t s.2), x) end.
Definition side (f : Side → Side) : M (R * Side) () := modify (λ s, (s.1, f s.2)).
End lenses.

Section worker.
Context {UT : UnicodeTables} {TD : TzDatabase} {JR : JsonRuntime} {W : Type}.
(** The world: the control plane, the clocks, the source service, the database of the
    deployments, the provider of the model, the identifiers. *)
Variable post : pystr → json → M W response.
Variable monotonic : W → Z.
Variable sleep : Z → W → W.
Variable source_post : pystr → json → M W response.
Variable connect : M W (list Deployment).
Variable provider_post : pystr → json → M W response.
Variable uuid4 : M W pystr.
Variable instant_iso : Z → pystr.
Variable timestamptz : json → result Z.
Variable trunc : pystr → result Z.
Variable now_iso : W → pystr.
Variable clock : W → Z.
Variable getenv : string → option pystr.
(** The interpreter and pydantic, as in the components. *)
Variable container_repr : json → pystr.
Variable elapsed : Runtime W * Registry → json.
Variable model_dump_json : ContextBundle → result pystr.
Variable validate_bundle : json → result ContextBundle.
Variable jsonb : pystr → result json.
Variable answer_schema : json.
Variable set_iter : list pystr → list pystr.
(** [ContextBundle.model_validate(result["context"])], and the report as the JSON of
    the callback. *)
Variable revalidate : ContextBundle → result ContextBundle.
Variable report_json : Final → json.
(** The agent library, the MCP session, the connection to the checkpoints, the test
    delays, and whether the heartbeat thread found the lease lost. *)
Variable invoke : M (Runtime W * Registry) (list Message).
Variable list_tools : M (Runtime W * Registry) (list (pystr * json)).
Variable call_tool : pystr → json → M (Runtime W * Registry) (bool * pystr).
Variable connect_checkpoints : M W ().
Variable pause : string → M W ().
Variable lost : W → bool.

Abbreviation RT := (Runtime W * Registry)%type.
Abbreviation MS := (M (RT * Side)).

Definition the_task : MS RunContext := s ← get; mret (run s.1.1).
Definition in_world {A} (m : M W A) : MS A := on_fst (on_fst (on_world m)).
Definition rt_call_ (op : pystr) (payload : list (pystr * json)) : MS json :=
  on_fst (on_fst (call post op payload)).

#[local] Instance live : RuntimeOps RT := desk_runtime post monotonic.

Abbreviation query_ := (registry_query post monotonic sleep source_post connect
  instant_iso timestamptz trunc now_iso).
Abbreviation observe := (bool_decide (is_Some (getenv "OBSERVE_NAMESPACE"))).
Abbreviation assemble_ :=
  (assemble container_repr query_ elapsed model_dump_json observe).
Definition now_ (r : RT) : Z := clock (world r.1).

(** *** Checkpoints *)

Definition thread (r : RunContext) (gen : Z) : pystr :=
  run_id r ++ u ":g" ++ str_of_Z gen.

(** [saver.get_tuple(...)]. *)
Definition get_checkpoint (k : pystr) : MS (option Checkpoint) :=
  s ← get; mret (checkpoints s.2 !! k).

(** A later generation may reuse what the previous one computed, if it is authorized
    and the sources have not moved since. *)
Definition recover : MS () :=
  r ← the_task;
  checkpoint ← get_checkpoint (thread r (generation r));
  if bool_decide (checkpoint = None) && (1 <? generation r) && (1 <? attempt r) then
    previous ← get_checkpoint (thread r (generation r - 1));
    match previous with
    | Some {| cp_values := Some st |} =>
        on_fst (rt_authorize (u "context")) ;;
        scope ← rt_call_ (u "authorize") [(u "tool", js "context")];
        wm ← lift (jindex "watermark" scope);
        if py_eqb wm (JInt (source_version r)) && py_eqb (JInt (st_source_version st)) wm
        then in_world uuid4 ;;
             side (set_checkpoint (thread r (generation r)) {| cp_values := Some st |})
        else mret ()
    | _ => mret ()
    end
  else mret ().

(** [g.invoke(None if current.values else {}, config)]: a thread whose node has run
    gives its values back; otherwise the node runs, and its values are saved. *)
Definition run_graph : MS State :=
  r ← the_task;
  current ← get_checkpoint (thread r (generation r));
  match current with
  | Some {| cp_values := Some st |} => mret st
  | _ =>
      side (set_checkpoint (thread r (generation r)) {| cp_values := None |}) ;;
      st ← on_tables (gather container_repr query_ elapsed model_dump_json observe now_
                        validate_bundle jsonb);
      side (set_checkpoint (thread r (generation r)) {| cp_values := Some st |}) ;;
      mret st
  end.

(** *** The result *)

Definition provider (url : pystr) (d : json) : M RT response :=
  on_fst (on_world (provider_post url d)).

Definition produce : MS (Final * json) :=
  if harness_is getenv "baseline" then
    br ← on_fst (assemble_ None None);
    rep ← lift (report container_repr br.1);
    mret (FReport rep, JObj br.2)
  else
    st ← run_graph;
    if harness_is getenv "mistral" then
      b ← lift (revalidate (r_context (st_report st)));
      p ← on_fst (investigate container_repr getenv provider (λ _, JInt 0) answer_schema
                    set_iter b);
      mret (FModel p, st_recording st)
    else if harness_is getenv "deepagents" then
      b ← lift (revalidate (r_context (st_report st)));
      d ← on_fst (deep_report container_repr (env_or getenv "MODEL_NAME" (u "test-model"))
                    invoke b);
      mret (FDeep d, st_recording st)
    else mret (FReport (st_report st), st_recording st).

Definition enabled (k : string) : bool := bool_decide (getenv k = Some (u "1")).

Definition rt_event_ (k : string) (d : json) : MS () := on_fst (rt_event (u k) d).

(** The optional analyses, before the result. *)
Definition analyses (f : Final) (recording : json) : MS () :=
  (if enabled "ENABLE_SANDBOX" then
     a ← rt_call_ (u "sandbox") [(u "records", JList (log_snippets f))];
     rt_event_ "sandbox_analysis" a
   else mret ()) ;;
  (if enabled "ENABLE_MCP" then
     a ← on_fst (mcp_analyze list_tools call_tool (log_snippets f));
     rt_event_ "mcp_analysis" a
   else mret ()) ;;
  match first_set [getenv "S3_ENDPOINT"] with
  | Some _ =>
      pointer ← on_store (artifact_put (on_fst (on_world uuid4)) now_ recording);
      rt_event_ "artifact_saved" pointer
  | None => mret ()
  end.

Definition lease_lost : exn := exn_of RuntimeError "lease_lost".

Definition publish_result (f : Final) (recording : json) : MS () :=
  r ← the_task;
  m ← lift (manifest getenv r recording f);
  on_fst (on_fst (result_ post sleep uuid4 (report_status f) (report_json f) m)) ;;
  mret ().

(** Everything up to the callback. *)
Definition prepare : MS (Final * json) :=
  in_world (pause "TEST_BEFORE_QUERY_SECONDS") ;;
  in_world connect_checkpoints ;;
  recover ;;
  fr ← produce;
  r ← the_task;
  rt_event_ "checkpoint_saved" (JObj [(u "generation", JInt (generation r))]) ;;
  in_world (pause "TEST_DELAY_SECONDS") ;;
  analyses fr.1 fr.2 ;;
  s ← get;
  (if lost (world s.1.1) then raise lease_lost else mret ()) ;;
  on_fst (rt_hook (u "run_finished")
    (JObj [(u "mode", JStr (r_mode (final_report fr.1)));
           (u "facts", JInt (len (r_facts (final_report fr.1))))])) ;;
  mret fr.

(** The [except] clause. *)
Definition task_failed (e : exn) : MS () :=
  side (add_log (u (exn_name (exn_cls e)), failure_reason e)) ;;
  try_except (rt_call_ (u "failure") [(u "kind", JStr (u (exn_name (exn_cls e))))] ;; mret ())
    (λ _, mret ()).

(** [process(raw)] after the contract accepted [raw]. *)
Definition process (rc : RunContext) (s : W * (Registry * Side)) :
    (Runtime W * Registry) * Side * result () :=
  try_except (fr ← prepare; publish_result fr.1 fr.2) task_failed
    ((new_runtime monotonic rc s.1, s.2.1), s.2.2).

(** One beat of the heartbeat thread: whether it found the lease lost. *)
Definition heartbeat : M (Runtime W) bool :=
  try_except (call post (u "heartbeat") [] ;; mret false) (λ _, mret true).
End worker.

(** ** The claim loop *)

Record Loop := { pending : list Z; submitted : list json; waits : Z }.

Definition idle (p : list Z) (l : Loop) : Loop :=
  {| pending := p; submitted := submitted l; waits := waits l + 1 |}.

(** One iteration: finished tasks leave, and a free slot claims at most one task; the
    body of a claim that is not JSON ends the loop. *)
Definition poll (slots : Z) (finished : Z → bool) (claim : result response) (l : Loop)
    : result Loop :=
  let p := filter (λ f, finished f = false) (pending l) in
  if len p <? slots then
    match claim with
    | Ok r =>
        if status r =? 200 then
          task ← body r;
          Ok {| pending := p ++ [len (submitted l)]; submitted := submitted l ++ [task];
                waits := waits l |}
        else Ok (idle p l)
    | Raise e =>
        match exn_cls e with
        | TransportError _ | HTTPStatusError _ => Ok (idle p l)
        | _ => Raise e
        end
    end
  else Ok (idle p l).

(** A sequence of iterations, each with what had finished and what the claim answered. *)
Fixpoint polls (slots : Z) (ins : list ((Z → bool) * result response)) (l : Loop)
    : result Loop :=
  match ins with
  | [] => Ok l
  | (finished, claim) :: ins' => l' ← poll slots finished claim l; polls slots ins' l'
  end.

(** The task a claim hands over. *)
Definition offered (claim : result response) : option json :=
  match claim with
  | Ok r => if status r =? 200 then
              match body r with Ok t => Some t | Raise _ => None end else None
  | Raise _ => None
  end.

Record loop_ok (slots : Z) (l : Loop) : Prop := {
  loop_slots : len (pending l) ≤ slots;
  loop_known : Forall (λ f, 0 ≤ f < len (submitted l)) (pending l);
  loop_once : NoDup (pending l) }.

Lemma len_filter_le {A} (P : A → Prop) `{∀ x, Decision (P x)} (l : list A) :
  len (filter P l) ≤ len l.
Proof. unfold len. pose proof (length_filter P l). lia. Qed.

Lemma poll_ok slots finished claim l l' :
  loop_ok slots l → poll slots finished claim l = Ok l' →
  loop_ok slots l' ∧
  (submitted l' = submitted l ∨
   ∃ t, offered claim = Some t ∧ submitted l' = submitted l ++ [t]).
Proof.
  intros [Hl Hk Hd] H. unfold poll, offered in *.
  set (p := filter _ _) in H.
  assert (loop_ok slots (idle p l)) as Hidle.
  { split; cbn.
    - etrans; [apply len_filter_le|done].
    - apply Forall_forall. intros f [_ Hf]%list_elem_of_filter.
      exact (proj1 (Forall_forall _ _) Hk f Hf).
    - by apply NoDup_filter. }
  destruct (len p <? slots) eqn:Hs; [|by inv_ok; eauto].
  destruct claim as [r|e].
  - destruct (status r =? 200); [|by inv_ok; eauto].
    destruct (body r) as [t|e]; cbn in H; [|done]. inv_ok. cbn.
    split; [|by eauto]. destruct Hidle as [Hl' Hk' Hd']. cbn in *. split; cbn.
    + apply Z.ltb_lt in Hs. unfold len in *. rewrite length_app. cbn. lia.
    + apply Forall_app. split.
      * eapply Forall_impl; [exact Hk'|]. intros f Hf. unfold len in *.
        rewrite length_app. lia.
      * repeat constructor; unfold len; rewrite ?length_app; cbn; lia.
    + apply NoDup_app. split_and!; [done| |apply NoDup_singleton].
      intros f Hf ->%list_elem_of_singleton.
      apply (proj1 (Forall_forall _ _) Hk') in Hf. lia.
  - destruct (exn_cls e); inv_ok; eauto.
Qed.

(** The claim loop never oversubscribes: over any sequence of iterations at most
    [WORKER_SLOTS] tasks are pending, no task is pending twice, and the tasks submitted
    are, in order, tasks some claim answered with 200. *)
Theorem polls_bounded slots ins l :
  0 ≤ slots →
  polls slots ins {| pending := []; submitted := []; waits := 0 |} = Ok l →
  len (pending l) ≤ slots ∧ NoDup (pending l) ∧
  submitted l `sublist_of` omap (λ i, offered i.2) ins.
Proof.
  intros Hs. set (l0 := Build_Loop _ _ _).
  assert (loop_ok slots l0) as Hok by (split; [done|constructor..]).
  change (submitted l) with ([] ++ submitted l).
  assert (∀ l1, loop_ok slots l1 → polls slots ins l1 = Ok l →
    loop_ok slots l ∧ ∃ new, submitted l = submitted l1 ++ new ∧
      new `sublist_of` omap (λ i, offered i.2) ins) as Hgen.
  { induction ins as [|[fin claim] ins IH]; cbn [polls]; intros l1 Hl1 H; inv_ok.
    - split; [done|]. exists []. by rewrite app_nil_r.
    - apply poll_ok in Hm as [Hl2 Hsub]; [|done].
      apply IH in H as [Hl (new & Hnew & Hin)]; [|done]. split; [done|]. cbn.
      destruct Hsub as [E|(t & -> & E)]; rewrite E in Hnew.
      + exists new. split; [done|]. destruct (offered claim); [by constructor|done].
      + exists (t :: new). rewrite Hnew, <- app_assoc. split; [done|]. by constructor. }
  intros H. apply Hgen in H as [[Hl _ Hd] (new & Hnew & Hin)]; [|done].
  split; [done|]. split; [done|]. rewrite Hnew. done.
Qed.

(** The claim loop is live: when every pending task has finished by the next
    iteration and the control plane hands over a task each time, a worker with a slot
    submits every one of them, in order, without once waiting. *)
Theorem polls_live slots ts rs :
  0 < slots →
  Forall2 (λ t r, status r = 200 ∧ body r = Ok t) ts rs →
  ∃ l, polls slots ((λ r, (λ _, true, Ok r)) <$> rs)
         {| pending := []; submitted := []; waits := 0 |} = Ok l ∧
       submitted l = ts ∧ waits l = 0.
Proof.
  intros Hs H. set (l0 := Build_Loop _ _ _).
  change ts with (submitted l0 ++ ts). change 0 with (waits l0).
  generalize l0. clear l0. induction H as [|t r ts rs [Hr Hb] _ IH]; intros l0.
  - exists l0. by rewrite app_nil_r.
  - assert (filter (λ _ : Z, true = false) (pending l0) = []) as Hf
      by (induction (pending l0) as [|z zs IHz]; [done|by rewrite filter_cons_False]).
    cbn [fmap list_fmap polls]. unfold poll at 1. rewrite Hf, Hr, Hb.
    change (len []) with 0. apply Z.ltb_lt in Hs. rewrite Hs. cbn.
    match goal with |- context [polls slots _ ?l1] =>
      destruct (IH l1) as (l & Hl & Hsub & Hw) end.
    exists l. cbn in Hsub, Hw. rewrite Hsub, Hw, <- app_assoc. done.
Qed.

(** The status of a result is what the report holds: a result is "completed"
    only when nothing is missing and it rests on log evidence or on a citation of
    evidence it carries; with neither it is "waiting_information" even if nothing is
    missing. *)
Theorem report_status_honest f :
  let grounded := (∃ e, e ∈ r_evidence (final_report f) ∧ ev_source e = Logs) ∨
    (∃ i, i ∈ final_cited f ∧ i ∈ ev_id <$> r_evidence (final_report f)) in
  (report_status f = u "completed" ↔ grounded ∧ r_missing (final_report f) = []) ∧
  (report_status f = u "partial" ↔ grounded ∧ r_missing (final_report f) ≠ []) ∧
  (report_status f = u "waiting_information" ↔ ¬ grounded).
Proof.
  intros grounded. set (b := existsb (λ e, bool_decide (ev_source e = Logs))
    (r_evidence (final_report f)) || existsb (λ i, mem i (ev_id <$> r_evidence
    (final_report f))) (final_cited f)).
  assert (b = true ↔ grounded) as Hb.
  { unfold b, grounded. rewrite orb_true_iff, !existsb_exists.
    setoid_rewrite bool_decide_eq_true. setoid_rewrite mem_elem_of.
    by setoid_rewrite list_elem_of_In. }
  assert (report_status f = if negb b then u "waiting_information" else
    match r_missing (final_report f) with [] => u "completed" | _ => u "partial" end) as ->
    by (unfold report_status, b; by rewrite negb_orb).
  rewrite <- Hb. destruct b, (r_missing (final_report f)); cbn [negb];
    split_and!; split; (try done); (try (by intros [? ?])); by intros H.
Qed.

(** ** Witnesses *)

(** Two slots, one task running: a claim, a refusal, a claim, a full worker. *)
Lemma polls_bounded_witness :
  let claim := λ z : Z, Ok (Response 200 (Ok (JInt z))) in
  let ins := [(λ _, false, claim 7); (λ _, false, Ok (Response 204 (Ok JNull)));
              (λ _, false, claim 8); (λ _, false, claim 9)] in
  match polls 2 ins {| pending := []; submitted := []; waits := 0 |} with
  | Ok l => submitted l = [JInt 7; JInt 8] ∧ len (pending l) ≤ 2
  | Raise _ => False
  end.
Proof.
  intros claim ins. destruct (polls 2 ins _) as [l|e] eqn:H.
  - split; [by injection H as <-|]. apply (polls_bounded 2 ins l); [lia|exact H].
  - discriminate H.
Defined.

Lemma polls_live_witness :
  ∃ l, polls 1 [(λ _, true, Ok (Response 200 (Ok (JInt 7))));
                (λ _, true, Ok (Response 200 (Ok (JInt 8))))]
         {| pending := []; submitted := []; waits := 0 |} = Ok l ∧
       submitted l = [JInt 7; JInt 8] ∧ waits l = 0.
Proof.
  apply (polls_live 1 [JInt 7; JInt 8]
    [Response 200 (Ok (JInt 7)); Response 200 (Ok (JInt 8))]); [lia|].
  repeat constructor.
Defined.
