(* ===== verification/MainSpec.v ===== *)
(** * What a task sends to the control plane

    The trace of one task: its own work never touches the callback, the callback is
    one body sent at most three times, and a failure is reported once, last. *)
From S2P Require Import Prelude.
From S2P Require Import PyStr.
From S2P Require Import PyRe.
From S2P Require Import Json.
From S2P Require Import JsonParse.
From S2P Require Import PyTime.
From S2P Require Import Contracts.
From S2P Require Import Runtime.
From S2P Require Import Context.
From S2P Require Import Assemble.
From S2P Require Import AssembleSpec.
From S2P Require Import Report.
From S2P Require Import Mistral.
From S2P Require Import Connectors.
From S2P Require Import Cache.
From S2P Require Import Harness.
From S2P Require Import Artifacts.
From S2P Require Import Gateway.
From S2P Require Import Frames.
From S2P Require Import Evaluation.
From S2P Require Import Cases.
From S2P Require Import Main.

(** ** Quiet computations *)

(** Requests that are neither the callback nor a failure report. *)
Definition is_work (rc : RunContext) (q : pystr * json) : Prop :=
  q.1 ≠ task_url rc (u "result") ∧ q.1 ≠ task_url rc (u "failure").

Definition quiet {W} (r r' : Runtime W) : Prop :=
  run r' = run r ∧ ∃ reqs, sent r' = sent r ++ reqs ∧ Forall (is_work (run r)) reqs.

#[export] Instance quiet_preorder {W} : PreOrder (@quiet W).
Proof.
  split.
  - intros r. split; [done|]. exists []. by rewrite app_nil_r.
  - intros r1 r2 r3 (H1 & q1 & E1 & F1) (H2 & q2 & E2 & F2). split; [congruence|].
    exists (q1 ++ q2). rewrite E2, E1, app_assoc. split; [done|].
    apply Forall_app. split; [done|]. by rewrite <- H1.
Qed.

Lemma task_url_inj rc op op' : task_url rc op = task_url rc op' → op = op'.
Proof.
  unfold task_url. intros H. do 2 apply app_inv_head in H. by apply app_inv_head in H.
Qed.

Section quiet.
Context {W : Type}.
Variable post : pystr → json → M W response.
Variable monotonic : W → Z.

Lemma quiet_sends (r r' : Runtime W) op body :
  op ≠ u "result" → op ≠ u "failure" →
  after_sending r [(task_url (run r) op, body)] r' → quiet r r'.
Proof.
  intros H1 H2 (Hr & _ & _ & Hs). split; [done|]. exists [(task_url (run r) op, body)].
  split; [done|]. repeat constructor; cbn; intros E; by apply task_url_inj in E.
Qed.

Lemma call_quiet op payload :
  op ≠ u "result" → op ≠ u "failure" → keeps quiet (call post op payload : M (Runtime W) _).
Proof. intros H1 H2 r r' x H. apply call_sends in H. by eapply quiet_sends. Qed.

Lemma on_world_quiet {A} (m : M W A) : keeps quiet (on_world m).
Proof.
  intros r r' x. unfold on_world. destruct (m (world r)). intros [= <- _].
  split; [done|]. exists []. by rewrite app_nil_r.
Qed.

Lemma set_calls_quiet n : keeps (@quiet W) (modify (set_calls n)).
Proof. intros r r' x [= <- _]. split; [done|]. exists []. by rewrite app_nil_r. Qed.

Lemma authorize_quiet t : keeps quiet (authorize post monotonic t : M (Runtime W) _).
Proof.
  intros r r' x (Hr & _ & [(_ & Hs & _)|(_ & _ & Hs)])%authorize_laws; split; [done| |done|].
  - exists []. by rewrite app_nil_r.
  - eexists. split; [exact Hs|]. repeat constructor; cbn; intros E; by apply task_url_inj in E.
Qed.

Lemma hook_quiet n d p : keeps quiet (hook post n d p : M (Runtime W) _).
Proof.
  unfold hook, event. keeps_steps. by apply call_quiet.
Qed.

Lemma event_quiet k d : keeps quiet (event post k d : M (Runtime W) _).
Proof. unfold event. by apply call_quiet. Qed.
End quiet.

#[export] Hint Extern 1 (keeps quiet (on_world _)) => apply on_world_quiet : keeps.
#[export] Hint Extern 1 (keeps quiet (authorize _ _ _)) => apply authorize_quiet : keeps.

Section connectors.
Context {W : Type}.
Variable post : pystr → json → M W response.
Variable monotonic : W → Z.
Variable sleep : Z → W → W.
Variable source_post : pystr → json → M W response.
Variable connect : M W (list Deployment).
Variable instant_iso : Z → pystr.
Variable timestamptz : json → result Z.
Variable trunc : pystr → result Z.
Variable now_iso : W → pystr.

Lemma with_circuit_quiet fn :
  keeps (on_first quiet) (with_circuit monotonic sleep fn : M (Runtime W * HTTPSource) _).
Proof.
  intros [r h] s' x. unfold with_circuit. cbn. destruct (circuit_call _ _ _ _) as [[w c] y].
  intros [= <- _]. split; [done|]. exists []. by rewrite app_nil_r.
Qed.

Lemma http_query_quiet step cursor :
  keeps (on_first quiet) (http_query post monotonic sleep source_post step cursor).
Proof.
  unfold http_query. keeps_step; [keeps_steps|]. keeps_step; [keeps_steps|].
  keeps_step; [apply with_circuit_quiet|]. keeps_steps.
Qed.

Lemma deployments_quiet step cursor :
  keeps quiet (deployments_query post monotonic connect instant_iso timestamptz trunc
                 now_iso step cursor).
Proof. unfold deployments_query. keeps_steps. Qed.

Lemma on_source_quiet {A} src upd (m : M (Runtime W * HTTPSource) A) :
  keeps (on_first quiet) m → keeps (on_first quiet) (on_source src upd m).
Proof.
  intros Hm [r g] s' x. unfold on_source. cbn.
  destruct (m (r, src g)) as [[r1 h] y] eqn:H. intros [= <- _]. by apply Hm in H.
Qed.

Lemma registry_quiet step cursor :
  keeps (on_first quiet) (registry_query post monotonic sleep source_post connect
    instant_iso timestamptz trunc now_iso step cursor).
Proof.
  unfold registry_query, source_query.
  destruct (step_source step); try apply on_source_quiet, http_query_quiet.
  apply (keeps_on_fst quiet), deployments_quiet.
Qed.
End connectors.

Section lens.
Context {R : Type} (P : R → R → Prop) `{!PreOrder P}.

Lemma on_tables_keeps {A} (m : M (R * Tables) A) :
  keeps (on_first P) m → keeps (on_first P) (on_tables m).
Proof.
  intros Hm [r s] s' x. unfold on_tables. cbn.
  destruct (m (r, tables s)) as [[r1 t] y] eqn:H. intros [= <- _]. by apply Hm in H.
Qed.

Lemma on_store_keeps {A} (m : M (R * Store) A) :
  keeps (on_first P) m → keeps (on_first P) (on_store m).
Proof.
  intros Hm [r s] s' x. unfold on_store. cbn.
  destruct (m (r, store s)) as [[r1 t] y] eqn:H. intros [= <- _]. by apply Hm in H.
Qed.
End lens.

(** ** A task *)

(** What a task may end its trace with. *)
Definition failed (rc : RunContext) (kind : pystr) : pystr * json :=
  (task_url rc (u "failure"), call_body rc [(u "kind", JStr kind)]).

Inductive conclusion (rc : RunContext) : list (pystr * json) → Prop :=
| concluded k body : (1 ≤ k)%nat → (k ≤ 3)%nat →
    conclusion rc (replicate k (task_url rc (u "result"), body))
| gave_up k body kind : (k ≤ 3)%nat →
    conclusion rc (replicate k (task_url rc (u "result"), body) ++ [failed rc kind]).

Section process_spec.
Context {UT : UnicodeTables} {TD : TzDatabase} {JR : JsonRuntime} {W : Type}.
Variable post : pystr → json → M W response.
Variable monotonic : W → Z.
Variable sleep : Z → W → W.
Variable source_post : pystr → json → M W response.
Variable connect : M W (list Deployment).
Variable provider_post : pystr → json → M W response.
Variable uuid4 : M W pystr.
Variable instant_iso : Z → pystr.
Variable timestamptz : json → result Z.
Variable trunc : pystr → result Z.
Variable now_iso : W → pystr.
Variable clock : W → Z.
Variable getenv : string → option pystr.
Variable container_repr : json → pystr.
Variable elapsed : Runtime W * Registry → json.
Variable model_dump_json : ContextBundle → result pystr.
Variable validate_bundle : json → result ContextBundle.
Variable jsonb : pystr → result json.
Variable answer_schema : json.
Variable set_iter : list pystr → list pystr.
Variable revalidate : ContextBundle → result ContextBundle.
Variable report_json : Final → json.
Variable invoke : M (Runtime W * Registry) (list Message).
Variable list_tools : M (Runtime W * Registry) (list (pystr * json)).
Variable call_tool : pystr → json → M (Runtime W * Registry) (bool * pystr).
Variable connect_checkpoints : M W ().
Variable pause : string → M W ().
Variable lost : W → bool.

(** The agent library and the MCP session reach the control plane only through the
    tools they are given, which authorize and record events. *)
Hypothesis invoke_quiet : keeps (on_first quiet) invoke.
Hypothesis list_tools_quiet : keeps (on_first quiet) list_tools.
Hypothesis call_tool_quiet : ∀ n d, keeps (on_first quiet) (call_tool n d).

Abbreviation RT := (Runtime W * Registry)%type.
Abbreviation Q := (@on_first RT Side (on_first quiet)).

Lemma rt_authorize_quiet t : keeps (on_first quiet) (@rt_authorize RT (live post monotonic) t).
Proof. cbn. apply (keeps_on_fst quiet), authorize_quiet. Qed.
Lemma rt_hook_quiet n d : keeps (on_first quiet) (@rt_hook RT (live post monotonic) n d).
Proof. cbn. apply (keeps_on_fst quiet), hook_quiet. Qed.
Lemma rt_event_quiet k d : keeps (on_first quiet) (@rt_event RT (live post monotonic) k d).
Proof. cbn. apply (keeps_on_fst quiet). keeps_step; [apply event_quiet|keeps_steps]. Qed.

Lemma in_world_quiet {A} (m : M W A) : keeps Q (in_world m).
Proof. unfold in_world. apply (keeps_on_fst _), (keeps_on_fst quiet), on_world_quiet. Qed.

Lemma rt_call_quiet op payload :
  op ≠ u "result" → op ≠ u "failure" → keeps Q (rt_call_ post op payload).
Proof.
  intros H1 H2. unfold rt_call_. by apply (keeps_on_fst _), (keeps_on_fst quiet), call_quiet.
Qed.

Lemma side_quiet f : keeps Q (side f : M (RT * Side) ()).
Proof. unfold side. apply (keeps_modify_snd _). Qed.

#[local] Hint Extern 1 (keeps _ (in_world _)) => apply in_world_quiet : keeps.
#[local] Hint Extern 1 (keeps _ (side _)) => apply side_quiet : keeps.
#[local] Hint Extern 1 (keeps _ (rt_call_ _ _ _)) => by apply rt_call_quiet : keeps.
#[local] Hint Extern 1 (keeps _ (rt_authorize _)) => apply rt_authorize_quiet : keeps.
#[local] Hint Extern 1 (keeps _ (rt_hook _ _)) => apply rt_hook_quiet : keeps.
#[local] Hint Extern 1 (keeps _ (rt_event _ _)) => apply rt_event_quiet : keeps.

Lemma rt_event__quiet k d : keeps Q (rt_event_ post monotonic k d).
Proof. unfold rt_event_. apply (keeps_on_fst _), rt_event_quiet. Qed.
#[local] Hint Extern 1 (keeps _ (rt_event_ _ _ _ _)) => apply rt_event__quiet : keeps.

Lemma the_task_quiet : keeps Q (the_task (W:=W)).
Proof. unfold the_task. keeps_steps. Qed.
Lemma get_checkpoint_quiet k : keeps Q (get_checkpoint (W:=W) k).
Proof. unfold get_checkpoint. keeps_steps. Qed.
#[local] Hint Extern 1 (keeps _ the_task) => apply the_task_quiet : keeps.
#[local] Hint Extern 1 (keeps _ (get_checkpoint _)) => apply get_checkpoint_quiet : keeps.

Lemma recover_quiet : keeps Q (recover post monotonic uuid4).
Proof. unfold recover. keeps_steps. Qed.

Lemma run_graph_quiet : keeps Q (run_graph post monotonic sleep source_post connect
  instant_iso timestamptz trunc now_iso clock getenv container_repr elapsed model_dump_json
  validate_bundle jsonb).
Proof.
  unfold run_graph. keeps_step; [keeps_steps|]. keeps_step; [keeps_steps|].
  assert (∀ k, keeps Q (side (set_checkpoint k {| cp_values := None |}))) as Hside
    by (intros k; apply side_quiet).
  destruct a0 as [[[st|]]|]; [keeps_steps|..];
    (keeps_step; [apply Hside|]; keeps_step; [|keeps_steps];
     apply (on_tables_keeps _), (gather_keeps (on_first quiet));
     auto using rt_authorize_quiet, rt_hook_quiet, rt_event_quiet, registry_quiet).
Qed.
#[local] Hint Extern 1 (keeps _ (recover _ _ _)) => apply recover_quiet : keeps.

Lemma provider_quiet url d : keeps (on_first quiet) (provider provider_post url d).
Proof. unfold provider. apply (keeps_on_fst quiet), on_world_quiet. Qed.

Lemma produce_quiet : keeps Q (produce post monotonic sleep source_post connect
  provider_post instant_iso timestamptz trunc now_iso clock getenv container_repr elapsed
  model_dump_json validate_bundle jsonb answer_schema set_iter revalidate invoke).
Proof.
  unfold produce. destruct (harness_is getenv "baseline").
  - keeps_step; [|keeps_steps]. apply (keeps_on_fst _).
    apply (assemble_keeps (on_first quiet));
      auto using rt_authorize_quiet, rt_hook_quiet, registry_quiet.
  - keeps_step; [apply run_graph_quiet|].
    destruct (harness_is getenv "mistral"); [|destruct (harness_is getenv "deepagents")].
    + keeps_step; [keeps_steps|]. keeps_step; [|keeps_steps].
      apply (keeps_on_fst _), (investigate_keeps (on_first quiet));
        auto using rt_authorize_quiet, rt_event_quiet, provider_quiet.
    + keeps_step; [keeps_steps|]. keeps_step; [|keeps_steps].
      apply (keeps_on_fst _), (deep_report_keeps (on_first quiet));
        auto using rt_event_quiet.
    + keeps_steps.
Qed.

Lemma analyses_quiet f rec : keeps Q (analyses post monotonic uuid4 clock getenv list_tools
  call_tool f rec).
Proof.
  unfold analyses. keeps_step; [keeps_steps|]. keeps_step.
  - destruct (enabled _ _); [|keeps_steps]. keeps_step; [|keeps_steps].
    apply (keeps_on_fst _), (mcp_analyze_keeps (on_first quiet));
      auto using rt_authorize_quiet, rt_event_quiet.
  - destruct (first_set _); [|keeps_steps]. keeps_step; [|keeps_steps].
    apply (on_store_keeps _), (artifact_put_keeps (on_first quiet));
      auto using rt_authorize_quiet. apply (keeps_on_fst quiet), on_world_quiet.
Qed.

Abbreviation prepare_ := (prepare post monotonic sleep source_post connect provider_post
  uuid4 instant_iso timestamptz trunc now_iso clock getenv container_repr elapsed
  model_dump_json validate_bundle jsonb answer_schema set_iter revalidate invoke list_tools
  call_tool connect_checkpoints pause lost).
Abbreviation process_ := (process post monotonic sleep source_post connect provider_post
  uuid4 instant_iso timestamptz trunc now_iso clock getenv container_repr elapsed
  model_dump_json validate_bundle jsonb answer_schema set_iter revalidate report_json invoke
  list_tools call_tool connect_checkpoints pause lost).

Lemma prepare_quiet : keeps Q prepare_.
Proof.
  unfold prepare. do 3 (keeps_step; [keeps_steps|]).
  keeps_step; [apply produce_quiet|]. do 3 (keeps_step; [keeps_steps|]).
  keeps_step; [apply analyses_quiet|]. keeps_steps.
Qed.

(** [run], [sent] and nothing else of the control plane's side of a state. *)
Definition extends (rc : RunContext) (s : Runtime W) (reqs : list (pystr * json))
    (s' : Runtime W) : Prop :=
  run s = rc → run s' = rc ∧ sent s' = sent s ++ reqs.

Lemma result_sends st rep m r r' y :
  result_ post sleep uuid4 st rep m r = (r', y) →
  ∃ k body, (k ≤ 3)%nat ∧ (is_ok y = true → (1 ≤ k)%nat) ∧
    extends (run r) r (replicate k (task_url (run r) (u "result"), body)) r'.
Proof.
  unfold result_, mbind, M_bind, on_world at 1.
  destruct (uuid4 (world r)) as [w [id|e]].
  - intros (k & Hk & Hr & _ & _ & Hs)%attempts_sends. exists k; eexists. split; [lia|]. split; [lia|]. intros _. exact (conj Hr Hs).
  - intros [= <- <-]. exists 0%nat, JNull. split_and!; [lia|done|].
    intros _. cbn. by rewrite app_nil_r.
Qed.

Lemma publish_sends f rec s s' x :
  publish_result post sleep uuid4 getenv report_json f rec s = (s', x) →
  ∃ k body, (k ≤ 3)%nat ∧ (x = Ok tt → (1 ≤ k)%nat) ∧
    extends (run s.1.1) s.1.1
      (replicate k (task_url (run s.1.1) (u "result"), body)) s'.1.1.
Proof.
  unfold publish_result, the_task, on_fst, mbind, M_bind, get, lift.
  cbn -[result_ manifest]. destruct (manifest _ _ _ _) as [m|e].
  - destruct (result_ _ _ _ _ _ _ _) as [r1 y] eqn:Hr.
    apply result_sends in Hr as (k & body & Hk & Hy & He). intros H.
    exists k, body. split; [done|]. split.
    + intros ->. apply Hy. by destruct y.
    + by destruct y; injection H as <- _.
  - intros [= <- <-]. exists 0%nat, JNull. split_and!; [lia|done|].
    intros _. cbn. by rewrite app_nil_r.
Qed.

Lemma task_failed_sends e s s' x :
  task_failed post e s = (s', x) →
  x = Ok tt ∧ ∀ rc, extends rc s.1.1 [(task_url rc (u "failure"),
    call_body rc [(u "kind", JStr (u (exn_name (exn_cls e))))])] s'.1.1.
Proof.
  unfold task_failed, rt_call_, on_fst, side, mbind, M_bind, modify, try_except.
  cbn -[call]. destruct (call _ _ _ _) as [r1 y] eqn:Hc. apply call_sends in Hc as (Hr & _ & _ & Hs).
  intros H. split.
  - by destruct y; injection H as _ <-.
  - intros rc <-. destruct y; injection H as <- _; (split; [exact Hr|exact Hs]).
Qed.

Lemma prepare_lost s s' fr :
  (∀ w, lost w = true) → prepare_ s = (s', Ok fr) → False.
Proof.
  intros Hl H. unfold prepare in H. inv_run.
  by rewrite Hl in *.
Qed.

End process_spec.

(** ** Witness *)

Section main_witness.
#[local] Existing Instances UtcOnly AsciiCjk PlainJson.

(** A control plane that grants the task of Cases.v a scope and refuses the first
    connection of a callback; no source answers, and the clock stands still. *)
Definition plane (url : pystr) (_ : json) : M (list bool) response := λ w,
  if bool_decide (url = task_url case_run_00 (u "result")) then
    match w with
    | false :: w' => (w', Raise (exn_of (TransportError "ConnectError") "refused"))
    | _ => (w, Ok (Response 200 (Ok (JObj []))))
    end
  else (w, Ok (Response 200 (Ok scope0))).
Definition offline {A} : M (list bool) A := raise (exn_of (TransportError "ConnectError") "down").
Definition baseline_env (k : string) : option pystr :=
  if String.eqb k "HARNESS" then Some (u "baseline") else None.
Definition report_json0 (f : Final) : json := JObj [(u "mode", JStr (r_mode (final_report f)))].
Definition side0 : Registry * Side :=
  (REGISTRY, {| tables := no_tables;
     store := {| rows := ∅; objects := ∅; outcomes := [] |};
     checkpoints := ∅; log := [] |}).

Abbreviation idle_agent := (raise (exn_of RuntimeError "no_agent")).
Abbreviation process0 lost w := (process plane (λ _, 0) (λ _ v, v) (λ _ _, offline) offline
  (λ _ _, offline) (λ v, (v, Ok (u "cb-1"))) (λ _, u "t") (λ _, Ok 0) (λ _, Ok 0)
  (λ _, u "t") (λ _, 0) baseline_env (dumps false false) (λ _, JInt 0) serialize0 validate0 jsonb0
  JNull id (λ b, Ok b) report_json0 idle_agent idle_agent (λ _ _, idle_agent) (mret tt)
  (λ _, mret tt) lost case_run_00 (w, side0)).
(** The callback is sent twice when its first connection is refused; with the lease
    lost there is none, and the log names the reason. *)
Abbreviation results o := (filter (λ q, q.1 = task_url case_run_00 (u "result")) (sent o.1.1.1)).

Example callback_twice :
  let o := process0 (λ _, false) [false] in
  length (sent o.1.1.1) = 19%nat ∧ length (results o) = 2%nat ∧ log o.1.2 = [].
Proof. by vm_compute. Qed.

Example lease_lost_reported :
  let o := process0 (λ _, true) [false] in
  results o = [] ∧ log o.1.2 = [(u "RuntimeError", u "lease_lost")].
Proof. by vm_compute. Qed.

Lemma idle_agent_quiet {A} : keeps (on_first quiet)
  (idle_agent : M (Runtime (list bool) * Registry) A).
Proof. apply (keeps_raise _). Qed.

End main_witness.
