(* ===== verification/Startup.v ===== *)
(** * Starting a worker (worker/incident_worker/main.py, [main]; the constructors of
    cache.py and artifacts.py)

    Replicas of the worker start at any time, each migrating the database of checkpoints
    and making the tables and the bucket it needs before it claims work.  They take turns
    by an advisory lock of a database session.  A replica is where it stands in [main];
    the fleet interleaves their statements, with replicas that fail anywhere and sessions
    whose end the database only notices later.  PostgresSaver's migration is a machine
    that is given (one step per statement); [create table if not exists] is the two steps
    a concurrent one can come between. *)
From S2P Require Import Prelude.
From S2P Require Import PyStr.
From S2P Require Import Main.

(** ** Tables and bucket *)

(** ContextCache.__init__ and Artifacts.__init__. *)
Definition CACHE_TABLES : list string := ["context_cache"; "source_index"].
Definition ARTIFACT_TABLES : list string := ["artifacts"].

(** What the statements of a transaction found missing. *)
Definition missing (names : list string) (catalog : gset string) : list string :=
  filter (λ t, t ∉ catalog) names.

(** [s3.create_bucket]: the error code it was answered with, if any, and whether
    [head_bucket] then succeeds. *)
Record BucketAnswer := { create_error : option pystr; head_ok : bool }.

Definition OWNED_CODES : list pystr := u <$> ["BucketAlreadyOwnedByYou"; "BucketAlreadyExists"]%string.

Definition bucket_made (b : BucketAnswer) : bool :=
  match create_error b with
  | None => true
  | Some code => mem code OWNED_CODES && head_ok b
  end.

(** ** One replica *)

Section startup.
Context {Schema L : Type}.
(** [PostgresSaver(conn).setup()]: where it begins, and what its next statement does. *)
Variable setup : L.
Variable setup_step : L → Schema → option L * Schema.
(** [os.getenv("S3_ENDPOINT")]. *)
Variable s3 : bool.

(** Where a session stands: waiting for the lock; in [setup]; before and inside the
    transaction of [ContextCache()]; before [create_bucket]; before and inside the
    transaction of [Artifacts()]; before the unlock; claiming work; ended. *)
Inductive pc :=
| PWait
| PSetup (l : L)
| PCache
| PCacheCommit (absent : list string)
| PBucket
| PTable
| PTableCommit (absent : list string)
| PUnlock
| PServe
| PGone.

Record Fleet := {
  schema : Schema; catalog : gset string; lock : option nat; sessions : gmap nat pc }.

Definition goto (i : nat) (p : pc) (s : Fleet) : Fleet :=
  {| schema := schema s; catalog := catalog s; lock := lock s;
     sessions := <[i := p]> (sessions s) |}.
Definition set_schema (d : Schema) (s : Fleet) : Fleet :=
  {| schema := d; catalog := catalog s; lock := lock s; sessions := sessions s |}.
Definition set_lock (o : option nat) (s : Fleet) : Fleet :=
  {| schema := schema s; catalog := catalog s; lock := o; sessions := sessions s |}.
Definition add_tables (names : list string) (s : Fleet) : Fleet :=
  {| schema := schema s; catalog := list_to_set names ∪ catalog s; lock := lock s;
     sessions := sessions s |}.

(** The commit of the tables found missing: one that another session has made in
    between violates the catalog's uniqueness and ends the replica. *)
Definition commit_tables (i : nat) (absent : list string) (next : pc) (s : Fleet) : Fleet :=
  if forallb (λ t, bool_decide (t ∉ catalog s)) absent
  then goto i next (add_tables absent s) else goto i PGone s.

(** The next statement of session [i]; [None] when there is none or it is blocked. *)
Definition advance (i : nat) (b : BucketAnswer) (s : Fleet) : option Fleet :=
  p ← sessions s !! i;
  match p with
  | PWait =>
      match lock s with
      | None => Some (goto i (PSetup setup) (set_lock (Some i) s))
      | Some _ => None
      end
  | PSetup l =>
      let '(l', d) := setup_step l (schema s) in
      Some (goto i (match l' with Some l' => PSetup l' | None => PCache end) (set_schema d s))
  | PCache => Some (goto i (PCacheCommit (missing CACHE_TABLES (catalog s))) s)
  | PCacheCommit absent => Some (commit_tables i absent (if s3 then PBucket else PUnlock) s)
  | PBucket => Some (goto i (if bucket_made b then PTable else PGone) s)
  | PTable => Some (goto i (PTableCommit (missing ARTIFACT_TABLES (catalog s))) s)
  | PTableCommit absent => Some (commit_tables i absent PUnlock s)
  | PUnlock => Some (goto i PServe (set_lock None s))
  | PServe | PGone => None
  end.

(** ** The fleet *)

(** A replica starts with a session of its own; goes on; fails or is killed; the database
    notices the end of a session and releases its lock. *)
Inductive move :=
| Start (i : nat)
| Go (i : nat) (b : BucketAnswer)
| Die (i : nat)
| Notice (i : nat).

Definition fleet_step (m : move) (s : Fleet) : option Fleet :=
  match m with
  | Start i => match sessions s !! i with None => Some (goto i PWait s) | Some _ => None end
  | Go i b => advance i b s
  | Die i => match sessions s !! i with None => None | Some _ => Some (goto i PGone s) end
  | Notice i =>
      match sessions s !! i with
      | Some PGone => Some (if bool_decide (lock s = Some i) then set_lock None s else s)
      | _ => None
      end
  end.

Definition moves (s s' : Fleet) : Prop := ∃ m, fleet_step m s = Some s'.

Definition fresh (d : Schema) : Fleet :=
  {| schema := d; catalog := ∅; lock := None; sessions := ∅ |}.

(** Between the lock and the unlock. *)
Definition inside (p : pc) : bool :=
  match p with PWait | PServe | PGone => false | _ => true end.

End startup.
Arguments pc : clear implicits.
Arguments Fleet : clear implicits.
Arguments PWait {L}.
Arguments PCache {L}.
Arguments PCacheCommit {L} absent.
Arguments PBucket {L}.
Arguments PTable {L}.
Arguments PTableCommit {L} absent.
Arguments PUnlock {L}.
Arguments PServe {L}.
Arguments PGone {L}.

(** ** The loop's parameters *)

(** [os.getenv("HOSTNAME", "local") + ":" + str(uuid.uuid4())]. *)
Definition worker_owner (getenv : string → option pystr) (uuid : pystr) : pystr :=
  env_or getenv "HOSTNAME" (u "local") ++ u ":" ++ uuid.

Definition no_workers : exn := exn_of ValueError "max_workers must be greater than 0".

(** [int(os.getenv("WORKER_SLOTS", "3"))] and what [ThreadPoolExecutor] makes of it. *)
Definition worker_slots {UT : UnicodeTables} (getenv : string → option pystr) : result Z :=
  n ← int_of_str (env_or getenv "WORKER_SLOTS" (u "3"));
  guard_r (0 <? n) no_workers ;; Ok n.

Lemma worker_slots_some {UT : UnicodeTables} getenv n : worker_slots getenv = Ok n → 0 < n.
Proof.
  unfold worker_slots. destruct (int_of_str _) as [m|]; [|done]. cbn.
  destruct (0 <? m) eqn:E; [|done]. cbn. intros [= <-]. lia.
Qed.
