(* ===== verification/StartupSpec.v ===== *)
(** * What the lock of the start promises

    Whatever replicas start, fail and are noticed in whatever order: one at a time is
    between the lock and the unlock, the schema of checkpoints is one that migrations run
    one after the other leave, no replica is ended by another's tables, and one that
    claims work has everything it needs. *)
From S2P Require Import Prelude.
From S2P Require Import PyStr.
From S2P Require Import Main.
From S2P Require Import Startup.

Section spec.
Context {Schema L : Type}.
Variable setup : L.
Variable setup_step : L → Schema → option L * Schema.
Variable s3 : bool.

Local Abbreviation moves := (moves setup setup_step s3).
Local Abbreviation advance := (advance setup setup_step s3).
Local Abbreviation Fleet := (Fleet Schema L).
Local Abbreviation pc := (pc L).

(** ** Migrations one after the other *)

Definition setup_rel (x y : option L * Schema) : Prop :=
  ∃ l, x.1 = Some l ∧ setup_step l x.2 = y.

(** A migration alone, from its beginning to [l]; one that may be cut short; and a schema
    that a migration run to its end has been through. *)
Definition run_of (d : Schema) (l : option L) (d' : Schema) : Prop :=
  rtc setup_rel (Some setup, d) (l, d').
Definition partial (d d' : Schema) : Prop := ∃ l, run_of d l d'.
Definition completed (d0 d : Schema) : Prop :=
  ∃ d1 d2, rtc partial d0 d1 ∧ run_of d1 None d2 ∧ rtc partial d2 d.

Lemma completed_later d0 d d' : completed d0 d → rtc partial d d' → completed d0 d'.
Proof. intros (d1 & d2 & H1 & H2 & H3) H. exists d1, d2. split_and!; [done..|by etrans]. Qed.

(** ** The invariant *)

Definition has (names : list string) (c : gset string) : Prop := ∀ t, t ∈ names → t ∈ c.

Definition absent_ok (names absent : list string) (c : gset string) : Prop :=
  (∀ t, t ∈ absent → t ∉ c) ∧ ∀ t, t ∈ names → t ∈ absent ∨ t ∈ c.

Definition stage_ok (c : gset string) (p : pc) : Prop :=
  match p with
  | PCacheCommit absent => absent_ok CACHE_TABLES absent c
  | PBucket | PTable => s3 = true ∧ has CACHE_TABLES c
  | PTableCommit absent => has CACHE_TABLES c ∧ absent_ok ARTIFACT_TABLES absent c
  | PUnlock | PServe => has CACHE_TABLES c ∧ (s3 = true → has ARTIFACT_TABLES c)
  | _ => True
  end.

(** Past the migration. *)
Definition past (p : pc) : bool :=
  match p with PWait | PSetup _ | PGone => false | _ => true end.

Record fleet_ok (d0 : Schema) (s : Fleet) : Prop := {
  ok_inside : ∀ i p, sessions s !! i = Some p → inside p = true → lock s = Some i;
  ok_lock : ∀ i, lock s = Some i →
    ∃ p, sessions s !! i = Some p ∧ (inside p = true ∨ p = PGone);
  ok_stage : ∀ i p, sessions s !! i = Some p → stage_ok (catalog s) p;
  ok_schema : ∃ base, rtc partial d0 base ∧ rtc partial base (schema s) ∧
    (∀ i p, sessions s !! i = Some p → past p = true → completed d0 base) ∧
    (∀ i l, sessions s !! i = Some (PSetup l) → run_of base (Some l) (schema s)) }.

Lemma fresh_ok d0 : fleet_ok d0 (fresh d0).
Proof. split; cbn; try done. exists d0. split_and!; done || constructor. Qed.

(** A session that goes on by itself, from [p] to [p']: the schema stays, the catalog
    grows, and the lock stays or is given back. *)
Lemma goto_ok d0 s i p p' c o :
  fleet_ok d0 s → sessions s !! i = Some p →
  (∀ t, t ∈ catalog s → t ∈ c) → (c = catalog s ∨ inside p = true) →
  (o = lock s ∧ (lock s = Some i → inside p' = true ∨ p' = PGone)
   ∨ lock s = Some i ∧ o = None) →
  (inside p' = true → o = Some i) → stage_ok c p' →
  (past p' = true → past p = true) → (∀ l, p' ≠ PSetup l) →
  fleet_ok d0 {| schema := schema s; catalog := c; lock := o;
                 sessions := <[i := p']> (sessions s) |}.
Proof.
  intros [Hin Hlk Hst (base & B1 & B2 & B3 & B4)] Hp Hc Hce Ho Hi Hs Hpast Hns. split; cbn.
  - intros j q Hj Hq. destruct (decide (j = i)) as [->|Hne].
    + rewrite lookup_insert_eq in Hj. injection Hj as <-. by apply Hi.
    + rewrite lookup_insert_ne in Hj by done. pose proof (Hin _ _ Hj Hq) as Hl.
      destruct Ho as [[-> _]|[Hl' _]]; [done|congruence].
  - intros j Hj. destruct Ho as [[-> Hd]|[_ ->]]; [|done].
    destruct (decide (j = i)) as [->|Hne].
    + exists p'. rewrite lookup_insert_eq. auto.
    + rewrite lookup_insert_ne by done. auto.
  - intros j q Hj. destruct (decide (j = i)) as [->|Hne].
    + rewrite lookup_insert_eq in Hj. by injection Hj as <-.
    + rewrite lookup_insert_ne in Hj by done. pose proof (Hst _ _ Hj) as H.
      destruct Hce as [->|Hp']; [done|].
      assert (inside q = false) as Hq.
      { destruct (inside q) eqn:E; [|done]. pose proof (Hin _ _ Hp Hp').
        pose proof (Hin _ _ Hj E). congruence. }
      destruct q; try done. destruct H as [H1 H2]. split; [intros t Ht; by apply Hc, H1|].
      intros E t Ht. by apply Hc, (H2 E).
  - exists base. split_and!; [done|done| |].
    + intros j q Hj Hq. destruct (decide (j = i)) as [->|Hne].
      * rewrite lookup_insert_eq in Hj. injection Hj as <-. by eapply B3; [exact Hp|apply Hpast].
      * rewrite lookup_insert_ne in Hj by done. by eapply B3.
    + intros j l Hj. destruct (decide (j = i)) as [->|Hne].
      * rewrite lookup_insert_eq in Hj. injection Hj as H. by destruct (Hns l).
      * rewrite lookup_insert_ne in Hj by done. by eapply B4.
Qed.

Lemma missing_ok names c : absent_ok names (missing names c) c.
Proof.
  split; intros t Ht.
  - by apply list_elem_of_filter in Ht as [H _].
  - destruct (decide (t ∈ c)); [by right|left]. by apply list_elem_of_filter.
Qed.

(** Nobody else commits between a session's look and its commit. *)
Lemma commit_made i names absent next (s : Fleet) :
  absent_ok names absent (catalog s) →
  commit_tables i absent next s = goto i next (add_tables absent s) ∧
  has names (list_to_set absent ∪ catalog s).
Proof.
  intros [H1 H2]. unfold commit_tables. split.
  - destruct (forallb _ absent) eqn:E; [done|]. exfalso. apply not_true_iff_false in E. apply E.
    apply forallb_forall. intros t Ht. apply bool_decide_eq_true, H1. by apply list_elem_of_In.
  - intros t Ht. apply elem_of_union. destruct (H2 t Ht) as [H|H]; [left|by right].
    by apply elem_of_list_to_set.
Qed.

(** ** Its preservation *)

Lemma start_ok d0 s i :
  fleet_ok d0 s → sessions s !! i = None → fleet_ok d0 (goto i PWait s).
Proof.
  intros [Hin Hlk Hst (base & B1 & B2 & B3 & B4)] Hn.
  assert (∀ j q, sessions (goto i PWait s) !! j = Some q → q = PWait ∨ sessions s !! j = Some q) as Hq.
  { intros j q. cbn. destruct (decide (j = i)) as [->|Hne].
    - rewrite lookup_insert_eq. intros [= <-]. by left.
    - rewrite lookup_insert_ne by done. by right. }
  split.
  - intros j q Hj%Hq Hi. destruct Hj as [->|Hj]; [done|]. by eapply Hin.
  - intros j Hj. destruct (Hlk j Hj) as (p & Hp & H). exists p. split; [|done]. cbn.
    rewrite lookup_insert_ne; [done|]. congruence.
  - intros j q Hj%Hq. destruct Hj as [->|Hj]; [done|]. by eapply Hst.
  - exists base. split_and!; [done|done| |].
    + intros j q Hj%Hq. destruct Hj as [->|Hj]; [done|]. by eapply B3.
    + intros j l Hj%Hq. destruct Hj as [?|Hj]; [done|]. by eapply B4.
Qed.

(** Taking the lock: nobody is in a migration, so one begins from the schema as it is. *)
Lemma take_ok d0 s i :
  fleet_ok d0 s → sessions s !! i = Some PWait → lock s = None →
  fleet_ok d0 (goto i (PSetup setup) (set_lock (Some i) s)).
Proof.
  intros [Hin Hlk Hst (base & B1 & B2 & B3 & B4)] Hp Hl.
  assert (∀ j q, sessions s !! j = Some q → inside q = false) as Hout.
  { intros j q Hj. destruct (inside q) eqn:E; [|done]. pose proof (Hin _ _ Hj E). congruence. }
  assert (∀ j q, <[i := PSetup setup]> (sessions s) !! j = Some q →
    j = i ∧ q = PSetup setup ∨ j ≠ i ∧ sessions s !! j = Some q) as Hq.
  { intros j q. destruct (decide (j = i)) as [->|Hne].
    - rewrite lookup_insert_eq. intros [= <-]. by left.
    - rewrite lookup_insert_ne by done. by right. }
  split; cbn.
  - intros j q Hj%Hq Hi. destruct Hj as [[-> _]|[_ Hj]]; [done|]. rewrite (Hout _ _ Hj) in Hi. done.
  - intros j [= <-]. exists (PSetup setup). rewrite lookup_insert_eq. auto.
  - intros j q Hj%Hq. destruct Hj as [[_ ->]|[_ Hj]]; [done|]. by eapply Hst.
  - exists (schema s). split_and!; [by etrans|done| |].
    + intros j q Hj%Hq Hpast. destruct Hj as [[_ ->]|[_ Hj]]; [done|].
      eapply completed_later; [by eapply B3|done].
    + intros j l Hj%Hq. destruct Hj as [[_ [= ->]]|[_ Hj]]; [constructor|].
      by pose proof (Hout _ _ Hj).
Qed.

Lemma run_step d l d1 l' d2 :
  run_of d (Some l) d1 → setup_step l d1 = (l', d2) → run_of d l' d2.
Proof. intros H Hs. eapply rtc_r; [exact H|]. exists l. by split. Qed.

(** One statement of the migration. *)
Lemma migrate_ok d0 s i l l' d :
  fleet_ok d0 s → sessions s !! i = Some (PSetup l) → setup_step l (schema s) = (l', d) →
  fleet_ok d0 (goto i (match l' with Some l' => PSetup l' | None => PCache end) (set_schema d s)).
Proof.
  intros [Hin Hlk Hst (base & B1 & B2 & B3 & B4)] Hp Hs.
  pose proof (Hin _ _ Hp eq_refl) as Hl. set (p' := match l' with Some _ => _ | None => _ end).
  assert (inside p' = true) as Hi by (by destruct l').
  assert (∀ j q, <[i := p']> (sessions s) !! j = Some q →
    j = i ∧ q = p' ∨ j ≠ i ∧ sessions s !! j = Some q ∧ inside q = false) as Hq.
  { intros j q. destruct (decide (j = i)) as [->|Hne].
    - rewrite lookup_insert_eq. intros [= <-]. by left.
    - rewrite lookup_insert_ne by done. intros Hj. right. split_and!; [done|done|].
      destruct (inside q) eqn:E; [|done]. pose proof (Hin _ _ Hj E). congruence. }
  pose proof (run_step _ _ _ _ _ (B4 _ _ Hp) Hs) as Hrun.
  split; cbn.
  - intros j q Hj%Hq E. destruct Hj as [[-> _]|(_ & _ & H)]; [done|congruence].
  - intros j Hj. assert (j = i) as -> by congruence. exists p'. rewrite lookup_insert_eq. auto.
  - intros j q Hj%Hq. destruct Hj as [[_ ->]|(_ & Hj & _)]; [by destruct l'|]. by eapply Hst.
  - assert (rtc partial base d) as Hd by (apply rtc_once; by exists l').
    destruct l' as [l'|]; subst p'.
    + exists base. split_and!; [done|done| |].
      * intros j q Hj%Hq E. destruct Hj as [[_ ->]|(_ & Hj & _)]; [done|]. by eapply B3.
      * intros j l1 Hj%Hq. destruct Hj as [[_ [= ->]]|(_ & _ & H)]; [done|done].
    + exists d. split_and!; [by etrans|done| |].
      * intros j q Hj%Hq E. exists base, d. split_and!; [done|done|done].
      * intros j l1 Hj%Hq. destruct Hj as [[_ ?]|(_ & _ & H)]; done.
Qed.

Lemma notice_ok d0 s i :
  fleet_ok d0 s → sessions s !! i = Some PGone → lock s = Some i → fleet_ok d0 (set_lock None s).
Proof.
  intros [Hin Hlk Hst Hsc] Hp Hl. split; cbn; [|done|done|done].
  intros j q Hj Hq. pose proof (Hin _ _ Hj Hq) as H. rewrite Hl in H. injection H as <-.
  rewrite Hp in Hj. injection Hj as <-. done.
Qed.

Lemma session_advance_ok d0 s s' i b :
  fleet_ok d0 s → advance i b s = Some s' → fleet_ok d0 s'.
Proof.
  intros Hok H. unfold Startup.advance in H.
  apply bind_Some in H as (p & Hp & H).
  assert (inside p = true → lock s = Some i) as Hin by (by apply (ok_inside _ _ Hok)).
  pose proof (ok_stage _ _ Hok _ _ Hp) as Hst.
  destruct p as [|l| |absent| | |absent| | |]; try done; cbn in Hst.
  - destruct (lock s) eqn:Hl; [done|]. injection H as <-. by apply take_ok.
  - destruct (setup_step l (schema s)) as [l' d] eqn:Hs. injection H as <-. by eapply migrate_ok.
  - injection H as <-. unfold goto. apply (goto_ok d0 s i PCache); auto. apply missing_ok.
  - destruct (commit_made i _ _ (if s3 then PBucket else PUnlock) _ Hst) as [E Hh].
    rewrite E in H. injection H as <-. unfold goto, add_tables.
    apply (goto_ok d0 s i (PCacheCommit absent)); [done|done| |by right| | | |done|by destruct s3].
    + intros t Ht. apply elem_of_union. by right.
    + left. destruct s3; auto.
    + cbn. auto.
    + destruct s3 eqn:E3; cbn; split; first [done|congruence].
  - injection H as <-. unfold goto.
    destruct (bucket_made b); (eapply goto_ok; eauto; cbn; auto).
  - injection H as <-. unfold goto. destruct Hst. apply (goto_ok d0 s i PTable); auto.
    split; [done|]. apply missing_ok.
  - destruct Hst as [Hc Hst]. destruct (commit_made i _ _ PUnlock _ Hst) as [E Hh].
    rewrite E in H. injection H as <-. unfold goto, add_tables.
    apply (goto_ok d0 s i (PTableCommit absent)); [done|done| |by right|by auto|by auto| |done|done].
    + intros t Ht. apply elem_of_union. by right.
    + split; [intros t Ht; apply elem_of_union; right; by apply Hc|done].
  - injection H as <-. unfold goto, set_lock.
    apply (goto_ok d0 s i PUnlock PServe (catalog s) None); auto. done.
Qed.

Lemma moves_ok d0 s s' : fleet_ok d0 s → moves s s' → fleet_ok d0 s'.
Proof.
  intros Hok [m Hm]. destruct m as [i|i b|i|i]; cbn in Hm.
  - destruct (sessions s !! i) eqn:Hp; [done|]. injection Hm as <-. by apply start_ok.
  - by eapply session_advance_ok.
  - destruct (sessions s !! i) as [p|] eqn:Hp; [|done]. injection Hm as <-. unfold goto.
    eapply goto_ok; eauto; cbn; done.
  - destruct (sessions s !! i) as [[]|] eqn:Hp; try done. injection Hm as <-.
    case_bool_decide; [by eapply notice_ok|done].
Qed.

Lemma fleet_reachable_ok d0 s : rtc moves (fresh d0) s → fleet_ok d0 s.
Proof.
  intros H. pose proof (fresh_ok d0) as Hf. revert H Hf. generalize (fresh (L:=L) d0).
  intros x H. induction H; eauto using moves_ok.
Qed.

(** ** The promise *)

Lemma inside_advances i b p (s : Fleet) :
  sessions s !! i = Some p → inside p = true → is_Some (advance i b s).
Proof.
  intros Hp Hi. unfold Startup.advance. rewrite Hp. cbn.
  destruct p; try done; cbn; [|by eexists..]. destruct (setup_step _ _). by eexists.
Qed.

Lemma ended_by i b (s s' : Fleet) d0 :
  fleet_ok d0 s → advance i b s = Some s' → sessions s' !! i = Some PGone →
  sessions s !! i = Some PBucket ∧ bucket_made b = false.
Proof.
  intros Hok H Hg. unfold Startup.advance in H. apply bind_Some in H as (p & Hp & H).
  pose proof (ok_stage _ _ Hok _ _ Hp) as Hst. rewrite Hp.
  destruct p as [|l| |absent| | |absent| | |]; try done; cbn in Hst.
  - destruct (lock s); [done|]. injection H as <-. cbn in Hg. by rewrite lookup_insert_eq in Hg.
  - destruct (setup_step _ _) as [[l'|] d]; injection H as <-; cbn in Hg;
      by rewrite lookup_insert_eq in Hg.
  - injection H as <-. cbn in Hg. by rewrite lookup_insert_eq in Hg.
  - rewrite (proj1 (commit_made _ _ _ _ _ Hst)) in H. injection H as <-. cbn in Hg.
    rewrite lookup_insert_eq in Hg. by destruct s3.
  - injection H as <-. cbn in Hg. rewrite lookup_insert_eq in Hg. by destruct (bucket_made b).
  - injection H as <-. cbn in Hg. by rewrite lookup_insert_eq in Hg.
  - rewrite (proj1 (commit_made _ _ _ _ _ (proj2 Hst))) in H. injection H as <-. cbn in Hg.
    by rewrite lookup_insert_eq in Hg.
  - injection H as <-. cbn in Hg. by rewrite lookup_insert_eq in Hg.
Qed.

(** C14. Replicas take turns.  However their statements, failures and restarts interleave,
    no two sessions are between the lock and the unlock, so the schema of checkpoints is
    one that migrations run one after the other leave, each whole or cut short; no
    session is ended by a table another one made, only by a bucket it cannot have; a
    replica that claims work has a schema some migration has completed and every table
    its caches need; and while one waits, another session can go on or is one whose end
    the database has yet to notice, so the wait is never for ever. *)
Theorem startup_alone d0 s :
  rtc moves (fresh d0) s →
  (∀ i j p q, sessions s !! i = Some p → sessions s !! j = Some q →
     inside p = true → inside q = true → i = j) ∧
  rtc partial d0 (schema s) ∧
  (∀ i b s', advance i b s = Some s' → sessions s' !! i = Some PGone →
     sessions s !! i = Some PBucket ∧ bucket_made b = false) ∧
  (∀ i, sessions s !! i = Some PServe →
     completed d0 (schema s) ∧ has CACHE_TABLES (catalog s) ∧
     (s3 = true → has ARTIFACT_TABLES (catalog s))) ∧
  (∀ i, sessions s !! i = Some PWait →
     ∃ j, (∀ b, is_Some (advance j b s)) ∨ lock s = Some j ∧ sessions s !! j = Some PGone).
Proof.
  intros Hok%fleet_reachable_ok. destruct (Hok) as [Hin Hlk Hst (base & B1 & B2 & B3 & B4)]. split_and!.
  - intros i j p q Hp Hq Hi Hj. pose proof (Hin _ _ Hp Hi). pose proof (Hin _ _ Hq Hj). congruence.
  - by etrans.
  - intros i b s'. by apply ended_by with d0.
  - intros i Hi. destruct (Hst _ _ Hi). split_and!; [|done|done].
    eapply completed_later; [by eapply B3|done].
  - intros i Hi. destruct (lock s) as [j|] eqn:Hl.
    + destruct (Hlk j eq_refl) as (p & Hp & [Hp'| ->]); exists j; [left|by right].
      intros b. by eapply inside_advances.
    + exists i. left. intros b. unfold Startup.advance. rewrite Hi. cbn. rewrite Hl. by eexists.
Qed.
End spec.

(** ** Two replicas *)

(** A migration of two statements, each guarded by the version it finds. *)
Definition two_versions (_ : ()) (d : Z) : option () * Z :=
  if d <? 2 then (Some tt, d + 1) else (None, d).

Definition granted : BucketAnswer :=
  {| create_error := Some (u "BucketAlreadyOwnedByYou"); head_ok := true |}.

(** The first dies inside its migration; the second waits for the lock, completes it and
    serves. *)
Definition handover : list move :=
  [Start 0; Start 1; Go 0 granted; Go 0 granted; Die 0; Notice 0; Go 1 granted; Go 1 granted;
   Go 1 granted; Go 1 granted; Go 1 granted; Go 1 granted; Go 1 granted; Go 1 granted; Go 1 granted].

Fixpoint run_moves (ms : list move) (s : Fleet Z ()) : option (Fleet Z ()) :=
  match ms with
  | [] => Some s
  | m :: ms' => s' ← fleet_step tt two_versions true m s; run_moves ms' s'
  end.

Lemma run_moves_rtc ms s s' : run_moves ms s = Some s' → rtc (moves tt two_versions true) s s'.
Proof.
  revert s. induction ms as [|m ms IH]; intros s H; [by injection H as ->|].
  cbn in H. apply bind_Some in H as (s1 & Hm & H). eapply rtc_l; [by exists m|by apply IH].
Qed.

Definition served : Fleet Z () := default (fresh 0) (run_moves handover (fresh 0)).

Lemma startup_alone_witness :
  sessions served !! 1%nat = Some PServe ∧ completed tt two_versions 0 (schema served).
Proof.
  assert (rtc (moves tt two_versions true) (fresh 0) served) as H
    by (apply (run_moves_rtc handover); by vm_compute).
  assert (sessions served !! 1%nat = Some PServe) as Hs by (by vm_compute).
  split; [exact Hs|]. exact (proj1 (proj1 (proj2 (proj2 (proj2 (startup_alone _ _ _ _ _ H)))) 1%nat Hs)).
Defined.
