(* ===== verification/Retention.v ===== *)
(** * Retention (scripts/retention.py, with the cleanup of artifacts.py)

    An administrator's script removes what investigations older than a number of days have
    kept: reports, manifests and the payloads of events in the business database, then the
    checkpoints of their threads and old bundles in the agents' database, then the
    snapshots in the object store.  Each database has a transaction of its own; every
    request, commits included, may be answered, refused, or done with the answer lost. *)
From S2P Require Import Prelude.
From S2P Require Import PyStr.
From S2P Require Import Json.
From S2P Require Import Cache.
From S2P Require Import Artifacts.
From S2P Require Import Main.
From S2P Require Import Startup.

(** ** LIKE *)

Fixpoint any_suffix (f : pystr → bool) (s : pystr) : bool :=
  f s || match s with [] => false | _ :: s' => any_suffix f s' end.

(** [s like p]: [%] any characters, [_] one, a backslash the next one itself (a pattern
    that ends in one is an error; here every pattern ends in [%]). *)
Fixpoint like (p s : pystr) {struct p} : bool :=
  match p with
  | [] => match s with [] => true | _ => false end
  | c :: p' =>
      if c =? 37 then any_suffix (like p') s
      else match s with
           | [] => false
           | x :: s' =>
               if c =? 95 then like p' s'
               else if c =? 92
               then match p' with e :: p'' => (x =? e) && like p'' s' | [] => false end
               else (x =? c) && like p' s'
           end
  end.

(** ** The databases *)

(** A row of [investigations]: what retention reads and writes, and its other columns. *)
Record Investigation := {
  i_created : Z; i_report : option json; i_manifest : option json; i_columns : json }.

Record Event := { ev_of : pystr; ev_seq : Z; ev_kind : pystr; ev_payload : json }.

Record RateLimit := { rl_subject : pystr; rl_window : Z; rl_count : Z }.

Record Business := {
  investigations : gmap (list Z) Investigation; events : list Event;
  rate_limits : list RateLimit }.

(** The three tables of PostgresSaver, as threads and rows, and the cache's. *)
Record AgentDB := {
  checkpoint_tables : list (pystr * list (pystr * json)); bundles : gmap (list Z) Entry }.

Record Site := { business : Business; agent : AgentDB; artifacts : Store; printed : list json }.

Definition set_business (b : Business) (s : Site) : Site :=
  {| business := b; agent := agent s; artifacts := artifacts s; printed := printed s |}.
Definition set_agent (a : AgentDB) (s : Site) : Site :=
  {| business := business s; agent := a; artifacts := artifacts s; printed := printed s |}.
Definition set_artifacts (a : Store) (s : Site) : Site :=
  {| business := business s; agent := agent s; artifacts := a; printed := printed s |}.
Definition add_printed (v : json) (s : Site) : Site :=
  {| business := business s; agent := agent s; artifacts := artifacts s;
     printed := printed s ++ [v] |}.

Definition day_us : Z := 24 * 3600 * 1000000.
Definition older (days now created : Z) : bool := created <? now - days * day_us.

(** ** The statements *)

(** [set report=null,manifest=null]. *)
Definition redacted (i : Investigation) : Investigation :=
  {| i_created := i_created i; i_report := None; i_manifest := None; i_columns := i_columns i |}.

Definition expired_ids (days now : Z) (b : Business) : list pystr :=
  fst <$> filter (λ kv, older days now (i_created kv.2) = true) (map_to_list (investigations b)).

Definition redact_investigations (days now : Z) (b : Business) : Business :=
  {| investigations := (λ i, if older days now (i_created i) then redacted i else i)
                         <$> investigations b;
     events := events b; rate_limits := rate_limits b |}.

Definition removed_payload : json := dict [("retention_removed"%string, JBool true)].

Definition redact_events (id : pystr) (b : Business) : Business :=
  {| investigations := investigations b;
     events := (λ e, if str_eqb (ev_of e) id
                     then {| ev_of := ev_of e; ev_seq := ev_seq e; ev_kind := ev_kind e;
                             ev_payload := removed_payload |} else e) <$> events b;
     rate_limits := rate_limits b |}.

(** [window_start < extract(epoch from now()) - 3600]: seconds against microseconds. *)
Definition drop_rate_limits (now : Z) (b : Business) : Business :=
  {| investigations := investigations b; events := events b;
     rate_limits := filter (λ r, (rl_window r * 1000000 <? now - 3600 * 1000000) = false)
                      (rate_limits b) |}.

Definition CHECKPOINT_TABLES : list pystr :=
  u <$> ["checkpoint_writes"; "checkpoint_blobs"; "checkpoints"]%string.

(** [str(task_id) + ":g%"]. *)
Definition thread_pattern (id : pystr) : pystr := id ++ u ":g%".

Definition delete_threads (table id : pystr) (a : AgentDB) : AgentDB :=
  {| checkpoint_tables := (λ t, if str_eqb t.1 table
       then (t.1, filter (λ r, like (thread_pattern id) r.1 = false) t.2) else t)
       <$> checkpoint_tables a;
     bundles := bundles a |}.

Definition delete_bundles (days now : Z) (a : AgentDB) : AgentDB :=
  {| checkpoint_tables := checkpoint_tables a;
     bundles := filter (λ kv, older days now (created_at kv.2) = false) (bundles a) |}.

(** ** The script *)

Section retention.
Context {W : Type}.
(** What becomes of the next request, and the clock of the databases in microseconds. *)
Variable answer : W → W * outcome.
Variable now : W → Z.
(** What the object store says to [create_bucket]. *)
Variable create_bucket : W → W * BucketAnswer.

Definition operational : exn := exn_of (OtherError "OperationalError") "connection".

Definition request {X} : M (W * X) outcome := λ s, ((answer s.1).1, s.2, Ok (answer s.1).2).

(** One statement of a transaction. *)
Definition statement {X} (f : X → X) : M (W * X) () :=
  o ← request;
  match o with Done => modify (λ s, (s.1, f s.2)) | _ => raise operational end.

(** [with psycopg.connect(url) as c]: connect, the body, commit; rolled back when the body
    raises.  [now()] is the time the transaction began. *)
Definition connection {X A} (body : Z → M (W * X) A) : M (W * X) A := λ s,
  let '(w, o) := answer s.1 in
  match o with
  | Done =>
      match body (now w) (w, s.2) with
      | ((w', x), Ok a) =>
          let '(w', o) := answer w' in
          match o with
          | Done => ((w', x), Ok a)
          | Lost => ((w', x), Raise operational)
          | Refused => ((w', s.2), Raise operational)
          end
      | ((w', _), Raise e) => ((w', s.2), Raise e)
      end
  | _ => ((w, s.2), Raise operational)
  end.

Definition on_part {X A} (part : Site → X) (set_part : X → Site → Site) (m : M (W * X) A)
    : M (W * Site) A := λ s,
  let '((w, x), r) := m (s.1, part s.2) in ((w, set_part x s.2), r).

Definition clear_business (days : Z) : M (W * Business) (list pystr) :=
  connection (λ now,
    s ← get;
    let rows := expired_ids days now s.2 in
    statement (redact_investigations days now) ;;
    for_each rows (λ id, statement (redact_events id)) ;;
    statement (drop_rate_limits now) ;;
    mret rows).

Definition clear_agent (days : Z) (rows : list pystr) : M (W * AgentDB) () :=
  connection (λ now,
    for_each rows (λ task_id, for_each CHECKPOINT_TABLES (λ table,
      statement (delete_threads table task_id))) ;;
    statement (delete_bundles days now)).

(** [Artifacts()]: the bucket, then the table, which is there. *)
Definition new_artifacts {X} : M (W * X) () := λ s,
  let '(w, b) := create_bucket s.1 in
  if bucket_made b then connection (λ _, statement id) (w, s.2)
  else ((w, s.2), Raise client_error).

Definition print (fields : list (string * json)) : M (W * Site) () :=
  modify (λ s, (s.1, add_printed (dict fields) s.2)).

(** The script with [--days days]; whether CHECKPOINT_DATABASE_URL and S3_ENDPOINT are
    set. *)
Definition retention (checkpoint_url s3_endpoint : bool) (days : Z) : M (W * Site) () :=
  if days <? 1 then raise (exn_of (OtherError "AssertionError") "")
  else
    rows ← on_part business set_business (clear_business days);
    print [("reports_redacted", JInt (len rows)); ("days", JInt days)]%string ;;
    (if checkpoint_url then on_part agent set_agent (clear_agent days rows) else mret ()) ;;
    (if s3_endpoint && checkpoint_url then
       new_artifacts ;;
       n ← on_part artifacts set_artifacts (cleanup now days);
       print [("objects_removed", JInt n)]%string
     else mret ()).

(** The administrator runs it again when it failed. *)
Fixpoint retentions (checkpoint_url s3_endpoint : bool) (days : Z) (n : nat) (s : W * Site)
    : W * Site :=
  match n with
  | O => s
  | S n' => retentions checkpoint_url s3_endpoint days n'
              (retention checkpoint_url s3_endpoint days s).1
  end.
End retention.
