(* ===== verification/RetentionSpec.v ===== *)
(** * What retention promises

    It removes enough and never too much: a run that returns has left nothing of what was
    old when it began, and no run, however it ends, has touched anything that was not old
    by then, nor any of the metadata; running it again after a failure finishes the work.
    One kind of thread is out of its reach, that of the model's agent.  The acceptance
    check of the script is at the end. *)
From S2P Require Import Prelude.
From S2P Require Import PyStr.
From S2P Require Import Json.
From S2P Require Import Cache.
From S2P Require Import Artifacts.
From S2P Require Import Main.
From S2P Require Import Startup.
From S2P Require Import Retention.

(** ** LIKE on identifiers *)

(** The text of a uuid: 36 characters, none of them special in a pattern. *)
Definition literal (c : Z) : bool := negb ((c =? 37) || (c =? 95) || (c =? 92)).
Definition id_ok (id : pystr) : Prop := length id = 36%nat ∧ Forall (λ c, literal c = true) id.

Lemma like_char c p s : literal c = true →
  like (c :: p) s = match s with x :: s' => (x =? c) && like p s' | [] => false end.
Proof.
  unfold literal. intros H. apply negb_true_iff, orb_false_iff in H as [[H1 H2]%orb_false_iff H3].
  cbn [like]. by rewrite H1, H2, H3.
Qed.

Lemma like_prefix p q s :
  Forall (λ c, literal c = true) p → like (p ++ q) s = true ↔ ∃ s', s = p ++ s' ∧ like q s' = true.
Proof.
  intros H. revert s. induction H as [|c p Hc Hp IH]; intros s; cbn [app].
  - split; [eauto|]. by intros (s' & -> & H).
  - rewrite like_char by done. destruct s as [|x s].
    + split; [done|]. by intros (? & ? & _).
    + rewrite andb_true_iff, IH, Z.eqb_eq. split.
      * intros [-> (s' & -> & H)]. eauto.
      * intros (s' & [= -> ->] & H). eauto.
Qed.

Lemma like_any s : like [37] s = true.
Proof. destruct s as [|x s]; cbn; [done|]. induction s as [|y s IH]; [done|]. cbn. exact IH. Qed.

(** The pattern of an investigation finds the threads of its generations, and no other's. *)
Lemma pattern_threads id t :
  id_ok id → like (thread_pattern id) t = true ↔ ∃ g, t = id ++ u ":g" ++ g.
Proof.
  intros [_ H]. unfold thread_pattern. change (u ":g%") with (u ":g" ++ [37]).
  rewrite like_prefix by done. split.
  - intros (s & -> & Hs). apply (like_prefix (u ":g")) in Hs as (g & -> & _); [eauto|].
    by repeat constructor.
  - intros (g & ->). exists (u ":g" ++ g). split; [done|]. apply like_prefix; [by repeat constructor|].
    exists g. split; [done|apply like_any].
Qed.

Lemma thread_owner id id' g g' :
  id_ok id → id_ok id' → id ++ u ":g" ++ g = id' ++ u ":g" ++ g' → id = id'.
Proof. intros [H _] [H' _] E. apply app_inj_1 in E as [-> _]; [done|congruence]. Qed.

(** ** What is old, what is trimmed, what is cleared *)

Section trimming.
Variable days : Z.

Lemma older_later t t' c : t ≤ t' → older days t c = true → older days t' c = true.
Proof. unfold older. rewrite !Z.ltb_lt. lia. Qed.

Lemma expired_later t t' r : t ≤ t' → expired days t r = true → expired days t' r = true.
Proof.
  unfold expired. rewrite !orb_true_iff, !andb_true_iff, !Z.ltb_lt. intros H [?|[? ?]]; [left; lia|right; split; [done|lia]].
Qed.

(** Investigation [id] is old at [t]. *)
Definition old (t : Z) (b : Business) (id : pystr) : Prop :=
  ∃ i, investigations b !! id = Some i ∧ older days t (i_created i) = true.

(** [id]'s thread of some generation. *)
Definition thread_of (id t : pystr) : Prop := ∃ g, t = id ++ u ":g" ++ g.

Definition event_removed (e : Event) : Event :=
  {| ev_of := ev_of e; ev_seq := ev_seq e; ev_kind := ev_kind e; ev_payload := removed_payload |}.

(** From [s] to [s'] only what was old at [t] has changed, and only as it should: old
    investigations keep their row, events theirs, without their contents; threads of
    old investigations, old bundles and expired snapshots may be gone, a snapshot's row
    never without its object. *)
Record trimmed (t : Z) (s s' : Site) : Prop := {
  tr_investigations : ∀ id,
    investigations (business s') !! id = investigations (business s) !! id
    ∨ old t (business s) id ∧
      investigations (business s') !! id = redacted <$> investigations (business s) !! id;
  tr_events : Forall2 (λ e e', e' = e ∨ old t (business s) (ev_of e) ∧ e' = event_removed e)
    (events (business s)) (events (business s'));
  tr_threads : Forall2 (λ tb tb', tb'.1 = tb.1 ∧ ∀ r,
      (r ∈ tb'.2 → r ∈ tb.2) ∧
      (r ∈ tb.2 → r ∈ tb'.2 ∨ ∃ id, old t (business s) id ∧ thread_of id r.1))
    (checkpoint_tables (agent s)) (checkpoint_tables (agent s'));
  tr_bundles : ∀ k, bundles (agent s') !! k = bundles (agent s) !! k
    ∨ bundles (agent s') !! k = None ∧
      ∃ e, bundles (agent s) !! k = Some e ∧ older days t (created_at e) = true;
  tr_artifacts : ∀ k,
    rows (artifacts s') !! k = rows (artifacts s) !! k ∧
    (objects (artifacts s') !! k = objects (artifacts s) !! k
     ∨ ∃ r, rows (artifacts s) !! k = Some r ∧ expired days t r = true)
    ∨ rows (artifacts s') !! k = None ∧ objects (artifacts s') !! k = None ∧
      ∃ r, rows (artifacts s) !! k = Some r ∧ expired days t r = true }.

(** Nothing that was old at [t] is left, as far as the script was configured to go. *)
Record cleared (checkpoint_url s3_endpoint : bool) (t : Z) (s : Site) : Prop := {
  cl_investigations : ∀ id i, investigations (business s) !! id = Some i →
    older days t (i_created i) = true → i = redacted i;
  cl_events : ∀ e, e ∈ events (business s) → old t (business s) (ev_of e) → e = event_removed e;
  cl_threads : checkpoint_url = true → ∀ tb r id, tb ∈ checkpoint_tables (agent s) →
    tb.1 ∈ CHECKPOINT_TABLES → r ∈ tb.2 → old t (business s) id → ¬ thread_of id r.1;
  cl_bundles : checkpoint_url = true → ∀ k e, bundles (agent s) !! k = Some e →
    older days t (created_at e) = false;
  cl_artifacts : checkpoint_url = true → s3_endpoint = true → ∀ k r,
    rows (artifacts s) !! k = Some r → expired days t r = false }.

(** *** Trimming composes *)

Lemma trimmed_old t s s' t' id :
  trimmed t s s' → old t' (business s') id ↔ old t' (business s) id.
Proof.
  intros H. unfold old. destruct (tr_investigations _ _ _ H id) as [->|[(i & E & _) ->]]; [done|].
  rewrite E. cbn. split; intros (i' & [= <-] & Ho); eexists; by split.
Qed.

Lemma old_later t t' b id : t ≤ t' → old t b id → old t' b id.
Proof. intros H (i & Hi & Ho). exists i. split; [done|]. by eapply older_later. Qed.

Lemma trimmed_later t t' s s' : t ≤ t' → trimmed t s s' → trimmed t' s s'.
Proof.
  intros Ht [H1 H2 H3 H4 H5]. split.
  - intros id. destruct (H1 id) as [?|[? ?]]; [by left|right]. split; [by eapply old_later|done].
  - eapply Forall2_impl; [exact H2|]. cbn. intros e e' [?|[? ?]]; [by left|right].
    split; [by eapply old_later|done].
  - eapply Forall2_impl; [exact H3|]. cbn. intros tb tb' [E H]. split; [done|]. intros r.
    destruct (H r) as [Ha Hb]. split; [done|]. intros [?|(id & ? & ?)]%Hb; [by left|right].
    exists id. split; [by eapply old_later|done].
  - intros k. destruct (H4 k) as [?|(? & e & ? & ?)]; [by left|right]. split; [done|].
    exists e. split; [done|]. by eapply older_later.
  - intros k. destruct (H5 k) as [[? [?|(r & ? & ?)]]|(? & ? & r & ? & ?)].
    + left. auto.
    + left. split; [done|]. right. exists r. split; [done|]. by eapply expired_later.
    + right. split_and!; [done|done|]. exists r. split; [done|]. by eapply expired_later.
Qed.

#[export] Instance trimmed_preorder t : PreOrder (trimmed t).
Proof.
  split.
  - intros s. split; try (intros; by left).
    + induction (events (business s)); constructor; eauto.
    + induction (checkpoint_tables (agent s)) as [|tb l IH]; constructor; [|exact IH]. split; [done|]. auto.
    + intros k. left. auto.
  - intros s1 s2 s3 H H'. pose proof (trimmed_old t s1 s2 t) as Hold. destruct H' as [G1 G2 G3 G4 G5].
    split.
    + intros id. specialize (Hold id H). destruct (tr_investigations _ _ _ H id) as [E|[Ho E]];
        destruct (G1 id) as [E'|[Ho' E']]; rewrite E', E.
      * by left.
      * right. split; [by apply Hold|done].
      * by right.
      * right. split; [done|]. destruct (investigations (business s1) !! id); done.
    + pose proof (tr_events _ _ _ H) as F. clear - F G2 H Hold. revert G2.
      generalize (events (business s3)). induction F as [|e e2 l l2 He F IH]; intros l3 G;
        inversion G as [|? e3 ? l3' He' G']; subst; constructor; [|by apply IH].
      destruct He as [->|[Ho ->]], He' as [->|[Ho' ->]]; [by left| |right|right].
      * right. split; [by apply (Hold _ H)|done].
      * done.
      * done.
    + pose proof (tr_threads _ _ _ H) as F. clear - F G3 H Hold. revert G3.
      generalize (checkpoint_tables (agent s3)).
      induction F as [|e e2 l l2 [He Hr] F IH]; intros l3 G;
        inversion G as [|? e3 ? l3' [He' Hr'] G']; subst; constructor; [|by apply IH].
      split; [congruence|]. intros r. destruct (Hr r) as [Ha Hb], (Hr' r) as [Ha' Hb'].
      split; [auto|]. intros [[?|(id & Ho & ?)]%Hb'|?]%Hb; [by left| |by right].
      right. exists id. split; [by apply (Hold _ H)|done].
    + intros k. destruct (tr_bundles _ _ _ H k) as [E|(E & e & Ee & Ho)];
        destruct (G4 k) as [E'|(E' & e' & Ee' & Ho')].
      * left. congruence.
      * right. split; [done|]. exists e'. split; [congruence|done].
      * right. split; [congruence|]. eauto.
      * right. eauto.
    + intros k. destruct (tr_artifacts _ _ _ H k) as [[E [Eo|(r & Er & Ho)]]|(E & Eo & r & Er & Ho)];
        destruct (G5 k) as [[E' [Eo'|(r' & Er' & Ho')]]|(E' & Eo' & r' & Er' & Ho')].
      all: try (rewrite E in *).
      * left. split; [congruence|]. left. congruence.
      * left. split; [congruence|]. right. eauto.
      * right. eauto 6.
      * left. split; [congruence|]. right. eauto.
      * left. split; [congruence|]. right. eauto.
      * right. eauto 6.
      * right. split_and!; [congruence|congruence|eauto].
      * done.
      * done.
Qed.
End trimming.

(** ** The transactions *)

Section business_.
Variable days : Z.

(** What the first transaction commits, at time [t]. *)
Definition business_cleared (t : Z) (b : Business) : Business :=
  drop_rate_limits t (foldl (λ b id, redact_events id b) (redact_investigations days t b)
                            (expired_ids days t b)).

Lemma fold_redact_events ids b :
  let b' := foldl (λ b id, redact_events id b) b ids in
  investigations b' = investigations b ∧
  events b' = (λ e, if mem (ev_of e) ids then event_removed e else e) <$> events b.
Proof.
  revert b. induction ids as [|id ids IH]; intros b; cbn.
  - split; [done|]. symmetry. apply list_fmap_id.
  - destruct (IH (redact_events id b)) as [-> ->]. split; [done|]. cbn.
    rewrite <- list_fmap_compose. apply list_fmap_ext. intros _ e _. cbn.
    destruct (str_eqb (ev_of e) id); cbn; [|done]. by destruct (mem _ ids).
Qed.

Lemma mem_expired t b id : mem id (expired_ids days t b) = true ↔ old days t b id.
Proof.
  unfold expired_ids, old. rewrite mem_elem_of. split.
  - intros ([id' i] & -> & [Ho Hi]%list_elem_of_filter)%list_elem_of_fmap.
    apply elem_of_map_to_list in Hi. eauto.
  - intros (i & Hi & Ho). apply list_elem_of_fmap. exists (id, i). split; [done|].
    apply list_elem_of_filter. split; [done|]. by apply elem_of_map_to_list.
Qed.

Lemma business_cleared_shape t b :
  investigations (business_cleared t b)
    = (λ i, if older days t (i_created i) then redacted i else i) <$> investigations b ∧
  events (business_cleared t b)
    = (λ e, if mem (ev_of e) (expired_ids days t b) then event_removed e else e) <$> events b.
Proof.
  unfold business_cleared. cbn.
  destruct (fold_redact_events (expired_ids days t b) (redact_investigations days t b)) as [-> ->].
  done.
Qed.

Lemma business_trimmed t s : trimmed days t s (set_business (business_cleared t (business s)) s).
Proof.
  destruct (business_cleared_shape t (business s)) as [Hi He].
  split; cbn [business set_business agent artifacts]; try (intros; by left).
  - intros id. rewrite Hi, lookup_fmap. destruct (investigations (business s) !! id) as [i|] eqn:E;
      cbn; [|by left].
    destruct (older days t (i_created i)) eqn:Ho; [right|by left]. split; [by exists i|done].
  - rewrite He. clear. induction (events (business s)) as [|e es IH]; cbn; constructor; [|exact IH].
    destruct (mem _ _) eqn:E; [right|by left]. split; [by apply mem_expired|done].
  - apply (tr_threads _ _ _ _ (reflexivity s)).
  - intros k. apply (tr_artifacts _ _ _ _ (reflexivity s)).
Qed.

Lemma business_is_cleared c3 t s :
  cleared days false c3 t (set_business (business_cleared t (business s)) s).
Proof.
  destruct (business_cleared_shape t (business s)) as [Hi He].
  split; cbn [business set_business agent artifacts]; try done.
  - intros id i. rewrite Hi, lookup_fmap. intros (i' & _ & ->)%fmap_Some.
    destruct (older days t (i_created i')) eqn:E; [done|]. congruence.
  - intros e Hin Ho. rewrite He in Hin. apply list_elem_of_fmap in Hin as (e' & -> & _).
    apply (trimmed_old days t s (set_business (business_cleared t (business s)) s)) in Ho;
      [|apply business_trimmed].
    destruct (mem (ev_of e') _) eqn:E; [done|]. apply mem_expired in Ho. cbn in Ho. congruence.
Qed.
End business_.

Section agent_.
Variable days : Z.

(** What the second commits, for the identifiers of the first. *)
Definition agent_cleared (t : Z) (ids : list pystr) (a : AgentDB) : AgentDB :=
  delete_bundles days t
    (foldl (λ a id, foldl (λ a table, delete_threads table id a) a CHECKPOINT_TABLES) a ids).

Definition hits (ids : list pystr) (r : pystr * json) : bool :=
  existsb (λ id, like (thread_pattern id) r.1) ids.

Lemma delete_tables id a tables :
  let a' := foldl (λ a table, delete_threads table id a) a tables in
  bundles a' = bundles a ∧
  checkpoint_tables a' = (λ tb, if mem tb.1 tables
    then (tb.1, filter (λ r, like (thread_pattern id) r.1 = false) tb.2) else tb)
    <$> checkpoint_tables a.
Proof.
  revert a. induction tables as [|t ts IH]; intros a; cbn.
  - split; [done|]. symmetry. apply list_fmap_id.
  - destruct (IH (delete_threads t id a)) as [-> ->]. split; [done|]. cbn.
    rewrite <- list_fmap_compose. apply list_fmap_ext. intros _ [n rs] _. cbn.
    destruct (str_eqb n t) eqn:E; cbn; [|done]. destruct (mem n ts); [|done].
    f_equal. rewrite list_filter_filter. apply list_filter_iff. intros r. tauto.
Qed.

Lemma agent_cleared_shape t ids a :
  bundles (agent_cleared t ids a)
    = filter (λ kv, older days t (created_at kv.2) = false) (bundles a) ∧
  checkpoint_tables (agent_cleared t ids a) = (λ tb, if mem tb.1 CHECKPOINT_TABLES
    then (tb.1, filter (λ r, hits ids r = false) tb.2) else tb) <$> checkpoint_tables a.
Proof.
  unfold agent_cleared. cbn [bundles checkpoint_tables delete_bundles].
  assert (∀ a, let a' := foldl (λ a id, foldl (λ a table, delete_threads table id a) a
                                          CHECKPOINT_TABLES) a ids in
    bundles a' = bundles a ∧
    checkpoint_tables a' = (λ tb, if mem tb.1 CHECKPOINT_TABLES
      then (tb.1, filter (λ r, hits ids r = false) tb.2) else tb) <$> checkpoint_tables a) as H;
    [|by destruct (H a) as [-> ->]].
  clear a. induction ids as [|id ids IH]; intros a; cbn [foldl].
  - split; [done|]. rewrite <- (list_fmap_id (checkpoint_tables a)) at 1. apply list_fmap_ext.
    intros _ [n rs] _. cbn [fst snd id]. destruct (mem n _); [|done]. unfold id. f_equal.
    symmetry. apply filter_all. by apply Forall_forall.
  - destruct (delete_tables id a CHECKPOINT_TABLES) as [Hb Ht].
    destruct (IH (foldl (λ a table, delete_threads table id a) a CHECKPOINT_TABLES)) as [-> ->].
    rewrite Hb, Ht. split; [done|]. rewrite <- list_fmap_compose. apply list_fmap_ext.
    intros _ [n rs] _. cbn [compose fst snd]. destruct (mem n CHECKPOINT_TABLES) eqn:E; cbn [fst snd];
      rewrite E; [|done].
    f_equal. rewrite list_filter_filter. apply list_filter_iff. intros r. cbn.
    rewrite orb_false_iff. tauto.
Qed.

Lemma agent_trimmed t ids s :
  (∀ id, id ∈ ids → id_ok id ∧ old days t (business s) id) →
  trimmed days t s (set_agent (agent_cleared t ids (agent s)) s).
Proof.
  intros Hids. destruct (agent_cleared_shape t ids (agent s)) as [Hb Ht].
  split; cbn [business set_agent agent artifacts]; try (intros; by left).
  - apply (tr_events _ _ _ _ (reflexivity s)).
  - rewrite Ht. clear Hb Ht.
    induction (checkpoint_tables (agent s)) as [|[n rs] tbs IH]; [constructor|].
    rewrite fmap_cons. constructor; [|exact IH]. cbn [fst snd]. destruct (mem n _); cbn [fst snd];
      (split; [done|]); intros r; [|by auto]. rewrite list_elem_of_filter. split; [tauto|].
    intros Hr. destruct (hits ids r) eqn:E; [right|by left].
    apply existsb_exists in E as (id & Hid%list_elem_of_In & Hl).
    destruct (Hids id Hid) as [Hok Ho]. exists id. split; [done|]. by apply pattern_threads.
  - intros k. rewrite Hb, map_lookup_filter. destruct (bundles (agent s) !! k) as [e|]; cbn; [|by left].
    destruct (older days t (created_at e)) eqn:E; [right|left].
    + split; [|by exists e]. by rewrite option_guard_False.
    + by rewrite option_guard_True.
  - intros k. apply (tr_artifacts _ _ _ _ (reflexivity s)).
Qed.

(** The rows of threads that are left are of none of the investigations given. *)
Lemma agent_threads_gone t ids a tb r id :
  tb ∈ checkpoint_tables (agent_cleared t ids a) → tb.1 ∈ CHECKPOINT_TABLES → r ∈ tb.2 →
  id ∈ ids → id_ok id → ¬ thread_of id r.1.
Proof.
  destruct (agent_cleared_shape t ids a) as [_ ->].
  intros ([n rs] & -> & _)%list_elem_of_fmap. cbn [fst snd].
  destruct (mem n CHECKPOINT_TABLES) eqn:E; cbn [fst snd].
  - intros _ [Hn _]%list_elem_of_filter Hid Hok Ht. apply not_true_iff_false in Hn. apply Hn.
    apply existsb_exists. exists id. split; [by apply list_elem_of_In|]. by apply pattern_threads.
  - intros Hn%mem_elem_of. congruence.
Qed.

Lemma agent_bundles_gone t ids a k e :
  bundles (agent_cleared t ids a) !! k = Some e → older days t (created_at e) = false.
Proof.
  destruct (agent_cleared_shape t ids a) as [-> _]. by intros [_ H]%map_lookup_filter_Some.
Qed.
End agent_.

(** ** The snapshots *)

Lemma remove_all_deleted ks s s' k :
  remove_all ks s = (s', Ok tt) → k ∈ ks → rows s' !! k = None ∧ objects s' !! k = None.
Proof.
  revert s. induction ks as [|k' ks IH]; intros s H Hk; [by apply elem_of_nil in Hk|].
  cbn [remove_all] in H. apply M_bind_ok in H as (s1 & [] & H3 & H).
  apply M_bind_ok in H as (s2 & [] & [= <-] & H).
  destruct (decide (k ∈ ks)) as [Hin|Hni]; [by eapply IH|].
  assert (k = k') as -> by (by apply elem_of_cons in Hk as [?|?]).
  destruct (remove_all_objects _ _ _ _ _ Hni H) as [-> ->]. cbn.
  apply s3_call_rows in H3 as (_ & _ & Ho). rewrite (Ho eq_refl). by rewrite !lookup_delete_eq.
Qed.

Lemma cleanup_run {W} (now : W → Z) days (s s' : W * Store) x :
  cleanup now days s = (s', x) →
  s'.1 = s.1 ∧
  (∀ k, rows s'.2 !! k = rows s.2 !! k ∧
     (objects s'.2 !! k = objects s.2 !! k
      ∨ ∃ r, rows s.2 !! k = Some r ∧ expired days (now s.1) r = true)
   ∨ rows s'.2 !! k = None ∧ objects s'.2 !! k = None ∧
     ∃ r, rows s.2 !! k = Some r ∧ expired days (now s.1) r = true) ∧
  (∀ n, x = Ok n → ∀ k r, rows s'.2 !! k = Some r → expired days (now s.1) r = false).
Proof.
  unfold cleanup. set (ks := fst <$> _).
  assert (∀ k, k ∈ ks ↔ ∃ r, rows s.2 !! k = Some r ∧ expired days (now s.1) r = true) as Hks.
  { intros k. unfold ks. split.
    - intros ([k' r] & -> & [He Hin]%list_elem_of_filter)%list_elem_of_fmap.
      apply elem_of_map_to_list in Hin. eauto.
    - intros (r & Hr & He). apply list_elem_of_fmap. exists (k, r). split; [done|].
      apply list_elem_of_filter. split; [done|]. by apply elem_of_map_to_list. }
  destruct (remove_all ks s.2) as [t [[]|e]] eqn:H; intros [= <- <-]; cbn [fst snd];
    (split; [done|]); split; try done.
  - intros k. destruct (decide (k ∈ ks)) as [Hin|Hni].
    + right. destruct (remove_all_deleted _ _ _ _ H Hin). apply Hks in Hin. auto.
    + left. destruct (remove_all_objects _ _ _ _ _ Hni H). auto.
  - intros _ _ k r Hr. destruct (decide (k ∈ ks)) as [Hin|Hni].
    + destruct (remove_all_deleted _ _ _ _ H Hin). congruence.
    + destruct (remove_all_objects _ _ _ _ _ Hni H) as [_ E]. rewrite E in Hr.
      apply not_true_iff_false. intros He. apply Hni, Hks. eauto.
  - intros k. left. split; [done|]. cbn. destruct (decide (k ∈ ks)) as [Hin|Hni].
    + right. by apply Hks.
    + left. by destruct (remove_all_objects _ _ _ _ _ Hni H).
Qed.

(** ** The runs *)

Section runs.
Context {W : Type}.
Variable answer : W → W * outcome.
Variable now : W → Z.
Variable create_bucket : W → W * BucketAnswer.
Hypothesis answer_clock : ∀ w, now w ≤ now (answer w).1.
Hypothesis bucket_clock : ∀ w, now w ≤ now (create_bucket w).1.

Local Abbreviation statement := (statement answer).
Local Abbreviation connection := (connection answer now).
Local Abbreviation clear_business := (clear_business answer now).
Local Abbreviation clear_agent := (clear_agent answer now).
Local Abbreviation new_artifacts := (new_artifacts answer now create_bucket).
Local Abbreviation retention := (retention answer now create_bucket).
Local Abbreviation retentions := (retentions answer now create_bucket).

(** Time passes. *)
Definition passes {X} (s s' : W * X) : Prop := now s.1 ≤ now s'.1.

#[local] Instance passes_preorder {X} : PreOrder (@passes X).
Proof. unfold passes. split; [by intros ?|]. intros ? ? ?. lia. Qed.

Lemma statement_passes {X} (f : X → X) : keeps passes (statement f).
Proof.
  intros [w y] s' x. unfold Retention.statement, request, mbind, M_bind. cbn.
  destruct (answer w) as [w' o] eqn:E. cbn. pose proof (answer_clock w) as Hc. rewrite E in Hc.
  destruct o; intros [= <- _]; exact Hc.
Qed.

Lemma statement_ok {X} (f : X → X) s s' : statement f s = (s', Ok tt) → s'.2 = f s.2.
Proof.
  unfold Retention.statement, request, mbind, M_bind. cbn.
  destruct (answer s.1).2; intros [= <-]; done.
Qed.

Lemma for_each_fold {X A} (xs : list A) (body : A → M (W * X) ()) g s s' :
  (∀ x s s', body x s = (s', Ok tt) → s'.2 = g s.2 x) →
  for_each xs body s = (s', Ok tt) → s'.2 = foldl g s.2 xs.
Proof.
  intros Hb. revert s. induction xs as [|x xs IH]; intros s; cbn [for_each foldl];
    [by intros [= <-]|].
  intros (s1 & [] & H1%Hb & H)%M_bind_ok. rewrite <- H1. by apply IH.
Qed.

(** A transaction took place, or it did not; it returns only when it did. *)
Lemma connection_run {X A} (body : Z → M (W * X) A) s s' r :
  (∀ t, keeps passes (body t)) → connection body s = (s', r) →
  passes s s' ∧
  ((s'.2 = s.2 ∧ ∃ e, r = Raise e) ∨
   ∃ w w' a, now s.1 ≤ now w ∧ now w ≤ now s'.1 ∧ body (now w) (w, s.2) = ((w', s'.2), Ok a) ∧
     (r = Ok a ∨ ∃ e, r = Raise e)).
Proof.
  intros Hb. unfold Retention.connection, passes.
  pose proof (answer_clock s.1) as H0. destruct (answer s.1) as [w o]. cbn in H0.
  destruct o; [|by intros [= <- <-]; cbn; eauto..].
  destruct (body (now w) (w, s.2)) as [[w' x] y] eqn:E. pose proof (Hb _ _ _ _ E) as H1.
  unfold passes in H1. cbn in H1. destruct y as [a|e]; [|intros [= <- <-]; cbn; split; [lia|eauto]].
  pose proof (answer_clock w') as H2. destruct (answer w') as [w2 o]. cbn in H2.
  destruct o; intros [= <- <-]; cbn; (split; [lia|]); [right|right|left; eauto];
    exists w, w', a; split_and!; eauto; lia.
Qed.

Lemma clear_business_run days s s' r :
  clear_business days s = (s', r) →
  passes s s' ∧
  ((s'.2 = s.2 ∧ ∃ e, r = Raise e) ∨
   ∃ t, now s.1 ≤ t ∧ t ≤ now s'.1 ∧ s'.2 = business_cleared days t s.2 ∧
     (r = Ok (expired_ids days t s.2) ∨ ∃ e, r = Raise e)).
Proof.
  intros H. apply connection_run in H as [Hp H].
  - split; [exact Hp|]. destruct H as [?|(w & w' & a & H1 & H2 & H & Hr)]; [by left|right].
    exists (now w). apply M_bind_ok in H as (s1 & b & [= <- <-] & H).
    apply M_bind_ok in H as (s2 & [] & E2%statement_ok & H).
    apply M_bind_ok in H as (s3 & [] & E3 & H).
    apply (for_each_fold _ _ (λ b id, redact_events id b)) in E3;
      [|by intros ? ? ? ?%statement_ok].
    apply M_bind_ok in H as (s4 & [] & E4%statement_ok & [= E5 <-]).
    split_and!; [done|done| |done]. subst s4. cbn in *. by rewrite E4, E3, E2.
  - intros t. pose proof (@statement_passes Business) as Hst. keeps_steps.
Qed.

Lemma clear_agent_run days ids s s' r :
  clear_agent days ids s = (s', r) →
  passes s s' ∧
  ((s'.2 = s.2 ∧ ∃ e, r = Raise e) ∨
   ∃ t, now s.1 ≤ t ∧ t ≤ now s'.1 ∧ s'.2 = agent_cleared days t ids s.2).
Proof.
  intros H. apply connection_run in H as [Hp H].
  - split; [exact Hp|]. destruct H as [?|(w & w' & a & H1 & H2 & H & Hr)]; [by left|right].
    exists (now w). destruct a. apply M_bind_ok in H as (s1 & [] & E1 & H%statement_ok).
    apply (for_each_fold _ _ (λ a id, foldl (λ a table, delete_threads table id a) a
      CHECKPOINT_TABLES)) in E1; [cbn in H; by rewrite H, E1|].
    intros id s2 s3 Hi. apply (for_each_fold _ _ (λ a table, delete_threads table id a)) in Hi;
      [done|]. by intros ? ? ? ?%statement_ok.
  - intros t. pose proof (@statement_passes AgentDB) as Hst. keeps_steps.
Qed.

Lemma new_artifacts_run {X} (s s' : W * X) r : new_artifacts s = (s', r) → passes s s' ∧ s'.2 = s.2.
Proof.
  unfold Retention.new_artifacts. pose proof (bucket_clock s.1) as H0.
  destruct (create_bucket s.1) as [w b]. cbn in H0. destruct (bucket_made b).
  - intros H. apply connection_run in H as [Hp H]; [|intros; apply statement_passes].
    unfold passes in *. cbn in *. split; [lia|].
    destruct H as [[? _]|(w1 & w2 & [] & _ & _ & H & _)]; [done|]. by apply statement_ok in H.
  - by intros [= <- _].
Qed.

(** *** The stages of the script *)

Definition ids_ok (b : Business) : Prop :=
  ∀ id i, investigations b !! id = Some i → id_ok id.

Lemma on_part_run {X A} (part : Site → X) set_part (m : M (W * X) A) s s' r :
  on_part part set_part m s = (s', r) →
  ∃ x, m (s.1, part s.2) = ((s'.1, x), r) ∧ s'.2 = set_part x s.2.
Proof. unfold on_part. destruct (m _) as [[w x] y]. intros [= <- <-]. by exists x. Qed.

(** What printing leaves alone. *)
Lemma trimmed_printed days t s v : trimmed days t s (add_printed v s).
Proof. destruct (reflexivity s : trimmed days t s s) as [H1 H2 H3 H4 H5]. by split. Qed.

Lemma stage_business days s s' r :
  on_part business set_business (clear_business days) s = (s', r) →
  passes s s' ∧ trimmed days (now s'.1) s.2 s'.2 ∧
  ∀ ids, r = Ok ids → ∃ t, now s.1 ≤ t ∧ t ≤ now s'.1 ∧
    s'.2 = set_business (business_cleared days t (business s.2)) s.2 ∧
    ids = expired_ids days t (business s.2).
Proof.
  intros (b & [Hp H]%clear_business_run & E)%on_part_run. cbn in Hp, H. split; [exact Hp|].
  destruct H as [[-> [e ->]]|(t & H1 & H2 & -> & Hr)]; rewrite E.
  - split; [|done]. by destruct (s.2).
  - split; [eapply trimmed_later; [exact H2|apply business_trimmed]|]. intros ids ->.
    exists t. destruct Hr as [[= ->]|[e Hr]]; [done|discriminate].
Qed.

Lemma stage_agent days ids s s' r :
  (∀ id, id ∈ ids → id_ok id ∧ old days (now s.1) (business s.2) id) →
  on_part agent set_agent (clear_agent days ids) s = (s', r) →
  passes s s' ∧ trimmed days (now s'.1) s.2 s'.2 ∧
  (s'.2 = s.2 ∧ (∃ e, r = Raise e) ∨ ∃ t, now s.1 ≤ t ∧ s'.2 = set_agent (agent_cleared days t ids (agent s.2)) s.2).
Proof.
  intros Hids (b & [Hp H]%clear_agent_run & E)%on_part_run. cbn in Hp, H. split; [exact Hp|].
  destruct H as [[-> [e ->]]|(t & H1 & H2 & ->)]; rewrite E.
  - assert (set_agent (agent s.2) s.2 = s.2) as -> by (by destruct (s.2)). split; [done|eauto].
  - split; [|eauto]. eapply trimmed_later; [exact H2|]. apply agent_trimmed. intros id Hid.
    destruct (Hids id Hid) as [? Ho]. split; [done|]. by eapply old_later.
Qed.

Lemma stage_artifacts days s s' r :
  on_part artifacts set_artifacts (cleanup now days) s = (s', r) →
  s'.1 = s.1 ∧ trimmed days (now s.1) s.2 s'.2 ∧
  business s'.2 = business s.2 ∧ agent s'.2 = agent s.2 ∧
  (∀ n, r = Ok n → ∀ k x, rows (artifacts s'.2) !! k = Some x → expired days (now s.1) x = false).
Proof.
  intros (a & (H1 & H2 & H3)%cleanup_run & E)%on_part_run. cbn in H1, H2, H3. rewrite E.
  split; [done|]. split; [|by split_and!].
  destruct (reflexivity s.2 : trimmed days (now s.1) s.2 s.2) as [T1 T2 T3 T4 T5]. by split.
Qed.

Lemma cleared_intro days c1 c3 t t1 b0 s :
  business s = business_cleared days t1 b0 → t ≤ t1 → ids_ok b0 →
  (c1 = true → ∃ t2 a0, t ≤ t2 ∧ agent s = agent_cleared days t2 (expired_ids days t1 b0) a0) →
  (c1 = true → c3 = true → ∀ k r, rows (artifacts s) !! k = Some r → expired days t r = false) →
  cleared days c1 c3 t s.
Proof.
  intros Hb Ht Hids Ha Hs.
  set (s0 := {| business := b0; agent := agent s; artifacts := artifacts s; printed := printed s |}).
  pose proof (business_is_cleared days c3 t1 s0) as [C1 C2 _ _ _].
  pose proof (business_trimmed days t1 s0) as T. 
  change (business (set_business (business_cleared days t1 (business s0)) s0))
    with (business_cleared days t1 b0) in C1, C2. rewrite <- Hb in C1, C2.
  assert (∀ id, old days t (business s) id → old days t1 b0 id) as Hold.
  { intros id Ho. apply (trimmed_old days t1 s0 _ t1 id T).
    change (old days t1 (business_cleared days t1 b0) id). rewrite <- Hb. by eapply old_later. }
  split.
  - intros id i Hi Ho. by eapply C1, older_later.
  - intros e He Ho. apply C2; [done|]. by eapply old_later.
  - intros Hc tb r id Htb Hn Hr Ho. destruct (Ha Hc) as (t2 & a0 & _ & Hag). rewrite Hag in Htb.
    apply Hold in Ho. eapply agent_threads_gone; eauto; [by apply mem_elem_of, mem_expired|].
    destruct Ho as (i & Hi & _). by eapply Hids.
  - intros Hc k e He. destruct (Ha Hc) as (t2 & a0 & H2 & Hag). rewrite Hag in He.
    apply agent_bundles_gone in He. apply not_true_iff_false. intros Ho.
    apply (older_later _ _ t2) in Ho; [congruence|done].
  - done.
Qed.

(** The two optional stages. *)
Definition agent_stage (c1 : bool) (days : Z) (ids : list pystr) : M (W * Site) () :=
  if c1 then on_part agent set_agent (clear_agent days ids) else mret ().

Lemma agent_stage_run c1 days ids s s' r :
  (∀ id, id ∈ ids → id_ok id ∧ old days (now s.1) (business s.2) id) →
  agent_stage c1 days ids s = (s', r) →
  passes s s' ∧ trimmed days (now s'.1) s.2 s'.2 ∧
  (r = Ok tt → business s'.2 = business s.2 ∧
     (c1 = true → ∃ t, now s.1 ≤ t ∧ agent s'.2 = agent_cleared days t ids (agent s.2))).
Proof.
  intros Hids. unfold agent_stage. destruct c1; [|by intros [= <- <-]].
  intros (Hp & Ht & H)%stage_agent; [|done]. split_and!; [done|done|]. intros ->.
  destruct H as [[_ [e He]]|(t & Hl & ->)]; [discriminate|]. split; [done|]. intros _. by exists t.
Qed.

Definition artifacts_stage (b : bool) (days : Z) : M (W * Site) () :=
  if b then
    new_artifacts ;;
    n ← on_part artifacts set_artifacts (cleanup now days);
    print [("objects_removed", JInt n)]%string
  else mret ().

Lemma artifacts_stage_run b days s s' r :
  artifacts_stage b days s = (s', r) →
  passes s s' ∧ trimmed days (now s'.1) s.2 s'.2 ∧
  (r = Ok tt → business s'.2 = business s.2 ∧ agent s'.2 = agent s.2 ∧
     (b = true → ∀ k x, rows (artifacts s'.2) !! k = Some x → expired days (now s.1) x = false)).
Proof.
  unfold artifacts_stage. destruct b; [|by intros [= <- <-]].
  unfold mbind at 1, M_bind at 1. destruct (new_artifacts s) as [s1 r1] eqn:E1.
  apply new_artifacts_run in E1 as [P1 E1].
  destruct r1 as [[]|e]; [|intros [= <- <-]; rewrite E1; by split_and!].
  unfold mbind at 1, M_bind at 1. destruct (on_part _ _ _ s1) as [s2 r2] eqn:E2.
  apply stage_artifacts in E2 as (W2 & T2 & B2 & A2 & C2). rewrite E1 in T2, B2, A2.
  destruct r2 as [n|e]; cbn; intros [= <- <-]; unfold passes in *; cbn; rewrite W2;
    (split; [done|]); split; try done.
  - etrans; [exact T2|apply trimmed_printed].
  - intros _. split_and!; [done|done|]. intros _ k x Hx. apply not_true_iff_false. intros He.
    apply (expired_later _ _ (now s1.1)) in He; [|done]. by rewrite (C2 n eq_refl k x Hx) in He.
Qed.

(** One run, however it ends. *)
Lemma retention_run c1 c3 days s s' x :
  ids_ok (business s.2) → retention c1 c3 days s = (s', x) →
  passes s s' ∧ trimmed days (now s'.1) s.2 s'.2 ∧
  (x = Ok tt → cleared days c1 c3 (now s.1) s'.2).
Proof.
  intros Hids. unfold Retention.retention. destruct (days <? 1); [by intros [= <- <-]|].
  unfold mbind at 1, M_bind at 1. destruct (on_part business _ _ s) as [s1 r1] eqn:E1.
  apply stage_business in E1 as (P1 & T1 & F1).
  destruct r1 as [ids|e]; [|by intros [= <- <-]].
  destruct (F1 ids eq_refl) as (t1 & L1 & L1' & E1 & Ei). clear F1.
  unfold mbind at 1, M_bind at 1, print at 1, modify at 1. set (v := dict _).
  set (s2 := (s1.1, add_printed v s1.2)).
  assert (trimmed days (now s1.1) s.2 s2.2) as T2 by (etrans; [exact T1|apply trimmed_printed]).
  assert (business s2.2 = business_cleared days t1 (business s.2)) as B2 by (by cbn; rewrite E1).
  assert (∀ id, id ∈ ids → id_ok id ∧ old days (now s2.1) (business s2.2) id) as Hold.
  { intros id Hid. rewrite Ei in Hid. apply mem_elem_of, mem_expired in Hid. split.
    - destruct Hid as (i & Hi & _). by eapply Hids.
    - apply (trimmed_old _ _ _ _ _ _ T2). by eapply old_later. }
  change (if c1 then _ else _) with (agent_stage c1 days ids).
  change (if c3 && c1 then _ else _) with (artifacts_stage (c3 && c1) days).
  unfold mbind, M_bind. destruct (agent_stage c1 days ids s2) as [s3 r3] eqn:E3.
  apply agent_stage_run in E3 as (P3 & T3 & F3); [|done]. unfold passes in *. cbn [s2 fst] in P3.
  assert (trimmed days (now s3.1) s.2 s3.2) as T3'
    by (etrans; [eapply trimmed_later; [exact P3|exact T2]|exact T3]).
  destruct r3 as [[]|e]; [|intros [= <- <-]; split_and!; [lia|done|done]].
  intros (P4 & T4 & F4)%artifacts_stage_run. unfold passes in P4. split_and!; [lia| |].
  - etrans; [eapply trimmed_later; [exact P4|exact T3']|exact T4].
  - intros ->. destruct (F3 eq_refl) as [B3 A3], (F4 eq_refl) as (B4 & A4 & C4).
    apply (cleared_intro _ _ _ _ t1 (business s.2)); [congruence|done|done| |].
    + intros Hc. destruct (A3 Hc) as (t2 & Ht2 & E). cbn [s2 fst] in Ht2.
      exists t2, (agent s2.2). split; [lia|congruence].
    + intros Hc1 Hc3 k r Hr. rewrite Hc1, Hc3 in C4. specialize (C4 eq_refl k r Hr).
      apply not_true_iff_false. intros He. apply (expired_later _ _ (now s3.1)) in He; [congruence|lia].
Qed.

Lemma trimmed_ids_ok days t s s' : ids_ok (business s) → trimmed days t s s' → ids_ok (business s').
Proof.
  intros H T id i Hi. destruct (tr_investigations _ _ _ _ T id) as [E|[_ E]]; rewrite E in Hi.
  - by eapply H.
  - destruct (investigations (business s) !! id) eqn:E'; [|done]. by eapply H.
Qed.

Lemma retentions_run c1 c3 days n s :
  ids_ok (business s.2) → let s' := retentions c1 c3 days n s in
  passes s s' ∧ trimmed days (now s'.1) s.2 s'.2.
Proof.
  revert s. induction n as [|n IH]; intros s Hids; cbn; [done|].
  destruct (retention c1 c3 days s) as [s1 x] eqn:E. apply retention_run in E as (P & T & _); [|done].
  destruct (IH s1) as [P' T']; [by eapply trimmed_ids_ok|]. cbn in P', T'. unfold passes in *. cbn.
  split; [lia|]. etrans; [eapply trimmed_later; [exact P'|exact T]|exact T'].
Qed.

(** *** A run that nothing refuses *)

Definition returns {S A} (P : S → Prop) (m : M S A) : Prop :=
  ∀ s, P s → ∃ s' a, m s = (s', Ok a) ∧ P s'.

Lemma returns_bind {S A B} P (m : M S A) (f : A → M S B) :
  returns P m → (∀ a, returns P (f a)) → returns P (m ≫= f).
Proof.
  intros Hm Hf s Hs. destruct (Hm s Hs) as (s1 & a & H1 & H1'). unfold mbind, M_bind.
  rewrite H1. by apply Hf.
Qed.

Lemma returns_for_each {S A} P (xs : list A) (body : A → M S ()) :
  (∀ x, returns P (body x)) → returns P (for_each xs body).
Proof.
  intros Hb. induction xs as [|x xs IH]; cbn; [intros s Hs; by exists s, tt|].
  by apply returns_bind.
Qed.

Definition anywhere {S} (_ : S) : Prop := True.
Definition no_failures (s : W * Site) : Prop := outcomes (artifacts s.2) = [].

Hypothesis answered : ∀ w, (answer w).2 = Done.
Hypothesis bucket_there : ∀ w, bucket_made (create_bucket w).2 = true.

Lemma statement_returns {X} (f : X → X) : returns anywhere (statement f).
Proof.
  intros s _. unfold Retention.statement, request, mbind, M_bind. cbn. rewrite answered.
  by eexists _, _.
Qed.

Lemma connection_returns {X A} (body : Z → M (W * X) A) :
  (∀ t, returns anywhere (body t)) → returns anywhere (connection body).
Proof.
  intros Hb s _. unfold Retention.connection. pose proof (answered s.1) as H0.
  destruct (answer s.1) as [w o]. cbn in H0. subst o.
  destruct (Hb (now w) (w, s.2) I) as ([w' x] & a & -> & _).
  pose proof (answered w') as H1. destruct (answer w') as [w2 o]. cbn in H1. subst o.
  by eexists _, _.
Qed.

Lemma part_returns {X A} (part : Site → X) set_part (m : M (W * X) A) :
  (∀ x s, outcomes (artifacts (set_part x s)) = outcomes (artifacts s)) →
  returns anywhere m → returns no_failures (on_part part set_part m).
Proof.
  intros Hset Hm s Hs. unfold on_part. destruct (Hm (s.1, part s.2) I) as ([w x] & a & -> & _).
  eexists _, _. split; [done|]. unfold no_failures. cbn. by rewrite Hset.
Qed.

Lemma remove_all_returns ks : returns (λ s, outcomes s = []) (remove_all ks).
Proof.
  induction ks as [|k ks IH]; cbn [remove_all]; [intros s Hs; by exists s, tt|].
  apply returns_bind; [|intros _; apply returns_bind; [|done]].
  - intros s Hs. unfold s3_call. rewrite Hs. by eexists _, _.
  - intros s Hs. by eexists _, _.
Qed.

Lemma retention_returns c1 c3 days : 1 ≤ days → returns no_failures (retention c1 c3 days).
Proof.
  intros Hd. unfold Retention.retention. destruct (Z.ltb_spec days 1); [lia|].
  assert (∀ v, returns no_failures (print (W:=W) v)) as Hprint
    by (intros v s Hs; by eexists _, _).
  assert (returns no_failures (mret () : M (W * Site) ())) as Hret by (intros s Hs; by eexists _, _).
  apply returns_bind; [apply part_returns; [done|]|intros ids].
  { apply connection_returns. intros t. apply returns_bind; [intros s _; by eexists _, _|intros b].
    apply returns_bind; [apply statement_returns|intros _].
    apply returns_bind; [apply returns_for_each; intros; apply statement_returns|intros _].
    apply returns_bind; [apply statement_returns|intros _ s _; by eexists _, _]. }
  apply returns_bind; [done|intros _]. apply returns_bind.
  { destruct c1; [|done]. apply part_returns; [done|]. apply connection_returns. intros t.
    apply returns_bind; [|intros _; apply statement_returns].
    apply returns_for_each. intros id. apply returns_for_each. intros; apply statement_returns. }
  intros _. destruct (c3 && c1); [|done]. apply returns_bind; [|intros _; apply returns_bind; [|done]].
  - intros s Hs. unfold Retention.new_artifacts. pose proof (bucket_there s.1) as Hb.
    destruct (create_bucket s.1) as [w b]. cbn in Hb. rewrite Hb.
    destruct (connection_returns (λ _, statement (@id Site)) (λ _, statement_returns id) (w, s.2) I)
      as (s' & a & E & _). exists s', a. split; [done|].
    pose proof E as E'. apply connection_run in E' as [_ E']; [|intros; apply statement_passes].
    unfold no_failures. destruct E' as [[-> _]|(? & ? & [] & _ & _ & E' & _)]; [done|].
    apply statement_ok in E'. cbn in E'. rewrite E'. exact Hs.
  - intros s Hs. unfold on_part, cleanup. cbn [fst snd].
    destruct (remove_all_returns (fst <$> filter (λ kr, expired days (now s.1) kr.2 = true)
      (map_to_list (rows (artifacts s.2)))) (artifacts s.2) Hs) as (t & [] & -> & Ht).
    by eexists _, _.
Qed.
End runs.

(** ** The promise *)


(** ** What it cannot reach *)

(** The worker's graph keeps its checkpoints under [id:g<n>], the model's agent
    (harness.py) under [id:model:<n>]: no run of the script ever removes the latter, though
    they hold the evidence the model read. *)
Lemma model_threads_kept {W} (answer : W → W * outcome) now create_bucket c1 c3 days n s tb r id g :
  (∀ w, now w ≤ now (answer w).1) → (∀ w, now w ≤ now (create_bucket w).1) →
  ids_ok (business s.2) → id_ok id → r.1 = id ++ u ":model:" ++ g →
  tb ∈ checkpoint_tables (agent s.2) → r ∈ tb.2 →
  ∃ tb', tb' ∈ checkpoint_tables (agent (retentions answer now create_bucket c1 c3 days n s).2) ∧
    tb'.1 = tb.1 ∧ r ∈ tb'.2.
Proof.
  intros Ha Hb Hids Hid Hr Htb Hin.
  destruct (retentions_run answer now create_bucket Ha Hb c1 c3 days n s Hids) as [_ T].
  apply tr_threads in T. apply list_elem_of_lookup in Htb as (i & Hi).
  destruct (Forall2_lookup_l _ _ _ _ _ T Hi) as (tb' & Hi' & E & H). exists tb'.
  split_and!; [by eapply list_elem_of_lookup_2|done|].
  destruct (H r) as [_ [?|(id' & (inv & Hinv & _) & g' & Ht)]]; [done|done|exfalso].
  rewrite Hr in Ht. apply app_inj_1 in Ht as [_ Ht]; [discriminate|].
  destruct Hid as [-> _]. by destruct (Hids id' inv Hinv) as [-> _].
Qed.

(** ** A run that fails and one that finishes *)

Section retention_witness.
Definition id_a : pystr := u "00000000-0000-0000-0000-00000000000a".
Definition id_b : pystr := u "00000000-0000-0000-0000-00000000000b".

Definition investigation (t : Z) : Investigation :=
  {| i_created := t; i_report := Some (js "report"); i_manifest := None; i_columns := js "svc-17" |}.

(** The first investigation is older than a day when the script starts, the second is not. *)
Definition some_site : Site :=
  {| business := {| investigations := <[id_a := investigation 0]> {[id_b := investigation 50]};
                    events := [{| ev_of := id_a; ev_seq := 1; ev_kind := u "hook"; ev_payload := js "a" |};
                               {| ev_of := id_b; ev_seq := 1; ev_kind := u "hook"; ev_payload := js "b" |}];
                    rate_limits := [] |};
     agent := {| checkpoint_tables := [(u "checkpoints", [(id_a ++ u ":g1", JInt 1);
                                                          (id_a ++ u ":model:1", JInt 2);
                                                          (id_b ++ u ":g1", JInt 3)])];
                 bundles := ∅ |};
     artifacts := {| rows := ∅; objects := ∅; outcomes := [] |}; printed := [] |}.

(** Every request takes a microsecond; the answer to the first commit is lost. *)
Definition at_start : Z := day_us + 10.
Definition one_lost (w : Z) : Z * outcome :=
  (w + 1, if w =? at_start + 4 then Lost else Done).
Definition no_bucket_error (w : Z) : Z * BucketAnswer :=
  (w, {| create_error := None; head_ok := true |}).

Definition twice : (Z * Site) * result () :=
  retention one_lost id no_bucket_error true true 1
    (retentions one_lost id no_bucket_error true true 1 1 (at_start, some_site)).

Lemma id_ok_of id : (length id =? 36)%nat && forallb literal id = true → id_ok id.
Proof.
  intros [Hl%Nat.eqb_eq H]%andb_true_iff. split; [done|]. apply Forall_forall. intros c Hc.
  by apply (proj1 (forallb_forall literal id) H), list_elem_of_In.
Qed.
Lemma id_a_ok : id_ok id_a.
Proof. apply id_ok_of. by vm_compute. Qed.
Lemma id_b_ok : id_ok id_b.
Proof. apply id_ok_of. by vm_compute. Qed.

Lemma some_ids : ids_ok (business some_site).
Proof.
  pose proof id_a_ok. pose proof id_b_ok. unfold some_site, ids_ok. cbn [business investigations].
  intros i inv. generalize dependent id_a. generalize dependent id_b. intros b Hb a Ha.
  rewrite lookup_insert_Some, lookup_singleton_Some. by intros [[<- _]|[_ [<- _]]].
Qed.

End retention_witness.

(** ** The check of retention (scripts/retention_check.py)

    The acceptance check ages one finished investigation by hand, runs the script, and
    counts what is left of it.  It passes after every run that returns. *)

(** *** Ageing the fixture *)

Definition aged_by : Z := 31 * day_us.

Definition age_investigation (id : pystr) (now : Z) (b : Business) : Business :=
  {| investigations := alter (λ i, {| i_created := now - aged_by; i_report := i_report i;
                                      i_manifest := i_manifest i; i_columns := i_columns i |})
                             id (investigations b);
     events := events b; rate_limits := rate_limits b |}.

(** [update agent.artifacts set created_at=... where task=id]. *)
Definition age_artifacts (id : pystr) (now : Z) (s : Store) : Store :=
  set_rows ((λ r, if str_eqb (a_task r) id
                  then {| a_task := a_task r; a_team := a_team r; a_watermark := a_watermark r;
                          a_digest := a_digest r; a_state := a_state r;
                          a_created := now - aged_by |} else r) <$> rows s) s.

Definition age (id : pystr) (now : Z) (s : Site) : Site :=
  set_artifacts (age_artifacts id now (artifacts s))
    (set_business (age_investigation id now (business s)) s).

(** *** Counting what is left *)

(** [GET /api/v1/investigations/id] names the report of the row. *)
Definition report_of (id : pystr) (s : Site) : option json :=
  investigations (business s) !! id ≫= i_report.

(** [select count(star) from agent.checkpoints where thread_id like id:g%]. *)
Definition count_checkpoints (id : pystr) (s : Site) : Z :=
  len (filter (λ r, like (thread_pattern id) r.1 = true)
         (concat (snd <$> filter (λ tb, tb.1 = u "checkpoints") (checkpoint_tables (agent s))))).

(** [select count(star) from agent.artifacts where task=id]. *)
Definition count_artifacts (id : pystr) (s : Site) : Z :=
  Z.of_nat (size (filter (λ kr, a_task kr.2 = id) (rows (artifacts s)))).

Definition check_passes (id : pystr) (s : Site) : bool :=
  bool_decide (report_of id s = None) && (count_checkpoints id s =? 0) && (count_artifacts id s =? 0).

(** *** It passes *)

Lemma aged_old id t now b :
  is_Some (investigations b !! id) → now ≤ t → old 30 t (age_investigation id now b) id.
Proof.
  intros [i Hi] Ht. unfold old. cbn. rewrite lookup_alter_eq, Hi. eexists. split; [done|].
  unfold older, aged_by, day_us. cbn. lia.
Qed.

Lemma aged_ids_ok id now b : ids_ok b → ids_ok (age_investigation id now b).
Proof.
  intros H id' i. cbn. rewrite lookup_alter. case_decide; [|by eapply H].
  subst. destruct (investigations b !! id') eqn:E; [|done]. intros _. by eapply H.
Qed.

(** The rows of the task that are left are among the aged ones, which are expired. *)
Lemma aged_rows_gone id now t s s' :
  now ≤ t → trimmed 30 t (age id now s) s' →
  (∀ k r, rows (artifacts s') !! k = Some r → expired 30 now r = false) →
  count_artifacts id s' = 0.
Proof.
  intros Ht T Hx. unfold count_artifacts. apply (f_equal Z.of_nat (y:=0%nat)).
  apply map_size_empty_iff, map_empty. intros k. apply map_lookup_filter_None.
  right. intros r Hr Htask. cbn in Htask. specialize (Hx k r Hr).
  destruct (tr_artifacts _ _ _ _ T k) as [[E _]|(E & _)]; [|congruence].
  rewrite Hr in E. symmetry in E. cbn in E. apply lookup_fmap_Some in E as (r0 & Hr0 & _).
  unfold expired in Hx. apply orb_false_iff in Hx as [Hx _]. apply Z.ltb_ge in Hx.
  destruct (str_eqb (a_task r0) id) eqn:E0; subst r; cbn in *.
  - unfold aged_by, day_us, hour_us in Hx. lia.
  - apply bool_decide_eq_false in E0. congruence.
Qed.

(** Once an investigation is aged, a run of the script with its defaults and both stores
    configured, if it returns, leaves neither its report nor a checkpoint of its threads
    nor a snapshot of its task; that is all the check looks at. *)
Theorem retention_check_passes {W} (answer : W → W * outcome) now create_bucket id w s s' x :
  (∀ w, now w ≤ now (answer w).1) → (∀ w, now w ≤ now (create_bucket w).1) →
  ids_ok (business s) → is_Some (investigations (business s) !! id) →
  retention answer now create_bucket true true 30 (w, age id (now w) s) = (s', x) → x = Ok tt →
  check_passes id s'.2 = true.
Proof.
  intros Ha Hb Hids Hid H ->. apply retention_run in H as (P & T & C); [|done|done|by apply aged_ids_ok].
  specialize (C eq_refl). unfold passes in P. cbn [fst snd] in P, T, C.
  pose proof (aged_old id (now w) (now w) (business s) Hid ltac:(lia)) as Ho.
  assert (old 30 (now w) (business s'.2) id) as Ho' by (by eapply trimmed_old).
  assert (id_ok id) as Hok by (destruct Hid as [i Hi]; by eapply Hids).
  unfold check_passes. rewrite !andb_true_iff, bool_decide_eq_true, !Z.eqb_eq. split_and!.
  - unfold report_of. destruct Ho' as (i & Hi & Hold). rewrite Hi. cbn.
    by rewrite (cl_investigations _ _ _ _ _ C id i Hi Hold).
  - unfold count_checkpoints. rewrite filter_none; [done|]. intros r Hr Hl.
    apply list_elem_of_In, in_concat in Hr as (rs & Hrs%list_elem_of_In & Hr%list_elem_of_In).
    apply list_elem_of_fmap in Hrs as (tb & -> & [Hn Htb]%list_elem_of_filter).
    apply (cl_threads _ _ _ _ _ C eq_refl tb r id Htb); [|done|done|].
    + rewrite Hn. by apply mem_elem_of.
    + by apply pattern_threads.
  - eapply aged_rows_gone; [|exact T|exact (cl_artifacts _ _ _ _ _ C eq_refl eq_refl)]. lia.
Qed.
