(* ===== verification/Sql.v ===== *)
(** * The guards around generated SQL (query/app/core/sql_guard.py, relations.py)

    [SqlGlot] is what the warehouse query service uses of its SQL parser: a tree of
    typed expressions, the traversals over it, and the printer.  [safe_sql] limits a
    statement to one read-only, bounded SELECT over the five tables of the warehouse;
    [validate_relations] limits its joins to the known keys. *)
From S2P Require Import Prelude.
From S2P Require Import PyStr.
From S2P Require Import Json.

(** ** The SQL library *)

(** The expression classes the source names. *)
Inductive cls :=
| Select | Union | Insert | Update | Delete | Create | Drop | Command | Into | Lock
| Transaction | SetStatement | Merge | CTE | Table | Func | Anonymous | Parameter_
| SessionParameter | Column | EQ | Avg | Div | Paren | Cast | Sum | Nullif | Count
| Star | Distinct | Alias | Where | Predicate | Literal | In_ | Month | Between
| GTE | LTE | LT
| OtherClass.                         (* any other class *)

#[export] Instance cls_eq_dec : EqDecision cls.
Proof. solve_decision. Defined.

(** An argument of an expression. *)
Inductive value (N : Type) := VNone | VStr (s : pystr) | VNode (n : N) | VList (l : list N).
Arguments VNone {N}.
Arguments VStr {N} s.
Arguments VNode {N} n.
Arguments VList {N} l.

Class SqlGlot := {
  node : Type;
  (** [sqlglot.parse(sql, read="mysql")]: an empty statement is [None]. *)
  parse : pystr → result (list (option node));
  parse_one : pystr → result node;
  (** [isinstance(n, exp.<c>)]. *)
  is_a : cls → node → bool;
  walk : node → list node;
  find_all : cls → node → list node;
  (** An entry of [n.args]. *)
  arg : string → node → option (value node);
  name : node → pystr;
  alias : node → pystr;
  alias_or_name : node → pystr;
  catalog : node → pystr;
  db : node → pystr;
  column_table : node → pystr;
  sql_name : node → pystr;
  (** [n.limit(k)], and [n.sql(dialect="mysql")]. *)
  limit : Z → node → node;
  sql : node → pystr;
  (** [str(...)] of an expression and of a list of them. *)
  str_node : node → pystr;
  str_list : list node → pystr;
}.

Section values.
Context {SG : SqlGlot}.

(** [n.args.get(k)], [n.this], [n.expression], [n.expressions]. *)
Definition arg_get (k : string) (n : node) : value node := default VNone (arg k n).
Definition this (n : node) : value node := arg_get "this" n.
Definition expression (n : node) : value node := arg_get "expression" n.
Definition expressions (n : node) : list node :=
  match arg_get "expressions" n with VList l => l | _ => [] end.

(** [isinstance(v, exp.<c>)] for whatever an argument holds. *)
Definition is_av (c : cls) (v : value node) : bool :=
  match v with VNode n => is_a c n | _ => false end.
Definition is_none (v : value node) : bool := match v with VNone => true | _ => false end.

(** A column of a given name. *)
Definition column_named (s : string) (v : value node) : bool :=
  match v with VNode n => is_a Column n && str_eqb (name n) (u s) | _ => false end.

(** [str(v)]. *)
Definition str_value (v : value node) : pystr :=
  match v with
  | VNone => u "None" | VStr s => s | VNode n => str_node n | VList l => str_list l
  end.
End values.

(** ** The read-only guard *)

Definition TABLES : list pystr :=
  u <$> ["fact_order"; "dim_region"; "dim_customer"; "dim_product"; "dim_date"]%string.
Definition MAX_ROWS : Z := 500.

Definition value_error (msg : string) : exn := exn_of ValueError msg.
Definition unparsable : exn := value_error "SQL 无法解析，请明确查询条件后重试。".
Definition one_select : exn := value_error "只允许一条 SELECT 查询。".
Definition read_only : exn := value_error "查询不能修改数据、写文件或加锁。".
Definition five_tables : exn := value_error "查询只能访问当前电商数仓的五张业务表。".
Definition banned_function : exn := value_error "查询包含不允许的函数。".
Definition no_variables : exn := value_error "查询不能访问数据库系统变量。".
Definition limit_integer : exn := value_error "LIMIT 必须是整数。".

Definition forbidden : list cls :=
  [Insert; Update; Delete; Create; Drop; Command; Into; Lock; Transaction; SetStatement;
   Merge].
Definition banned_functions : list pystr :=
  u <$> ["sleep"; "benchmark"; "load_file"; "get_lock"; "release_lock";
         "release_all_locks"; "master_pos_wait"; "source_pos_wait"]%string.

Section guard.
Context {UT : UnicodeTables} {SG : SqlGlot}.

Definition ctes (tree : node) : list pystr :=
  (λ n, lower (alias_or_name n)) <$> find_all CTE tree.

Definition table_allowed (tree t : node) : bool :=
  str_eqb (catalog t) [] && str_eqb (db t) []
  && mem (lower (name t)) (TABLES ++ ctes tree).

Definition function_name (n : node) : pystr :=
  if is_a Anonymous n then name n else sql_name n.

(** [int(limit.expression.name)], whose failures are one error. *)
Definition limit_count (v : value node) : result Z :=
  match v with
  | VNode l =>
      match expression l with
      | VNode e => match int_of_str (name e) with
                   | Ok c => Ok c
                   | Raise _ => Raise limit_integer
                   end
      | _ => Raise limit_integer
      end
  | _ => Raise limit_integer
  end.

(** The statement with its bound. *)
Definition bounded (tree : node) : result node :=
  match arg_get "limit" tree with
  | VNone => Ok (limit MAX_ROWS tree)
  | v => count ← limit_count v;
         Ok (if (count <? 0) || (MAX_ROWS <? count) then limit MAX_ROWS tree else tree)
  end.

(** The policy on the tree of one statement. *)
Definition check_tree (tree : node) : result () :=
  guard_r (negb (existsb (λ n, existsb (λ c, is_a c n) forbidden) (walk tree))) read_only ;;
  guard_r (forallb (table_allowed tree) (find_all Table tree)) five_tables ;;
  guard_r (forallb (λ n, negb (mem (lower (function_name n)) banned_functions))
             (find_all Func tree)) banned_function ;;
  guard_r (negb (existsb (λ n, is_a Parameter_ n || is_a SessionParameter n) (walk tree)))
    no_variables.

Definition parse_error (e : exn) : bool :=
  bool_decide (exn_cls e = OtherError "ParseError").

Definition safe_sql (text : pystr) : result pystr :=
  match parse text with
  | Raise e => Raise (if parse_error e then unparsable else e)
  | Ok [Some tree] =>
      if is_a Select tree || is_a Union tree then
        check_tree tree ;;
        bound ← bounded tree;
        Ok (sql bound)
      else Raise one_select
  | Ok _ => Raise one_select
  end.
End guard.

(** ** Joins *)

Definition KEYS : list (pystr * pystr) :=
  (λ kv : string * string, (u kv.1, u kv.2)) <$>
  [("dim_region", "region_id"); ("dim_customer", "customer_id");
   ("dim_product", "product_id"); ("dim_date", "date_id")]%string.

Definition fact_order : pystr := u "fact_order".
Definition cartesian : exn := value_error "业务表关联必须使用显式外键，不能使用笛卡尔积。".
Definition dimension_key : exn := value_error "维度表必须按对应 ID 外键关联。".
Definition wrong_key (k : pystr) : exn :=
  Exn ValueError (u "关联错误：fact_order 与维度表必须使用 " ++ k ++ u " = " ++ k
                  ++ u "，不能用名称代替 ID。").

Section relations.
Context {SG : SqlGlot}.

Definition aliases (select : node) : list (pystr * pystr) :=
  foldl (λ d t, assoc_set (alias_or_name t) (name t) d) [] (find_all Table select).

(** [not v]. *)
Definition falsy (v : value node) : bool :=
  match v with VNone | VList [] | VStr [] => true | _ => false end.

(** The key that must relate two tables, if the code knows one. *)
Definition key_of (ta tb : option pystr) : option pystr :=
  let key t := t ≫= λ t, assoc t KEYS in
  if bool_decide (ta = Some fact_order) && bool_decide (is_Some (key tb)) then key tb
  else if bool_decide (tb = Some fact_order) && bool_decide (is_Some (key ta)) then key ta
  else None.

Definition check_eq (al : list (pystr * pystr)) (eq : node) : result () :=
  match this eq, expression eq with
  | VNode a, VNode b =>
      if is_a Column a && is_a Column b then
        match key_of (assoc (column_table a) al) (assoc (column_table b) al) with
        | Some k => guard_r (str_eqb (name a) k && str_eqb (name b) k) (wrong_key k)
        | None => Ok tt
        end
      else Ok tt
  | _, _ => Ok tt
  end.

(** [USING (...)]: a dimension table is joined on its own key. *)
Definition check_using (joined cols : value node) : result () :=
  match joined with
  | VNode t =>
      if is_a Table t then
        match assoc (name t) KEYS with
        | Some k =>
            match cols with
            | VList xs => guard_r (bool_decide (name <$> xs = [k])) dimension_key
            | VStr _ => Raise attr_error
            | _ => Raise type_error
            end
        | None => Ok tt
        end
      else Ok tt
  | _ => Ok tt
  end.

Definition check_join (al : list (pystr * pystr)) (j : node) : result () :=
  match arg_get "on" j with
  | VNone =>
      if falsy (arg_get "using" j) then Raise cartesian
      else check_using (this j) (arg_get "using" j)
  | VNode on => map_r (check_eq al) (find_all EQ on) ;; Ok tt
  | _ => Raise attr_error
  end.

Definition check_select (select : node) : result () :=
  joins ← match arg "joins" select with
          | None => Ok []
          | Some (VList l) => Ok l
          | Some _ => Raise type_error
          end;
  map_r (check_join (aliases select)) joins ;; Ok tt.

Definition validate_relations (text : pystr) : result () :=
  tree ← parse_one text;
  map_r check_select (find_all Select tree) ;; Ok tt.
End relations.
