(* ===== verification/SqlSpec.v ===== *)
(** * What the SQL guards promise

    The policy of [safe_sql] and [validate_relations] as predicates on a parsed tree,
    and the laws of the SQL library they rest on. *)
From S2P Require Import Prelude.
From S2P Require Import PyStr.
From S2P Require Import Json.
From S2P Require Import Sql.

(** ** The policy *)

Section policy.
Context {UT : UnicodeTables} {SG : SqlGlot}.

(** One statement that only reads the five tables (or its own CTEs). *)
Record safe_statement (tree : node) : Prop := {
  ss_query : is_a Select tree = true ∨ is_a Union tree = true;
  ss_read_only n c : n ∈ walk tree → c ∈ forbidden → is_a c n = false;
  ss_tables t : t ∈ find_all Table tree →
    catalog t = [] ∧ db t = [] ∧ (lower (name t) ∈ TABLES ∨ lower (name t) ∈ ctes tree);
  ss_functions f : f ∈ find_all Func tree → lower (function_name f) ∉ banned_functions;
  ss_variables n : n ∈ walk tree → is_a Parameter_ n = false ∧ is_a SessionParameter n = false;
}.

(** The statement returns at most [MAX_ROWS] rows. *)
Definition row_bound (tree : node) : Prop :=
  ∃ l e c, arg_get "limit" tree = VNode l ∧ expression l = VNode e ∧
    int_of_str (name e) = Ok c ∧ 0 ≤ c ≤ MAX_ROWS.

(** The classes the policy looks at. *)
Definition watched : list cls := forbidden ++ [Table; Func; CTE; Parameter_; SessionParameter].

(** [n.limit(k)] sets the limit of a query to the literal [k]. *)
Class LimitLaw : Prop := limit_sets k tree :
  is_a Select tree = true ∨ is_a Union tree = true →
  (is_a Select (limit k tree) = true ∨ is_a Union (limit k tree) = true) ∧
  ∃ l e, arg_get "limit" (limit k tree) = VNode l ∧ expression l = VNode e ∧
    name e = str_of_Z k.

(** [n.limit(k)] adds nothing to a query but its limit: its nodes are the query's, a
    copy of the query itself, or of classes the policy does not look at. *)
Class LimitNodes : Prop := {
  find_all_walk c n tree : n ∈ find_all c tree ↔ n ∈ walk tree ∧ is_a c n = true;
  walk_self tree : tree ∈ walk tree;
  limit_nodes k tree n : n ∈ walk (limit k tree) →
    n ∈ walk tree ∨ (n = limit k tree ∧ ∀ c, is_a c n = is_a c tree)
    ∨ (∀ c, is_a c n = true → c ∉ watched);
  limit_ctes k tree : ctes (limit k tree) = ctes tree;
  query_is_no_table tree : is_a Select tree = true ∨ is_a Union tree = true →
    is_a Table tree = false ∧ is_a Func tree = false;
}.

Ltac in_watched := apply (bool_decide_unpack _); by vm_compute.

Lemma guard_r_iff b e : guard_r b e = Ok tt ↔ b = true.
Proof. by destruct b. Qed.

Lemma check_tree_ok tree :
  is_a Select tree = true ∨ is_a Union tree = true →
  check_tree tree = Ok tt ↔ safe_statement tree.
Proof.
  intros Hq. unfold check_tree. split.
  - intros H. inv_ok. rename Hm into Hf, Hm0 into Ht, Hm1 into Hb.
    apply negb_true_iff in Hf, H.
    split; [done|..].
    + intros n c Hn Hc. apply not_true_is_false. intros E. revert Hf.
      apply not_false_iff_true, existsb_exists. exists n.
      split; [by apply list_elem_of_In|]. apply existsb_exists. exists c.
      split; [by apply list_elem_of_In|done].
    + intros t Htt. apply list_elem_of_In in Htt.
      rewrite forallb_forall in Ht. apply Ht in Htt. unfold table_allowed in Htt.
      rewrite !andb_true_iff in Htt. destruct Htt as [[H1 H2] H3].
      apply bool_decide_eq_true in H1, H2. apply mem_elem_of, elem_of_app in H3. done.
    + intros f Hff. apply list_elem_of_In in Hff. rewrite forallb_forall in Hb.
      apply Hb, negb_true_iff in Hff. intros Hin%mem_elem_of. congruence.
    + intros n Hn. destruct (is_a Parameter_ n || is_a SessionParameter n) eqn:E;
        [|by apply orb_false_iff in E].
      exfalso. revert H. apply not_false_iff_true, existsb_exists. exists n.
      split; [by apply list_elem_of_In|done].
  - intros [_ Hf Ht Hb Hv].
    assert (∀ b e (k : result ()), b = true → k = Ok tt → (guard_r b e ;; k) = Ok tt) as Hstep
      by by intros ? ? ? -> ->.
    repeat apply Hstep; rewrite ?guard_r_iff.
    + apply negb_true_iff, not_true_is_false. intros (n & Hn & (c & Hc & E)%existsb_exists)%existsb_exists.
      rewrite Hf in E; [done|by apply list_elem_of_In..].
    + apply forallb_forall. intros t Htt%list_elem_of_In.
      destruct (Ht t Htt) as (H1 & H2 & H3). unfold table_allowed.
      rewrite !andb_true_iff. unfold str_eqb. rewrite !bool_decide_eq_true.
      rewrite mem_elem_of, elem_of_app. done.
    + apply forallb_forall. intros f Hff%list_elem_of_In.
      apply negb_true_iff, not_true_is_false. intros Hin%mem_elem_of. by eapply Hb.
    + apply negb_true_iff, not_true_is_false. intros (n & Hn & E)%existsb_exists.
      destruct (Hv n) as [E1 E2]; [by apply list_elem_of_In|]. by rewrite E1, E2 in E.
Qed.

Lemma bounded_row_bound {LL : LimitLaw} tree b :
  is_a Select tree = true ∨ is_a Union tree = true →
  bounded tree = Ok b → row_bound b ∧ (b = tree ∨ b = limit MAX_ROWS tree).
Proof.
  intros Hq. unfold bounded.
  assert (row_bound (limit MAX_ROWS tree)) as Hlim.
  { destruct (limit_sets MAX_ROWS tree Hq) as (_ & l & e & Hl & He & Hn).
    exists l, e, MAX_ROWS. rewrite Hn. done. }
  destruct (arg_get "limit" tree) as [|s|l|ls] eqn:Hl; intros H; cbn in H; try done;
    [by inv_ok; auto|].
  destruct (expression l) as [|s|e|ls] eqn:He; try done.
  destruct (int_of_str (name e)) as [c|] eqn:Hc; [|done]. cbn in H.
  destruct (_ || _) eqn:Hr in H; inv_ok; [by auto|]. split; [|by auto].
  apply orb_false_iff in Hr as [H1 H2]. exists l, e, c. split_and!; try done; lia.
Qed.

Lemma safe_sql_iff {LL : LimitLaw} text out :
  safe_sql text = Ok out ↔
  ∃ tree b, parse text = Ok [Some tree] ∧ safe_statement tree ∧ bounded tree = Ok b ∧
    row_bound b ∧ out = sql b.
Proof.
  unfold safe_sql. split.
  - destruct (parse text) as [[|[tree|] [|]]|] eqn:Hp; try done.
    destruct (_ || _) eqn:Hq; [|done]. apply orb_true_iff in Hq. intros H. inv_ok.
    destruct a. apply check_tree_ok in Hm; [|done].
    exists tree, a0. destruct (bounded_row_bound tree a0 Hq Hm0). auto.
  - intros (tree & b & -> & Hs & Hb & _ & ->). pose proof (ss_query _ Hs) as Hq.
    assert (is_a Select tree || is_a Union tree = true) as -> by by apply orb_true_iff.
    apply check_tree_ok in Hs; [|done]. by rewrite Hs, Hb.
Qed.

(** C4. [safe_sql] is the guard it claims to be: it accepts exactly one statement, a
    SELECT or UNION without a node that writes, locks or sets, over the five warehouse
    tables (or the statement's own CTEs), without a banned function or a system
    variable; and what it prints is that statement with a limit of at most 500 rows. *)
Theorem safe_sql_policy {LL : LimitLaw} text out :
  safe_sql text = Ok out ↔
  ∃ tree b, parse text = Ok [Some tree] ∧ safe_statement tree ∧ bounded tree = Ok b ∧
    row_bound b ∧ out = sql b.
Proof. apply safe_sql_iff. Qed.

Lemma limit_safe {LL : LimitLaw} {LN : LimitNodes} k tree :
  safe_statement tree → safe_statement (limit k tree).
Proof.
  intros [Hq Hf Ht Hb Hv]. destruct (limit_sets k tree Hq) as [Hq' _].
  assert (∀ c n, n ∈ walk (limit k tree) → is_a c n = true → c ∈ watched →
    n ∈ walk tree ∨ n = limit k tree ∧ is_a c tree = true) as Hwalk.
  { intros c n Hn Hc Hl. apply limit_nodes in Hn as [?|[[-> E]|E]]; [by auto| |].
    - right. by rewrite <- E.
    - by apply E in Hc. }
  destruct (query_is_no_table tree Hq) as [Hnt Hnf].
  split; [done|..].
  - intros n c Hn Hc. apply not_true_is_false. intros E.
    destruct (Hwalk c n Hn E) as [Hin|[-> E']].
    + unfold watched. apply elem_of_app. by left.
    + by rewrite Hf in E.
    + by rewrite (Hf tree) in E' by auto using walk_self.
  - intros t [Hw E]%find_all_walk. rewrite limit_ctes.
    destruct (Hwalk Table t Hw E) as [Hin|[-> E']]; [in_watched| |congruence].
    apply Ht. by apply find_all_walk.
  - intros f [Hw E]%find_all_walk.
    destruct (Hwalk Func f Hw E) as [Hin|[-> E']]; [in_watched| |congruence].
    apply Hb. by apply find_all_walk.
  - intros n Hn. split; apply not_true_is_false; intros E;
      (destruct (Hwalk _ n Hn E) as [Hin|[-> E']]; [in_watched|..]).
    + by rewrite (proj1 (Hv n Hin)) in E.
    + by rewrite (proj1 (Hv tree (walk_self tree))) in E'.
    + by rewrite (proj2 (Hv n Hin)) in E.
    + by rewrite (proj2 (Hv tree (walk_self tree))) in E'.
Qed.

(** Guarding twice is guarding once: the repository guards again what the agent
    already guarded, and if the text printed for the bounded statement parses back to
    that statement, the second pass accepts it and changes nothing. *)
Theorem safe_sql_idempotent {LL : LimitLaw} {LN : LimitNodes} text out :
  (∀ t b, parse text = Ok [Some t] → bounded t = Ok b → parse (sql b) = Ok [Some b]) →
  safe_sql text = Ok out → safe_sql out = Ok out.
Proof.
  intros Hre (tree & b & Hp & Hs & Hb & Hr & ->)%safe_sql_iff.
  destruct (bounded_row_bound tree b (ss_query _ Hs) Hb) as [_ Hcase].
  assert (safe_statement b) as Hsb by (destruct Hcase as [->| ->]; auto using limit_safe).
  apply safe_sql_iff. exists b, b. split_and!; eauto.
  destruct Hr as (l & e & c & Hl & He & Hc & Hc0 & Hc1). unfold bounded.
  rewrite Hl. cbn. rewrite He, Hc. cbn.
  destruct (Z.ltb_spec c 0); [lia|]. by destruct (Z.ltb_spec MAX_ROWS c); [lia|].
Qed.

(** ** Joins *)

(** An equality between the fact table and a dimension is on the dimension's key. *)
Definition eq_keyed (al : list (pystr * pystr)) (eq : node) : Prop :=
  ∀ a b k, this eq = VNode a → expression eq = VNode b →
    is_a Column a = true → is_a Column b = true →
    key_of (assoc (column_table a) al) (assoc (column_table b) al) = Some k →
    name a = k ∧ name b = k.

(** A join that is not cartesian, and joins a dimension on its key. *)
Definition join_keyed (al : list (pystr * pystr)) (j : node) : Prop :=
  (∃ on, arg_get "on" j = VNode on ∧ ∀ eq, eq ∈ find_all EQ on → eq_keyed al eq) ∨
  (arg_get "on" j = VNone ∧ falsy (arg_get "using" j) = false ∧
   ∀ t k, this j = VNode t → is_a Table t = true → assoc (name t) KEYS = Some k →
     ∃ cols, arg_get "using" j = VList cols ∧ name <$> cols = [k]).

Lemma map_r_unit {A} (f : A → result ()) l :
  (map_r f l ;; Ok tt) = Ok tt ↔ ∀ x, x ∈ l → f x = Ok tt.
Proof.
  induction l as [|x l IH]; cbn; [split; [intros _ x Hx; by apply elem_of_nil in Hx|done]|].
  split.
  - destruct (f x) as [[]|] eqn:Hx; cbn; [|done]. destruct (map_r f l); cbn in *; [|done].
    intros _ y [->|Hy]%elem_of_cons; [done|]. by apply IH.
  - intros H. rewrite (H x) by apply list_elem_of_here. cbn.
    assert (∀ y, y ∈ l → f y = Ok tt) as Hl by (intros; apply H; by apply list_elem_of_further).
    apply IH in Hl. by destruct (map_r f l).
Qed.

Lemma check_eq_ok al eq : check_eq al eq = Ok tt ↔ eq_keyed al eq.
Proof.
  unfold check_eq, eq_keyed.
  destruct (this eq) as [|s|a|l]; try (split; [intros _ ? ? ?; discriminate|done]).
  destruct (expression eq) as [|s|b|l]; try (split; [intros _ ? ? ? _; discriminate|done]).
  split.
  - intros H a' b' k [= <-] [= <-] Ha Hb Hk. rewrite Ha, Hb, Hk in H. cbn in H.
    apply guard_r_ok, andb_true_iff in H. unfold str_eqb in H.
    by rewrite !bool_decide_eq_true in H.
  - intros H. destruct (is_a Column a) eqn:Ha, (is_a Column b) eqn:Hb; try done. cbn.
    destruct (key_of _ _) as [k|] eqn:Hk; [|done].
    destruct (H a b k) as [-> ->]; try done. unfold str_eqb.
    by rewrite bool_decide_true.
Qed.

Lemma check_join_ok al j : check_join al j = Ok tt ↔ join_keyed al j.
Proof.
  unfold check_join, join_keyed. destruct (arg_get "on" j) as [|s|on|l] eqn:Hon.
  - split.
    + destruct (falsy _) eqn:Hf; [done|]. intros H. right. split_and!; [done..|].
      intros t k Ht Hta Hk. unfold check_using in H. rewrite Ht, Hta, Hk in H.
      destruct (arg_get "using" j) as [|?|?|cols]; try done.
      apply guard_r_ok, bool_decide_eq_true in H. by exists cols.
    + intros [(? & ? & _)|(_ & -> & H)]; [done|]. unfold check_using.
      destruct (this j) as [|?|t|?]; try done. destruct (is_a Table t) eqn:Ht; [|done].
      destruct (assoc _ _) as [k|] eqn:Hk; [|done].
      destruct (H t k) as (cols & -> & Hc); try done. by rewrite bool_decide_true.
  - split; [done|]. by intros [(? & ? & _)|(? & _)].
  - rewrite map_r_unit. split.
    + intros H. left. exists on. split; [done|]. intros eq Heq. by apply check_eq_ok, H.
    + intros [(on' & [= <-] & H)|(? & _)]; [|done]. intros eq Heq. by apply check_eq_ok, H.
  - split; [done|]. by intros [(? & ? & _)|(? & _)].
Qed.

(** Joins stay on the warehouse's keys: [validate_relations] accepts a query exactly
    when every join of every SELECT in it, at any depth, has a condition, relates the
    fact table to a dimension only by that dimension's key on both sides, and joins a
    dimension by USING only on its key; aliases are resolved. *)
Theorem relations_keyed text :
  validate_relations text = Ok tt ↔
  ∃ tree, parse_one text = Ok tree ∧ ∀ s, s ∈ find_all Select tree →
    ∃ js, (arg "joins" s = None ∧ js = [] ∨ arg "joins" s = Some (VList js)) ∧
      ∀ j, j ∈ js → join_keyed (aliases s) j.
Proof.
  unfold validate_relations.
  assert (∀ s, check_select s = Ok tt ↔
    ∃ js, (arg "joins" s = None ∧ js = [] ∨ arg "joins" s = Some (VList js)) ∧
      ∀ j, j ∈ js → join_keyed (aliases s) j) as Hs.
  { intros s. unfold check_select. split.
    - intros (js & Hjs & H)%bind_ok. exists js. split.
      + destruct (arg "joins" s) as [[]|]; inv_ok; auto.
      + intros j Hj. apply check_join_ok. revert j Hj. by apply map_r_unit.
    - intros (js & Hjs & H).
      assert ((map_r (check_join (aliases s)) js ;; Ok tt) = Ok tt) as Hm
        by (apply map_r_unit; intros j Hj; by apply check_join_ok, H).
      destruct Hjs as [[-> ->]| ->]; [done|exact Hm]. }
  destruct (parse_one text) as [tree|e]; cbn [mbind result_bind].
  - rewrite map_r_unit. split.
    + intros H. exists tree. split; [done|]. intros s Hin. by apply Hs, H.
    + intros (t & [= <-] & H) s Hin. by apply Hs, H.
  - split; [done|]. by intros (t & ? & _).
Qed.
End policy.
