(* ===== verification/Business.v ===== *)
(** * Business constraints on generated SQL (query/app/core/metrics.py, periods.py)

    The contracts of a question that must survive generation and correction: the
    average order value is computed on orders, and an explicit year or single month
    stays in the WHERE clause. *)
From S2P Require Import Prelude.
From S2P Require Import PyStr.
From S2P Require Import PyRe.
From S2P Require Import Json.
From S2P Require Import PyTime.
From S2P Require Import Sql.

(** ** The average order value *)

Section metrics.
Context {UT : UnicodeTables} {SG : SqlGlot}.

Definition AOV : re :=
  alts [lit "客单价"; seqs [RBoundary; lit_i "aov"; RBoundary]; lit "平均订单金额";
        lit_i "average_order_value"; lit_i "avg_order_value"].

(** [while isinstance(v, <cs>): v = v.this]; [fuel] bounds the depth of the tree. *)
Fixpoint unwrap (fuel : nat) (cs : list cls) (v : value node) : value node :=
  match fuel, v with
  | S fuel', VNode n => if existsb (λ c, is_a c n) cs then unwrap fuel' cs (this n) else v
  | _, _ => v
  end.

(** The trees below [v], itself included. *)
Definition depth (v : value node) : nat :=
  match v with VNode n => S (length (walk n)) | _ => O end.
Definition unwrapped (cs : list cls) (v : value node) : value node := unwrap (depth v) cs v.

(** [SUM(order_amount)], and the argument of a COUNT of orders. *)
Definition sum_amount (v : value node) : bool :=
  match v with
  | VNode n => is_a Sum n && column_named "order_amount" (this n)
  | _ => false
  end.
Definition counts_orders (v : value node) : bool :=
  is_av Star v || column_named "order_id" v ||
  match v with
  | VNode d => is_a Distinct d &&
      match expressions d with [c] => column_named "order_id" (VNode c) | _ => false end
  | _ => false
  end.
Definition order_count (v : value node) : bool :=
  match v with VNode n => is_a Count n && counts_orders (this n) | _ => false end.

Definition aov_division (n : node) : bool :=
  sum_amount (unwrapped [Paren; Cast] (this n))
  && order_count (unwrapped [Paren; Nullif; Cast] (expression n)).

Definition valid_aov (tree : node) : bool :=
  existsb (λ n, column_named "order_amount" (this n)) (find_all Avg tree)
  || existsb aov_division (find_all Div tree).

Definition aov_contract : exn := value_error
  "客单价必须使用 AVG(order_amount) 或 SUM(order_amount)/COUNT(DISTINCT order_id)，不能用日期数或商品数量作分母。".

(** [all(_valid_aov(target) for target in ...)]. *)
Fixpoint all_aov (targets : list (value node)) : result bool :=
  match targets with
  | [] => Ok true
  | VNode t :: ts => if valid_aov t then all_aov ts else Ok false
  | _ :: _ => Raise attr_error
  end.

Definition aov_targets (tree : node) : list (value node) :=
  match this <$> filter (λ n, found AOV (alias n) = true) (find_all Alias tree) with
  | [] => [VNode tree]
  | ts => ts
  end.

Definition validate_metrics (question text : pystr) : result () :=
  if found AOV question then
    tree ← parse_one text;
    ok ← all_aov (aov_targets tree);
    guard_r ok aov_contract
  else Ok tt.
End metrics.

(** ** Years and months *)

Section periods.
Context {UT : UnicodeTables} {SG : SqlGlot}.

(** [re.findall(r, s)] for an expression with one group. *)
Definition findall (r : re) (s : pystr) : list pystr :=
  (λ m, group_str m 1) <$> finditer r s.

Definition YEAR : re :=
  seqs [RGroup 1 (seqs [lit "20"; times is_digit 2 2]); star is_space;
        RAlt (lit "年") (RChar (one_of (u "-/")))].

(** The year the question names: [None] when it names none, or more than one. *)
Definition question_year (today : date) (question : pystr) : option Z :=
  match findall YEAR question with
  | y :: ys =>
      if bool_decide (length (fromkeys (y :: ys)) = 1%nat) then Some (int_of_digits y)
      else None
  | [] =>
      if contains (u "今年") question || contains (u "本年") question then Some (year today)
      else if contains (u "去年") question then Some (year today - 1)
      else None
  end.

(** A predicate on the year or the date whose literals are in the year. *)
Definition year_literal (y : Z) (v : pystr) : bool :=
  str_eqb v (str_of_Z y)
  || startswith (str_of_Z y) v && ((len v =? 8) || (len v =? 10)).
Definition year_predicate (y : Z) (p : node) : bool :=
  existsb (λ c, str_eqb (name c) (u "year") || str_eqb (name c) (u "date_id"))
    (find_all Column p)
  && existsb (λ n, year_literal y (str_value (this n))) (find_all Literal p).

Definition year_where (today : date) (y : Z) (w : node) : bool :=
  existsb (year_predicate y) (find_all Predicate w)
  || (y =? year today) && contains (u "YEAR(CURRENT_DATE)") (upper (sql w)).

Definition year_contract (y : Z) : exn :=
  Exn ValueError (u "问题指定了 " ++ str_of_Z y ++ u " 年，SQL 必须保留 year=" ++ str_of_Z y
                  ++ u " 或该年 date_id 范围，不能改查全部历史订单。").

Definition validate_year (today : date) (question text : pystr) : result () :=
  match question_year today question with
  | None => Ok tt
  | Some y =>
      tree ← parse_one text;
      guard_r (existsb (year_where today y) (find_all Where tree)) (year_contract y)
  end.

(** *** The month *)

Definition MONTH : re :=
  seqs [RGroup 1 (alts [times is_digit 1 2; lit "十一"; lit "十二";
                        RChar (one_of (u "一二三四五六七八九十"))]);
        star is_space; lit "月"].

Definition chinese : list (pystr * Z) :=
  ((λ n : nat, (str_of_Z (Z.of_nat n), Z.of_nat n)) <$> seq 1 12)
  ++ (zip (u <$> ["一"; "二"; "三"; "四"; "五"; "六"; "七"; "八"; "九"; "十"; "十一"; "十二"]%string)
          (Z.of_nat <$> seq 1 12)).

(** [m.lstrip("0")]. *)
Fixpoint lstrip0 (s : pystr) : pystr :=
  match s with
  | c :: s' => if c =? 48 then lstrip0 s' else s
  | [] => []
  end.

(** The single month the question names. *)
Definition question_month (question : pystr) : option Z :=
  match fromkeys ((λ m, assoc (lstrip0 m) chinese) <$> findall MONTH question) with
  | [Some m] => Some m
  | _ => None
  end.

Definition month_year (today : date) (question : pystr) : option Z :=
  match fromkeys (findall YEAR question) with
  | [] => if contains (u "今年") question || contains (u "本年") question
               || contains (u "去年") question
          then Some (year today - if contains (u "去年") question then 1 else 0) else None
  | [y] => Some (int_of_digits y)
  | _ => None
  end.

(** [date(int(raw[:4]), int(raw[4:6]), int(raw[6:]))] of a literal. *)
Definition date_value (v : value node) : option date :=
  match v with
  | VNode n =>
      if is_a Literal n then
        let raw := filter (λ c, c ≠ 45 ∧ c ≠ 47) (str_value (this n)) in
        if len raw =? 8 then
          match int_of_str (upto 4 raw), int_of_str (upto 2 (drop 4 raw)),
                int_of_str (drop 6 raw) with
          | Ok y, Ok m, Ok d => match make_date y m d with Ok t => Some t | Raise _ => None end
          | _, _, _ => None
          end
        else None
      else None
  | _ => None
  end.

Definition requested (m : Z) (y : option Z) (v : option date) : bool :=
  match v with
  | Some d => (month d =? m) && match y with Some y => year d =? y | None => true end
  | None => false
  end.

(** What one predicate does to the scan of a WHERE clause. *)
Inductive scan :=
| Kept
| Bounds (lowers : list date) (uppers : list (date * bool)).

(** [month = m], [MONTH(...) = m], [month IN (m)]. *)
Definition month_literal (m : Z) (v : value node) : bool :=
  match v with
  | VNode n => is_a Literal n && str_eqb (str_value (this n)) (str_of_Z m)
  | _ => false
  end.
Definition month_predicate (m : Z) (p : node) : bool :=
  (is_a EQ p || is_a In_ p)
  && (column_named "month" (this p) || is_av Month (this p))
  && let values := if is_a In_ p then VNode <$> expressions p else [expression p] in
     negb (bool_decide (values = [])) && forallb (month_literal m) values.

(** [predicate.args[k]]. *)
Definition arg_index (k : string) (p : node) : result (value node) :=
  match arg k p with Some v => Ok v | None => Raise (exn_of KeyError k) end.

Definition between_kept (m : Z) (y : option Z) (p : node) : result bool :=
  if is_a Between p then
    low ← arg_index "low" p;
    if requested m y (date_value low) then
      high ← arg_index "high" p; Ok (requested m y (date_value high))
    else Ok false
  else Ok false.

Definition add_lower (m : Z) (y : option Z) (p : node) (lowers : list date) : list date :=
  match date_value (expression p) with
  | Some d => if is_a GTE p && requested m y (Some d) then lowers ++ [d] else lowers
  | None => lowers
  end.
Definition add_upper (p : node) (uppers : list (date * bool)) : list (date * bool) :=
  match date_value (expression p) with
  | Some d => if is_a LTE p || is_a LT p then uppers ++ [(d, is_a LT p)] else uppers
  | None => uppers
  end.

Definition scan_predicate (m : Z) (y : option Z) (st : scan) (p : node) : result scan :=
  match st with
  | Kept => Ok Kept
  | Bounds lowers uppers =>
      if month_predicate m p then Ok Kept else
      match this p with
      | VNode t =>
          if negb (existsb (λ c, str_eqb (name c) (u "date_id")) (find_all Column t))
          then Ok st
          else
            kept ← between_kept m y p;
            if kept : bool then Ok Kept
            else if is_a EQ p && requested m y (date_value (expression p)) then Ok Kept
            else Ok (Bounds (add_lower m y p lowers) (add_upper p uppers))
      | _ => Raise attr_error
      end
  end.

Fixpoint scan_predicates (m : Z) (y : option Z) (ps : list node) (st : scan) : result scan :=
  match ps with
  | [] => Ok st
  | p :: ps' => st' ← scan_predicate m y st p; scan_predicates m y ps' st'
  end.

(** Some upper bound closes the month [low] opens. *)
Definition closes (low last following : date) (high : date * bool) : bool :=
  date_leb low high.1 && date_leb high.1 last || high.2 && bool_decide (high.1 = following).
Fixpoint closed_by (m : Z) (uppers : list (date * bool)) (lowers : list date) : result bool :=
  match lowers with
  | [] => Ok false
  | low :: lowers' =>
      last ← make_date (year low) m (days_in_month (year low) m);
      following ← make_date (year low + if m =? 12 then 1 else 0) (m mod 12 + 1) 1;
      if existsb (closes low last following) uppers then Ok true
      else closed_by m uppers lowers'
  end.

Definition month_where (m : Z) (y : option Z) (w : node) : result bool :=
  st ← scan_predicates m y (find_all Predicate w) (Bounds [] []);
  match st with
  | Kept => Ok true
  | Bounds lowers uppers => closed_by m uppers lowers
  end.

(** [for where in ...: ... return]: the first that keeps the month ends the check. *)
Fixpoint any_where (f : node → result bool) (ws : list node) : result bool :=
  match ws with
  | [] => Ok false
  | w :: ws' => b ← f w; if b : bool then Ok true else any_where f ws'
  end.

Definition month_contract (m : Z) : exn :=
  Exn ValueError (u "问题指定了 " ++ str_of_Z m ++ u " 月，SQL 必须保留 month=" ++ str_of_Z m
                  ++ u " 或该月 date_id 的上下界，不能只按年份查询。").

Definition validate_period (today : date) (question text : pystr) : result () :=
  validate_year today question text ;;
  match question_month question with
  | None => Ok tt
  | Some m =>
      tree ← parse_one text;
      ok ← any_where (month_where m (month_year today question)) (find_all Where tree);
      guard_r ok (month_contract m)
  end.
End periods.

(** ** What the contracts protect *)

Section spec.
Context {UT : UnicodeTables} {SG : SqlGlot}.

(** A tree is finite: what an expression wraps is smaller. *)
Class FiniteTrees : Prop := this_smaller n m :
  this n = VNode m → (length (walk m) < length (walk n))%nat.

(** [w] is [v] without its outer expressions of classes [cs]. *)
Inductive wraps (cs : list cls) : value node → value node → Prop :=
| wraps_end v : (∀ n c, v = VNode n → c ∈ cs → is_a c n = false) → wraps cs v v
| wraps_step n c w : c ∈ cs → is_a c n = true → wraps cs (this n) w → wraps cs (VNode n) w.

Lemma existsb_elem {A} (f : A → bool) l : existsb f l = true ↔ ∃ x, x ∈ l ∧ f x = true.
Proof. rewrite existsb_exists. by setoid_rewrite list_elem_of_In. Qed.

Lemma unwrap_wraps {FT : FiniteTrees} cs fuel v :
  (depth v ≤ fuel)%nat → wraps cs v (unwrap fuel cs v).
Proof.
  revert v. induction fuel as [|fuel IH]; intros v Hd.
  - destruct v as [|s|n|l]; cbn in *; [..|lia|]; by constructor.
  - destruct v as [|s|n|l]; cbn [unwrap]; try (by constructor).
    destruct (existsb _ cs) eqn:E.
    + apply existsb_elem in E as (c & Hc & E). apply (wraps_step _ _ c); [done..|].
      apply IH. destruct (this n) as [|s|m|l] eqn:Hm; cbn; try lia.
      apply this_smaller in Hm. cbn in Hd. lia.
    + constructor. intros n' c [= <-] Hc. apply not_true_is_false. intros Ec.
      assert (existsb (λ c, is_a c n) cs = true) by (apply existsb_elem; eauto). congruence.
Qed.

Lemma wraps_det cs v w w' : wraps cs v w → wraps cs v w' → w = w'.
Proof.
  induction 1 as [v H|n c w Hc E _ IH]; inversion 1 as [v' H'|n' c' w'' Hc' E' Hw]; subst; auto.
  - by rewrite (H _ _ eq_refl Hc') in E'.
  - by rewrite (H' _ _ eq_refl Hc) in E.
Qed.

(** An average order value: the average of the order amounts, or their sum over a count
    of orders, whatever parentheses, casts and NULLIFs surround the two. *)
Definition aov_computed (t : node) : Prop :=
  (∃ n, n ∈ find_all Avg t ∧ column_named "order_amount" (this n) = true) ∨
  (∃ n s c, n ∈ find_all Div t ∧
     wraps [Paren; Cast] (this n) s ∧ sum_amount s = true ∧
     wraps [Paren; Nullif; Cast] (expression n) c ∧ order_count c = true).

Lemma valid_aov_spec {FT : FiniteTrees} t : valid_aov t = true ↔ aov_computed t.
Proof.
  unfold valid_aov, aov_computed. rewrite orb_true_iff, !existsb_elem.
  assert (∀ n, aov_division n = true ↔ ∃ s c, wraps [Paren; Cast] (this n) s ∧
    sum_amount s = true ∧ wraps [Paren; Nullif; Cast] (expression n) c ∧ order_count c = true)
    as Hdiv.
  { intros n. unfold aov_division. rewrite andb_true_iff. split.
    - intros [Hs Hc]. eexists _, _. split_and!; eauto using unwrap_wraps.
    - intros (s & c & Hs & Es & Hc & Ec).
      assert (unwrapped [Paren; Cast] (this n) = s) as -> by
        (eapply wraps_det; [by apply unwrap_wraps|done]).
      assert (unwrapped [Paren; Nullif; Cast] (expression n) = c) as -> by
        (eapply wraps_det; [by apply unwrap_wraps|done]).
      done. }
  setoid_rewrite Hdiv. split; (intros [?|H]; [by left|right]).
  - destruct H as (n & Hn & s & c & H). by exists n, s, c.
  - destruct H as (n & s & c & Hn & H). exists n. split; [done|]. by exists s, c.
Qed.

Lemma all_aov_ok {FT : FiniteTrees} ts :
  all_aov ts = Ok true ↔ ∀ v, v ∈ ts → ∃ t, v = VNode t ∧ aov_computed t.
Proof.
  induction ts as [|v ts IH]; cbn.
  - split; [|done]. intros _ v Hv. by apply elem_of_nil in Hv.
  - split.
    + destruct v as [|s|t|l]; try done. destruct (valid_aov t) eqn:E; [|done].
      intros H v [->|Hv]%elem_of_cons; [|by apply IH].
      exists t. split; [done|]. by apply valid_aov_spec.
    + intros H. destruct (H v) as (t & -> & Ht%valid_aov_spec); [apply list_elem_of_here|].
      rewrite Ht. apply IH. intros w Hw. apply H. by apply list_elem_of_further.
Qed.

(** The average order value keeps its definition: a question that names it is
    answered only by SQL in which every column aliased as it (or the whole statement, if
    none is) computes AVG(order_amount), or SUM(order_amount) over a count of orders. *)
Theorem metrics_protected {FT : FiniteTrees} question text :
  validate_metrics question text = Ok tt ↔
  (found AOV question = true → ∃ tree, parse_one text = Ok tree ∧
     ∀ v, v ∈ aov_targets tree → ∃ t, v = VNode t ∧ aov_computed t).
Proof.
  unfold validate_metrics. destruct (found AOV question); [|by split].
  destruct (parse_one text) as [tree|e]; cbn [mbind result_bind].
  - split.
    + intros H _. inv_ok. exists tree. split; [done|]. by apply all_aov_ok; subst.
    + intros H. destruct (H eq_refl) as (t & [= <-] & Ht). apply all_aov_ok in Ht.
      by rewrite Ht.
  - split; [done|]. intros H. by destruct (H eq_refl) as (t & ? & _).
Qed.

(** *** Periods *)

(** A WHERE clause keeps the year [y]. *)
Definition year_kept (today : date) (y : Z) (w : node) : Prop :=
  (∃ p, p ∈ find_all Predicate w ∧ year_predicate y p = true) ∨
  (y = year today ∧ contains (u "YEAR(CURRENT_DATE)") (upper (sql w)) = true).

(** A predicate on the date, and one that is a bound. *)
Definition on_date (p : node) : Prop :=
  ∃ t c, this p = VNode t ∧ c ∈ find_all Column t ∧ name c = u "date_id".
Definition lower_bound (m : Z) (y : option Z) (w : node) (low : date) : Prop :=
  ∃ p, p ∈ find_all Predicate w ∧ on_date p ∧ is_a GTE p = true ∧
    date_value (expression p) = Some low ∧ requested m y (Some low) = true.
Definition upper_bound (w : node) (high : date) (exclusive : bool) : Prop :=
  ∃ p, p ∈ find_all Predicate w ∧ on_date p ∧ is_a LTE p || is_a LT p = true ∧
    date_value (expression p) = Some high ∧ exclusive = is_a LT p.

(** A WHERE clause keeps the month [m]: it names the month, or an interval or a day of
    it, or bounds the date from the month's first bound to no later than its end. *)
Definition month_kept (m : Z) (y : option Z) (w : node) : Prop :=
  (∃ p, p ∈ find_all Predicate w ∧ month_predicate m p = true) ∨
  (∃ p, p ∈ find_all Predicate w ∧ on_date p ∧
     (between_kept m y p = Ok true ∨
      is_a EQ p = true ∧ requested m y (date_value (expression p)) = true)) ∨
  (∃ low high exclusive last following,
     lower_bound m y w low ∧ upper_bound w high exclusive ∧
     make_date (year low) m (days_in_month (year low) m) = Ok last ∧
     make_date (year low + if m =? 12 then 1 else 0) (m mod 12 + 1) 1 = Ok following ∧
     (ordinal low ≤ ordinal high ≤ ordinal last ∨ exclusive = true ∧ high = following)).

Lemma requested_some m y v : requested m y v = true → ∃ d, v = Some d.
Proof. destruct v; [eauto|done]. Qed.

Lemma closed_by_ok m uppers lowers :
  closed_by m uppers lowers = Ok true →
  ∃ low high last following, low ∈ lowers ∧ high ∈ uppers ∧
    make_date (year low) m (days_in_month (year low) m) = Ok last ∧
    make_date (year low + if m =? 12 then 1 else 0) (m mod 12 + 1) 1 = Ok following ∧
    closes low last following high = true.
Proof.
  induction lowers as [|low lowers IH]; cbn [closed_by]; [done|]. intros H.
  apply bind_ok in H as (last & Hl & H). apply bind_ok in H as (following & Hf & H).
  destruct (existsb _ uppers) eqn:E.
  - apply existsb_elem in E as (high & Hin & E). exists low, high, last, following.
    split_and!; try done. apply list_elem_of_here.
  - apply IH in H as (low' & high & l & f & Hin & ?). exists low', high, l, f.
    split; [by apply list_elem_of_further|done].
Qed.

Definition scan_ok (m : Z) (y : option Z) (w : node) (st : scan) : Prop :=
  match st with
  | Kept => month_kept m y w
  | Bounds lowers uppers =>
      (∀ d, d ∈ lowers → lower_bound m y w d) ∧
      (∀ d e, (d, e) ∈ uppers → upper_bound w d e)
  end.

Lemma scan_predicate_ok m y w st p st' :
  p ∈ find_all Predicate w → scan_ok m y w st →
  scan_predicate m y st p = Ok st' → scan_ok m y w st'.
Proof.
  intros Hp Hst H. destruct st as [|lowers uppers]; cbn in H; [by inv_ok|].
  destruct (month_predicate m p) eqn:Hm; [inv_ok; left; eauto|].
  destruct (this p) as [|s|t|l] eqn:Ht; try done.
  destruct (existsb _ _) eqn:Hd; cbn [negb] in H; [|by inv_ok].
  apply existsb_elem in Hd as (c & Hc & Hd). apply bool_decide_eq_true in Hd.
  assert (on_date p) as Hon by by exists t, c.
  apply bind_ok in H as ([] & Hb & H); [inv_ok; right; left; eauto 6|].
  destruct (_ && _) eqn:He in H; [inv_ok; right; left|].
  { apply andb_true_iff in He as [? ?]. eauto 8. }
  inv_ok. destruct Hst as [Hlo Hup]. split.
  - unfold add_lower. destruct (date_value (expression p)) as [d|] eqn:Hv; [|done].
    destruct (is_a GTE p && _) eqn:Hg; [|exact Hlo]. apply andb_true_iff in Hg as [Hg Hr].
    intros d' [?|Hd']%elem_of_app; [by auto|].
    apply list_elem_of_singleton in Hd' as ->. by exists p.
  - unfold add_upper. destruct (date_value (expression p)) as [d|] eqn:Hv; [|done].
    destruct (is_a LTE p || _) eqn:Hg; [|exact Hup].
    intros d' e [?|Hd']%elem_of_app; [by auto|].
    apply list_elem_of_singleton in Hd' as [= -> ->]. by exists p.
Qed.

Lemma month_where_kept m y w : month_where m y w = Ok true → month_kept m y w.
Proof.
  unfold month_where. intros H. apply bind_ok in H as (st & Hscan & H).
  assert (scan_ok m y w st) as Hok.
  { assert (∀ ps st0, (∀ p, p ∈ ps → p ∈ find_all Predicate w) → scan_ok m y w st0 →
      scan_predicates m y ps st0 = Ok st → scan_ok m y w st) as Hgen.
    { induction ps as [|p ps IH]; intros st0 Hps H0 Hs; cbn in Hs; [by inv_ok|].
      apply bind_ok in Hs as (st1 & H1 & Hs). eapply IH; [| |exact Hs].
      - intros q Hq. apply Hps. by apply list_elem_of_further.
      - eapply scan_predicate_ok; [|exact H0|exact H1]. apply Hps, list_elem_of_here. }
    eapply Hgen; [| |exact Hscan]; [done|].
    split; intros ? *; intros Hin; by apply elem_of_nil in Hin. }
  destruct st as [|lowers uppers]; [done|]. destruct Hok as [Hlo Hup].
  apply closed_by_ok in H as (low & [high e] & last & following & Hl & Hh & Hla & Hf & Hc).
  right; right. exists low, high, e, last, following. split_and!; auto.
  unfold closes, date_leb in Hc. cbn in Hc. rewrite orb_true_iff, !andb_true_iff in Hc.
  rewrite bool_decide_eq_true, !Z.leb_le in Hc. naive_solver.
Qed.

(** An explicit year or single month of the question is never dropped: SQL accepted
    by [validate_period] has, for the year, a WHERE clause with a predicate on the year
    or the date and a literal of that year (or the current year), and for the month, a
    WHERE clause that names the month, a day or interval of it, or bounds the date within
    it. *)
Theorem period_protected today question text :
  validate_period today question text = Ok tt →
  (∀ y, question_year today question = Some y →
     ∃ tree w, parse_one text = Ok tree ∧ w ∈ find_all Where tree ∧ year_kept today y w) ∧
  (∀ m, question_month question = Some m →
     ∃ tree w, parse_one text = Ok tree ∧ w ∈ find_all Where tree ∧
       month_kept m (month_year today question) w).
Proof.
  intros H. apply bind_ok in H as ([] & Hy & H). split.
  - intros y Hq. unfold validate_year in Hy. rewrite Hq in Hy. inv_ok. rename a into tree.
    apply existsb_elem in Hy as (w & Hw & E). exists tree, w. split_and!; [done..|].
    unfold year_where in E. rewrite orb_true_iff, andb_true_iff, Z.eqb_eq in E.
    destruct E as [E|[-> E]]; [left|by right]. by apply existsb_elem in E.
  - intros m Hq. rewrite Hq in H. inv_ok. rename a into tree. subst.
    assert (∀ ws, any_where (month_where m (month_year today question)) ws = Ok true →
      ∃ w, w ∈ ws ∧ month_kept m (month_year today question) w) as Hany.
    { induction ws as [|w ws IH]; cbn; [done|]. intros Hm'.
      apply bind_ok in Hm' as ([] & Hw & Hm').
      - exists w. split; [apply list_elem_of_here|by apply month_where_kept].
      - apply IH in Hm' as (w' & ? & ?). exists w'. split; [by apply list_elem_of_further|done]. }
    apply Hany in Hm0 as (w & Hw & Hk). by exists tree, w.
Qed.
End spec.
