(* ===== verification/SqlCases.v ===== *)
(** * The SQL guards on concrete statements

    A small tree of expressions that satisfies the laws of [SqlGlot], a statement of
    the warehouse, and the theorems of SqlSpec.v and Business.v applied to it. *)
From S2P Require Import Prelude.
From S2P Require Import PyStr.
From S2P Require Import PyRe.
From S2P Require Import Json.
From S2P Require Import PyTime.
From S2P Require Import Sql.
From S2P Require Import SqlSpec.
From S2P Require Import Business.

(** ** Trees *)

(** An expression: its class, its texts ([name], [alias], the printed form, ...) and its
    arguments. *)
#[local] Set Warnings "-register-all".
Inductive ast := Ast (k : cls) (texts : list (string * pystr)) (args : list (string * value ast)).

Definition ast_kind (n : ast) : cls := match n with Ast k _ _ => k end.
Definition ast_texts (n : ast) : list (string * pystr) := match n with Ast _ t _ => t end.
Definition ast_args (n : ast) : list (string * value ast) := match n with Ast _ _ a => a end.

(** A class and its superclasses. *)
Definition bases (k : cls) : list cls :=
  match k with
  | Avg | Sum | Count | Cast | Nullif | Month => [k; Func]
  | Anonymous => [Anonymous; Func]
  | EQ | In_ | Between | GTE | LTE | LT => [k; Predicate]
  | _ => [k]
  end.

Fixpoint walk_ast (n : ast) : list ast :=
  n :: match n with
       | Ast _ _ args => concat (map (λ kv, match kv.2 with
           | VNode m => walk_ast m
           | VList l => concat (map walk_ast l)
           | _ => [] end) args)
       end.

Fixpoint lookup_str {A} (k : string) (l : list (string * A)) : option A :=
  match l with
  | [] => None
  | (k', v) :: l' => if String.eqb k k' then Some v else lookup_str k l'
  end.

Definition text (k : string) (n : ast) : pystr := default [] (lookup_str k (ast_texts n)).
Definition kind_is (c : cls) (n : ast) : bool := bool_decide (c ∈ bases (ast_kind n)).

Definition literal (k : Z) : ast :=
  Ast Literal [("name", str_of_Z k)]%string [("this", VStr (str_of_Z k))]%string.

(** The new limit shadows the old one. *)
Definition limit_node (k : Z) : ast := Ast OtherClass [] [("expression", VNode (literal k))]%string.
Definition limit_ast (k : Z) (n : ast) : ast :=
  Ast (ast_kind n)
    (("sql"%string, text "sql" n ++ u " LIMIT " ++ str_of_Z k) :: ast_texts n)
    (("limit"%string, VNode (limit_node k)) :: ast_args n).

(** The parser knows the statements [stmts]. *)
Definition parse_ast (stmts : list ast) (s : pystr) : result (list (option ast)) :=
  match filter (λ t, text "sql" t = s) stmts with
  | t :: _ => Ok [Some t]
  | [] => Raise (exn_of (OtherError "ParseError") "no statement")
  end.

Definition Toy (stmts : list ast) : SqlGlot := {|
  node := ast;
  parse := parse_ast stmts;
  parse_one s := match parse_ast stmts s with
                 | Ok [Some t] => Ok t | Ok _ => Raise attr_error | Raise e => Raise e end;
  is_a := kind_is;
  walk := walk_ast;
  find_all c n := filter (λ m, kind_is c m = true) (walk_ast n);
  arg k n := lookup_str k (ast_args n);
  name := text "name"; alias := text "alias"; alias_or_name := text "alias_or_name";
  catalog := text "catalog"; db := text "db"; column_table := text "table";
  sql_name := text "sql_name";
  limit := limit_ast;
  sql := text "sql";
  str_node := text "sql"; str_list _ := [];
|}.

(** ** The laws *)

Lemma lookup_str_elem {A} k (l : list (string * A)) v : lookup_str k l = Some v → (k, v) ∈ l.
Proof.
  induction l as [|[k' w] l IH]; cbn; [done|]. destruct (String.eqb_spec k k') as [->|].
  - intros [= ->]. apply list_elem_of_here.
  - intros. by apply list_elem_of_further, IH.
Qed.

Lemma walk_arg k n m : lookup_str k (ast_args n) = Some (VNode m) →
  (length (walk_ast m) < length (walk_ast n))%nat.
Proof.
  intros H%lookup_str_elem. destruct n as [c ts args]. cbn in *. apply le_n_S.
  induction args as [|[k' v] args IH]; [by apply elem_of_nil in H|]. cbn. rewrite length_app.
  apply elem_of_cons in H as [[= -> <-]|H]; [|apply IH in H]; lia.
Qed.

Lemma unwatched (n : ast) c : ast_kind n ∈ [OtherClass; Literal] →
  kind_is c n = true → c ∉ watched.
Proof.
  intros Hk H%bool_decide_eq_true. rewrite !elem_of_cons, elem_of_nil in Hk.
  destruct Hk as [E|[E|[]]]; rewrite E in H; apply list_elem_of_singleton in H as ->;
    apply (bool_decide_unpack _); by vm_compute.
Qed.

Section laws.
Context {UT : UnicodeTables} (stmts : list ast).
#[local] Existing Instance Toy.

Lemma toy_finite : FiniteTrees (SG:=Toy stmts).
Proof.
  intros n m H. unfold this, arg_get in H. cbn in *.
  destruct (lookup_str "this" (ast_args n)) as [v|] eqn:E; [|done]. cbn in H. subst.
  by eapply walk_arg.
Qed.

Lemma toy_limit : LimitLaw (SG:=Toy stmts).
Proof. intros k tree H. split; [exact H|]. by exists (limit_node k), (literal k). Qed.

Lemma toy_limit_nodes : LimitNodes (SG:=Toy stmts).
Proof.
  split.
  - intros c n tree. cbn. rewrite list_elem_of_filter. tauto.
  - intros tree. destruct tree. apply list_elem_of_here.
  - intros k tree n Hn. cbn in Hn.
    rewrite !elem_of_cons in Hn. destruct Hn as [->|[->|[->|Hn]]].
    + right; left. done.
    + right; right. intros c Hc. refine (unwatched _ c _ Hc).
      rewrite !elem_of_cons. cbn. tauto.
    + right; right. intros c Hc. refine (unwatched _ c _ Hc).
      rewrite !elem_of_cons. cbn. tauto.
    + left. destruct tree as [c ts args]. cbn. by apply list_elem_of_further.
  - intros k tree. unfold ctes. destruct tree as [c ts args].
    by destruct c.
  - intros tree Hq. destruct tree as [[] ts args]; destruct Hq; done.
Qed.
End laws.

(** ** A statement *)

Section cases.
#[local] Existing Instances AsciiCjk.

Definition column (t c : string) : ast := Ast Column [("name", u c); ("table", u t)]%string [].
Definition table (t a : string) : ast :=
  Ast Table [("name", u t); ("alias_or_name", u a)]%string [].
Definition number (v : string) : ast := Ast Literal [("name", u v)]%string [("this", VStr (u v))]%string.
Definition both (k : cls) (a b : ast) : ast :=
  Ast k [] [("this", VNode a); ("expression", VNode b)]%string.
Definition aggregate (k : cls) (nm : string) (a : ast) : ast :=
  Ast k [("sql_name", u nm)]%string [("this", VNode a)]%string.

(** [SELECT AVG(f.order_amount) AS aov FROM fact_order AS f JOIN dim_date AS d ON
    f.<on> = d.date_id WHERE d.year = 2025 AND d.month = <month>]. *)
Definition statement (txt on month : string) (extra : list (string * value ast)) : ast :=
  Ast Select [("sql", u txt)]%string
    (app extra
     [("expressions", VList [Ast Alias [("alias", u "aov")]
         [("this", VNode (aggregate Avg "AVG" (column "f" "order_amount")))]]);
      ("from", VNode (table "fact_order" "f"));
      ("joins", VList [Ast OtherClass []
         [("this", VNode (table "dim_date" "d"));
          ("on", VNode (both EQ (column "f" on) (column "d" "date_id")))]]);
      ("where", VNode (Ast Where []
         [("this", VNode (both OtherClass (both EQ (column "d" "year") (number "2025"))
                            (both EQ (column "d" "month") (number month))))]))])%string.

Definition january : ast := statement "SELECT q0" "date_id" "1" [].
Definition february : ast := statement "SELECT q1" "date_id" "2" [].
Definition by_name : ast := statement "SELECT q2" "order_id" "1" [].
Definition sleeping : ast := statement "SELECT q3" "date_id" "1"
  [("limit", VNode (limit_node 1));
   ("having", VNode (Ast Anonymous [("name", u "SLEEP")] []))]%string.
Definition wide : ast := statement "SELECT q4" "date_id" "1"
  [("limit"%string, VNode (limit_node 501))].

Definition known : list ast :=
  [january; february; by_name; sleeping; wide; limit_ast MAX_ROWS january;
   limit_ast MAX_ROWS february].

#[local] Instance toy : SqlGlot := Toy known.
#[local] Existing Instances toy_finite toy_limit toy_limit_nodes.

Definition question : pystr := u "2025年1月的客单价是多少".
Definition today0 : date := Date 2026 9 24.

Example guarded :
  safe_sql (u "SELECT q0") = Ok (u "SELECT q0 LIMIT 500") ∧
  safe_sql (u "SELECT q3") = Raise banned_function ∧
  safe_sql (u "SELECT q4") = Ok (u "SELECT q4 LIMIT 500") ∧
  safe_sql (u "DROP") = Raise unparsable.
Proof. by vm_compute. Qed.

Example joins_checked :
  validate_relations (u "SELECT q0") = Ok tt ∧
  validate_relations (u "SELECT q2") = Raise (wrong_key (u "date_id")).
Proof. by vm_compute. Qed.

Example month_checked :
  validate_period today0 question (u "SELECT q0") = Ok tt ∧
  validate_period today0 question (u "SELECT q1") = Raise (month_contract 1) ∧
  validate_metrics question (u "SELECT q0") = Ok tt.
Proof. by vm_compute. Qed.

Lemma safe_sql_policy_witness :
  ∃ tree b, parse (u "SELECT q0") = Ok [Some tree] ∧ safe_statement tree ∧
    bounded tree = Ok b ∧ row_bound b ∧ u "SELECT q0 LIMIT 500" = sql b.
Proof.
  apply (proj1 (safe_sql_policy (LL:=toy_limit known) (u "SELECT q0") (u "SELECT q0 LIMIT 500"))).
  exact (proj1 guarded).
Defined.

Lemma safe_sql_idempotent_witness :
  safe_sql (u "SELECT q0 LIMIT 500") = Ok (u "SELECT q0 LIMIT 500").
Proof.
  apply (safe_sql_idempotent (LL:=toy_limit known) (LN:=toy_limit_nodes known) (u "SELECT q0")).
  - assert (parse (u "SELECT q0") = Ok [Some january]) as E by by vm_compute.
    assert (bounded january = Ok (limit_ast MAX_ROWS january)) as E1 by by vm_compute.
    intros t b Ht Hb. pose proof (eq_trans (eq_sym Ht) E) as Ht'. injection Ht' as ->.
    pose proof (eq_trans (eq_sym Hb) E1) as Hb'. injection Hb' as ->. by vm_compute.
  - exact (proj1 guarded).
Defined.

Lemma metrics_protected_witness :
  ∃ tree, parse_one (u "SELECT q0") = Ok tree ∧
    ∀ v, v ∈ aov_targets tree → ∃ t, v = VNode t ∧ aov_computed t.
Proof.
  apply (proj1 (metrics_protected (FT:=toy_finite known) question (u "SELECT q0"))).
  - exact (proj2 (proj2 month_checked)).
  - by vm_compute.
Defined.

Lemma period_protected_witness :
  ∃ tree w, parse_one (u "SELECT q0") = Ok tree ∧ w ∈ find_all Where tree ∧
    month_kept 1 (Some 2025) w.
Proof.
  apply (proj2 (period_protected today0 question (u "SELECT q0") (proj1 month_checked)) 1).
  by vm_compute.
Defined.
End cases.
