(* ===== verification/Retrieval.v ===== *)
(** * Bounded retrieval and rank fusion (query/app/core/retrieval.py)

    The terms searched for, the map that runs at most four searches at a time as a
    transition system, and reciprocal-rank fusion with the interpreter's binary64
    arithmetic written out. *)
From stdpp Require Import relations.
From S2P Require Import Prelude.
From S2P Require Import PyStr.
From S2P Require Import Json.
From S2P Require Import Sql.

(** ** Terms *)

Definition MAX_TERMS : nat := 24.
Definition bad_expansion : exn := value_error "检索词扩展格式无效，请重试。".

(** [expanded] as a list of strings. *)
Definition str_list_of (v : json) : option (list pystr) :=
  match v with
  | JList l => mapM (λ x, match x with JStr s => Some s | _ => None end) l
  | _ => None
  end.

Definition retrieval_terms (query : pystr) (keywords : list pystr) (expanded : json)
    : result (list pystr) :=
  match str_list_of expanded with
  | None => Raise bad_expansion
  | Some ex =>
      Ok (take MAX_TERMS
            (fromkeys (strip <$> filter (λ x, strip x ≠ []) (query :: ex ++ keywords))))
  end.

(** ** Positive binary64 numbers *)

(** [mant * 2 ^ expo], with a 53-bit mantissa; zero has mantissa 0.  The sums below stay
    far from the exponent's limits. *)
Record float := F { mant : Z; expo : Z }.
#[export] Instance float_eq_dec : EqDecision float.
Proof. solve_decision. Defined.

Definition fzero : float := F 0 0.

(** Round to nearest, ties to even. *)
Definition round_even (n d : Z) : Z :=
  let q := n / d in let r := n mod d in
  if 2 * r <? d then q else if d <? 2 * r then q + 1 else if Z.even q then q else q + 1.

(** [n / d * 2 ^ e] correctly rounded, for positive [n] and [d]. *)
Definition fround (n d e : Z) : float :=
  let s := 53 + Z.log2 d - Z.log2 n in
  let scale s := (n * 2 ^ Z.max s 0, d * 2 ^ Z.max (- s) 0) in
  let s := if (scale s).1 / (scale s).2 <? 2 ^ 53 then s else s - 1 in
  let m := round_even (scale s).1 (scale s).2 in
  if m =? 2 ^ 53 then F (2 ^ 52) (e - s + 1) else F m (e - s).

Definition fadd (x y : float) : float :=
  if mant x =? 0 then y else if mant y =? 0 then x else
  let e := Z.min (expo x) (expo y) in
  fround (mant x * 2 ^ (expo x - e) + mant y * 2 ^ (expo y - e)) 1 e.

(** [1 / k]. *)
Definition finv (k : Z) : float := fround 1 k 0.

Definition flt (x y : float) : bool :=
  let e := Z.min (expo x) (expo y) in
  mant x * 2 ^ (expo x - e) <? mant y * 2 ^ (expo y - e).

(** [0.1 + 0.2] is not [0.3]. *)
Example tenths : fadd (fround 1 10 0) (fround 2 10 0) ≠ fround 3 10 0
  ∧ fround 3 10 0 = F 5404319552844595 (-54).
Proof. by vm_compute. Qed.

(** ** Rank fusion *)

Section fusion.
Context {T : Type}.
Variable hit_id : T → pystr.

Record Fusion := { entities : list (pystr * T); scores : list (pystr * float) }.

(** [d.setdefault(k, v)]. *)
Definition setdefault {A} (k : pystr) (v : A) (d : list (pystr * A)) : list (pystr * A) :=
  match assoc k d with Some _ => d | None => d ++ [(k, v)] end.

(** One hit: the state of the loop over a list is what it has seen, the rank reached,
    and the fusion so far. *)
Definition fuse_hit (st : list pystr * Z * Fusion) (hit : T) : list pystr * Z * Fusion :=
  let '(seen, rank, f) := st in
  let k := hit_id hit in
  if mem k seen then st
  else (k :: seen, rank + 1,
        {| entities := setdefault k hit (entities f);
           scores := assoc_set k (fadd (default fzero (assoc k (scores f)))
                                    (finv (60 + (rank + 1)))) (scores f) |}).

Definition fuse_list (f : Fusion) (hits : list T) : Fusion := (foldl fuse_hit ([], 0, f) hits).2.

Definition no_fusion : Fusion := {| entities := []; scores := [] |}.

(** [(-scores[key], key)] in order. *)
Definition ranked_before (score : pystr → float) (a b : pystr) : bool :=
  flt (score b) (score a) || negb (flt (score a) (score b)) && str_leb a b.

Definition fuse_ranked (lists : list (list T)) : list T :=
  let f := foldl fuse_list no_fusion lists in
  let score k := default fzero (assoc k (scores f)) in
  omap (λ k, assoc k (entities f)) (sort_by (ranked_before score) (keys (entities f))).

(** *** The reference definition *)

(** The rank of an identifier in a list of hits, counting each identifier once. *)
Fixpoint index_of (k : pystr) (l : list pystr) : option Z :=
  match l with
  | [] => None
  | x :: l' => if str_eqb k x then Some 0 else Z.succ <$> index_of k l'
  end.
Definition rank_in (k : pystr) (hits : list T) : option Z :=
  Z.succ <$> index_of k (fromkeys (hit_id <$> hits)).

Definition score_of (lists : list (list T)) (k : pystr) : float :=
  foldl (λ s hits, match rank_in k hits with
                   | Some r => fadd s (finv (60 + r))
                   | None => s end) fzero lists.

(** The first hit with an identifier, over all lists. *)
Definition first_hit (lists : list (list T)) (k : pystr) : option T :=
  head (filter (λ h, hit_id h = k) (concat lists)).

Definition fuse_reference (lists : list (list T)) : list T :=
  omap (first_hit lists)
    (sort_by (ranked_before (score_of lists)) (fromkeys (hit_id <$> concat lists))).
End fusion.

(** ** The fusion is the reference *)

Lemma fromkeys_snoc (l : list pystr) x :
  fromkeys (l ++ [x]) = if decide (x ∈ l) then fromkeys l else fromkeys l ++ [x].
Proof.
  induction l as [|y l IH]; [done|]. cbn [app fromkeys]. rewrite IH.
  destruct (decide (x = y)) as [->|Hxy].
  - rewrite (decide_True _ _ (list_elem_of_here _ _)).
    destruct (decide (y ∈ l)); [done|]. rewrite filter_app, filter_cons_False by tauto.
    by rewrite filter_nil, app_nil_r.
  - destruct (decide (x ∈ l)) as [Hx|Hx].
    + by rewrite (decide_True _ _ (list_elem_of_further _ _ _ Hx)).
    + rewrite decide_False by (rewrite elem_of_cons; tauto).
      rewrite filter_app, filter_cons_True by done. done.
Qed.

Lemma index_of_none k l : index_of k l = None ↔ k ∉ l.
Proof.
  induction l as [|x l IH]; cbn; [split; [intros _ H; by apply elem_of_nil in H|done]|].
  rewrite elem_of_cons. unfold str_eqb. case_bool_decide; [split; [done|tauto]|].
  rewrite fmap_None. tauto.
Qed.

Lemma index_of_snoc k l x :
  index_of k (l ++ [x]) = match index_of k l with
                          | Some i => Some i
                          | None => if str_eqb k x then Some (len l) else None end.
Proof.
  induction l as [|y l IH]; cbn [app index_of]; [by destruct (str_eqb k x)|].
  destruct (str_eqb k y); [done|]. rewrite IH.
  destruct (index_of k l); [done|]. destruct (str_eqb k x); [|done]. cbn.
  unfold len. cbn. f_equal. lia.
Qed.

Section fusion_spec.
Context {T : Type}.
Variable hit_id : T → pystr.

Abbreviation ids l := (hit_id <$> l).

Lemma assoc_setdefault {A} k k' (v : A) d :
  assoc k' (setdefault k v d) =
    match assoc k' d with Some w => Some w | None => if str_eqb k' k then Some v else None end.
Proof.
  unfold setdefault. destruct (assoc k d) as [w|] eqn:E.
  - destruct (assoc k' d) eqn:E'; [done|]. unfold str_eqb.
    case_bool_decide; [congruence|done].
  - clear E. induction d as [|[k1 v1] d IH]; cbn [app assoc].
    + done.
    + by destruct (str_eqb k' k1).
Qed.

Lemma assoc_none {A} k (d : list (pystr * A)) : assoc k d = None ↔ k ∉ keys d.
Proof.
  induction d as [|[k1 v1] d IH]; cbn; [split; [intros _ H; by apply elem_of_nil in H|done]|].
  unfold str_eqb. rewrite elem_of_cons. case_bool_decide; [split; [done|tauto]|]. rewrite IH. tauto.
Qed.

Lemma keys_setdefault {A} k (v : A) d :
  keys (setdefault k v d) = if decide (k ∈ keys d) then keys d else keys d ++ [k].
Proof.
  unfold setdefault. destruct (assoc k d) as [w|] eqn:E.
  - rewrite decide_True; [done|]. destruct (decide (k ∈ keys d)) as [H|H]; [done|].
    by apply assoc_none in H; rewrite E in H.
  - apply assoc_none in E. rewrite decide_False by done. unfold keys. by rewrite fmap_app.
Qed.

(** The fusion holds the hits seen so far, with these scores. *)
Record fusion_ok (all : list T) (score : pystr → float) (f : Fusion) : Prop := {
  fu_keys : keys (entities f) = fromkeys (ids all);
  fu_entities k : assoc k (entities f) = head (filter (λ h, hit_id h = k) all);
  fu_scores k : default fzero (assoc k (scores f)) = score k;
}.

Lemma head_filter_snoc k (all : list T) h :
  head (filter (λ x, hit_id x = k) (all ++ [h])) =
    match head (filter (λ x, hit_id x = k) all) with
    | Some x => Some x
    | None => if str_eqb k (hit_id h) then Some h else None
    end.
Proof.
  rewrite filter_app. unfold str_eqb. destruct (filter _ all); [|done]. cbn [app head].
  rewrite filter_cons. case_decide; case_bool_decide; done.
Qed.

(** The score inside a list of which [pre] is processed. *)
Definition score_within (score : pystr → float) (pre : list T) (k : pystr) : float :=
  match rank_in hit_id k pre with
  | Some r => fadd (score k) (finv (60 + r))
  | None => score k
  end.

Lemma fuse_hits_ok all score (hits pre : list T) seen f :
  (∀ k, k ∈ seen ↔ k ∈ ids pre) →
  fusion_ok (all ++ pre) (score_within score pre) f →
  fusion_ok (all ++ pre ++ hits) (score_within score (pre ++ hits))
    (foldl (fuse_hit hit_id) (seen, len (fromkeys (ids pre)), f) hits).2.
Proof.
  revert pre seen f. induction hits as [|h hits IH]; intros pre seen f Hseen Hf.
  { by rewrite app_nil_r. }
  replace (pre ++ h :: hits) with ((pre ++ [h]) ++ hits) by by rewrite <- app_assoc.
  cbn [foldl]. unfold fuse_hit at 2.
  assert (ids (pre ++ [h]) = ids pre ++ [hit_id h]) as Hids by by rewrite fmap_app.
  destruct Hf as [Hk He Hs].
  destruct (mem (hit_id h) seen) eqn:Hm.
  - apply mem_elem_of, Hseen in Hm.
    assert (fromkeys (ids (pre ++ [h])) = fromkeys (ids pre)) as Hfk
      by by rewrite Hids, fromkeys_snoc, decide_True.
    rewrite <- Hfk. apply IH.
    + intros k. rewrite Hseen, Hids, elem_of_app, list_elem_of_singleton.
      split; [tauto|]. by intros [?| ->].
    + rewrite app_assoc. split.
      * rewrite Hk, (fmap_app hit_id (all ++ pre)). cbn [fmap list_fmap].
        rewrite fromkeys_snoc, decide_True; [done|]. rewrite fmap_app, elem_of_app. by right.
      * intros k. rewrite He, head_filter_snoc. destruct (head _) eqn:Hh; [done|].
        unfold str_eqb. case_bool_decide as E; [|done]. exfalso. subst.
        apply list_elem_of_fmap in Hm as (x & Hx & Hin).
        assert (x ∈ filter (λ y, hit_id y = hit_id h) (all ++ pre)) as Hc
          by (apply list_elem_of_filter; split; [done|]; apply elem_of_app; by right).
        destruct (filter _ _); [by apply elem_of_nil in Hc|done].
      * intros k. rewrite Hs. unfold score_within, rank_in. by rewrite Hfk.
  - assert (hit_id h ∉ ids pre) as Hn.
    { rewrite <- Hseen, <- mem_elem_of. by rewrite Hm. }
    assert (fromkeys (ids (pre ++ [h])) = fromkeys (ids pre) ++ [hit_id h]) as Hfk
      by by rewrite Hids, fromkeys_snoc, decide_False.
    assert (len (fromkeys (ids pre)) + 1 = len (fromkeys (ids (pre ++ [h])))) as Hlen
      by (rewrite Hfk; unfold len; rewrite length_app; cbn; lia).
    rewrite Hlen. apply IH.
    + intros k. rewrite Hids, elem_of_app, list_elem_of_singleton, elem_of_cons, Hseen. tauto.
    + rewrite app_assoc. split; cbn [entities scores].
      * rewrite keys_setdefault, Hk, (fmap_app hit_id (all ++ pre)). cbn [fmap list_fmap].
        rewrite fromkeys_snoc. by destruct (decide (hit_id h ∈ fromkeys _)) as [E|E];
          rewrite elem_of_fromkeys in E; [rewrite decide_True|rewrite decide_False].
      * intros k. rewrite assoc_setdefault, He, head_filter_snoc. done.
      * intros k. unfold score_within, rank_in. rewrite Hfk, index_of_snoc.
        destruct (decide (k = hit_id h)) as [->|Hkh].
        -- rewrite assoc_set_same. cbn [default from_option].
           assert (index_of (hit_id h) (fromkeys (ids pre)) = None) as Hi
             by by apply index_of_none; rewrite elem_of_fromkeys.
           rewrite Hi. unfold str_eqb. rewrite bool_decide_true by done.
           specialize (Hs (hit_id h)). unfold score_within, rank_in in Hs. rewrite Hi in Hs.
           cbn [fmap option_fmap option_map] in Hs |- *.
           rewrite Hs, <- Hfk, <- Hlen. done.
        -- rewrite assoc_set_other by done. specialize (Hs k).
           unfold score_within, rank_in in Hs. rewrite Hs.
           destruct (index_of k _); [done|]. unfold str_eqb. by rewrite bool_decide_false.
Qed.

Lemma fusion_ok_ext all s s' f : (∀ k, s k = s' k) → fusion_ok all s f → fusion_ok all s' f.
Proof. intros H [? ? Hs]. split; [done..|]. intros k. by rewrite <- H. Qed.

Lemma fuse_lists_ok lists :
  fusion_ok (concat lists) (score_of hit_id lists) (foldl (fuse_list hit_id) no_fusion lists).
Proof.
  induction lists as [|hits lists IH] using rev_ind; [done|].
  rewrite foldl_app, concat_app. cbn [concat foldl app]. rewrite app_nil_r.
  unfold fuse_list at 1. change 0 with (len (fromkeys (ids (@nil T)))).
  eapply fusion_ok_ext; [|apply (fuse_hits_ok (concat lists) (score_of hit_id lists) hits [])].
  - intros k. unfold score_of, score_within. by rewrite foldl_app.
  - intros k. done.
  - rewrite app_nil_r. eapply fusion_ok_ext; [|exact IH]. done.
Qed.

Lemma sort_by_ext {A} (le le' : A → A → bool) l :
  (∀ x y, le x y = le' x y) → sort_by le l = sort_by le' l.
Proof.
  intros H. induction l as [|x l IH]; [done|].
  change (insert_by le x (sort_by le l) = insert_by le' x (sort_by le' l)). rewrite IH.
  generalize (sort_by le' l). clear IH l. intros l.
  induction l as [|y l IH]; [done|]. cbn. by rewrite H, IH.
Qed.

End fusion_spec.

(** ** The bounded map *)

Section bounded.
Context {T U : Type}.
Variable operation : T → result U.
Variable concurrency : nat.

(** A task: waiting for the semaphore, in the operation, done, or cancelled. *)
Inductive task := Waiting | Running | Finished (r : result U) | Cancelled.

#[local] Instance running_dec (s : task) : Decision (s = Running).
Proof. destruct s; (by left) || (by right). Defined.
#[local] Instance waiting_dec (s : task) : Decision (s = Waiting).
Proof. destruct s; (by left) || (by right). Defined.

(** The pool, and what [gather] gave the caller. *)
Record pool := { tasks : list (T * task); outcome : option (result (list U)) }.

Definition start_pool (items : list T) : pool :=
  {| tasks := (λ t, (t, Waiting)) <$> items; outcome := None |}.

Definition running (p : pool) : nat :=
  length (filter (λ x : T * task, x.2 = Running) (tasks p)).

Definition cancel (x : T * task) : T * task :=
  match x.2 with Waiting | Running => (x.1, Cancelled) | _ => x end.

(** The semaphore admits a task, an operation ends, or [gather] returns: all results in
    the order of the items, or the error of a task that failed, after which the tasks
    not done are cancelled. *)
Inductive pool_step (p : pool) : pool → Prop :=
| step_start l1 t l2 :
    outcome p = None → tasks p = l1 ++ (t, Waiting) :: l2 → (running p < concurrency)%nat →
    pool_step p {| tasks := l1 ++ (t, Running) :: l2; outcome := None |}
| step_finish l1 t l2 :
    outcome p = None → tasks p = l1 ++ (t, Running) :: l2 →
    pool_step p {| tasks := l1 ++ (t, Finished (operation t)) :: l2; outcome := None |}
| step_fail t e :
    outcome p = None → (t, Finished (Raise e)) ∈ tasks p →
    pool_step p {| tasks := cancel <$> tasks p; outcome := Some (Raise e) |}
| step_gather us :
    outcome p = None → Forall2 (λ x y, x.2 = Finished (Ok y)) (tasks p) us →
    pool_step p {| tasks := tasks p; outcome := Some (Ok us) |}.

Record pool_ok (items : list T) (p : pool) : Prop := {
  po_items : fst <$> tasks p = items;
  po_running : (running p ≤ concurrency)%nat;
  po_results t r : (t, Finished r) ∈ tasks p → r = operation t;
  po_outcome : match outcome p with
    | None => (∀ t, (t, Cancelled) ∉ tasks p)
    | Some (Ok us) => map_r operation items = Ok us ∧ running p = 0%nat
    | Some (Raise e) => (∃ t, t ∈ items ∧ operation t = Raise e) ∧ running p = 0%nat
    end;
}.

Lemma running_replace l1 l2 t s o o' :
  (running {| tasks := l1 ++ (t, s) :: l2; outcome := o |} ≤
   S (running {| tasks := l1 ++ (t, Waiting) :: l2; outcome := o' |}))%nat.
Proof.
  unfold running. cbn [tasks].
  rewrite !filter_app, (filter_cons_False _ (t, Waiting)), filter_cons, !length_app by done.
  case_decide; cbn; lia.
Qed.

Lemma keep_task {l1 l2 t s s0} {x : T * task} :
  x ∈ l1 ++ (t, s) :: l2 → x.2 ≠ s → x ∈ l1 ++ (t, s0) :: l2.
Proof.
  rewrite !elem_of_app, !elem_of_cons. intros [?|[->|?]] Hx; [by left|done|by do 2 right].
Qed.

Lemma cancel_not_running l : filter (λ x : T * task, x.2 = Running) (cancel <$> l) = [].
Proof.
  induction l as [|[t s] l IH]; [done|].
  rewrite fmap_cons, filter_cons_False; [exact IH|by destruct s].
Qed.

Lemma pool_step_ok items p p' : pool_ok items p → pool_step p p' → pool_ok items p'.
Proof.
  intros [Hi Hr Hres Hout] Hstep. destruct Hstep as [l1 t l2 Ho Ht Hn|l1 t l2 Ho Ht|t e Ho Ht|us Ho Ht];
    rewrite Ho in Hout.
  - split; cbn.
    + rewrite <- Hi, Ht, !fmap_app. done.
    + unfold running in Hn. rewrite Ht in Hn.
      etrans; [apply (running_replace l1 l2 t Running None None)|exact Hn].
    + intros t' r Hin. apply Hres. rewrite Ht. by apply (keep_task Hin).
    + intros t' Hin. apply (Hout t'). rewrite Ht. by apply (keep_task Hin).
  - split; cbn.
    + rewrite <- Hi, Ht, !fmap_app. done.
    + etrans; [|exact Hr]. unfold running. rewrite Ht. cbn.
      rewrite !filter_app, filter_cons_False, filter_cons_True, !length_app by done. cbn. lia.
    + intros t' r. rewrite elem_of_app, elem_of_cons. intros [Hin|[[= -> ->]|Hin]]; [|done|];
        apply Hres; rewrite Ht, elem_of_app, elem_of_cons; auto.
    + intros t' Hin. apply (Hout t'). rewrite Ht. by apply (keep_task Hin).
  - split; cbn.
    + rewrite <- Hi, <- list_fmap_compose. apply list_fmap_ext. intros i [x s] _.
      by destruct s.
    + unfold running. cbn. rewrite cancel_not_running. cbn. lia.
    + intros t' r Hin. apply list_elem_of_fmap in Hin as ([x s] & E & Hin). apply Hres.
      destruct s; cbn in E; try discriminate; by injection E as -> ->.
    + split; [|unfold running; cbn; by rewrite cancel_not_running].
      exists t. split; [|symmetry; by apply Hres].
      rewrite <- Hi. apply list_elem_of_fmap. by exists (t, Finished (Raise e)).
  - split; cbn; [done|done|done|]. split.
    + apply map_r_ok. rewrite <- Hi. clear -Hres Ht.
      induction Ht as [|[t s] y l us Hs _ IH]; [constructor|]. cbn in Hs. subst.
      constructor; [|apply IH; intros; apply Hres; by apply list_elem_of_further].
      symmetry. apply Hres, list_elem_of_here.
    + unfold running. cbn. clear -Ht. induction Ht as [|[t s] y l us Hs _ IH]; [done|].
      cbn in Hs. subst. by rewrite filter_cons_False.
Qed.

Lemma start_pool_ok items : pool_ok items (start_pool items).
Proof.
  assert (∀ t s, (t, s) ∈ tasks (start_pool items) → s = Waiting) as Hw.
  { intros t s Hin. by apply list_elem_of_fmap in Hin as (x & [= -> ->] & _). }
  split; cbn.
  - rewrite <- list_fmap_compose. apply list_fmap_id.
  - unfold running, start_pool. cbn [tasks]. clear Hw.
    induction items as [|x items IH]; [cbn; lia|].
    rewrite fmap_cons, filter_cons_False by done. exact IH.
  - by intros t r ?%Hw.
  - by intros t ?%Hw.
Qed.

(** How far the tasks are from done. *)
Definition work (x : T * task) : nat :=
  match x.2 with Waiting => 2 | Running => 1 | _ => 0 end.
Definition left_to_do (p : pool) : nat :=
  (sum_list (work <$> tasks p) + if outcome p is None then 1 else 0)%nat.

Lemma cancel_work l : (sum_list (work <$> (cancel <$> l)) ≤ sum_list (work <$> l))%nat.
Proof. induction l as [|[t []] l IH]; cbn in *; lia. Qed.

Lemma pool_step_decreases p p' : pool_step p p' → (left_to_do p' < left_to_do p)%nat.
Proof.
  assert (∀ l1 l2 x, sum_list (work <$> l1 ++ x :: l2) =
    (work x + sum_list (work <$> l1 ++ l2))%nat) as Hsum.
  { intros l1 l2 x. rewrite !fmap_app, !sum_list_with_app. cbn. lia. }
  unfold left_to_do. destruct 1 as [l1 t l2 Ho Ht Hn|l1 t l2 Ho Ht|t e Ho Ht|us Ho Ht];
    rewrite Ho; cbn; rewrite ?Ht, ?Hsum; cbn; try lia.
  pose proof (cancel_work (tasks p)). lia.
Qed.

Lemma pool_progress items p :
  (0 < concurrency)%nat → pool_ok items p → outcome p = None → ∃ p', pool_step p p'.
Proof.
  intros Hc [Hi Hr Hres Hout] Ho. rewrite Ho in Hout.
  destruct (decide (Exists (λ x : T * task, x.2 = Running) (tasks p))) as [He|Hnr].
  { apply Exists_exists in He as ([t s] & Hin & Hs). cbn in Hs. subst.
    apply list_elem_of_split in Hin as (l1 & l2 & Hin). eexists. by apply (step_finish _ l1 t l2). }
  assert (running p = 0%nat) as H0.
  { unfold running. rewrite <- Forall_Exists_neg in Hnr.
    clear -Hnr. induction Hnr as [|x l Hx _ IH]; [done|]. by rewrite filter_cons_False. }
  destruct (decide (Exists (λ x : T * task, x.2 = Waiting) (tasks p))) as [He|Hnw].
  { apply Exists_exists in He as ([t s] & Hin & Hs). cbn in Hs. subst.
    apply list_elem_of_split in Hin as (l1 & l2 & Hin). eexists.
    apply (step_start _ l1 t l2); auto. lia. }
  assert (∀ t s, (t, s) ∈ tasks p → s = Finished (operation t)) as Hfin.
  { intros t s Hin. rewrite <- Forall_Exists_neg, Forall_forall in Hnr, Hnw.
    destruct s as [| |r|].
    - by destruct (Hnw _ Hin). - by destruct (Hnr _ Hin).
    - f_equal. by apply Hres. - by destruct (Hout t). }
  destruct (map_r operation items) as [us|e] eqn:Hm.
  - exists {| tasks := tasks p; outcome := Some (Ok us) |}. apply step_gather; [done|].
    apply map_r_ok in Hm. rewrite <- Hi in Hm. clear -Hm Hfin. revert us Hm.
    induction (tasks p) as [|[t s] l IH]; cbn; intros us Hm; inversion Hm as [|? y ? us' Hy Hus]; subst.
    + constructor.
    + constructor; [|apply IH; [|done]; intros; apply Hfin; by apply list_elem_of_further].
      cbn. rewrite <- Hy. apply Hfin, list_elem_of_here.
  - assert (∃ t, t ∈ items ∧ operation t = Raise e) as (t & Ht & He).
    { clear -Hm. induction items as [|x items IH]; cbn in Hm; [done|].
      destruct (operation x) as [y|e'] eqn:Hx; cbn in Hm.
      - destruct (map_r operation items) eqn:Hm'; cbn in Hm; [done|]. injection Hm as ->.
        destruct IH as (t & ? & ?); [done|]. exists t. split; [by apply list_elem_of_further|done].
      - injection Hm as ->. exists x. split; [apply list_elem_of_here|done]. }
    eexists. apply (step_fail _ t e); [done|].
    rewrite <- Hi in Ht. apply list_elem_of_fmap in Ht as ([t' s] & -> & Hin).
    rewrite (Hfin _ _ Hin) in Hin. cbn in He. by rewrite He in Hin.
Qed.

(** C19. The concurrent map is a map: however the event loop interleaves the tasks, at
    most [concurrency] operations run at once; it always ends, within two steps per item
    and one more, and never sticks; and it ends with the results in the order of the
    items, or with the error of an item that failed, with no operation still running. *)
Theorem bounded_map_correct items n p :
  (0 < concurrency)%nat →
  nsteps pool_step n (start_pool items) p →
  (running p ≤ concurrency)%nat ∧ (n ≤ 2 * length items + 1)%nat ∧
  match outcome p with
  | None => ∃ p', pool_step p p'
  | Some (Ok us) => map_r operation items = Ok us ∧ running p = 0%nat
  | Some (Raise e) => (∃ t, t ∈ items ∧ operation t = Raise e) ∧ running p = 0%nat
  end.
Proof.
  intros Hc Hn.
  assert (∀ q, nsteps pool_step n q p → pool_ok items q →
    pool_ok items p ∧ (n + left_to_do p ≤ left_to_do q)%nat) as Hgen.
  { clear Hn. induction n as [|n IH]; intros q Hq Hok; inversion Hq as [|? ? q' ? Hs Hr]; subst.
    - split; [done|lia].
    - destruct (IH q' Hr (pool_step_ok _ _ _ Hok Hs)) as [? ?].
      apply pool_step_decreases in Hs. split; [done|lia]. }
  destruct (Hgen _ Hn (start_pool_ok items)) as [Hok Hle].
  assert (left_to_do (start_pool items) = 2 * length items + 1)%nat as Hst.
  { unfold left_to_do, start_pool. cbn [tasks outcome]. f_equal. clear.
    induction items as [|x l IH]; [done|]. rewrite !fmap_cons. cbn in *. lia. }
  split_and!; [apply (po_running _ _ Hok)|lia|].
  pose proof (po_outcome _ _ Hok) as Ho. destruct (outcome p) as [[us|e]|] eqn:E; [done..|].
  by eapply pool_progress.
Qed.
End bounded.

(** ** Recall *)

Section recall.
Context {V T : Type}.
Variable hit_id : T → pystr.
Variable aembed_documents : list pystr → result (list V).
Variable timed_out : bool.

Definition timeout : exn := exn_of TimeoutError "".
Definition bad_embedding : exn := value_error "Embedding 返回数量与检索词不一致".

(** When several searches fail, which error surfaces depends on the schedule
    ([bounded_map_correct]); here it is the first in the order of the items.

    [asyncio.timeout(30)]: past the deadline the block raises instead. *)
Definition within_deadline {A} (r : result A) : result A := if timed_out then Raise timeout else r.

Definition vector_recall (terms : list pystr) (search : V → result (list T)) : result (list T) :=
  within_deadline
    (vectors ← aembed_documents terms;
     if negb (len vectors =? len terms) then Raise bad_embedding
     else fuse_ranked hit_id <$> map_r search vectors).

Definition value_recall (terms : list pystr) (search : pystr → result (list T))
    : result (list T) :=
  within_deadline (fuse_ranked hit_id <$> map_r search terms).
End recall.

(** The terms searched for are at most 24, without repetition or blanks or outer
    spaces, and the question itself comes first; anything but a list of strings from the
    model is refused. *)
Theorem retrieval_terms_bounded query keywords expanded ts :
  retrieval_terms query keywords expanded = Ok ts →
  (length ts ≤ MAX_TERMS)%nat ∧ NoDup ts ∧ Forall (λ t, t ≠ [] ∧ ∃ s, t = strip s) ts ∧
  (strip query ≠ [] → head ts = Some (strip query)) ∧
  ∃ ex, expanded = JList (JStr <$> ex) ∧
    ∀ t, t ∈ ts → ∃ s, s ∈ query :: ex ++ keywords ∧ t = strip s.
Proof.
  unfold retrieval_terms. destruct (str_list_of expanded) as [ex|] eqn:Hex; [|done].
  intros [= <-]. set (l := strip <$> _).
  assert (∀ t, t ∈ take MAX_TERMS (fromkeys l) →
    t ≠ [] ∧ ∃ s, s ∈ query :: ex ++ keywords ∧ t = strip s) as Hin.
  { intros t Ht.
    assert (t ∈ fromkeys l) as Hf
      by (rewrite <- (take_drop MAX_TERMS (fromkeys l)); apply elem_of_app; by left).
    apply elem_of_fromkeys, list_elem_of_fmap in Hf as (s & -> & Hs).
    apply list_elem_of_filter in Hs as [? Hs]. eauto. }
  split_and!.
  - rewrite length_take. lia.
  - pose proof (NoDup_fromkeys l) as Hnd.
    rewrite <- (take_drop MAX_TERMS (fromkeys l)) in Hnd. by apply NoDup_app in Hnd as [? _].
  - apply Forall_forall. intros t Ht. destruct (Hin t Ht) as (? & s & _ & ?). eauto.
  - intros Hq. unfold l. rewrite filter_cons_True by done. done.
  - exists ex. split; [|intros t Ht; by apply Hin in Ht as [_ ?]].
    destruct expanded as [| | | | |l'|]; try done. cbn in Hex. f_equal. clear l Hin. revert ex Hex.
    induction l' as [|v l' IH]; intros ex; cbn; [by intros [= <-]|].
    destruct v; try done. intros (y & [= <-] & H)%bind_Some.
    apply bind_Some in H as (ys & Hys & [= <-]). cbn. f_equal. by apply IH.
Qed.

(** ** Witnesses *)

Lemma retrieval_terms_bounded_witness :
  let ts := [u "GMV 2025"; u "GMV"; u "sales"] in
  retrieval_terms (u " GMV 2025 ") [u "GMV"; u " "] (JList [js "GMV"; js "sales "]) = Ok ts ∧
  (length ts ≤ MAX_TERMS)%nat ∧ head ts = Some (u "GMV 2025").
Proof.
  intros ts.
  assert (retrieval_terms (u " GMV 2025 ") [u "GMV"; u " "] (JList [js "GMV"; js "sales "])
    = Ok ts) as H by by vm_compute.
  destruct (retrieval_terms_bounded _ _ _ _ H) as (Hl & _ & _ & Hh & _).
  split; [exact H|]. split; [exact Hl|]. by apply Hh.
Defined.

(** One operation at a time over two items. *)
Definition plus_one (n : Z) : result Z := Ok (n + 1).

Lemma bounded_map_correct_witness :
  ∃ p, nsteps (pool_step plus_one 1) 5 (start_pool [1; 2]) p ∧
    outcome p = Some (Ok [2; 3]) ∧ map_r plus_one [1; 2] = Ok [2; 3].
Proof.
  set (p := {| tasks := [(1, Finished (Ok 2)); (2, Finished (Ok 3))];
               outcome := Some (Ok [2; 3]) |} : pool).
  assert (nsteps (pool_step plus_one 1) 5 (start_pool [1; 2]) p) as H.
  { eapply nsteps_l; [by apply (step_start _ _ _ [] 1 [(2, Waiting)]); [..|vm_compute; lia]|].
    eapply nsteps_l; [by apply (step_finish _ _ _ [] 1 [(2, Waiting)])|].
    eapply nsteps_l; [by apply (step_start _ _ _ [(1, Finished (Ok 2))] 2 []);
                        [..|vm_compute; lia]|].
    eapply nsteps_l; [by apply (step_finish _ _ _ [(1, Finished (Ok 2))] 2 [])|].
    eapply nsteps_l; [apply (step_gather _ _ _ [2; 3]); [done|repeat constructor]|].
    apply nsteps_O. }
  exists p. split; [exact H|]. split; [done|].
  assert (0 < 1)%nat as Hc by lia.
  exact (proj1 (proj2 (proj2 (bounded_map_correct plus_one 1 [1; 2] 5 p Hc H)))).
Defined.
