(* ===== verification/Entities.v ===== *)
(** * The warehouse's metadata (query/app/entities, models, repositories)

    The entities, their rows and the mappers between them; the payloads stored in the
    vector and full-text indexes; the repositories over the metadata database and the
    warehouse. *)
From S2P Require Import Prelude.
From S2P Require Import PyStr.
From S2P Require Import Json.
From S2P Require Import Sql.

(** ** Entities and rows *)

(** [examples] and [alias] are whatever JSON the row or payload holds: a list when the
    entity was built here. *)
Record ColumnInfo := {
  col_id : pystr; col_name : pystr; col_type : pystr; col_role : pystr;
  col_examples : json; col_description : pystr; col_alias : json; col_table : pystr }.
Record TableInfo := {
  tab_id : pystr; tab_name : pystr; tab_role : pystr; tab_description : pystr }.
Record MetricInfo := {
  met_id : pystr; met_name : pystr; met_description : pystr;
  met_columns : json; met_alias : json }.
Record ColumnMetric := { cm_column : pystr; cm_metric : pystr }.
Record ValueInfo := { val_id : pystr; val_value : json; val_column : pystr }.

Record ColumnInfoMySQL := {
  mcol_id : pystr; mcol_name : pystr; mcol_type : pystr; mcol_role : pystr;
  mcol_examples : json; mcol_description : pystr; mcol_alias : json; mcol_table : pystr }.
Record TableInfoMySQL := {
  mtab_id : pystr; mtab_name : pystr; mtab_role : pystr; mtab_description : pystr }.
Record MetricInfoMySQL := {
  mmet_id : pystr; mmet_name : pystr; mmet_description : pystr;
  mmet_columns : json; mmet_alias : json }.
Record ColumnMetricMySQL := { mcm_column : pystr; mcm_metric : pystr }.

Module ColumnInfoMapper.
Definition to_entity (m : ColumnInfoMySQL) : ColumnInfo :=
  {| col_id := mcol_id m; col_name := mcol_name m; col_type := mcol_type m;
     col_role := mcol_role m; col_examples := mcol_examples m;
     col_description := mcol_description m; col_alias := mcol_alias m;
     col_table := mcol_table m |}.
Definition to_model (c : ColumnInfo) : ColumnInfoMySQL :=
  {| mcol_id := col_id c; mcol_name := col_name c; mcol_type := col_type c;
     mcol_role := col_role c; mcol_examples := col_examples c;
     mcol_description := col_description c; mcol_alias := col_alias c;
     mcol_table := col_table c |}.
End ColumnInfoMapper.

Module TableInfoMapper.
Definition to_entity (m : TableInfoMySQL) : TableInfo :=
  {| tab_id := mtab_id m; tab_name := mtab_name m; tab_role := mtab_role m;
     tab_description := mtab_description m |}.
Definition to_model (t : TableInfo) : TableInfoMySQL :=
  {| mtab_id := tab_id t; mtab_name := tab_name t; mtab_role := tab_role t;
     mtab_description := tab_description t |}.
End TableInfoMapper.

Module MetricInfoMapper.
Definition to_entity (m : MetricInfoMySQL) : MetricInfo :=
  {| met_id := mmet_id m; met_name := mmet_name m; met_description := mmet_description m;
     met_columns := mmet_columns m; met_alias := mmet_alias m |}.
Definition to_model (m : MetricInfo) : MetricInfoMySQL :=
  {| mmet_id := met_id m; mmet_name := met_name m; mmet_description := met_description m;
     mmet_columns := met_columns m; mmet_alias := met_alias m |}.
End MetricInfoMapper.

Module ColumnMetricMapper.
Definition to_entity (m : ColumnMetricMySQL) : ColumnMetric :=
  {| cm_column := mcm_column m; cm_metric := mcm_metric m |}.
Definition to_model (c : ColumnMetric) : ColumnMetricMySQL :=
  {| mcm_column := cm_column c; mcm_metric := cm_metric c |}.
End ColumnMetricMapper.

Lemma column_mapper_roundtrip c : ColumnInfoMapper.to_entity (ColumnInfoMapper.to_model c) = c.
Proof. by destruct c. Qed.
Lemma table_mapper_roundtrip t : TableInfoMapper.to_entity (TableInfoMapper.to_model t) = t.
Proof. by destruct t. Qed.

(** ** Payloads *)

(** [asdict(...)]. *)
Definition column_payload (c : ColumnInfo) : json :=
  JObj [(u "id", JStr (col_id c)); (u "name", JStr (col_name c)); (u "type", JStr (col_type c));
        (u "role", JStr (col_role c)); (u "examples", col_examples c);
        (u "description", JStr (col_description c)); (u "alias", col_alias c);
        (u "table_id", JStr (col_table c))].
Definition metric_payload (m : MetricInfo) : json :=
  JObj [(u "id", JStr (met_id m)); (u "name", JStr (met_name m));
        (u "description", JStr (met_description m)); (u "relevant_columns", met_columns m);
        (u "alias", met_alias m)].
Definition value_payload (v : ValueInfo) : json :=
  JObj [(u "id", JStr (val_id v)); (u "value", val_value v); (u "column_id", JStr (val_column v))].

(** [C( **payload)]: the keys are exactly the fields. *)
Definition fields_of (names : list string) (v : json) : result (string → json) :=
  match v with
  | JObj kvs =>
      if bool_decide (keys kvs ≡ₚ u <$> names)
      then Ok (λ k, default JNull (assoc (u k) kvs)) else Raise type_error
  | _ => Raise type_error
  end.

(** A field the code treats as a string; a dataclass does not check it. *)
Definition as_str (v : json) : pystr := match v with JStr s => s | _ => [] end.

Definition column_fields : list string :=
  ["id"; "name"; "type"; "role"; "examples"; "description"; "alias"; "table_id"]%string.
Definition column_of (v : json) : result ColumnInfo :=
  f ← fields_of column_fields v;
  Ok {| col_id := as_str (f "id"); col_name := as_str (f "name"); col_type := as_str (f "type");
        col_role := as_str (f "role"); col_examples := f "examples";
        col_description := as_str (f "description"); col_alias := f "alias";
        col_table := as_str (f "table_id") |}%string.
Definition metric_of (v : json) : result MetricInfo :=
  f ← fields_of ["id"; "name"; "description"; "relevant_columns"; "alias"]%string v;
  Ok {| met_id := as_str (f "id"); met_name := as_str (f "name");
        met_description := as_str (f "description"); met_columns := f "relevant_columns";
        met_alias := f "alias" |}%string.
Definition value_of (v : json) : result ValueInfo :=
  f ← fields_of ["id"; "value"; "column_id"]%string v;
  Ok {| val_id := as_str (f "id"); val_value := f "value"; val_column := as_str (f "column_id") |}%string.

Lemma column_payload_roundtrip c : column_of (column_payload c) = Ok c.
Proof. by destruct c. Qed.
Lemma metric_payload_roundtrip m : metric_of (metric_payload m) = Ok m.
Proof. by destruct m. Qed.
Lemma value_payload_roundtrip v : value_of (value_payload v) = Ok v.
Proof. by destruct v. Qed.

(** ** The metadata database *)

Record MetaDB := {
  table_info : list TableInfoMySQL; column_info : list ColumnInfoMySQL;
  metric_info : list MetricInfoMySQL; column_metric : list ColumnMetricMySQL }.

Definition no_meta : MetaDB :=
  {| table_info := []; column_info := []; metric_info := []; column_metric := [] |}.

Definition integrity : exn := exn_of (OtherError "IntegrityError") "Duplicate entry".

(** A flush: every new row is inserted, or, if a primary key repeats, none is. *)
Definition insert_rows {A K} `{EqDecision K} (key : A → K) (new rows : list A)
    : result (list A) :=
  if decide (NoDup (key <$> rows ++ new)) then Ok (rows ++ new) else Raise integrity.

(** [async with session.begin(): save_table_infos(...); save_column_infos(...)]. *)
Definition save_tables (ts : list TableInfo) (cs : list ColumnInfo) (db : MetaDB)
    : result MetaDB :=
  t ← insert_rows mtab_id (TableInfoMapper.to_model <$> ts) (table_info db);
  c ← insert_rows mcol_id (ColumnInfoMapper.to_model <$> cs) (column_info db);
  Ok {| table_info := t; column_info := c; metric_info := metric_info db;
        column_metric := column_metric db |}.

(** [save_metric_infos], [save_column_metrics] in one transaction. *)
Definition save_metrics (ms : list MetricInfo) (cms : list ColumnMetric) (db : MetaDB)
    : result MetaDB :=
  m ← insert_rows mmet_id (MetricInfoMapper.to_model <$> ms) (metric_info db);
  c ← insert_rows (λ x, (mcm_column x, mcm_metric x)) (ColumnMetricMapper.to_model <$> cms)
        (column_metric db);
  Ok {| table_info := table_info db; column_info := column_info db; metric_info := m;
        column_metric := c |}.

Definition get_column_info_by_id (db : MetaDB) (id : pystr) : option ColumnInfo :=
  ColumnInfoMapper.to_entity <$> head (filter (λ c, mcol_id c = id) (column_info db)).
Definition get_table_info_by_id (db : MetaDB) (id : pystr) : option TableInfo :=
  TableInfoMapper.to_entity <$> head (filter (λ t, mtab_id t = id) (table_info db)).

Definition is_key_role (r : pystr) : bool :=
  mem r [u "primary_key"; u "foreign_key"].

(** The textual [select *] gives JSON columns as the driver does: [driver_json]. *)
Definition get_key_columns_by_table_id (driver_json : json → json) (db : MetaDB) (t : pystr)
    : list ColumnInfo :=
  (λ c, {| col_id := mcol_id c; col_name := mcol_name c; col_type := mcol_type c;
           col_role := mcol_role c; col_examples := driver_json (mcol_examples c);
           col_description := mcol_description c; col_alias := driver_json (mcol_alias c);
           col_table := mcol_table c |})
  <$> filter (λ c, mcol_table c = t ∧ is_key_role (mcol_role c) = true) (column_info db).

(** Primary keys are unique, whatever is saved. *)
Definition meta_ok (db : MetaDB) : Prop :=
  NoDup (mtab_id <$> table_info db) ∧ NoDup (mcol_id <$> column_info db) ∧
  NoDup (mmet_id <$> metric_info db) ∧
  NoDup ((λ x, (mcm_column x, mcm_metric x)) <$> column_metric db).

Lemma insert_rows_ok {A K} `{EqDecision K} (key : A → K) new rows rows' :
  insert_rows key new rows = Ok rows' → rows' = rows ++ new ∧ NoDup (key <$> rows').
Proof. unfold insert_rows. case_decide; [|done]. by intros [= <-]. Qed.

Lemma save_tables_ok ts cs db db' : meta_ok db → save_tables ts cs db = Ok db' →
  meta_ok db' ∧ table_info db' = table_info db ++ (TableInfoMapper.to_model <$> ts) ∧
  column_info db' = column_info db ++ (ColumnInfoMapper.to_model <$> cs).
Proof.
  intros (H1 & H2 & H3 & H4) H. unfold save_tables in H. inv_ok.
  apply insert_rows_ok in Hm as [-> Ht]. apply insert_rows_ok in Hm0 as [-> Hc].
  unfold meta_ok. cbn. split_and!; done.
Qed.

Lemma save_metrics_ok ms cms db db' : meta_ok db → save_metrics ms cms db = Ok db' →
  meta_ok db' ∧ metric_info db' = metric_info db ++ (MetricInfoMapper.to_model <$> ms) ∧
  column_metric db' = column_metric db ++ (ColumnMetricMapper.to_model <$> cms).
Proof.
  intros (H1 & H2 & H3 & H4) H. unfold save_metrics in H. inv_ok.
  apply insert_rows_ok in Hm as [-> Ht]. apply insert_rows_ok in Hm0 as [-> Hc].
  unfold meta_ok. cbn. split_and!; done.
Qed.

Lemma get_column_after db c : meta_ok db → ColumnInfoMapper.to_model c ∈ column_info db →
  get_column_info_by_id db (col_id c) = Some c.
Proof.
  intros (_ & Hnd & _) Hin. unfold get_column_info_by_id.
  assert (head (filter (λ x, mcol_id x = col_id c) (column_info db))
    = Some (ColumnInfoMapper.to_model c)) as ->; [|by destruct c].
  induction (column_info db) as [|x l IH]; [by apply elem_of_nil in Hin|].
  rewrite fmap_cons in Hnd. apply NoDup_cons in Hnd as [Hx Hnd].
  apply elem_of_cons in Hin as [<-|Hin].
  - by rewrite filter_cons_True.
  - rewrite filter_cons_False; [by apply IH|]. intros E. apply Hx.
    apply list_elem_of_fmap. exists (ColumnInfoMapper.to_model c). by rewrite E.
Qed.

(** ** The warehouse *)

Section warehouse.
Context {UT : UnicodeTables} {SG : SqlGlot} {W : Type}.
(** [session.execute(text(sql))]: the rows as ordered mappings. *)
Variable execute : pystr → M W (list (list (pystr * json))).
Variable dialect_name : pystr.

Definition get_column_types (table_name : pystr) : M W (list (pystr * json)) :=
  rows ← execute (u "show columns from " ++ table_name);
  lift (foldl (λ d row, d ← d; k ← jindex "Field" (JObj row); t ← jindex "Type" (JObj row);
                 Ok (assoc_set (as_str k) t d)) (Ok []) rows).

(** [row[0]]. *)
Definition first_value (row : list (pystr * json)) : result json :=
  match row with (_, v) :: _ => Ok v | [] => Raise (exn_of IndexError "tuple index out of range") end.

Definition get_column_values (table_name column_name : pystr) (limit : Z) : M W (list json) :=
  rows ← execute (u "select distinct " ++ column_name ++ u " from " ++ table_name
                  ++ u " limit " ++ str_of_Z limit);
  lift (map_r first_value rows).

(** [result.scalar()]. *)
Definition get_db_info : M W (list (pystr * json)) :=
  rows ← execute (u "select version()");
  mret [(u "dialect", JStr dialect_name);
        (u "version", match rows with ((_, v) :: _) :: _ => v | _ => JNull end)].

Definition dw_validate (sql : pystr) : M W () :=
  safe ← lift (safe_sql sql); execute (u "explain " ++ safe) ;; mret ().

Definition SESSION_LIMIT : pystr := u "SET SESSION MAX_EXECUTION_TIME=5000".

Definition dw_run (sql : pystr) : M W (list json) :=
  safe ← lift (safe_sql sql);
  execute SESSION_LIMIT ;;
  rows ← execute safe;
  mret (JObj <$> rows).
End warehouse.
