(* ===== verification/Meta.v ===== *)
(** * Building the metadata knowledge (query/app/services/meta_knowledge_service.py)

    What the configuration describes, completed from the warehouse, becomes rows of the
    metadata database, points of the two vector collections and documents of the
    full-text index. *)
From S2P Require Import Prelude.
From S2P Require Import PyStr.
From S2P Require Import Json.
From S2P Require Import Sql.
From S2P Require Import Entities.

(** ** The configuration *)

Record ColumnConfig := {
  cc_name : pystr; cc_role : pystr; cc_description : pystr; cc_alias : list pystr;
  cc_sync : bool }.
Record TableConfig := {
  tc_name : pystr; tc_role : pystr; tc_description : pystr; tc_columns : list ColumnConfig }.
Record MetricConfig := {
  mc_name : pystr; mc_description : pystr; mc_columns : list pystr; mc_alias : list pystr }.
Record MetaConfig := {
  cfg_tables : option (list TableConfig); cfg_metrics : option (list MetricConfig) }.

(** [x.id] of a table and its column. *)
Definition column_key (t c : pystr) : pystr := t ++ u "." ++ c.

Section knowledge.
Context {W V : Type}.

(** ** The indexes *)

Record Point := { pt_id : pystr; pt_text : pystr; pt_payload : json }.
Record Stored := { st_vector : V; st_payload : json }.

Record Knowledge := {
  meta : MetaDB;
  column_points : gmap (list Z) Stored; metric_points : gmap (list Z) Stored;
  value_index : gmap (list Z) json }.

Definition no_knowledge : Knowledge :=
  {| meta := no_meta; column_points := ∅; metric_points := ∅; value_index := ∅ |}.

Definition set_meta (db : MetaDB) (k : Knowledge) : Knowledge :=
  {| meta := db; column_points := column_points k; metric_points := metric_points k;
     value_index := value_index k |}.
Definition set_columns (p : gmap (list Z) Stored) (k : Knowledge) : Knowledge :=
  {| meta := meta k; column_points := p; metric_points := metric_points k;
     value_index := value_index k |}.
Definition set_metrics (p : gmap (list Z) Stored) (k : Knowledge) : Knowledge :=
  {| meta := meta k; column_points := column_points k; metric_points := p;
     value_index := value_index k |}.
Definition set_values (v : gmap (list Z) json) (k : Knowledge) : Knowledge :=
  {| meta := meta k; column_points := column_points k; metric_points := metric_points k;
     value_index := v |}.

Abbreviation MK := (M (W * Knowledge)).

(** The warehouse, the identifiers, the embedding service, and one request to a remote
    index, which raises before it writes. *)
Variable execute : pystr → M W (list (list (pystr * json))).
Variable uuid4 : M W pystr.
Variable aembed_documents : list pystr → M W (list V).
Variable remote : M W ().
Variable container_repr : json → pystr.

Definition update (f : Knowledge → Knowledge) : MK () := modify (λ s, (s.1, f s.2)).

(** A transaction of the metadata database. *)
Definition begin (f : MetaDB → result MetaDB) : MK () :=
  s ← get; db ← lift (f (meta s.2)); update (set_meta db).

(** *** The repositories *)

(** [ensure_collection()], [ensure_index()]: asking, and creating what is missing. *)
Definition ensure : MK () := on_fst remote.

Definition batch_size : nat := 10.
Definition embedding_batch_size : nat := 20.

Fixpoint zip3 {A B C} (xs : list A) (ys : list B) (zs : list C) : list (A * B * C) :=
  match xs, ys, zs with
  | x :: xs', y :: ys', z :: zs' => (x, y, z) :: zip3 xs' ys' zs'
  | _, _, _ => []
  end.

(** [upsert(ids, embeddings, payloads)] into one of the collections. *)
Definition put_points (ps : list (pystr * V * json)) (m : gmap (list Z) Stored)
    : gmap (list Z) Stored :=
  foldl (λ m p, <[p.1.1 := {| st_vector := p.1.2; st_payload := p.2 |}]> m) m ps.

Definition upsert (write : (gmap (list Z) Stored → gmap (list Z) Stored) → Knowledge → Knowledge)
    (ids : list pystr) (embeddings : list V) (payloads : list json) : MK () :=
  for_each (chunks batch_size (zip3 ids embeddings payloads))
    (λ ps, on_fst remote ;; update (write (put_points ps))).

Definition on_columns (f : gmap (list Z) Stored → gmap (list Z) Stored) (k : Knowledge) :=
  set_columns (f (column_points k)) k.
Definition on_metrics (f : gmap (list Z) Stored → gmap (list Z) Stored) (k : Knowledge) :=
  set_metrics (f (metric_points k)) k.

(** [index(value_infos)]: a document per value, by its identifier. *)
Definition put_values (vs : list ValueInfo) (m : gmap (list Z) json) : gmap (list Z) json :=
  foldl (λ m v, <[val_id v := value_payload v]> m) m vs.
Definition index_values (vs : list ValueInfo) : MK () :=
  for_each (chunks 20 vs)
    (λ b, on_fst remote ;; update (λ k, set_values (put_values b (value_index k)) k)).

(** *** The service *)

(** [column_types[column.name]]. *)
Definition type_of (types : list (pystr * json)) (name : pystr) : result pystr :=
  match assoc name types with
  | Some v => Ok (as_str v)
  | None => Raise (Exn KeyError (39 :: name ++ [39]))
  end.

Definition read_column (t : TableConfig) (types : list (pystr * json)) (c : ColumnConfig)
    : MK ColumnInfo :=
  values ← on_fst (get_column_values execute (tc_name t) (cc_name c) 10);
  ty ← lift (type_of types (cc_name c));
  mret {| col_id := column_key (tc_name t) (cc_name c); col_name := cc_name c; col_type := ty;
          col_role := cc_role c; col_examples := JList values;
          col_description := cc_description c; col_alias := JList (JStr <$> cc_alias c);
          col_table := tc_name t |}.

Definition read_table (t : TableConfig) : MK (list ColumnInfo) :=
  types ← on_fst (get_column_types execute (tc_name t));
  map_m (tc_columns t) (read_column t types).

Definition table_of (t : TableConfig) : TableInfo :=
  {| tab_id := tc_name t; tab_name := tc_name t; tab_role := tc_role t;
     tab_description := tc_description t |}.

Definition save_tables_to_meta_db (tables : list TableConfig) : MK (list ColumnInfo) :=
  infos ← map_m tables read_table;
  let columns := concat infos in
  begin (save_tables (table_of <$> tables) columns) ;;
  mret columns.

(** The points of an entity: its name, its description, and each alias. *)
Definition alias_texts (v : json) : result (list pystr) :=
  match jiter v with Ok items => Ok (as_str <$> items) | Raise e => Raise e end.
Definition entity_points (name description : pystr) (alias payload : json) : MK (list Point) :=
  aliases ← lift (alias_texts alias);
  map_m (name :: description :: aliases)
    (λ t, id ← on_fst uuid4; mret {| pt_id := id; pt_text := t; pt_payload := payload |}).

Definition column_info_points (c : ColumnInfo) : MK (list Point) :=
  entity_points (col_name c) (col_description c) (col_alias c) (column_payload c).
Definition metric_info_points (m : MetricInfo) : MK (list Point) :=
  entity_points (met_name m) (met_description m) (met_alias m) (metric_payload m).

(** The texts, in batches, then the points, in batches. *)
Definition embed (texts : list pystr) : MK (list V) :=
  vs ← map_m (chunks embedding_batch_size texts) (λ b, on_fst (aembed_documents b));
  mret (concat vs).

Definition save_points (write : (gmap (list Z) Stored → gmap (list Z) Stored) → Knowledge → Knowledge)
    (points : list Point) : MK () :=
  embeddings ← embed (pt_text <$> points);
  upsert write (pt_id <$> points) embeddings (pt_payload <$> points).

Definition save_column_info_to_qdrant (columns : list ColumnInfo) : MK () :=
  ensure ;;
  points ← map_m columns column_info_points;
  save_points on_columns (concat points).

Definition column2sync (tables : list TableConfig) : list (pystr * bool) :=
  foldl (λ d t, foldl (λ d c, assoc_set (column_key (tc_name t) (cc_name c)) (cc_sync c) d) d
                  (tc_columns t)) [] tables.

Definition value_info (c : ColumnInfo) (v : json) : ValueInfo :=
  {| val_id := col_id c ++ u "." ++ py_str container_repr v; val_value := v;
     val_column := col_id c |}.

Definition values_of (sync : list (pystr * bool)) (c : ColumnInfo) : MK (list ValueInfo) :=
  match assoc (col_id c) sync with
  | None => raise (Exn KeyError (39 :: col_id c ++ [39]))
  | Some false => mret []
  | Some true =>
      values ← on_fst (get_column_values execute (col_table c) (col_name c) 100000);
      mret (value_info c <$> values)
  end.

Definition save_value_info_to_es (tables : list TableConfig) (columns : list ColumnInfo) : MK () :=
  ensure ;;
  values ← map_m columns (values_of (column2sync tables));
  index_values (concat values).

Definition metric_of_config (m : MetricConfig) : MetricInfo :=
  {| met_id := mc_name m; met_name := mc_name m; met_description := mc_description m;
     met_columns := JList (JStr <$> mc_columns m); met_alias := JList (JStr <$> mc_alias m) |}.
Definition column_metrics_of (m : MetricConfig) : list ColumnMetric :=
  (λ c, {| cm_column := c; cm_metric := mc_name m |}) <$> mc_columns m.

Definition save_metrics_to_meta_db (metrics : list MetricConfig) : MK (list MetricInfo) :=
  let infos := metric_of_config <$> metrics in
  begin (save_metrics infos (concat (column_metrics_of <$> metrics))) ;;
  mret infos.

Definition save_metrics_to_qdrant (metrics : list MetricInfo) : MK () :=
  ensure ;;
  points ← map_m metrics metric_info_points;
  save_points on_metrics (concat points).

(** [if meta_config.tables:]: absent and empty are both skipped. *)
Definition configured {A} (l : option (list A)) : list A := default [] l.

Definition build_tables (tables : list TableConfig) : MK () :=
  match tables with
  | [] => mret ()
  | _ =>
      columns ← save_tables_to_meta_db tables;
      save_column_info_to_qdrant columns ;;
      save_value_info_to_es tables columns
  end.

Definition build_metrics (metrics : list MetricConfig) : MK () :=
  match metrics with
  | [] => mret ()
  | _ =>
      infos ← save_metrics_to_meta_db metrics;
      save_metrics_to_qdrant infos
  end.

Definition build (cfg : MetaConfig) : MK () :=
  build_tables (configured (cfg_tables cfg)) ;;
  build_metrics (configured (cfg_metrics cfg)).
End knowledge.
