(* ===== verification/MetaSpec.v ===== *)
(** * What building the knowledge guarantees

    The metadata database only moves by whole transactions, and every text of an entity
    leads, through the vector index, back to the entity. *)
From S2P Require Import Prelude.
From S2P Require Import PyStr.
From S2P Require Import Json.
From S2P Require Import Sql.
From S2P Require Import Entities.
From S2P Require Import Meta.

Section spec.
Context {W V : Type}.
Variable execute : pystr → M W (list (list (pystr * json))).
Variable uuid4 : M W pystr.
Variable aembed_documents : list pystr → M W (list V).
Variable remote : M W ().
Variable container_repr : json → pystr.

Abbreviation K := (Knowledge (V:=V)).
Abbreviation MK := (M (W * K)).

(** ** The metadata database *)

Definition same_meta (s s' : W * K) : Prop := meta s'.2 = meta s.2.
#[local] Instance same_meta_preorder : PreOrder same_meta.
Proof. split; [done|]. intros s1 s2 s3 H1 H2. unfold same_meta in *. congruence. Qed.

Lemma on_fst_meta {A} (m : M W A) : keeps same_meta (on_fst m : MK A).
Proof. intros s s' x. unfold on_fst. destruct (m s.1). by intros [= <- _]. Qed.
#[local] Hint Extern 1 (keeps same_meta (on_fst _)) => apply on_fst_meta : keeps.

Lemma update_meta f : (∀ k, meta (f k) = meta k) → keeps same_meta (update f : MK ()).
Proof. intros H s s' x [= <- _]. apply H. Qed.

Lemma read_table_meta t : keeps same_meta (read_table execute t : MK _).
Proof. unfold read_table, read_column. keeps_steps. Qed.

Lemma entity_points_meta n d a p : keeps same_meta (entity_points uuid4 n d a p : MK _).
Proof. unfold entity_points. keeps_steps. Qed.

Lemma upsert_meta write ids (es : list V) ps :
  (∀ f k, meta (write f k) = meta k) → keeps same_meta (upsert remote write ids es ps : MK _).
Proof.
  intros H. unfold upsert. keeps_step. keeps_step; [keeps_steps|]. by apply update_meta.
Qed.

Lemma save_points_meta write points :
  (∀ f k, meta (write f k) = meta k) →
  keeps same_meta (save_points aembed_documents remote write points : MK _).
Proof.
  intros H. unfold save_points, embed. keeps_step; [keeps_steps|]. by apply upsert_meta.
Qed.

Lemma columns_to_qdrant_meta cs :
  keeps same_meta (save_column_info_to_qdrant uuid4 aembed_documents remote cs : MK _).
Proof.
  unfold save_column_info_to_qdrant, ensure, column_info_points.
  keeps_step; [keeps_steps|]. keeps_step; [keeps_step; apply entity_points_meta|].
  by apply save_points_meta.
Qed.

Lemma metrics_to_qdrant_meta ms :
  keeps same_meta (save_metrics_to_qdrant uuid4 aembed_documents remote ms : MK _).
Proof.
  unfold save_metrics_to_qdrant, ensure, metric_info_points.
  keeps_step; [keeps_steps|]. keeps_step; [keeps_step; apply entity_points_meta|].
  by apply save_points_meta.
Qed.

Lemma values_to_es_meta ts cs :
  keeps same_meta (save_value_info_to_es execute remote container_repr ts cs : MK _).
Proof.
  unfold save_value_info_to_es, ensure, values_of, index_values.
  keeps_step; [keeps_steps|]. keeps_step; [keeps_steps|]. keeps_step.
  keeps_step; [keeps_steps|]. by apply update_meta.
Qed.

Lemma begin_run (f : MetaDB → result MetaDB) (s s' : W * K) x :
  begin f s = (s', x) →
  match f (meta s.2) with
  | Ok db => s' = (s.1, set_meta db s.2) ∧ x = Ok tt
  | Raise e => s' = s ∧ x = Raise e
  end.
Proof.
  unfold begin, mbind, M_bind, get, lift. destruct (f (meta s.2)); by intros [= <- <-].
Qed.

(** The rows the configuration asks for. *)
Definition tables_saved (tables : list TableConfig) (db db' : MetaDB) : Prop :=
  ∃ columns, save_tables (table_of <$> tables) columns db = Ok db'.
Definition metrics_saved (metrics : list MetricConfig) (db db' : MetaDB) : Prop :=
  save_metrics (metric_of_config <$> metrics) (concat (column_metrics_of <$> metrics)) db
  = Ok db'.

Lemma build_tables_meta tables (s s' : W * K) y :
  build_tables execute uuid4 aembed_documents remote container_repr tables s = (s', y) →
  meta_ok (meta s.2) →
  meta_ok (meta s'.2) ∧ ((meta s'.2 = meta s.2 ∧ (y = Ok tt → tables = [])) ∨
    tables_saved tables (meta s.2) (meta s'.2)).
Proof.
  intros H Hok. destruct tables as [|t ts].
  { injection H as <- <-. split; [done|]. by left. }
  revert H. unfold build_tables, save_tables_to_meta_db, mbind, M_bind.
  destruct (map_m (t :: ts) _ s) as [s2 [infos|e]] eqn:Hm;
    (assert (meta s2.2 = meta s.2) as H2
       by (eapply (keeps_map_m same_meta); [apply read_table_meta|exact Hm]));
    [|intros [= <- <-]; rewrite H2; split; [done|]; by left].
  destruct (begin _ s2) as [s3 z] eqn:Hb. apply begin_run in Hb. rewrite H2 in Hb.
  destruct (save_tables _ _ _) as [db|e] eqn:Hsv; destruct Hb as [-> ->];
    [|intros [= <- <-]; rewrite H2; split; [done|]; by left].
  assert (∀ s4, same_meta (s2.1, set_meta db s2.2) s4 → meta_ok (meta s4.2) ∧
    tables_saved (t :: ts) (meta s.2) (meta s4.2)) as Hdone.
  { intros s4 ->. cbn [snd set_meta meta]. apply save_tables_ok in Hsv as Hok'; [|done].
    split; [tauto|]. by exists (concat infos). }
  cbn [mret M_ret].
  destruct (save_column_info_to_qdrant _ _ _ _ _) as [s4 [[]|e]] eqn:Hq;
    apply columns_to_qdrant_meta in Hq.
  - intros Hv%values_to_es_meta. destruct (Hdone s') as [? ?]; [by etrans|]. auto.
  - intros [= <- <-]. destruct (Hdone s4) as [? ?]; [done|]. auto.
Qed.

Lemma build_metrics_meta metrics (s s' : W * K) y :
  build_metrics uuid4 aembed_documents remote metrics s = (s', y) → meta_ok (meta s.2) →
  meta_ok (meta s'.2) ∧ ((meta s'.2 = meta s.2 ∧ (y = Ok tt → metrics = [])) ∨
    metrics_saved metrics (meta s.2) (meta s'.2)).
Proof.
  intros H Hok. destruct metrics as [|m ms].
  { injection H as <- <-. split; [done|]. by left. }
  revert H. unfold build_metrics, save_metrics_to_meta_db, mbind, M_bind.
  destruct (begin _ s) as [s2 z] eqn:Hb. apply begin_run in Hb.
  destruct (save_metrics _ _ _) as [db|e] eqn:Hsv; destruct Hb as [-> ->].
  - cbn [mret M_ret]. intros H%metrics_to_qdrant_meta. unfold same_meta in H. cbn in H.
    rewrite H. split; [by apply save_metrics_ok in Hsv as [? _]|]. by right.
  - intros [= <- <-]. split; [done|]. by left.
Qed.


(** ** The vector index *)

(** The identifiers drawn so far, and what the embedding service promises: one vector per
    text, in order. *)
Variable used : W → pystr → Prop.
Variable vec : pystr → V.
Hypothesis uuid_fresh : ∀ w w' id, uuid4 w = (w', Ok id) →
  ¬ used w id ∧ used w' id ∧ ∀ i, used w i → used w' i.
Hypothesis embeds : ∀ ts w w' vs, aembed_documents ts w = (w', Ok vs) → vs = vec <$> ts.

(** Identifiers drawn between two worlds. *)
Definition drawn (w w' : W) (ids : list pystr) : Prop :=
  NoDup ids ∧ (∀ i, i ∈ ids → ¬ used w i ∧ used w' i) ∧ (∀ i, used w i → used w' i).

Lemma drawn_nil w : drawn w w [].
Proof. split; [constructor|]. split; [|done]. intros i Hi. by apply elem_of_nil in Hi. Qed.

Lemma drawn_app w1 w2 w3 l1 l2 : drawn w1 w2 l1 → drawn w2 w3 l2 → drawn w1 w3 (l1 ++ l2).
Proof.
  intros (Hn1 & H1 & Hm1) (Hn2 & H2 & Hm2). split_and!.
  - apply NoDup_app. split_and!; [done| |done]. intros i Hi1 Hi2.
    destruct (H1 i Hi1) as [_ ?]. by destruct (H2 i Hi2) as [? _].
  - intros i [Hi|Hi]%elem_of_app.
    + destruct (H1 i Hi). auto.
    + destruct (H2 i Hi) as [Hn ?]. split; [|done]. intros ?. by apply Hn, Hm1.
  - auto.
Qed.

Lemma points_drawn n d a payload (s s' : W * K) ps :
  entity_points uuid4 n d a payload s = (s', Ok ps) →
  s'.2 = s.2 ∧ drawn s.1 s'.1 (pt_id <$> ps) ∧
  (∃ ts, alias_texts a = Ok ts ∧ pt_text <$> ps = n :: d :: ts) ∧
  Forall (λ p, pt_payload p = payload) ps.
Proof.
  unfold entity_points. intros H. apply M_bind_ok in H as (s1 & ts & [-> Ht]%lift_ok & H).
  assert (∀ texts s, map_m texts (λ t, id ← on_fst uuid4;
      mret {| pt_id := id; pt_text := t; pt_payload := payload |}) s = (s', Ok ps) →
    s'.2 = s.2 ∧ drawn s.1 s'.1 (pt_id <$> ps) ∧ pt_text <$> ps = texts ∧
    Forall (λ p, pt_payload p = payload) ps) as Hgen.
  { clear H s. intros texts. revert ps. induction texts as [|t texts IH]; intros ps s H.
    - injection H as <- <-. split_and!; [done|apply drawn_nil|done|constructor].
    - cbn [map_m] in H. apply M_bind_ok in H as (s2 & p & Hp & H).
      apply M_bind_ok in H as (s3 & ps' & Hps & H). injection H as -> <-.
      apply M_bind_ok in Hp as (s4 & id & Hid & Hp). injection Hp as -> <-.
      unfold on_fst in Hid. destruct (uuid4 s.1) as [w y] eqn:Hu.
      injection Hid as <- ->. apply uuid_fresh in Hu as (Hn & Hy & Hmon).
      apply IH in Hps as (H2 & Hd & Htx & Hpl). cbn in H2, Hd |- *. split_and!.
      + exact H2.
      + apply (drawn_app s.1 w s'.1 [id]); [|exact Hd]. split_and!; [apply NoDup_singleton| |done].
        by intros i ->%list_elem_of_singleton.
      + by rewrite Htx.
      + by constructor. }
  destruct (Hgen _ _ H) as (? & ? & ? & ?). split_and!; eauto.
Qed.

Lemma column_points_drawn cs (s s' : W * K) pss :
  map_m cs (column_info_points uuid4) s = (s', Ok pss) →
  s'.2 = s.2 ∧ drawn s.1 s'.1 (pt_id <$> concat pss) ∧
  ∀ c, c ∈ cs → ∃ ps ts, ps ∈ pss ∧ alias_texts (col_alias c) = Ok ts ∧
    pt_text <$> ps = col_name c :: col_description c :: ts ∧
    Forall (λ p, pt_payload p = column_payload c) ps.
Proof.
  revert s pss. induction cs as [|c cs IH]; intros s pss H.
  { injection H as <- <-. split_and!; [done|apply drawn_nil|].
    intros c Hc. by apply elem_of_nil in Hc. }
  cbn [map_m] in H. apply M_bind_ok in H as (s2 & ps & Hp & H).
  apply M_bind_ok in H as (s3 & pss' & Hps & H). injection H as -> <-.
  apply points_drawn in Hp as (H2 & Hd & (ts & Hts & Htx) & Hpl).
  apply IH in Hps as (H3 & Hd' & Hall). split_and!.
  - congruence.
  - cbn [concat]. rewrite fmap_app. by eapply drawn_app.
  - intros c' [->|Hc]%elem_of_cons.
    + exists ps, ts. split_and!; [apply list_elem_of_here|done..].
    + destruct (Hall c' Hc) as (ps' & ts' & Hin & ?). exists ps', ts'.
      split; [by apply list_elem_of_further|done].
Qed.

Lemma embed_run texts (s s' : W * K) es :
  embed aembed_documents texts s = (s', Ok es) → s'.2 = s.2 ∧ es = vec <$> texts.
Proof.
  unfold embed. intros H. apply M_bind_ok in H as (s1 & vs & Hv & H). injection H as -> <-.
  rewrite <- (chunks_concat embedding_batch_size texts) at 1 by (vm_compute; lia).
  revert s vs Hv. induction (chunks embedding_batch_size texts) as [|b bs IH]; intros s vs Hv.
  - by injection Hv as -> <-.
  - cbn [map_m] in Hv. apply M_bind_ok in Hv as (s2 & v & Hb & Hv).
    apply M_bind_ok in Hv as (s3 & vs' & Hvs & Hv). injection Hv as -> <-.
    apply IH in Hvs as [H2 Hc]. unfold on_fst in Hb.
    destruct (aembed_documents b s.1) as [w y] eqn:He. injection Hb as <- ->.
    apply embeds in He as ->. cbn [concat]. rewrite Hc, fmap_app. done.
Qed.

Lemma put_points_app (l1 l2 : list (pystr * V * json)) m :
  put_points (l1 ++ l2) m = put_points l2 (put_points l1 m).
Proof. apply foldl_app. Qed.

Lemma upsert_run ids es ps (s s' : W * K) :
  upsert remote on_columns ids es ps s = (s', Ok tt) →
  column_points s'.2 = put_points (zip3 ids es ps) (column_points s.2).
Proof.
  unfold upsert. rewrite <- (chunks_concat batch_size (zip3 ids es ps)) at 2 by (vm_compute; lia).
  revert s. induction (chunks batch_size (zip3 ids es ps)) as [|b bs IH]; intros s H.
  - by injection H as <-.
  - cbn [for_each] in H. apply M_bind_ok in H as (s2 & [] & Hb & H).
    apply IH in H as ->. cbn [concat]. rewrite put_points_app. f_equal.
    apply M_bind_ok in Hb as (s3 & [] & Hr & Hb). unfold on_fst in Hr.
    destruct (remote s.1) as [w y]. injection Hr as <- ->. injection Hb as <-. done.
Qed.

Lemma put_points_lookup (l : list (pystr * V * json)) m p :
  NoDup ((λ q, q.1.1) <$> l) → p ∈ l →
  put_points l m !! p.1.1 = Some {| st_vector := p.1.2; st_payload := p.2 |}.
Proof.
  assert (∀ l m i, i ∉ (λ q : pystr * V * json, q.1.1) <$> l →
    put_points l m !! i = m !! i) as Hout.
  { clear. intros l. induction l as [|q l IH]; intros m i Hi; [done|].
    rewrite fmap_cons, not_elem_of_cons in Hi. destruct Hi as [Hq Hi].
    change (put_points (q :: l) m) with
      (put_points l (<[q.1.1 := {| st_vector := q.1.2; st_payload := q.2 |}]> m)).
    rewrite IH by done. by rewrite lookup_insert_ne. }
  revert m. induction l as [|q l IH]; intros m Hnd Hp; [by apply elem_of_nil in Hp|].
  rewrite fmap_cons in Hnd. apply NoDup_cons in Hnd as [Hq Hnd].
  apply elem_of_cons in Hp as [->|Hp].
  - change (put_points (q :: l) m) with
      (put_points l (<[q.1.1 := {| st_vector := q.1.2; st_payload := q.2 |}]> m)).
    rewrite Hout by done. by rewrite lookup_insert_eq.
  - cbn. by apply IH.
Qed.

Lemma zip3_points (ps : list Point) :
  zip3 (pt_id <$> ps) (vec <$> (pt_text <$> ps)) (pt_payload <$> ps) =
  (λ p, (pt_id p, vec (pt_text p), pt_payload p)) <$> ps.
Proof. induction ps as [|p ps IH]; [done|]. cbn. by rewrite IH. Qed.

(** The text leads to the column. *)
Definition indexed (k : K) (t : pystr) (c : ColumnInfo) : Prop :=
  ∃ id st, column_points k !! id = Some st ∧ st_vector st = vec t ∧
    column_of (st_payload st) = Ok c.

(** What is indexed can be recalled: after the columns are saved to the vector
    index, every name, description and alias of every column has a point of its own,
    with the vector of that text, and the payload of the point rebuilds the column
    exactly, whatever was in the index before. *)
Theorem columns_recallable cs (s s' : W * K) :
  save_column_info_to_qdrant uuid4 aembed_documents remote cs s = (s', Ok tt) →
  ∀ c, c ∈ cs → ∃ ts, alias_texts (col_alias c) = Ok ts ∧
    ∀ t, t ∈ col_name c :: col_description c :: ts →
      indexed s'.2 t c.
Proof.
  intros H c Hc. unfold save_column_info_to_qdrant in H.
  apply M_bind_ok in H as (s1 & [] & _ & H). apply M_bind_ok in H as (s2 & pss & Hp & H).
  apply column_points_drawn in Hp as (_ & (Hnd & _) & Hall).
  apply M_bind_ok in H as (s3 & es & He & H). apply embed_run in He as [_ ->].
  apply upsert_run in H. rewrite zip3_points in H.
  destruct (Hall c Hc) as (ps & ts & Hin & Hts & Htx & Hpl). exists ts. split; [done|].
  intros t Ht. rewrite <- Htx in Ht. apply list_elem_of_fmap in Ht as (p & -> & Hpin).
  assert (p ∈ concat pss) as Hpc by (apply list_elem_of_In, in_concat; exists ps;
    split; by apply list_elem_of_In).
  exists (pt_id p). eexists. split.
  - rewrite H. apply (put_points_lookup _ _ (pt_id p, vec (pt_text p), pt_payload p)).
    + rewrite <- list_fmap_compose. exact Hnd.
    + apply list_elem_of_fmap. by exists p.
  - cbn. split; [done|]. rewrite (proj1 (Forall_forall _ _) Hpl p Hpin).
    apply column_payload_roundtrip.
Qed.
End spec.

(** ** Witnesses *)

Section witness.
(** A counter as the world: identifiers are its values; a text's vector is its length. *)
Definition next_id : M Z pystr := λ n, (n + 1, Ok [n]).
Definition id_used (n : Z) (i : pystr) : Prop := ∃ k, k < n ∧ i = [k].
Definition lengths (ts : list pystr) : M Z (list Z) := mret (len <$> ts).
Definition reachable : M Z () := mret ().
Definition one_table (q : pystr) : M Z (list (list (pystr * json))) := mret
  (if startswith (u "show") q then [[(u "Field", js "amount"); (u "Type", js "decimal")]]
   else [[(u "amount", JInt 5)]; [(u "amount", JInt 7)]]).

Definition amount_config : MetaConfig :=
  {| cfg_tables := Some [{| tc_name := u "fact_order"; tc_role := u "fact";
       tc_description := u "orders"; tc_columns := [{| cc_name := u "amount";
         cc_role := u "measure"; cc_description := u "paid"; cc_alias := [u "sales"];
         cc_sync := true |}] |}];
     cfg_metrics := Some [{| mc_name := u "GMV"; mc_description := u "sum of amount";
       mc_columns := [u "fact_order.amount"]; mc_alias := [] |}] |}.

Definition amount : ColumnInfo :=
  {| col_id := u "fact_order.amount"; col_name := u "amount"; col_type := u "decimal";
     col_role := u "measure"; col_examples := JList [JInt 5; JInt 7];
     col_description := u "paid"; col_alias := JList [js "sales"];
     col_table := u "fact_order" |}.

Lemma next_id_fresh w w' id : next_id w = (w', Ok id) →
  ¬ id_used w id ∧ id_used w' id ∧ ∀ i, id_used w i → id_used w' i.
Proof.
  intros [= <- <-]. split_and!.
  - intros (k & Hk & [= ->]). lia.
  - exists w. split; [lia|done].
  - intros i (k & Hk & ->). exists k. split; [lia|done].
Qed.

Lemma lengths_embed ts w w' vs : lengths ts w = (w', Ok vs) → vs = len <$> ts.
Proof. by intros [= _ <-]. Qed.

Abbreviation built := (build one_table next_id lengths reachable (λ _, []) amount_config
  (0, no_knowledge)).


Lemma columns_recallable_witness :
  let out := save_column_info_to_qdrant next_id lengths reachable [amount] (0, no_knowledge) in
  ∃ id st, column_points out.1.2 !! id = Some st ∧ st_vector st = len (u "sales") ∧
    column_of (st_payload st) = Ok amount.
Proof.
  intros out. assert (out.2 = Ok tt) as Hok by by vm_compute.
  assert (out = (out.1, Ok tt)) as H by (rewrite <- Hok; apply surjective_pairing).
  destruct (columns_recallable next_id lengths reachable id_used len next_id_fresh
    lengths_embed [amount] (0, no_knowledge) out.1 H amount (list_elem_of_here _ _))
    as (ts & Hts & Hall).
  injection Hts as <-. apply (Hall (u "sales")).
  apply list_elem_of_further, list_elem_of_further, list_elem_of_here.
Defined.
End witness.
