(* ===== verification/MetaIndexes.v ===== *)
(** * The indexes agree with the metadata

    The vector collections and the full-text index are written from entities that are
    already in the metadata database, so whatever a build leaves behind, what a search
    finds is in the database. *)
From S2P Require Import Prelude.
From S2P Require Import PyStr.
From S2P Require Import Json.
From S2P Require Import Sql.
From S2P Require Import Entities.
From S2P Require Import Meta.
From S2P Require Import MetaSpec.

Section indexes.
Context {W V : Type}.
Variable execute : pystr → M W (list (list (pystr * json))).
Variable uuid4 : M W pystr.
Variable aembed_documents : list pystr → M W (list V).
Variable remote : M W ().
Variable container_repr : json → pystr.

Abbreviation K := (Knowledge (V:=V)).
Abbreviation MK := (M (W * K)).

(** An entity of the database; a payload or document that is one. *)
Definition has_column (db : MetaDB) (c : ColumnInfo) : Prop :=
  ColumnInfoMapper.to_model c ∈ column_info db.
Definition has_metric (db : MetaDB) (m : MetricInfo) : Prop :=
  MetricInfoMapper.to_model m ∈ metric_info db.

(** Every point and document stands for an entity of the database. *)
Definition consistent (k : K) : Prop :=
  (∀ i st, column_points k !! i = Some st →
     ∃ c, st_payload st = column_payload c ∧ has_column (meta k) c) ∧
  (∀ i st, metric_points k !! i = Some st →
     ∃ m, st_payload st = metric_payload m ∧ has_metric (meta k) m) ∧
  (∀ i d, value_index k !! i = Some d →
     ∃ v c, d = value_payload v ∧ i = val_id v ∧ val_column v = col_id c ∧ has_column (meta k) c).

(** The same database, and still consistent. *)
Definition at_db (db : MetaDB) (s : W * K) : Prop := meta s.2 = db ∧ consistent s.2.

(** [m] stays at the database, and what it returns has [Q]. *)
Definition stays {A} (db : MetaDB) (m : MK A) (Q : A → Prop) : Prop :=
  ∀ s, at_db db s → wp m (λ a s', at_db db s' ∧ Q a) (λ _ s', at_db db s') s.

Lemma stays_bind {A B} db (m : MK A) (f : A → MK B) Q Q' :
  stays db m Q → (∀ a, Q a → stays db (f a) Q') → stays db (m ≫= f) Q'.
Proof.
  intros Hm Hf s Hs. apply wp_bind. eapply wp_mono; [by apply Hm| |done].
  intros a s' [Hs' Ha]. by apply Hf.
Qed.
Lemma stays_mono {A} db (m : MK A) (Q Q' : A → Prop) :
  stays db m Q → (∀ a, Q a → Q' a) → stays db m Q'.
Proof. intros Hm HQ s Hs. eapply wp_mono; [by apply Hm| |done]. intros a s' [? ?]. auto. Qed.
Lemma stays_ret {A} db (a : A) (Q : A → Prop) : Q a → stays db (mret a) Q.
Proof. by intros Ha s Hs. Qed.
Lemma stays_raise {A} db e (Q : A → Prop) : stays db (raise e) Q.
Proof. by intros s Hs. Qed.
Lemma stays_lift {A} db (r : result A) (Q : A → Prop) :
  (∀ a, r = Ok a → Q a) → stays db (lift r) Q.
Proof. intros Hr s Hs. apply wp_lift; eauto. Qed.
Lemma stays_on_fst {A} db (m : M W A) : stays db (on_fst m : MK A) (λ _, True).
Proof. intros [w k] Hs. apply wp_on_fst. unfold wp. by destruct (m w) as [? [?|?]]. Qed.
Lemma stays_update db f :
  (∀ k, meta (f k) = meta k) → (∀ k, meta k = db → consistent k → consistent (f k)) →
  stays db (update f : MK ()) (λ _, True).
Proof.
  intros Hm Hc [w k] [Hdb Hk]. apply wp_modify. split; [|done]. split; cbn; [by rewrite Hm|auto].
Qed.

Lemma stays_map_m {A B} db (f : A → MK B) (Q : A → B → Prop) xs :
  (∀ x, x ∈ xs → stays db (f x) (Q x)) → stays db (map_m xs f) (Forall2 Q xs).
Proof.
  induction xs as [|x xs IH]; intros H; cbn [map_m]; [apply stays_ret; constructor|].
  eapply stays_bind; [apply H, list_elem_of_here|]. intros y Hy.
  eapply stays_bind; [apply IH; intros z Hz; apply H; by apply list_elem_of_further|].
  intros ys Hys. apply stays_ret. by constructor.
Qed.
Lemma stays_for_each {A} db (f : A → MK ()) xs :
  (∀ x, x ∈ xs → stays db (f x) (λ _, True)) → stays db (for_each xs f) (λ _, True).
Proof.
  induction xs as [|x xs IH]; intros H; cbn [for_each]; [by apply stays_ret|].
  eapply stays_bind; [apply H, list_elem_of_here|]. intros _ _. apply IH.
  intros z Hz. apply H. by apply list_elem_of_further.
Qed.

(** ** What is written *)

Lemma put_points_from (l : list (pystr * V * json)) m i st :
  put_points l m !! i = Some st → m !! i = Some st ∨ ∃ p, p ∈ l ∧ st_payload st = p.2.
Proof.
  revert m. induction l as [|p l IH]; intros m H; [by left|].
  apply IH in H as [H|(q & Hq & Hst)].
  - apply lookup_insert_Some in H as [[_ <-]|[_ H]]; [|by left].
    right. exists p. split; [apply list_elem_of_here|done].
  - right. exists q. split; [by apply list_elem_of_further|done].
Qed.
Lemma put_values_from (vs : list ValueInfo) m i d :
  put_values vs m !! i = Some d →
  m !! i = Some d ∨ ∃ v, v ∈ vs ∧ i = val_id v ∧ d = value_payload v.
Proof.
  revert m. induction vs as [|v vs IH]; intros m H; [by left|].
  apply IH in H as [H|(w & Hw & Hd)].
  - apply lookup_insert_Some in H as [[<- <-]|[_ H]]; [|by left].
    right. exists v. split; [apply list_elem_of_here|done].
  - right. exists w. split; [by apply list_elem_of_further|done].
Qed.
Lemma zip3_third {A B C} (xs : list A) (ys : list B) (zs : list C) p :
  p ∈ zip3 xs ys zs → p.2 ∈ zs.
Proof.
  revert ys zs. induction xs as [|x xs IH]; intros [|y ys] [|z zs] H;
    try (by apply elem_of_nil in H).
  cbn in H. apply elem_of_cons in H as [->|H]; [apply list_elem_of_here|].
  apply list_elem_of_further. by eapply IH.
Qed.
Lemma elem_of_chunks {A} n (l b : list A) x :
  (0 < n)%nat → b ∈ chunks n l → x ∈ b → x ∈ l.
Proof.
  intros Hn Hb Hx. rewrite <- (chunks_concat n l) by done.
  apply list_elem_of_In, in_concat. exists b. split; by apply list_elem_of_In.
Qed.

(** One collection: what may be written into it keeps the rest consistent. *)
Lemma upsert_stays db write (good : json → Prop) ids (es : list V) ps :
  (∀ f k, meta (write f k) = meta k) →
  (∀ l k, meta k = db → consistent k → (∀ p : pystr * V * json, p ∈ l → good p.2) →
     consistent (write (put_points l) k)) →
  (∀ p, p ∈ ps → good p) →
  stays db (upsert remote write ids es ps : MK ()) (λ _, True).
Proof.
  intros Hm Hw Hps. unfold upsert. apply stays_for_each. intros b Hb.
  eapply stays_bind; [apply stays_on_fst|]. intros _ _.
  apply stays_update; [auto|]. intros k Hk Hc. apply Hw; [done..|]. intros p Hp.
  apply Hps, (zip3_third ids es ps p), (elem_of_chunks batch_size _ b); [|done..].
  unfold batch_size. lia.
Qed.

Lemma entity_points_stays db n d a payload :
  stays db (entity_points uuid4 n d a payload : MK _) (Forall (λ p, pt_payload p = payload)).
Proof.
  unfold entity_points. eapply stays_bind; [by apply (stays_lift _ _ (λ _, True))|].
  intros aliases _. eapply stays_mono.
  - apply (stays_map_m _ _ (λ _ p, pt_payload p = payload)). intros t _.
    eapply stays_bind; [apply stays_on_fst|]. intros id _. by apply stays_ret.
  - intros ps Hps. induction Hps; by constructor.
Qed.

(** The points of a list of entities carry the payloads of those entities. *)
Lemma points_stay {E} db (points : E → MK (list Point)) (payload : E → json) es :
  (∀ e, stays db (points e) (Forall (λ p, pt_payload p = payload e))) →
  stays db (map_m es points)
    (λ pss, ∀ x, x ∈ (pt_payload <$> concat pss) → ∃ e, e ∈ es ∧ x = payload e).
Proof.
  intros Hp. eapply stays_mono; [apply stays_map_m; intros e _; apply Hp|].
  intros pss Hf. induction Hf as [|e ps es pss He _ IH]; cbn.
  - intros x Hx. by apply elem_of_nil in Hx.
  - intros x. rewrite fmap_app. intros [Hx|Hx]%elem_of_app.
    + apply list_elem_of_fmap in Hx as (p & -> & Hin). rewrite Forall_forall in He.
      exists e. split; [apply list_elem_of_here|by apply He].
    + destruct (IH x Hx) as (e' & ? & ?). exists e'. split; [by apply list_elem_of_further|done].
Qed.

Lemma save_points_stays db write (good : json → Prop) points :
  (∀ f k, meta (write f k) = meta k) →
  (∀ l k, meta k = db → consistent k → (∀ p : pystr * V * json, p ∈ l → good p.2) →
     consistent (write (put_points l) k)) →
  (∀ x, x ∈ (pt_payload <$> points) → good x) →
  stays db (save_points aembed_documents remote write points : MK ()) (λ _, True).
Proof.
  intros Hm Hw Hps. unfold save_points, embed. eapply stays_bind.
  - eapply stays_bind; [apply (stays_map_m _ _ (λ _ _, True)); intros b _; apply stays_on_fst|].
    intros vs _. by apply (stays_ret _ _ (λ _, True)).
  - intros es _. by apply (upsert_stays db write good).
Qed.

Lemma columns_stay db cs : Forall (has_column db) cs →
  stays db (save_column_info_to_qdrant uuid4 aembed_documents remote cs : MK ()) (λ _, True).
Proof.
  intros Hcs. unfold save_column_info_to_qdrant, ensure.
  eapply stays_bind; [apply stays_on_fst|]. intros _ _.
  eapply stays_bind; [apply (points_stay db _ column_payload); intros c; apply entity_points_stays|].
  intros pss Hpss.
  apply (save_points_stays db on_columns (λ x, ∃ c, x = column_payload c ∧ has_column db c)).
  - done.
  - intros l k Hk (H1 & H2 & H3) Hl. split_and!; [|exact H2|exact H3]. cbn.
    intros i st [Hi|(p & Hp & ->)]%put_points_from; [by apply (H1 i)|].
    rewrite Hk. by apply Hl.
  - intros x Hx. destruct (Hpss x Hx) as (c & Hc & ->). exists c. split; [done|].
    rewrite Forall_forall in Hcs. by apply Hcs.
Qed.

Lemma metrics_stay db ms : Forall (has_metric db) ms →
  stays db (save_metrics_to_qdrant uuid4 aembed_documents remote ms : MK ()) (λ _, True).
Proof.
  intros Hms. unfold save_metrics_to_qdrant, ensure.
  eapply stays_bind; [apply stays_on_fst|]. intros _ _.
  eapply stays_bind; [apply (points_stay db _ metric_payload); intros m; apply entity_points_stays|].
  intros pss Hpss.
  apply (save_points_stays db on_metrics (λ x, ∃ m, x = metric_payload m ∧ has_metric db m)).
  - done.
  - intros l k Hk (H1 & H2 & H3) Hl. split_and!; [exact H1| |exact H3]. cbn.
    intros i st [Hi|(p & Hp & ->)]%put_points_from; [by apply (H2 i)|].
    rewrite Hk. by apply Hl.
  - intros x Hx. destruct (Hpss x Hx) as (c & Hc & ->). exists c. split; [done|].
    rewrite Forall_forall in Hms. by apply Hms.
Qed.

Lemma values_stay db tables cs : Forall (has_column db) cs →
  stays db (save_value_info_to_es execute remote container_repr tables cs : MK ()) (λ _, True).
Proof.
  intros Hcs. unfold save_value_info_to_es, ensure.
  eapply stays_bind; [apply stays_on_fst|]. intros _ _.
  eapply stays_bind.
  - apply (stays_map_m _ _ (λ c vs, Forall (λ v, val_column v = col_id c) vs)). intros c _.
    unfold values_of. destruct (assoc _ _) as [[]|]; [|by apply stays_ret|apply stays_raise].
    eapply stays_bind; [apply stays_on_fst|]. intros vs _. apply stays_ret.
    apply Forall_fmap, Forall_forall. done.
  - intros vss Hvss. unfold index_values. apply stays_for_each. intros b Hb.
    eapply stays_bind; [apply stays_on_fst|]. intros _ _. apply stays_update; [done|].
    intros k Hk (H1 & H2 & H3). split_and!; [exact H1|exact H2|]. cbn.
    intros i d [Hi|(v & Hv & -> & ->)]%put_values_from; [by apply H3|].
    assert (∃ c, c ∈ cs ∧ val_column v = col_id c) as (c & Hc & Hvc).
    { apply (elem_of_chunks 20 _ b v) in Hb; [|lia|done].
      clear Hv. induction Hvss as [|c vs cs' vss Hvs _ IH]; [by apply elem_of_nil in Hb|].
      cbn in Hb. apply elem_of_app in Hb as [Hb|Hb].
      - rewrite Forall_forall in Hvs. exists c. split; [apply list_elem_of_here|by apply Hvs].
      - apply Forall_cons in Hcs as [_ Hcs]. destruct (IH Hcs Hb) as (c' & ? & ?).
        exists c'. split; [by apply list_elem_of_further|done]. }
    exists v, c. rewrite Forall_forall in Hcs. rewrite Hk. split_and!; [done..|by apply Hcs].
Qed.

(** ** The whole build *)

Lemma consistent_grows k db :
  consistent k → (∀ c, has_column (meta k) c → has_column db c) →
  (∀ m, has_metric (meta k) m → has_metric db m) → consistent (set_meta db k).
Proof.
  intros (H1 & H2 & H3) Hc Hm. split_and!; cbn.
  - intros i st Hi. destruct (H1 i st Hi) as (c & ? & ?). eauto.
  - intros i st Hi. destruct (H2 i st Hi) as (m & ? & ?). eauto.
  - intros i d Hi. destruct (H3 i d Hi) as (v & c & ? & ? & ? & ?). exists v, c. auto.
Qed.

Definition consistent_after {A} (m : MK A) : Prop :=
  ∀ s, meta_ok (meta s.2) → consistent s.2 →
  wp m (λ _ s', consistent s'.2) (λ _ s', consistent s'.2) s.

Lemma stays_after {A} db (m : MK A) (Q : A → Prop) s :
  stays db m Q → meta s.2 = db → consistent s.2 →
  wp m (λ _ s', consistent s'.2) (λ _ s', consistent s'.2) s.
Proof.
  intros Hm Hdb Hc. eapply wp_mono; [apply Hm; by split| |].
  - by intros a s' [[_ ?] _].
  - by intros e s' [_ ?].
Qed.

Lemma read_tables_stay db tables :
  stays db (map_m tables (read_table execute) : MK _) (λ _, True).
Proof.
  eapply stays_mono; [apply (stays_map_m _ _ (λ _ _, True))|done]. intros t _.
  unfold read_table. eapply stays_bind; [apply stays_on_fst|]. intros types _.
  eapply stays_mono; [apply (stays_map_m _ _ (λ _ _, True))|done]. intros c _.
  unfold read_column. eapply stays_bind; [apply stays_on_fst|]. intros values _.
  eapply stays_bind; [by apply (stays_lift _ _ (λ _, True))|]. intros ty _. by apply stays_ret.
Qed.

Lemma build_tables_after tables :
  consistent_after (build_tables execute uuid4 aembed_documents remote container_repr tables : MK ()).
Proof.
  intros s Hok Hc. destruct tables as [|t ts]; [by apply wp_ret|].
  unfold build_tables, save_tables_to_meta_db. apply wp_bind, wp_bind.
  eapply wp_mono; [apply (read_tables_stay (meta s.2) (t :: ts)); by split| |by intros e s' []].
  intros infos s1 [[Hdb Hc1] _]. apply wp_bind. unfold begin. apply wp_bind, wp_get, wp_bind, wp_lift.
  2: { by intros e He. }
  intros db Hsv. apply wp_modify, wp_ret.
  rewrite Hdb in Hsv. pose proof Hsv as Hsv'. apply save_tables_ok in Hsv as (_ & _ & Hcols); [|done].
  assert (metric_info db = metric_info (meta s.2)) as Hmets
    by (unfold save_tables in Hsv'; by inv_ok).
  assert (Forall (has_column db) (concat infos)) as Hall.
  { apply Forall_forall. intros c Hin. unfold has_column. rewrite Hcols. apply elem_of_app. right.
    by apply list_elem_of_fmap_2. }
  assert (consistent (set_meta db s1.2)) as Hc2.
  { apply consistent_grows; [done| |]; rewrite Hdb; unfold has_column, has_metric.
    - intros c Hin. rewrite Hcols. apply elem_of_app. by left.
    - by rewrite Hmets. }
  apply wp_bind. eapply wp_mono; [apply (columns_stay db (concat infos) Hall); by split| |].
  - intros [] s2 [[Hdb2 Hc3] _]. by apply (stays_after db _ (λ _, True)); [apply values_stay|..].
  - by intros e s2 [].
Qed.

Lemma build_metrics_after metrics :
  consistent_after (build_metrics uuid4 aembed_documents remote metrics : MK ()).
Proof.
  intros s Hok Hc. destruct metrics as [|m ms]; [by apply wp_ret|].
  unfold build_metrics, save_metrics_to_meta_db. apply wp_bind, wp_bind.
  unfold begin. apply wp_bind, wp_get, wp_bind, wp_lift; [|by intros e He].
  intros db Hsv. apply wp_modify, wp_ret.
  pose proof Hsv as Hsv'. apply save_metrics_ok in Hsv as (_ & Hmets & _); [|done].
  assert (column_info db = column_info (meta s.2)) as Hcols
    by (unfold save_metrics in Hsv'; by inv_ok).
  apply (stays_after db _ (λ _, True)); [apply metrics_stay|done|].
  - apply Forall_forall. intros c Hin. unfold has_metric. rewrite Hmets. apply elem_of_app. right.
    by apply list_elem_of_fmap_2.
  - cbn [snd]. apply consistent_grows; [done| |]; unfold has_column, has_metric.
    + by rewrite Hcols.
    + intros c Hin. rewrite Hmets. apply elem_of_app. by left.
Qed.

Lemma build_consistent cfg (s s' : W * K) x :
  build execute uuid4 aembed_documents remote container_repr cfg s = (s', x) →
  meta_ok (meta s.2) → consistent s.2 → meta_ok (meta s'.2) ∧ consistent s'.2.
Proof.
  intros H Hok Hc. unfold build, mbind, M_bind in H.
  destruct (build_tables _ _ _ _ _ _ s) as [s1 y] eqn:H1.
  eapply wp_run in H1 as Hc1; [|by apply build_tables_after].
  apply build_tables_meta in H1 as [Hok1 _]; [|done].
  assert (consistent s1.2) as Hc1' by (by destruct y). destruct y as [[]|e].
  - eapply wp_run in H as Hc2; [|by apply build_metrics_after].
    apply build_metrics_meta in H as [? _]; [|done]. by destruct x.
  - by injection H as <- _.
Qed.

Lemma no_knowledge_consistent : consistent (no_knowledge (V:=V)).
Proof. split_and!; cbn; intros i y Hi; by apply lookup_empty_Some in Hi. Qed.

(** What is recalled exists.  However a build of the knowledge ends, returning or
    failing at any request, the indexes stay within the metadata database: every point of
    the column collection rebuilds a column that a lookup by its identifier finds, equal
    in every field, every point of the metric collection a stored metric, and every
    document of the full-text index a value, under its own identifier, of a stored column.
    This holds from empty stores, and from any stores where it held before. *)
Theorem indexes_within_metadata cfg (s s' : W * K) x :
  build execute uuid4 aembed_documents remote container_repr cfg s = (s', x) →
  meta_ok (meta s.2) → consistent s.2 →
  consistent s'.2 ∧
  (∀ i st, column_points s'.2 !! i = Some st →
     ∃ c, column_of (st_payload st) = Ok c ∧
       get_column_info_by_id (meta s'.2) (col_id c) = Some c) ∧
  (∀ i st, metric_points s'.2 !! i = Some st →
     ∃ m, metric_of (st_payload st) = Ok m ∧ has_metric (meta s'.2) m) ∧
  (∀ i d, value_index s'.2 !! i = Some d →
     ∃ v c, value_of d = Ok v ∧ i = val_id v ∧
       get_column_info_by_id (meta s'.2) (val_column v) = Some c).
Proof.
  intros H Hok Hc. destruct (build_consistent _ _ _ _ H Hok Hc) as [Hok' Hc'].
  split; [done|]. destruct Hc' as (H1 & H2 & H3). split_and!.
  - intros i st Hi. destruct (H1 i st Hi) as (c & -> & Hin). exists c.
    split; [apply column_payload_roundtrip|by apply get_column_after].
  - intros i st Hi. destruct (H2 i st Hi) as (m & -> & Hin). exists m.
    split; [apply metric_payload_roundtrip|done].
  - intros i d Hi. destruct (H3 i d Hi) as (v & c & -> & -> & Hv & Hin). exists v, c.
    split; [apply value_payload_roundtrip|]. split; [done|]. rewrite Hv. by apply get_column_after.
Qed.
End indexes.

(** ** A witness *)

Section witness.
Definition refused (bound : Z) : M Z () := λ n,
  (n + 1, if n =? bound then Raise (exn_of (OtherError "ConnectionError") "refused") else Ok tt).
Abbreviation built bound := (build one_table next_id lengths (refused bound) (λ _, []) amount_config
  (0, no_knowledge)).

(** The build returns, and one that is refused while it writes documents. *)
Lemma indexes_within_metadata_witness :
  (built (-1)).2 = Ok tt ∧ (∃ e, (built 6).2 = Raise e) ∧
  consistent (built (-1)).1.2 ∧ consistent (built 6).1.2 ∧
  size (value_index (built (-1)).1.2) = 2%nat ∧ size (column_points (built 6).1.2) = 3%nat.
Proof.
  assert (meta_ok (meta (0, no_knowledge (V:=Z)).2)) as Hok by (split_and!; constructor).
  assert (consistent (0, no_knowledge (V:=Z)).2) as Hc by apply no_knowledge_consistent.
  split; [by vm_compute|]. split; [eexists; by vm_compute|]. split_and!.
  - exact (proj1 (indexes_within_metadata one_table next_id lengths (refused (-1)) (λ _, [])
      amount_config (0, no_knowledge) _ _ (surjective_pairing _) Hok Hc)).
  - exact (proj1 (indexes_within_metadata one_table next_id lengths (refused 6) (λ _, [])
      amount_config (0, no_knowledge) _ _ (surjective_pairing _) Hok Hc)).
  - by vm_compute.
  - by vm_compute.
Defined.
End witness.
