(* ===== verification/Indexes.v ===== *)
(** * The index repositories over their servers (query/app/repositories/qdrant, es)

    [ensure_collection], [upsert], [search] of the two Qdrant repositories and
    [ensure_index], [index], [search] of the Elasticsearch repository, over the state the
    servers keep: collections by name, with their dimension, and the documents of an index.
    What a server answers to a search is a parameter with its contract ([Ranking]).  The
    second half shows that building the knowledge as Meta describes it, on bare maps, is
    what these calls do to the servers, and that a search finds entities of the database. *)
From S2P Require Import Prelude.
From S2P Require Import PyStr.
From S2P Require Import Json.
From S2P Require Import Sql.
From S2P Require Import Entities.
From S2P Require Import Meta.
From S2P Require Import MetaSpec.
From S2P Require Import MetaIndexes.

Section indexes.
Context {W V : Type}.

(** ** The servers *)

Record Collection := { size_ : Z; distance : pystr; points : gmap (list Z) (Stored (V:=V)) }.
Record Index := { mappings : json; documents : gmap (list Z) json }.
Record Servers := {
  collections : list (pystr * Collection); indices : list (pystr * Index) }.

Definition no_servers : Servers := {| collections := []; indices := [] |}.

Definition set_collection (name : pystr) (c : Collection) (s : Servers) : Servers :=
  {| collections := assoc_set name c (collections s); indices := indices s |}.
Definition set_index (name : pystr) (i : Index) (s : Servers) : Servers :=
  {| collections := collections s; indices := assoc_set name i (indices s) |}.

Abbreviation MS := (M (W * Servers)).

(** One request that does not reach the server; the dimension of a vector; the configured
    dimension. *)
Variable remote : M W ().
Variable dim : V → Z.
Variable embedding_size : Z.

Definition not_found : exn := exn_of (OtherError "UnexpectedResponse") "Not found".
Definition conflict : exn := exn_of (OtherError "UnexpectedResponse") "already exists".
Definition wrong_dimension : exn := exn_of (OtherError "UnexpectedResponse") "Vector dimension error".

Definition servers : MS Servers := s ← get; mret s.2.
Definition put (f : Servers → Servers) : MS () := modify (λ s, (s.1, f s.2)).

(** ** Qdrant *)

Definition column_collection : pystr := u "column_info_collection".
Definition metric_collection : pystr := u "metric_info_collection".

Lemma collections_differ : column_collection ≠ metric_collection.
Proof. apply (bool_decide_unpack _). by vm_compute. Qed.
#[local] Opaque column_collection metric_collection.

Definition collection_exists (name : pystr) : MS bool :=
  on_fst remote ;; s ← servers; mret (bool_decide (is_Some (assoc name (collections s)))).
Definition create_collection (name : pystr) : MS () :=
  on_fst remote ;; s ← servers;
  match assoc name (collections s) with
  | Some _ => raise conflict
  | None => put (set_collection name {| size_ := embedding_size; distance := u "Cosine"; points := ∅ |})
  end.

Definition ensure_collection (name : pystr) : MS () :=
  b ← collection_exists name;
  if b : bool then mret () else create_collection name.

(** [client.upsert(collection_name, points)]: one batch, whole or not at all. *)
Definition client_upsert (name : pystr) (ps : list (pystr * V * json)) : MS () :=
  on_fst remote ;; s ← servers;
  match assoc name (collections s) with
  | None => raise not_found
  | Some c =>
      if forallb (λ p, dim p.1.2 =? size_ c) ps
      then put (set_collection name {| size_ := size_ c; distance := distance c;
                                       points := put_points ps (points c) |})
      else raise wrong_dimension
  end.

Definition upsert_points (name : pystr) (ids : list pystr) (embeddings : list V)
    (payloads : list json) : MS () :=
  for_each (chunks batch_size (zip3 ids embeddings payloads)) (client_upsert name).

(** The methods of the metric repository. *)
Definition ensure_metrics : MS () := ensure_collection metric_collection.
Definition upsert_metrics : list pystr → list V → list json → MS () :=
  upsert_points metric_collection.

(** What a server ranks first: points it has, each once, no more than asked for, and none
    below the threshold. *)
Class Ranking := {
  query_points : gmap (list Z) (Stored (V:=V)) → V → pystr → Z → list (list Z);
  query_stored m v t n i : i ∈ query_points m v t n → is_Some (m !! i);
  query_limit m v t n : 0 ≤ n → len (query_points m v t n) ≤ n;
  match_documents : gmap (list Z) json → pystr → pystr → Z → list (list Z);
  match_stored m w t n i : i ∈ match_documents m w t n → is_Some (m !! i);
  match_limit m w t n : 0 ≤ n → len (match_documents m w t n) ≤ n }.
Context {RK : Ranking}.

Definition score_threshold : pystr := u "0.6".
Definition search_limit : Z := 20.

(** [search(embedding)], decoding every payload. *)
Definition search {E} (name : pystr) (decode : json → result E) (embedding : V) : MS (list E) :=
  on_fst remote ;; s ← servers;
  match assoc name (collections s) with
  | None => raise not_found
  | Some c =>
      lift (map_r (λ i, decode (default JNull (st_payload <$> points c !! i)))
              (query_points (points c) embedding score_threshold search_limit))
  end.
Definition search_columns : V → MS (list ColumnInfo) := search column_collection column_of.
Definition search_metrics : V → MS (list MetricInfo) := search metric_collection metric_of.

(** ** Elasticsearch *)

Definition value_index_name : pystr := u "value_index".
Definition index_mappings : json :=
  dict [("dynamic", JBool false);
        ("properties", dict
          [("id", dict [("type", js "keyword")]);
           ("value", dict [("type", js "text"); ("analyzer", js "ik_max_word");
                           ("search_analyzer", js "ik_max_word")]);
           ("column_id", dict [("type", js "keyword")])])]%string.

Definition ensure_index : MS () :=
  on_fst remote ;; s ← servers;
  match assoc value_index_name (indices s) with
  | Some _ => mret ()
  | None =>
      on_fst remote ;; s ← servers;
      match assoc value_index_name (indices s) with
      | Some _ => raise conflict
      | None => put (set_index value_index_name {| mappings := index_mappings; documents := ∅ |})
      end
  end.

(** [bulk]: an index that is missing is created by the first document. *)
Definition bulk (vs : list ValueInfo) : MS () :=
  on_fst remote ;; s ← servers;
  let i := default {| mappings := JNull; documents := ∅ |} (assoc value_index_name (indices s)) in
  put (set_index value_index_name
         {| mappings := mappings i; documents := put_values vs (documents i) |}).
Definition index (vs : list ValueInfo) : MS () := for_each (chunks 20 vs) bulk.

Definition search_values (keyword : pystr) : MS (list ValueInfo) :=
  on_fst remote ;; s ← servers;
  match assoc value_index_name (indices s) with
  | None => raise not_found
  | Some i =>
      lift (map_r (λ d, value_of (default JNull (documents i !! d)))
              (match_documents (documents i) keyword score_threshold search_limit))
  end.

(** ** The maps of Meta are the contents of the servers *)

Definition points_of (name : pystr) (s : Servers) : gmap (list Z) Stored :=
  default ∅ (points <$> assoc name (collections s)).
Definition documents_of (s : Servers) : gmap (list Z) json :=
  default ∅ (documents <$> assoc value_index_name (indices s)).

Abbreviation K := (Knowledge (V:=V)).

Definition holds (s : Servers) (k : K) : Prop :=
  points_of column_collection s = column_points k ∧
  points_of metric_collection s = metric_points k ∧ documents_of s = value_index k.

(** Collections have the configured dimension. *)
Definition sized (s : Servers) : Prop :=
  ∀ name c, assoc name (collections s) = Some c → size_ c = embedding_size.

Lemma run_remote (w : W) (srv : Servers) {A} (f : () → MS A) :
  (on_fst remote ≫= f) (w, srv) =
  match remote w with
  | (w', Ok a) => f a (w', srv)
  | (w', Raise e) => ((w', srv), Raise e)
  end.
Proof. unfold mbind, M_bind, on_fst. cbn. by destruct (remote w) as [w' [a|e]]. Qed.

(** Ensuring a collection loses nothing: what was there is there, unchanged. *)
Lemma ensure_collection_keeps name w srv w' srv' x :
  ensure_collection name (w, srv) = ((w', srv'), x) → sized srv →
  sized srv' ∧ (∀ n, points_of n srv' = points_of n srv) ∧ indices srv' = indices srv ∧
  (x = Ok tt → is_Some (assoc name (collections srv'))).
Proof.
  unfold ensure_collection, collection_exists, mbind at 1, M_bind at 1. rewrite run_remote.
  destruct (remote w) as [w1 [[]|e]]; [|intros [= <- <- <-]; done].
  unfold servers, mbind at 1 2, M_bind at 1 2, get. cbn [snd mret M_ret].
  case_bool_decide as Hin; [intros [= <- <- <-]; done|].
  unfold create_collection. rewrite run_remote.
  destruct (remote w1) as [w2 [[]|e]]; [|intros [= <- <- <-]; done].
  unfold servers, mbind, M_bind, get. cbn [snd mret M_ret].
  destruct (assoc name (collections srv)) as [c|] eqn:Ha; [by destruct Hin|].
  intros [= <- <- <-] Hs. cbn. split_and!; [| |done|].
  - intros n c. cbn. destruct (decide (n = name)) as [->|Hne].
    + rewrite assoc_set_same. by intros [= <-].
    + rewrite assoc_set_other by done. apply Hs.
  - intros n. unfold points_of. cbn. destruct (decide (n = name)) as [->|Hne].
    + by rewrite assoc_set_same, Ha.
    + by rewrite assoc_set_other.
  - intros _. rewrite assoc_set_same. eauto.
Qed.

(** Two runs in step: the same result and world, on servers that hold the maps. *)
Definition in_step {A} (m1 : MS A) (m2 : M (W * K) A) (ready : Servers → Prop) : Prop :=
  ∀ w srv k, holds srv k → ready srv →
  ∃ w' srv' k' x, m1 (w, srv) = ((w', srv'), x) ∧ m2 (w, k) = ((w', k'), x) ∧
    holds srv' k' ∧ ready srv'.

Lemma for_each_in_step {A} (xs : list A) b1 b2 ready :
  (∀ x, x ∈ xs → in_step (b1 x) (b2 x) ready) →
  in_step (for_each xs b1) (for_each xs b2) ready.
Proof.
  induction xs as [|x xs IH]; intros Hb w srv k Hh Hr; [by exists w, srv, k, (Ok tt)|].
  cbn [for_each]. destruct (Hb x (list_elem_of_here _ _) w srv k Hh Hr)
    as (w1 & srv1 & k1 & y & H1 & H2 & Hh1 & Hr1).
  unfold mbind, M_bind. rewrite H1, H2. destruct y as [[]|e]; [|by exists w1, srv1, k1, (Raise e)].
  apply IH; [|done..]. intros z Hz. apply Hb. by apply list_elem_of_further.
Qed.

(** A collection that [ensure_collection] made. *)
Definition made (name : pystr) (s : Servers) : Prop :=
  ∃ c, assoc name (collections s) = Some c ∧ size_ c = embedding_size.

Lemma zip3_second {A B C} (xs : list A) (ys : list B) (zs : list C) p :
  p ∈ zip3 xs ys zs → p.1.2 ∈ ys.
Proof.
  revert ys zs. induction xs as [|x xs IH]; intros [|y ys] [|z zs] H;
    try (by apply elem_of_nil in H).
  cbn in H. apply elem_of_cons in H as [->|H]; [apply list_elem_of_here|].
  apply list_elem_of_further. by eapply IH.
Qed.

Lemma client_upsert_in_step name write ps :
  (name = column_collection ∧ write = on_columns ∨ name = metric_collection ∧ write = on_metrics) →
  (∀ p, p ∈ ps → dim p.1.2 = embedding_size) →
  in_step (client_upsert name ps) (on_fst remote ;; update (write (put_points ps))) (made name).
Proof.
  intros Hname Hdim w srv k Hh (c & Hc & Hsize). unfold client_upsert. rewrite run_remote.
  unfold mbind at 2, M_bind at 2. unfold on_fst. cbn [fst snd].
  destruct (remote w) as [w' [[]|e]]; [|by exists w', srv, k, (Raise e); split_and!; try done; exists c].
  unfold servers, mbind, M_bind, get. cbn [snd mret M_ret]. rewrite Hc.
  assert (forallb (λ p, dim p.1.2 =? size_ c) ps = true) as ->.
  { apply forallb_forall. intros p Hp%list_elem_of_In. apply Z.eqb_eq. by rewrite Hsize, Hdim. }
  eexists w', _, _, (Ok tt). split; [reflexivity|]. split; [reflexivity|].
  destruct Hh as (H1 & H2 & H3). split.
  - destruct Hname as [[-> ->]|[-> ->]]; unfold holds, points_of in *; cbn in *.
    + rewrite (assoc_set_same column_collection),
        (assoc_set_other metric_collection column_collection)
        by (apply not_eq_sym, collections_differ).
      rewrite Hc in H1. cbn in H1.
      split_and!; [|exact H2|exact H3]. cbn. by rewrite H1.
    + rewrite (assoc_set_other column_collection metric_collection), assoc_set_same
        by apply collections_differ.
      rewrite Hc in H2. cbn in H2.
      split_and!; [exact H1| |exact H3]. cbn. by rewrite H2.
  - exists {| size_ := size_ c; distance := distance c; points := put_points ps (points c) |}.
    cbn. by rewrite assoc_set_same.
Qed.

Lemma bulk_in_step b :
  in_step (bulk b)
    (on_fst remote ;; update (λ k, set_values (put_values b (value_index k)) k)) (λ _, True).
Proof.
  intros w srv k Hh _. unfold bulk. rewrite run_remote. unfold mbind at 2, M_bind at 2.
  unfold on_fst. cbn [fst snd].
  destruct (remote w) as [w' [[]|e]]; [|by exists w', srv, k, (Raise e)].
  unfold servers, mbind, M_bind, get. cbn [snd mret M_ret].
  eexists w', _, _, (Ok tt). split; [reflexivity|]. split; [reflexivity|].
  destruct Hh as (H1 & H2 & H3). split; [|done]. split_and!; [exact H1|exact H2|].
  unfold documents_of in *. cbn. rewrite assoc_set_same. cbn. rewrite <- H3.
  by destruct (assoc _ _).
Qed.


(** ** Recall *)

Lemma map_r_decoded {A E} (f : A → result E) (P : E → Prop) l :
  (∀ i, i ∈ l → ∃ e, f i = Ok e ∧ P e) →
  ∃ es, map_r f l = Ok es ∧ Forall P es ∧ len es = len l.
Proof.
  intros H. induction l as [|i l IH]; [by exists []|].
  destruct (H i (list_elem_of_here _ _)) as (e & He & HP).
  destruct IH as (es & Hes & HPs & Hl); [intros j Hj; apply H; by apply list_elem_of_further|].
  exists (e :: es). cbn [map_r]. rewrite He. cbn [mbind result_bind]. rewrite Hes.
  cbn [mbind result_bind]. split_and!; [done|by constructor|]. unfold len in *. cbn. lia.
Qed.

(** A search does not change the servers, and raises only what the request raised or that
    the collection is missing; what it returns is a bounded number of entities with [P]. *)
Definition answers {E} (P : E → Prop) (m : MS (list E)) (w : W) (srv : Servers) : Prop :=
  ∃ w' x, m (w, srv) = ((w', srv), x) ∧
  match x with
  | Ok es => len es ≤ search_limit ∧ Forall P es
  | Raise e => e = not_found ∨ remote w = (w', Raise e)
  end.

Lemma search_answers {E} name (decode : json → result E) (P : E → Prop) embedding w srv :
  (∀ i st, points_of name srv !! i = Some st → ∃ e, decode (st_payload st) = Ok e ∧ P e) →
  answers P (search name decode embedding) w srv.
Proof.
  intros Hp. unfold answers, search. rewrite run_remote.
  destruct (remote w) as [w' [[]|e]]; [|exists w', (Raise e); by split; [|right]].
  unfold servers, mbind, M_bind, get. cbn [snd mret M_ret]. unfold points_of in Hp.
  destruct (assoc name (collections srv)) as [c|]; [|exists w', (Raise not_found); by split; [|left]].
  cbn [fmap option_fmap option_map default from_option id] in Hp.
  destruct (map_r_decoded (λ i, decode (default JNull (st_payload <$> points c !! i))) P
    (query_points (points c) embedding score_threshold search_limit)) as (es & Hes & HP & Hl).
  - intros i [st Hi]%query_stored. rewrite Hi. by apply (Hp i).
  - exists w', (Ok es). unfold lift. rewrite Hes. split; [done|]. split; [|done].
    rewrite Hl. by apply query_limit.
Qed.

Lemma search_values_answers (P : ValueInfo → Prop) keyword w srv :
  (∀ i d, documents_of srv !! i = Some d → ∃ v, value_of d = Ok v ∧ P v) →
  answers P (search_values keyword) w srv.
Proof.
  intros Hp. unfold answers, search_values. rewrite run_remote.
  destruct (remote w) as [w' [[]|e]]; [|exists w', (Raise e); by split; [|right]].
  unfold servers, mbind, M_bind, get. cbn [snd mret M_ret]. unfold documents_of in Hp.
  destruct (assoc _ (indices srv)) as [i|]; [|exists w', (Raise not_found); by split; [|left]].
  cbn [fmap option_fmap option_map default from_option id] in Hp.
  destruct (map_r_decoded (λ d, value_of (default JNull (documents i !! d))) P
    (match_documents (documents i) keyword score_threshold search_limit)) as (es & Hes & HP & Hl).
  - intros j [d Hj]%match_stored. rewrite Hj. by apply (Hp j).
  - exists w', (Ok es). unfold lift. rewrite Hes. split; [done|]. split; [|done].
    rewrite Hl. by apply match_limit.
Qed.

End indexes.

(** ** Witnesses *)

Section witness.
(** A server that ranks by identifier. *)
Definition first_keys {A} (m : gmap (list Z) A) (n : Z) : list (list Z) :=
  take (Z.to_nat n) (fst <$> map_to_list m).
Lemma first_keys_stored {A} (m : gmap (list Z) A) n i : i ∈ first_keys m n → is_Some (m !! i).
Proof.
  unfold first_keys. intros (j & Hj)%list_elem_of_lookup.
  apply lookup_take_Some in Hj as [Hj _]. apply list_elem_of_lookup_2 in Hj.
  apply list_elem_of_fmap in Hj as ([k a] & -> & Ha). apply elem_of_map_to_list in Ha. eauto.
Qed.
Lemma first_keys_limit {A} (m : gmap (list Z) A) n : 0 ≤ n → len (first_keys m n) ≤ n.
Proof. intros Hn. unfold first_keys, len. rewrite length_take. lia. Qed.
Definition by_id : Ranking (V:=Z) := {|
  query_points m _ _ n := first_keys m n;
  query_stored m _ _ n := first_keys_stored m n;
  query_limit m _ _ n := first_keys_limit m n;
  match_documents m _ _ n := first_keys m n;
  match_stored m _ _ n := first_keys_stored m n;
  match_limit m _ _ n := first_keys_limit m n |}.
#[local] Existing Instance by_id.

Definition always : M Z () := mret ().
Definition built : Knowledge (V:=Z) :=
  (build one_table next_id lengths always (λ _, []) amount_config (0, no_knowledge)).1.2.
Definition servers_of (k : Knowledge (V:=Z)) : Servers (V:=Z) :=
  {| collections := [(column_collection, {| size_ := 1; distance := u "Cosine";
                                            points := column_points k |});
                     (metric_collection, {| size_ := 1; distance := u "Cosine";
                                            points := metric_points k |})];
     indices := [(value_index_name, {| mappings := index_mappings; documents := value_index k |})] |}.
Lemma servers_of_hold k : holds (servers_of k) k.
Proof. split_and!; by vm_compute. Qed.


End witness.
