(* ===== verification/Wiring.v ===== *)
(** * Clients, sessions and the initialization of the query service

    query/app/clients (one manager per external service), api/lifespan.py (clients from
    start to shutdown), api/dependencies.py (the sessions of one request),
    scripts/build_meta_knowledge.py and scripts/initialize.py (building the knowledge exactly
    once).

    A client, an engine or a session is a handle; what is open is a list of handles, and a
    manager remembers the handle its [init] made.  Constructors and calls to the services
    are parameters that may raise. *)
From S2P Require Import Prelude.
From S2P Require Import PyStr.
From S2P Require Import Json.
From S2P Require Import Sql.
From S2P Require Import Entities.
From S2P Require Import Meta.

(** ** Configuration (conf/app_config.py) *)

Record File := { file_enable : bool; file_level : pystr; file_path : pystr;
                 file_rotation : pystr; file_retention : pystr }.
Record Console := { console_enable : bool; console_level : pystr }.
Record LoggingConfig := { log_file : File; log_console : Console }.
Record DBConfig := { db_host : pystr; db_port : Z; db_user : pystr; db_password : pystr;
                     db_database : pystr }.
Record QdrantConfig := { q_host : pystr; q_port : Z; q_embedding_size : Z }.
Record EmbeddingConfig := { e_host : pystr; e_port : Z; e_model : pystr }.
Record ESConfig := { es_host : pystr; es_port : Z; es_index_name : pystr }.
Record LLMConfig := { llm_model_name : pystr; llm_api_key : pystr; llm_base_url : pystr }.
Record AppConfig := {
  logging : LoggingConfig; db_meta : DBConfig; db_dw : DBConfig; qdrant : QdrantConfig;
  embedding : EmbeddingConfig; es : ESConfig; llm : LLMConfig }.

(** The addresses the managers connect to. *)
Definition http_url (host : pystr) (port : Z) : pystr :=
  u "http://" ++ host ++ 58 :: str_of_Z port.
Definition es_url (c : ESConfig) : pystr := http_url (es_host c) (es_port c).
Definition qdrant_url (c : QdrantConfig) : pystr := http_url (q_host c) (q_port c).
Definition mysql_url (c : DBConfig) : pystr :=
  u "mysql+asyncmy://" ++ db_user c ++ 58 :: db_password c ++ 64 :: db_host c
  ++ 58 :: str_of_Z (db_port c) ++ 47 :: db_database c ++ u "?charset=utf8mb4".

(** ** Handles *)

(** What the five managers hold, and the sessions of the two databases. *)
Inductive kind := KQdrant | KEmbedding | KES | KMeta | KDw | KSession (db : bool).
#[export] Instance kind_eq_dec : EqDecision kind.
Proof. solve_decision. Defined.

Record Resources := {
  next_handle : Z;
  live : list (Z * kind);
  client : kind → option Z }.

Definition no_resources : Resources :=
  {| next_handle := 0; live := []; client := λ _, None |}.

Definition open_handle (k : kind) (r : Resources) : Resources :=
  {| next_handle := next_handle r + 1; live := (next_handle r, k) :: live r; client := client r |}.
Definition release (h : Z) (r : Resources) : Resources :=
  {| next_handle := next_handle r; live := filter (λ x, x.1 ≠ h) (live r); client := client r |}.
Definition remember (k : kind) (h : Z) (r : Resources) : Resources :=
  {| next_handle := next_handle r; live := live r;
     client := λ k', if decide (k' = k) then Some h else client r k' |}.

(** The table [knowledge_build(id, version)], when it exists, and the handles. *)
Record Site := { knowledge_build : option (list (Z * pystr)); resources : Resources }.

Definition on_resources (f : Resources → Resources) (s : Site) : Site :=
  {| knowledge_build := knowledge_build s; resources := f (resources s) |}.
Definition set_knowledge_build (t : option (list (Z * pystr))) (s : Site) : Site :=
  {| knowledge_build := t; resources := resources s |}.

Definition none_error (attribute : string) : exn :=
  exn_of AttributeError ("'NoneType' object has no attribute '" ++ attribute ++ "'").
Definition none_call : exn := exn_of TypeError "'NoneType' object is not callable".

Section wiring.
Context {W V : Type}.

Abbreviation MS := (M ((W * Knowledge (V:=V)) * Site)).

(** A constructor of a client; a request to a service. *)
Variable create : kind → M W ().
Variable remote : M W ().

Definition on_world {A} (m : M W A) : MS A := on_fst (on_fst m).
Definition change (f : Resources → Resources) : MS () := modify (λ s, (s.1, on_resources f s.2)).
Definition held (k : kind) : MS (option Z) := s ← get; mret (client (resources s.2) k).

(** *** The managers *)

(** [init()]: whatever the manager held before is forgotten, not closed. *)
Definition init_client (k : kind) : MS () :=
  on_world (create k) ;;
  s ← get;
  let h := next_handle (resources s.2) in
  change (open_handle k) ;; change (remember k h).

(** [await client.close()], [await engine.dispose()]. *)
Definition close_client (k : kind) : MS () :=
  c ← held k;
  match c with
  | None => raise (none_error (match k with KMeta | KDw => "dispose" | _ => "close" end))
  | Some h => on_world remote ;; change (release h)
  end.

(** The manager of a session's database. *)
Definition database (db : bool) : kind := if db then KMeta else KDw.

(** [async with manager.session_factory() as session: body]. *)
Definition with_session {A} (db : bool) (body : Z → MS A) : MS A :=
  c ← held (database db);
  match c with
  | None => raise none_call
  | Some _ =>
      s ← get;
      let h := next_handle (resources s.2) in
      change (open_handle (KSession db)) ;;
      try_finally (body h) (λ s, (s.1, on_resources (release h) s.2))
  end.

(** *** The application *)

Definition lifespan {A} (serve : MS A) : MS A :=
  init_client KQdrant ;; init_client KEmbedding ;; init_client KES ;; init_client KMeta ;;
  init_client KDw ;;
  a ← serve;
  close_client KQdrant ;; close_client KES ;; close_client KMeta ;; close_client KDw ;;
  mret a.

(** What a [QueryService] is given. *)
Record QueryDeps := {
  qd_meta_session : Z; qd_embedding : option Z; qd_dw_session : Z; qd_column_client : option Z;
  qd_metric_client : option Z; qd_value_client : option Z }.

Definition get_embedding_client : MS (option Z) := held KEmbedding.
Definition get_column_qdrant_repository : MS (option Z) := held KQdrant.
Definition get_metric_qdrant_repository : MS (option Z) := held KQdrant.
Definition get_value_es_repository : MS (option Z) := held KES.

(** [Depends(get_query_service)] around a handler: the generators that yield sessions are
    resumed when the request is over, however it ended. *)
Definition with_query_service {A} (handler : QueryDeps → MS A) : MS A :=
  with_session true (λ meta_session,
    e ← get_embedding_client;
    with_session false (λ dw_session,
      column ← get_column_qdrant_repository;
      metric ← get_metric_qdrant_repository;
      value ← get_value_es_repository;
      handler {| qd_meta_session := meta_session; qd_embedding := e; qd_dw_session := dw_session;
                 qd_column_client := column; qd_metric_client := metric;
                 qd_value_client := value |})).

(** *** Building and initializing *)

Variable execute : pystr → M W (list (list (pystr * json))).
Variable uuid4 : M W pystr.
Variable aembed_documents : list pystr → M W (list V).
Variable container_repr : json → pystr.
(** The configuration file, loaded and checked. *)
Variable config : result MetaConfig.

Definition service_build : MS () :=
  cfg ← lift config;
  on_fst (Meta.build execute uuid4 aembed_documents remote container_repr cfg).

Definition build_script : MS () :=
  init_client KMeta ;; init_client KDw ;; init_client KQdrant ;; init_client KEmbedding ;;
  init_client KES ;;
  with_session true (λ _, with_session false (λ _, service_build)) ;;
  close_client KMeta ;; close_client KDw ;; close_client KQdrant ;; close_client KES.

Definition MARKER : pystr := u "merged-v1".

(** The statements of [main], each preceded by a request that may fail. *)
Definition create_marker_table : MS () :=
  on_world remote ;;
  modify (λ s, (s.1, set_knowledge_build (Some (default [] (knowledge_build s.2))) s.2)).
Definition read_version : MS (option pystr) :=
  on_world remote ;; s ← get;
  mret (snd <$> head (filter (λ r, r.1 = 1) (default [] (knowledge_build s.2)))).
Definition count_tables : MS Z :=
  on_world remote ;; s ← get; mret (len (table_info (meta s.1.2))).
Definition insert_marker : MS () :=
  on_world remote ;; s ← get;
  let rows := default [] (knowledge_build s.2) in
  if decide (NoDup (fst <$> rows ++ [(1, MARKER)]))
  then modify (λ s, (s.1, set_knowledge_build (Some (rows ++ [(1, MARKER)])) s.2))
  else raise integrity.

Definition partially_initialized : exn :=
  exn_of RuntimeError
    "Metadata is partially initialized. Preserve data and repair the index before retrying.".

(** The first session: [true] when the knowledge is there already. *)
Definition check_initialized : MS bool :=
  with_session true (λ _,
    create_marker_table ;;
    version ← read_version;
    if bool_decide (version = Some MARKER)
    then close_client KMeta ;; mret true
    else
      count ← count_tables;
      if negb (count =? 0) then raise partially_initialized else mret false).

Definition initialize_main : MS () :=
  init_client KMeta ;;
  done ← check_initialized;
  if done : bool then mret ()
  else
    close_client KMeta ;;
    build_script ;;
    init_client KMeta ;;
    with_session true (λ _, insert_marker) ;;
    close_client KMeta.

(** The deployment runs it at every start. *)
Fixpoint starts (n : nat) (s : (W * Knowledge (V:=V)) * Site) : (W * Knowledge (V:=V)) * Site :=
  match n with O => s | S n' => starts n' (initialize_main s).1 end.
End wiring.
