(* ===== verification/WiringSpec.v ===== *)
(** * What the wiring of the query service guarantees

    A request closes its sessions however it ends, the application its clients when it
    stops, and the knowledge is marked as built only when it is complete. *)
From S2P Require Import Prelude.
From S2P Require Import PyStr.
From S2P Require Import Json.
From S2P Require Import Sql.
From S2P Require Import Entities.
From S2P Require Import Meta.
From S2P Require Import MetaSpec.
From S2P Require Import Wiring.

Section spec.
Context {W V : Type}.
Variable create : kind → M W ().
Variable remote : M W ().

Abbreviation St := ((W * Knowledge (V:=V)) * Site)%type.
Abbreviation MS := (M St).

(** ** Handles *)

(** Every open handle was given out. *)
Definition res_ok (r : Resources) : Prop := Forall (λ h, h.1 < next_handle r) (live r).

(** What was open is open, and nothing else. *)
Definition balanced (s s' : St) : Prop :=
  res_ok (resources s.2) →
  res_ok (resources s'.2) ∧ next_handle (resources s.2) ≤ next_handle (resources s'.2) ∧
  live (resources s'.2) = live (resources s.2).
#[local] Instance balanced_preorder : PreOrder balanced.
Proof.
  split.
  - intros s H. split_and!; [done|lia|done].
  - intros s1 s2 s3 H12 H23 H1. destruct (H12 H1) as (H2 & ? & <-).
    destruct (H23 H2) as (H3 & ? & <-). split_and!; [done|lia|done].
Qed.

(** The clients of the managers stay. *)
Definition same_clients (s s' : St) : Prop :=
  client (resources s'.2) = client (resources s.2).
#[local] Instance same_clients_preorder : PreOrder same_clients.
Proof. split; [done|]. intros s1 s2 s3 H1 H2. unfold same_clients in *. congruence. Qed.

(** The knowledge and its marker stay. *)
Definition rows (s : St) : list (Z * pystr) := default [] (knowledge_build s.2).
Definition same_data (s s' : St) : Prop := s'.1.2 = s.1.2 ∧ rows s' = rows s.
#[local] Instance same_data_preorder : PreOrder same_data.
Proof.
  split; [done|]. intros s1 s2 s3 [H1 H2] [H3 H4]. split; congruence.
Qed.

Lemma on_world_site {A} (m : M W A) (s s' : St) x :
  on_world m s = (s', x) → s'.2 = s.2 ∧ s'.1.2 = s.1.2.
Proof.
  unfold on_world, on_fst. destruct (m s.1.1). by intros [= <- _].
Qed.

Lemma on_world_balanced {A} (m : M W A) : keeps balanced (on_world m : MS A).
Proof. intros s s' x [H _]%on_world_site H0. rewrite H. split_and!; [done|lia|done]. Qed.
Lemma on_world_data {A} (m : M W A) : keeps same_data (on_world m : MS A).
Proof.
  intros s s' x [H1 H2]%on_world_site. split; [done|]. unfold rows. by rewrite H1.
Qed.
Lemma change_data f : keeps same_data (change f : MS ()).
Proof. by intros s s' x [= <- _]. Qed.
#[local] Hint Extern 1 (keeps balanced (on_world _)) => apply on_world_balanced : keeps.
#[local] Hint Extern 1 (keeps same_data (on_world _)) => apply on_world_data : keeps.
#[local] Hint Extern 1 (keeps same_data (change _)) => apply change_data : keeps.

Lemma held_run k (s s' : St) x : held k s = (s', x) → s' = s ∧ x = Ok (client (resources s.2) k).
Proof. by intros [= <- <-]. Qed.

Lemma not_given_out r h : res_ok r → next_handle r ≤ h → h ∉ (fst <$> live r).
Proof.
  intros Hok Hh (y & -> & Hy)%list_elem_of_fmap.
  pose proof (proj1 (Forall_forall _ _) Hok y Hy) as Hlt. cbn in Hlt. lia.
Qed.

(** *** One session *)

Lemma release_opened k r :
  res_ok r → release (next_handle r) (open_handle k r) =
    {| next_handle := next_handle r + 1; live := live r; client := client r |}.
Proof.
  intros H. unfold release, open_handle. cbn [live client next_handle]. f_equal.
  rewrite filter_cons_False by (cbn; lia). apply filter_all.
  eapply Forall_impl; [exact H|]. cbn. lia.
Qed.

Lemma with_session_run {A} db (body : Z → MS A) (s s' : St) x :
  with_session db body s = (s', x) →
  (client (resources s.2) (database db) = None ∧ s' = s ∧ x = Raise none_call) ∨
  (∃ c s1, client (resources s.2) (database db) = Some c ∧
    body (next_handle (resources s.2))
      (s.1, on_resources (open_handle (KSession db)) s.2) = (s1, x) ∧
    s' = (s1.1, on_resources (release (next_handle (resources s.2))) s1.2)).
Proof.
  unfold with_session, held, mbind, M_bind, get, try_finally. cbn [mret M_ret].
  destruct (client (resources s.2) (database db)) as [c|] eqn:Hc.
  - unfold change, modify. cbn.
    destruct (body _ _) as [s1 y] eqn:Hb. intros [= <- <-]. right. by exists c, s1.
  - intros [= <- <-]. by left.
Qed.

Lemma with_session_balanced {A} db (body : Z → MS A) :
  (∀ h, keeps balanced (body h)) → keeps balanced (with_session db body).
Proof.
  intros Hb s s' x [(_ & -> & _)|(c & s1 & _ & H & ->)]%with_session_run; [done|].
  intros Hok. apply Hb in H. cbn in H.
  destruct H as (Hok1 & Hn & Hl); [constructor; [cbn; lia|];
    eapply Forall_impl; [exact Hok|]; cbn; lia|].
  cbn in Hl. pose proof (release_opened (KSession db) (resources s.2) Hok) as Hrel.
  assert (live (release (next_handle (resources s.2)) (resources s1.2)) = live (resources s.2))
    as Hlive by (unfold release; cbn [live]; rewrite Hl; exact (f_equal live Hrel)).
  cbn [resources on_resources snd]. cbn in Hn. split_and!.
  - unfold res_ok. rewrite Hlive. eapply Forall_impl; [exact Hok|]. cbn. lia.
  - cbn. lia.
  - exact Hlive.
Qed.

Lemma with_session_data {A} db (body : Z → MS A) :
  (∀ h, keeps same_data (body h)) → keeps same_data (with_session db body).
Proof.
  intros Hb s s' x [(_ & -> & _)|(c & s1 & _ & H & ->)]%with_session_run; [done|].
  apply Hb in H as [H1 H2]. split; [exact H1|]. exact H2.
Qed.

(** *** One request *)

(** A request has two sessions of its own and gives them back: the handler runs with a
    new session of the metadata database and another of the warehouse, both open, and
    with the clients the application started; and however it ends, by an answer, an
    exception of its own or of a missing client, exactly the handles that were open
    before the request are open after it. *)
Theorem request_sessions {A} (handler : QueryDeps → MS A) (s s' : St) x :
  res_ok (resources s.2) → (∀ d, keeps balanced (handler d)) →
  with_query_service handler s = (s', x) →
  live (resources s'.2) = live (resources s.2) ∧
  ∀ a, x = Ok a → ∃ d s1 s2, handler d s1 = (s2, Ok a) ∧
    s1.1 = s.1 ∧
    live (resources s1.2) = (qd_dw_session d, KSession false) ::
      (qd_meta_session d, KSession true) :: live (resources s.2) ∧
    (qd_meta_session d ∉ (fst <$> live (resources s.2))) ∧
    (qd_dw_session d ∉ qd_meta_session d :: (fst <$> live (resources s.2))) ∧
    qd_embedding d = client (resources s.2) KEmbedding ∧
    qd_column_client d = client (resources s.2) KQdrant ∧
    qd_metric_client d = client (resources s.2) KQdrant ∧
    qd_value_client d = client (resources s.2) KES.
Proof.
  intros Hok Hh H. split.
  - eapply (with_session_balanced true); [|exact H|exact Hok]. intros h. cbn beta.
    keeps_step; [intros s0 s1 y [-> _]%held_run; reflexivity|].
    apply with_session_balanced. intros h'. cbn beta.
    repeat (keeps_step; [intros s0 s1 y [-> _]%held_run; reflexivity|]). apply Hh.
  - intros a ->.
    apply with_session_run in H as [(_ & _ & [=])|(c & s1 & _ & H & ->)].
    apply M_bind_ok in H as (s2 & e & He & H). apply held_run in He as [-> [= ->]].
    apply with_session_run in H as [(_ & _ & [=])|(c' & s2 & _ & H & ->)].
    apply M_bind_ok in H as (s3 & k1 & He & H). apply held_run in He as [-> [= ->]].
    apply M_bind_ok in H as (s3 & k2 & He & H). apply held_run in He as [-> [= ->]].
    apply M_bind_ok in H as (s3 & k3 & He & H). apply held_run in He as [-> [= ->]].
    eexists _, _, _. split; [exact H|]. cbn. split_and!; [done|done| | |done..].
    + by apply not_given_out.
    + apply not_elem_of_cons. split; [lia|]. by apply not_given_out; [|lia].
Qed.

(** *** The application *)

Definition started (k : kind) (r : Resources) : Resources :=
  remember k (next_handle r) (open_handle k r).

Lemma init_client_ok k (s s' : St) :
  init_client create k s = (s', Ok tt) →
  s'.1.2 = s.1.2 ∧ s'.2 = on_resources (started k) s.2.
Proof.
  unfold init_client. intros H. apply M_bind_ok in H as (s1 & [] & [H1 H2]%on_world_site & H).
  apply M_bind_ok in H as (s2 & s3 & [= <- <-] & H).
  apply M_bind_ok in H as (s2 & [] & [= <-] & [= <-]). cbn. by rewrite H1.
Qed.

Lemma close_client_ok k (s s' : St) :
  close_client remote k s = (s', Ok tt) →
  s'.1.2 = s.1.2 ∧ ∃ h, client (resources s.2) k = Some h ∧ s'.2 = on_resources (release h) s.2.
Proof.
  unfold close_client. intros H. apply M_bind_ok in H as (s1 & c & [-> [= ->]]%held_run & H).
  destruct (client _ k) as [h|]; [|done].
  apply M_bind_ok in H as (s1 & [] & [H1 H2]%on_world_site & [= <-]).
  cbn. rewrite H1. split; [done|]. by exists h.
Qed.

Lemma release_live h (r : Resources) : live (release h r) = filter (λ x, x.1 ≠ h) (live r).
Proof. done. Qed.
Lemma filter_handle (h : Z) (x : Z * kind) l :
  filter (λ y, y.1 ≠ h) (x :: l) =
  if decide (x.1 = h) then filter (λ y, y.1 ≠ h) l else x :: filter (λ y, y.1 ≠ h) l.
Proof. rewrite filter_cons. by destruct (decide (x.1 = h)), (decide (x.1 ≠ h)). Qed.

(** The application that stops without an error has closed every client it opened that
    can be closed: of its five, only the embedding client, which has no [close], is
    left. *)
Theorem lifespan_closes {A} (serve : MS A) (s s' : St) a :
  res_ok (resources s.2) → keeps balanced serve → keeps same_clients serve →
  lifespan create remote serve s = (s', Ok a) →
  live (resources s'.2) = (next_handle (resources s.2) + 1, KEmbedding) :: live (resources s.2).
Proof.
  intros Hok Hb Hc H. unfold lifespan in H.
  apply M_bind_ok in H as (s1 & [] & [_ H1]%init_client_ok & H).
  apply M_bind_ok in H as (s2 & [] & [_ H2]%init_client_ok & H).
  apply M_bind_ok in H as (s3 & [] & [_ H3]%init_client_ok & H).
  apply M_bind_ok in H as (s4 & [] & [_ H4]%init_client_ok & H).
  apply M_bind_ok in H as (s5 & [] & [_ H5]%init_client_ok & H).
  apply M_bind_ok in H as (s6 & b & Hs & H).
  apply Hc in Hs as H6. apply Hb in Hs as H7. clear Hs.
  apply M_bind_ok in H as (s7 & [] & (_ & h1 & E1 & K1)%close_client_ok & H).
  apply M_bind_ok in H as (s8 & [] & (_ & h2 & E2 & K2)%close_client_ok & H).
  apply M_bind_ok in H as (s9 & [] & (_ & h3 & E3 & K3)%close_client_ok & H).
  apply M_bind_ok in H as (s10 & [] & (_ & h4 & E4 & K4)%close_client_ok & [= <- _]).
  unfold same_clients in H6. unfold balanced in H7. rewrite H5, H4, H3, H2, H1 in H6, H7. destruct H7 as (_ & _ & HL).
  { repeat (constructor; [cbn; lia|]). eapply Forall_impl; [exact Hok|]. cbn. lia. }
  rewrite K3 in E4. rewrite K2 in E3, E4. rewrite K1 in E2, E3, E4.
  rewrite K4, K3, K2, K1. cbn [resources on_resources client release live snd] in *.
  rewrite H6 in E1, E2, E3, E4. cbn in E1, E2, E3, E4.
  injection E1 as <-. injection E2 as <-. injection E3 as <-. injection E4 as <-.
  rewrite HL. cbn [live started remember open_handle next_handle].
  repeat (rewrite filter_handle; cbn [fst];
    first [rewrite decide_True by lia | rewrite decide_False by lia]).
  f_equal. assert (∀ h, next_handle (resources s.2) ≤ h →
    filter (λ y, y.1 ≠ h) (live (resources s.2)) = live (resources s.2)) as Hout.
  { intros h Hh. apply filter_all. eapply Forall_impl; [exact Hok|]. cbn. lia. }
  by rewrite !Hout by lia.
Qed.

Lemma init_client_data k : keeps same_data (init_client create k).
Proof. unfold init_client. keeps_steps. Qed.
Lemma close_client_data k : keeps same_data (close_client remote k).
Proof.
  unfold close_client. keeps_step; [intros s s' x [-> _]%held_run; reflexivity|]. keeps_steps.
Qed.

(** A step that leaves the data alone, before and after one that does not. *)
Lemma data_before {A B} (m : MS A) (f : A → MS B) (s s' : St) x :
  keeps same_data m → (m ≫= f) s = (s', x) →
  (same_data s s' ∧ ∃ e, x = Raise e) ∨
  ∃ s1 a, same_data s s1 ∧ m s = (s1, Ok a) ∧ f a s1 = (s', x).
Proof.
  unfold mbind, M_bind. intros Hm. destruct (m s) as [s1 [a|e]] eqn:H; apply Hm in H as H1.
  - intros Hf. right. by exists s1, a.
  - intros [= <- <-]. left. eauto.
Qed.
Lemma data_after {A B} (m : MS A) (f : A → MS B) (s s' : St) x :
  (∀ a, keeps same_data (f a)) → (m ≫= f) s = (s', x) →
  ∃ s1 y, m s = (s1, y) ∧ same_data s1 s' ∧ (∀ b, x = Ok b → ∃ a, y = Ok a).
Proof.
  unfold mbind, M_bind. intros Hf. destruct (m s) as [s1 [a|e]] eqn:H.
  - intros H1%Hf. exists s1, (Ok a). eauto.
  - intros [= <- <-]. by exists s1, (Raise e).
Qed.

(** *** The marker *)

Definition marked (s : St) : Prop := rows s = [(1, MARKER)].

Lemma same_data_marked s s' : same_data s s' → marked s' ↔ marked s.
Proof. intros [_ H]. unfold marked. by rewrite H. Qed.

Lemma create_marker_table_data : keeps same_data (create_marker_table remote : MS ()).
Proof.
  unfold create_marker_table. keeps_step; [keeps_steps|]. by intros s s' x [= <- _].
Qed.
Lemma read_version_data : keeps same_data (read_version remote : MS _).
Proof. unfold read_version. keeps_steps. Qed.
Lemma count_tables_data : keeps same_data (count_tables remote : MS _).
Proof. unfold count_tables. keeps_steps. Qed.

(** The check changes nothing; it says yes where the marker is, no where there are no
    tables, and raises elsewhere. *)
Lemma check_initialized_run (s s' : St) x :
  rows s = [] ∨ marked s →
  check_initialized remote s = (s', x) →
  same_data s s' ∧ (x = Ok true → marked s) ∧
  (x = Ok false → rows s = [] ∧ table_info (meta s.1.2) = []).
Proof.
  intros Hm H. unfold check_initialized in H. split.
  { revert H. apply with_session_data. intros h. cbn beta.
    keeps_step; [apply create_marker_table_data|]. keeps_step; [apply read_version_data|].
    destruct (bool_decide _); keeps_step; [apply close_client_data|keeps_steps|
      apply count_tables_data|keeps_steps]. }
  apply with_session_run in H as [(_ & _ & ->)|(c & s1 & _ & H & _)]; [done|].
  assert (∀ b, x = Ok b → if b : bool then marked s else rows s = [] ∧
    table_info (meta s.1.2) = []) as Hx.
  { intros b ->. apply M_bind_ok in H as (s2 & [] & H2%create_marker_table_data & H).
    apply M_bind_ok in H as (s3 & v & Hv & H). apply read_version_data in Hv as H3.
    assert (rows s2 = rows s) as Hr2 by apply H2.
    assert (v = snd <$> head (filter (λ r, r.1 = 1) (rows s2))) as ->.
    { unfold read_version in Hv. apply M_bind_ok in Hv as (s4 & [] & [H4 _]%on_world_site & Hv).
      apply M_bind_ok in Hv as (s5 & s6 & [= <- <-] & [= _ <-]). unfold rows. by rewrite H4. }
    rewrite Hr2 in H. destruct Hm as [Hm|Hm]; rewrite Hm in H; cbn in H.
    - apply M_bind_ok in H as (s4 & n & Hn & H).
      unfold count_tables in Hn. apply M_bind_ok in Hn as (s5 & [] & [_ H5]%on_world_site & Hn).
      apply M_bind_ok in Hn as (s6 & s7 & [= <- <-] & [= _ <-]).
      destruct (negb _) eqn:Hz; [done|]. injection H as _ <-. split; [done|].
      apply negb_false_iff, Z.eqb_eq in Hz. rewrite H5 in Hz. destruct H3 as [H3 _].
      destruct H2 as [H2 _]. rewrite H3, H2 in Hz. cbn in Hz.
      destruct (table_info _); [done|]. unfold len in Hz. cbn in Hz. lia.
    - rewrite bool_decide_true in H by done.
      apply M_bind_ok in H as (s4 & [] & _ & H). by injection H as _ <-. }
  split; intros Hb; apply (Hx _ Hb).
Qed.

(** ** Exactly once *)

Variable execute : pystr → M W (list (list (pystr * json))).
Variable uuid4 : M W pystr.
Variable aembed_documents : list pystr → M W (list V).
Variable container_repr : json → pystr.
Variable cfg : MetaConfig.

Abbreviation tables := (configured (cfg_tables cfg)).
Abbreviation metrics := (configured (cfg_metrics cfg)).
Abbreviation main := (initialize_main create remote execute uuid4 aembed_documents
  container_repr (Ok cfg)).

(** Every configured table with its columns, and every metric with its relations. *)
Definition complete (db : MetaDB) : Prop :=
  ∃ db0, tables_saved tables no_meta db0 ∧
    (if decide (metrics = []) then db = db0 else metrics_saved metrics db0 db).

Hypothesis has_tables : tables ≠ [].

Lemma tables_saved_nonempty db db' : meta_ok db → tables_saved tables db db' →
  table_info db' ≠ [].
Proof.
  intros Hok [cs H]. apply save_tables_ok in H as (_ & -> & _); [|done].
  destruct tables; [done|]. intros H%app_eq_nil. by destruct H.
Qed.
Lemma metrics_saved_tables ms db db' : metrics_saved ms db db' → table_info db' = table_info db.
Proof. unfold metrics_saved, save_metrics. intros H. by inv_ok. Qed.

Lemma no_meta_ok : meta_ok no_meta.
Proof. split_and!; constructor. Qed.

(** From nothing, the build leaves nothing, or tables; if it returns, everything. *)
Lemma build_from_nothing (s s' : W * Knowledge (V:=V)) x :
  Meta.build execute uuid4 aembed_documents remote container_repr cfg s = (s', x) →
  meta s.2 = no_meta →
  (meta s'.2 = no_meta ∨ table_info (meta s'.2) ≠ []) ∧ (x = Ok tt → complete (meta s'.2)).
Proof.
  intros H H0. unfold Meta.build, mbind, M_bind in H.
  destruct (build_tables _ _ _ _ _ _ s) as [s1 y] eqn:H1.
  apply build_tables_meta in H1 as [Hok1 H1]; [|rewrite H0; apply no_meta_ok].
  rewrite H0 in H1.
  assert (tables_saved tables no_meta (meta s1.2) → table_info (meta s1.2) ≠ []) as Hne
    by (apply tables_saved_nonempty, no_meta_ok).
  destruct y as [[]|e].
  - destruct H1 as [[_ Ht]|Ht]; [by destruct (has_tables (Ht eq_refl))|].
    apply build_metrics_meta in H as [_ H]; [|done]. split.
    + right. destruct H as [[-> _]|H]; [by apply Hne|].
      rewrite (metrics_saved_tables _ _ _ H). by apply Hne.
    + intros ->. exists (meta s1.2). split; [done|]. destruct H as [[H Hm]|H].
      * by rewrite decide_True by auto.
      * case_decide as Hm; [|done]. unfold metrics_saved, save_metrics in H.
        rewrite Hm in H. cbn in H.
        inv_ok. apply insert_rows_ok in Hm0 as [-> _]. apply insert_rows_ok in Hm1 as [-> _].
        rewrite <- H, !app_nil_r. by destruct (meta s1.2).
  - injection H as <- <-. split; [|done]. destruct H1 as [[-> _]|Ht]; [by left|].
    right. by apply Hne.
Qed.

(** What a run of the build may leave: the marker as it was, and nothing, or tables; if it
    returned, everything. *)
Definition built (s s' : St) (x : result ()) : Prop :=
  rows s' = rows s ∧ (meta s'.1.2 = no_meta ∨ table_info (meta s'.1.2) ≠ []) ∧
  (x = Ok tt → complete (meta s'.1.2)).

Definition builds (m : MS ()) : Prop :=
  ∀ s s' x, m s = (s', x) → meta s.1.2 = no_meta → built s s' x.

Lemma built_nothing (s s' : St) x :
  meta s.1.2 = no_meta → same_data s s' → (∃ e, x = Raise e) → built s s' x.
Proof. intros H0 [H1 H2] [e ->]. split_and!; [done| |done]. left. by rewrite H1. Qed.

Lemma builds_before {A} (m : MS A) f :
  keeps same_data m → (∀ a, builds (f a)) → builds (m ≫= f).
Proof.
  intros Hm Hf s s' x [[H He]|(s1 & a & H & _ & H1)]%data_before H0; [by apply built_nothing| |done].
  destruct H as [D R1]. assert (meta s1.1.2 = no_meta) as H2 by (by rewrite D).
  destruct (Hf _ _ _ _ H1 H2) as (R & B & C). split_and!; [congruence|done..].
Qed.
Lemma builds_after (m : MS ()) f :
  builds m → (∀ a, keeps same_data (f a)) → builds (m ≫= f).
Proof.
  intros Hm Hf s s' x (s1 & y & H & [D R1] & Hx)%data_after H0; [|done].
  destruct (Hm _ _ _ H H0) as (R & B & C). split_and!; [congruence|by rewrite D|].
  intros Hok. rewrite D. apply C. destruct (Hx _ Hok) as [[] ->]. done.
Qed.
Lemma builds_session db (body : Z → MS ()) :
  (∀ h, builds (body h)) → builds (with_session db body).
Proof.
  intros Hb s s' x [(_ & -> & ->)|(c & s1 & _ & H & ->)]%with_session_run H0.
  - apply built_nothing; [done|reflexivity|eauto].
  - exact (Hb _ _ _ _ H H0).
Qed.

Lemma build_script_builds :
  builds (build_script create remote execute uuid4 aembed_documents container_repr (Ok cfg)).
Proof.
  unfold build_script.
  do 5 (apply builds_before; [apply init_client_data|intros _]).
  apply builds_after.
  - apply builds_session; intros _. apply builds_session; intros _.
    intros s s' x H H0.
    change (on_fst (Meta.build execute uuid4 aembed_documents remote container_repr cfg) s
      = (s', x)) in H. unfold on_fst in H.
    destruct (Meta.build execute uuid4 aembed_documents remote container_repr cfg s.1)
      as [u1 z] eqn:Hbuild.
    injection H as <- <-.
    destruct (build_from_nothing _ _ _ Hbuild H0) as [? ?]. by split_and!.
  - intros _. repeat (keeps_step; [apply close_client_data|]). apply close_client_data.
Qed.

Lemma insert_marker_run (s s' : St) x : rows s = [] → insert_marker remote s = (s', x) →
  s'.1.2 = s.1.2 ∧ (rows s' = [] ∨ marked s') ∧ (x = Ok tt → marked s').
Proof.
  intros H0. unfold insert_marker, mbind, M_bind.
  destruct (on_world remote s) as [s1 [[]|e]] eqn:H; apply on_world_data in H as [D R].
  - unfold get. change (default [] (knowledge_build s1.2)) with (rows s1). rewrite R, H0.
    rewrite decide_True by (cbn; apply NoDup_singleton).
    intros [= <- <-]. cbn. split_and!; [done|by right|done].
  - intros [= <- <-]. rewrite D, R. split_and!; [done|by left|done].
Qed.

(** The states the starts of the deployment go through. *)
Definition init_ok (s : St) : Prop :=
  (rows s = [] ∧ (meta s.1.2 = no_meta ∨ table_info (meta s.1.2) ≠ [])) ∨
  (marked s ∧ complete (meta s.1.2)).

Lemma init_ok_same s s' : same_data s s' → init_ok s → init_ok s'.
Proof. intros [D R]. unfold init_ok, marked. by rewrite D, R. Qed.

(** The rest of [main], where the knowledge was found empty. *)
Lemma mark_run (s s' : St) x :
  rows s = [] → table_info (meta s.1.2) ≠ [] → complete (meta s.1.2) →
  (init_client create KMeta ;; with_session true (λ _, insert_marker remote) ;;
   close_client remote KMeta) s = (s', x) →
  init_ok s' ∧ (x = Ok tt → marked s').
Proof.
  intros R T C H.
  assert (init_ok s) as H0 by (left; auto).
  apply data_before in H as [[Hd [e ->]]|(s1 & [] & Hd & _ & H)];
    [by split; [eapply init_ok_same|]| |apply init_client_data].
  apply data_after in H as (s2 & y & H & Hd2 & Hx); [|intros []; apply close_client_data].
  destruct Hd as [D R1]. rewrite <- D in T, C. rewrite <- R1 in R. clear D R1 H0.
  assert (s2.1.2 = s1.1.2 ∧ (rows s2 = [] ∨ marked s2) ∧ (y = Ok tt → marked s2)) as (D & M1 & M2).
  { apply with_session_run in H as [(_ & -> & ->)|(c & s3 & _ & H & ->)].
    - split_and!; [done|by left|done].
    - exact (insert_marker_run (s1.1, on_resources (open_handle (KSession true)) s1.2) _ _ R H). }
  split.
  - eapply init_ok_same; [exact Hd2|]. unfold init_ok. rewrite D. destruct M1; [left|right]; auto.
  - intros Hok. apply (same_data_marked _ _ Hd2), M2. destruct (Hx _ Hok) as [[] ->]. done.
Qed.

Lemma build_run (s s' : St) x :
  rows s = [] → meta s.1.2 = no_meta →
  (close_client remote KMeta ;;
   build_script create remote execute uuid4 aembed_documents container_repr (Ok cfg) ;;
   init_client create KMeta ;; with_session true (λ _, insert_marker remote) ;;
   close_client remote KMeta) s = (s', x) →
  init_ok s' ∧ (x = Ok tt → marked s').
Proof.
  intros R H0 H. apply data_before in H as [[Hd [e ->]]|(s1 & [] & [D R1] & _ & H)];
    [split; [|done]; eapply init_ok_same; [exact Hd|]; left; auto| |apply close_client_data].
  rewrite <- D in H0. rewrite <- R1 in R. unfold mbind at 1, M_bind at 1 in H.
  destruct (build_script _ _ _ _ _ _ _ _) as [s2 y] eqn:Hb.
  destruct (build_script_builds _ _ _ Hb H0) as (R2 & B & C). rewrite R in R2.
  destruct y as [[]|e].
  - specialize (C eq_refl). apply (mark_run _ _ _ R2); [|exact C|exact H].
    destruct B as [B|B]; [|done]. destruct C as (db & Ht & C).
    apply tables_saved_nonempty in Ht; [|apply no_meta_ok]. case_decide; [congruence|].
    apply metrics_saved_tables in C. congruence.
  - injection H as <- <-. split; [|done]. left. auto.
Qed.

(** One start: nothing is written to a knowledge that is not empty; the run that returns
    leaves a complete one, marked. *)
Lemma initialize_main_run (s s' : St) x :
  init_ok s → main s = (s', x) →
  init_ok s' ∧ (x = Ok tt → marked s') ∧
  (marked s ∨ table_info (meta s.1.2) ≠ [] → same_data s s') ∧
  (table_info (meta s.1.2) ≠ [] → ¬ marked s → ∃ e, x = Raise e).
Proof.
  intros Hs H. unfold initialize_main in H.
  apply data_before in H as [[Hd [e ->]]|(s1 & [] & Hd & _ & H)];
    [by split_and!; eauto using init_ok_same| |apply init_client_data].
  assert (rows s1 = [] ∨ marked s1) as Hr.
  { rewrite (same_data_marked _ _ Hd), (proj2 Hd). destruct Hs as [[? _]|[? _]]; auto. }
  unfold mbind at 1, M_bind at 1 in H.
  destruct (check_initialized remote s1) as [s2 y] eqn:Hc.
  apply check_initialized_run in Hc as (Hd2 & Hyes & Hno); [|done].
  assert (same_data s s2) as Hd3 by (by etrans). clear Hr.
  destruct y as [[]|e].
  - injection H as <- <-. split_and!; [eauto using init_ok_same| |done|].
    + intros _. apply (same_data_marked _ _ Hd3), (same_data_marked _ _ Hd). auto.
    + intros _ Hm. destruct Hm. apply (same_data_marked _ _ Hd). auto.
  - destruct (Hno eq_refl) as [R T]. rewrite (proj2 Hd) in R. rewrite (proj1 Hd) in T.
    assert (meta s.1.2 = no_meta) as H0.
    { destruct Hs as [[_ [?|?]]|[Hm _]]; [done|done|]. unfold marked in Hm. congruence. }
    rewrite <- (proj1 Hd3) in H0. rewrite <- (proj2 Hd3) in R.
    apply build_run in H as [H1 H2]; [|done..]. split_and!; [done..| |done].
    intros [Hm|?]; [|done]. apply (same_data_marked _ _ Hd3) in Hm. unfold marked in Hm.
    congruence.
  - injection H as <- <-. split_and!; [eauto using init_ok_same|done|done|eauto].
Qed.

End spec.

(** ** Witnesses *)

Section witness.
(** Services that refuse one request: the one the counter has reached. *)
Definition flaky (bound : Z) : M Z () := λ n,
  (n + 1, if n =? bound then Raise (exn_of (OtherError "ConnectionError") "refused") else Ok tt).

Definition fresh_site : (Z * Knowledge (V:=Z)) * Site :=
  (0, no_knowledge, {| knowledge_build := None; resources := no_resources |}).

Abbreviation ready := (λ _, mret ()).
Abbreviation start b := (initialize_main ready (flaky b) one_table next_id lengths (λ _, [])
  (Ok amount_config)).
Abbreviation after b n := (starts ready (flaky b) one_table next_id lengths (λ _, [])
  (Ok amount_config) n fresh_site).


(** Where a close fails the later ones are not tried, and where the build fails none is. *)
Lemma failing_close_leaks :
  live (resources (lifespan ready (flaky 1) (mret ()) fresh_site).1.2)
    = [(4, KDw); (3, KMeta); (2, KES); (1, KEmbedding)] ∧
  live (resources (after 8 1).2) = [(6, KES); (5, KEmbedding); (4, KQdrant); (3, KDw); (2, KMeta)].
Proof. by vm_compute. Qed.

(** A request of the running application, and one that fails. *)
Definition serving : (Z * Knowledge (V:=Z)) * Site :=
  ((init_client ready KQdrant ;; init_client ready KEmbedding ;; init_client ready KES ;;
   init_client ready KMeta ;; init_client ready KDw) fresh_site).1.
Lemma request_sessions_witness :
  let out (m : QueryDeps → M ((Z * Knowledge (V:=Z)) * Site) Z) := with_query_service m serving in
  live (resources (out (λ d, mret (qd_dw_session d))).1.2) = live (resources serving.2) ∧
  (out (λ d, mret (qd_dw_session d))).2 = Ok 6 ∧
  live (resources (out (λ d, raise integrity)).1.2) = live (resources serving.2).
Proof.
  assert (res_ok (resources serving.2)) as Hok
    by (vm_compute; repeat constructor).
  intros out. split_and!.
  - refine (proj1 (request_sessions (λ d, mret (qd_dw_session d)) serving _ _ Hok _
      (surjective_pairing _))).
    intros d s s' x [= <- _] H. split_and!; [done|lia|done].
  - by vm_compute.
  - refine (proj1 (request_sessions (λ d, raise integrity) serving _ _ Hok _
      (surjective_pairing _))).
    intros d s s' x [= <- _] H. split_and!; [done|lia|done].
Defined.
End witness.
