(* ===== verification/RequestId.v ===== *)
(** * The request's identity in logs and events (query/app/core/context.py, log.py, the
    middleware of query/main.py)

    A context variable holds the identifier of the request being served.  Every asyncio
    task has a context of its own, copied from the task that creates it; the middleware
    sets the variable, hands the request to the application in a new task, and resets the
    variable when the response has begun, while the application may still be streaming.
    The tasks of all requests interleave, and each log record takes the identifier its
    task's context holds. *)
From S2P Require Import Prelude.
From S2P Require Import PyStr.
From S2P Require Import Json.
From S2P Require Import Wiring.

(** ** Records and sinks *)

(** [ContextVar("request_id", default="1")]. *)
Definition default_request_id : pystr := u "1".

(** [inject_request_id]: whatever the record's extra fields hold under the name. *)
Definition inject_request_id (current : option pystr) (extra : list (pystr * json))
    : list (pystr * json) :=
  assoc_set (u "request_id") (JStr (default default_request_id current)) extra.

Inductive Sink :=
| Stdout (level : pystr)
| AppLog (path level rotation retention : pystr).

(** The sinks [log.py] adds: the console's, the file's, as configured. *)
Definition sinks (c : LoggingConfig) : list Sink :=
  (if console_enable (log_console c) then [Stdout (console_level (log_console c))] else [])
  ++ (if file_enable (log_file c)
      then [AppLog (file_path (log_file c) ++ u "/app.log") (file_level (log_file c))
              (file_rotation (log_file c)) (file_retention (log_file c))] else []).

(** ** The tasks *)

(** A task: its context's value of the variable, the request whose application it belongs
    to (a request is named by the task the server made for it), and where the middleware
    stands in it. *)
Inductive stage :=
| Received
| Serving (request_id : pystr) (token : option pystr)
| Left (request_id : pystr)
| Application.

Record Task := { t_var : option pystr; t_request : option nat; t_stage : stage }.

(** Also what the response of a request names, and what was logged: by which request's
    application, with which extra fields. *)
Record Loop := {
  tasks : gmap nat Task; headers : gmap nat pystr;
  written : list (option nat * list (pystr * json)) }.

Definition put_task (t : nat) (x : Task) (s : Loop) : Loop :=
  {| tasks := <[t := x]> (tasks s); headers := headers s; written := written s |}.
Definition put_header (t : nat) (id : pystr) (s : Loop) : Loop :=
  {| tasks := tasks s; headers := <[t := id]> (headers s); written := written s |}.
Definition write (r : option nat) (extra : list (pystr * json)) (s : Loop) : Loop :=
  {| tasks := tasks s; headers := headers s; written := written s ++ [(r, extra)] |}.

(** What a task does next: the server receives a request; the middleware takes its
    identifier ([request_id_ctx_var.set]), calls the application in a new task, names the
    identifier in the response and resets the variable, the request having succeeded or
    not; the application makes tasks of its own, and any task logs. *)
Inductive act :=
| Receive (t : nat)
| Identify (t : nat) (id : pystr)
| CallNext (t t' : nat)
| Leave (t : nat) (answered : bool)
| Fork (t t' : nat)
| Log (t : nat) (extra : list (pystr * json)).

Definition fresh_task (t : nat) (s : Loop) : bool := bool_decide (tasks s !! t = None).

Definition loop_step (a : act) (s : Loop) : option Loop :=
  match a with
  | Receive t =>
      if fresh_task t s
      then Some (put_task t {| t_var := None; t_request := None; t_stage := Received |} s)
      else None
  | Identify t id =>
      x ← tasks s !! t;
      match t_stage x with
      | Received => Some (put_task t {| t_var := Some id; t_request := None;
                                        t_stage := Serving id (t_var x) |} s)
      | _ => None
      end
  | CallNext t t' =>
      x ← tasks s !! t;
      match t_stage x with
      | Serving _ _ => if fresh_task t' s
          then Some (put_task t' {| t_var := t_var x; t_request := Some t;
                                    t_stage := Application |} s)
          else None
      | _ => None
      end
  | Leave t answered =>
      x ← tasks s !! t;
      match t_stage x with
      | Serving id token =>
          let s := if answered then put_header t id s else s in
          Some (put_task t {| t_var := token; t_request := None; t_stage := Left id |} s)
      | _ => None
      end
  | Fork t t' =>
      x ← tasks s !! t;
      match t_stage x with
      | Application => if fresh_task t' s then Some (put_task t' x s) else None
      | _ => None
      end
  | Log t extra =>
      x ← tasks s !! t;
      Some (write (t_request x) (inject_request_id (t_var x) extra) s)
  end.

Definition loop_steps (s s' : Loop) : Prop := ∃ a, loop_step a s = Some s'.

Definition idle_loop : Loop := {| tasks := ∅; headers := ∅; written := [] |}.

(** ** Every request keeps its own identifier *)

(** The identifier the middleware gave request [r]. *)
Definition id_of (s : Loop) (r : nat) : option pystr :=
  x ← tasks s !! r;
  match t_stage x with Serving id _ | Left id => Some id | _ => None end.

Definition task_ok (s : Loop) (x : Task) : Prop :=
  match t_stage x with
  | Received | Left _ => t_var x = None ∧ t_request x = None
  | Serving id token => t_var x = Some id ∧ token = None ∧ t_request x = None
  | Application => ∃ r, t_request x = Some r ∧ is_Some (t_var x) ∧ id_of s r = t_var x
  end.

Record loop_ok (s : Loop) : Prop := {
  lo_tasks : ∀ t x, tasks s !! t = Some x → task_ok s x;
  lo_headers : ∀ r id, headers s !! r = Some id → id_of s r = Some id;
  lo_written : ∀ r extra, (Some r, extra) ∈ written s →
    ∃ id, id_of s r = Some id ∧ assoc (u "request_id") extra = Some (JStr id) }.

(** Putting a task that keeps what its predecessor was called. *)
Lemma put_id s t x r id :
  (∀ id, id_of s t = Some id → id_of (put_task t x s) t = Some id) →
  id_of s r = Some id → id_of (put_task t x s) r = Some id.
Proof.
  intros Ht H. destruct (decide (r = t)) as [->|Hne]; [by apply Ht|].
  unfold id_of in *. cbn. by rewrite lookup_insert_ne.
Qed.

Lemma put_ok s t x :
  loop_ok s → (∀ id, id_of s t = Some id → id_of (put_task t x s) t = Some id) →
  task_ok (put_task t x s) x → loop_ok (put_task t x s).
Proof.
  intros [Ht Hh Hw] Hid Hx. split.
  - intros t' x'. cbn. destruct (decide (t' = t)) as [->|Hne].
    + rewrite lookup_insert_eq. by intros [= <-].
    + rewrite lookup_insert_ne by done. intros H. specialize (Ht _ _ H). unfold task_ok in *.
      destruct (t_stage x'); try done. destruct Ht as (r & Hr & [id Hv] & E).
      exists r. split_and!; [done|by exists id|]. rewrite Hv in *. by apply put_id.
  - intros r id H. by apply put_id, Hh.
  - intros r extra H. destruct (Hw r extra H) as (id & Hi & E). exists id.
    split; [by apply put_id|done].
Qed.

Lemma id_of_put t x s :
  id_of (put_task t x s) t = match t_stage x with Serving id _ | Left id => Some id | _ => None end.
Proof. unfold id_of. cbn. by rewrite lookup_insert_eq. Qed.

Lemma step_ok s s' : loop_ok s → loop_steps s s' → loop_ok s'.
Proof.
  intros Hok [a H].
  assert (∀ t, fresh_task t s = true → ∀ id, id_of s t ≠ Some id) as Hfresh.
  { intros t Hf%bool_decide_eq_true id. unfold id_of. by rewrite Hf. }
  destruct a as [t|t id|t t'|t ok|t t'|t extra]; cbn [loop_step] in H;
    [destruct (fresh_task t s) eqn:Hf; [|done]; injection H as <-
    |apply bind_Some in H as (x & Hx & H); pose proof (lo_tasks _ Hok _ _ Hx) as Hx';
     unfold task_ok in Hx'; destruct x as [var req st]; cbn in *..].
  - apply put_ok; [done| |done]. intros id Hid. by destruct (Hfresh t Hf id).
  - destruct st; try done. injection H as <-. destruct Hx' as [-> _]. apply put_ok; [done| |done].
    intros id' Hid. unfold id_of in Hid. by rewrite Hx in Hid.
  - destruct st as [|id tok|id|]; try done. destruct (fresh_task t' s) eqn:Hf; [|done].
    injection H as <-. destruct Hx' as (-> & _ & _). apply put_ok; [done| |].
    + intros id' Hid. by destruct (Hfresh t' Hf id').
    + exists t. cbn. split_and!; [done|done|]. apply put_id.
      * intros id' Hid. by destruct (Hfresh t' Hf id').
      * unfold id_of. by rewrite Hx.
  - destruct st as [|id tok|id|]; try done. injection H as <-. destruct Hx' as (-> & -> & ->).
    set (s1 := if ok then _ else _).
    assert (∀ r, id_of s1 r = id_of s r) as Hs1 by (by destruct ok).
    assert (loop_ok s1) as Hok1.
    { destruct ok; [|done]. destruct Hok as [Ht Hh Hw]. split; [done| |done].
      intros r id'. cbn. destruct (decide (r = t)) as [->|Hne].
      - rewrite lookup_insert_eq. intros [= <-]. unfold id_of. cbn. by rewrite Hx.
      - rewrite lookup_insert_ne by done. apply Hh. }
    apply put_ok; [done| |done]. intros id' Hid. rewrite id_of_put. rewrite Hs1 in Hid.
    unfold id_of in Hid. by rewrite Hx in Hid.
  - destruct st; try done. destruct (fresh_task t' s) eqn:Hf; [|done]. injection H as <-.
    assert (∀ id, id_of s t' = Some id → id_of (put_task t' {| t_var := var; t_request := req;
      t_stage := Application |} s) t' = Some id) as Hk
      by (intros id' Hid; by destruct (Hfresh t' Hf id')).
    apply put_ok; [done|done|]. destruct Hx' as (r & Hr & [id Hv] & E). exists r. cbn.
    rewrite Hv in *. split_and!; [done|by eexists|by apply put_id].
  - injection H as <-. destruct Hok as [Ht Hh Hw]. split; [done|done|]. cbn.
    intros r e [H|H%list_elem_of_singleton]%elem_of_app; [by apply Hw|]. injection H as <- ->.
    destruct st as [|id tok|id|]; [by destruct Hx'|by destruct Hx' as (_ & _ & ?)|by destruct Hx'|].
    destruct Hx' as (r' & [= <-] & [id ->] & E). exists id. split; [exact E|].
    unfold inject_request_id. by rewrite assoc_set_same.
Qed.

(** However the tasks of all requests interleave: every record the application of a
    request writes, in whichever of its tasks, carries the identifier the middleware gave
    that request, also once the middleware has left; a response names the same
    identifier; and a task the middleware has left is as it found it. *)
Theorem request_ids_kept s :
  rtc loop_steps idle_loop s →
  (∀ r extra, (Some r, extra) ∈ written s →
     ∃ id, id_of s r = Some id ∧ assoc (u "request_id") extra = Some (JStr id)) ∧
  (∀ r id, headers s !! r = Some id → id_of s r = Some id) ∧
  (∀ t x id, tasks s !! t = Some x → t_stage x = Left id → t_var x = None).
Proof.
  intros H. assert (loop_ok s) as [Ht Hh Hw].
  { assert (loop_ok idle_loop) as H0.
    { split; cbn; [done|done|]. by intros ? ? ?%elem_of_nil. }
    revert H H0. generalize idle_loop. intros x H. induction H; eauto using step_ok. }
  split_and!; [done|done|]. intros t x id Hx Hs. specialize (Ht t x Hx). unfold task_ok in Ht.
  rewrite Hs in Ht. by destruct Ht.
Qed.
