(* ===== verification/Agent.v ===== *)
(** * The warehouse agent (query/app/agent)

    The nodes of the question-to-SQL graph, each from its state to an update of the
    state, with the progress events it streams; and the graph: one superstep after the
    other, the recalls and the filters side by side. *)
From S2P Require Import Prelude.
From S2P Require Import PyStr.
From S2P Require Import PyRe.
From S2P Require Import Json.
From S2P Require Import PyTime.
From S2P Require Import Sql.
From S2P Require Import Business.
From S2P Require Import Retrieval.
From S2P Require Import Entities.

(** ** The state *)

Record ColumnState := {
  cs_name : pystr; cs_type : pystr; cs_role : pystr; cs_examples : json;
  cs_description : pystr; cs_alias : json }.
Record TableState := {
  ts_name : pystr; ts_role : pystr; ts_description : pystr; ts_columns : list ColumnState }.
Record MetricState := {
  ms_name : pystr; ms_description : pystr; ms_columns : json; ms_alias : json }.
Record DateInfo := { di_date : pystr; di_weekday : pystr; di_quarter : pystr }.

(** [DataAgentState]: a key that no node has written yet is absent. *)
Record AgentState := {
  query : pystr;
  keywords : option (list pystr);
  retrieved_columns : option (list ColumnInfo);
  retrieved_metrics : option (list MetricInfo);
  retrieved_values : option (list ValueInfo);
  table_infos : option (list TableState);
  metric_infos : option (list MetricState);
  date_info : option DateInfo;
  db_info : option (list (pystr * json));
  sql_text : option pystr;
  error : option (option pystr) }.

Definition initial (q : pystr) : AgentState :=
  {| query := q; keywords := None; retrieved_columns := None; retrieved_metrics := None;
     retrieved_values := None; table_infos := None; metric_infos := None; date_info := None;
     db_info := None; sql_text := None; error := None |}.

(** What a node returns: the keys it writes. *)
Inductive update_ :=
| Keywords (l : list pystr) | Columns (l : list ColumnInfo) | Metrics (l : list MetricInfo)
| Values (l : list ValueInfo) | Merged (ts : list TableState) (ms : list MetricState)
| Tables (l : list TableState) | FilteredMetrics (l : list MetricState)
| Extra (d : DateInfo) (db : list (pystr * json)) | Sql (s : pystr)
| Checked (e : option pystr) | Nothing.

Definition apply_update (s : AgentState) (v : update_) : AgentState :=
  match s with
  | Build_AgentState q k c m va t mi d db sq e =>
      match v with
      | Keywords l => Build_AgentState q (Some l) c m va t mi d db sq e
      | Columns l => Build_AgentState q k (Some l) m va t mi d db sq e
      | Metrics l => Build_AgentState q k c (Some l) va t mi d db sq e
      | Values l => Build_AgentState q k c m (Some l) t mi d db sq e
      | Merged ts ms => Build_AgentState q k c m va (Some ts) (Some ms) d db sq e
      | Tables l => Build_AgentState q k c m va (Some l) mi d db sq e
      | FilteredMetrics l => Build_AgentState q k c m va t (Some l) d db sq e
      | Extra di dbi => Build_AgentState q k c m va t mi (Some di) (Some dbi) sq e
      | Sql s => Build_AgentState q k c m va t mi d db (Some s) e
      | Checked er => Build_AgentState q k c m va t mi d db sq (Some er)
      | Nothing => s
      end
  end.

(** [state[k]]. *)
Definition need {A} (k : string) (v : option A) : result A :=
  match v with Some a => Ok a | None => Raise (exn_of KeyError k) end.

(** ** Events *)

Inductive Status := StRunning | StSuccess | StError.
Inductive Event :=
| Progress (step : pystr) (status : Status)
| Result (data : list json) (sql : pystr) (row_limit : Z).

(** [k in v] for what a model's JSON may be. *)
Definition json_in (k : pystr) (v : json) : result bool :=
  match v with
  | JObj kvs => Ok (bool_decide (k ∈ keys kvs))
  | JList l => Ok (existsb (py_eqb (JStr k)) l)
  | JStr s => Ok (contains k s)
  | _ => Raise type_error
  end.

(** [v[k]] with a string key. *)
Definition json_at (v : json) (k : pystr) : result json :=
  match v with
  | JObj kvs => match assoc k kvs with
                | Some w => Ok w
                | None => Raise (Exn KeyError k) end
  | _ => Raise type_error
  end.

(** [[x for x in l if p(x)]] with a test that may raise. *)
Fixpoint filter_r {A} (p : A → result bool) (l : list A) : result (list A) :=
  match l with
  | [] => Ok []
  | x :: l' => b ← p x; ys ← filter_r p l'; Ok (if b : bool then x :: ys else ys)
  end.

Section agent.
Context {UT : UnicodeTables} {SG : SqlGlot} {W V : Type}.

(** The database session, whose statements are logged, and what lies outside: the model
    behind a prompt, the tagger, the embedding service, the indexes, the clock. *)
Variable execute : pystr → M W (list (list (pystr * json))).
Variable dialect_name : pystr.
Variable meta_db : MetaDB.
Variable driver_json : json → json.
Variable llm_json : string → list (string * pystr) → M W json.
Variable llm_text : string → list (string * pystr) → M W pystr.
Variable extract_tags : pystr → list pystr.
Variable embed_terms : list pystr → result (list V).
Variable timed_out : bool.
Variable search_columns : V → result (list ColumnInfo).
Variable search_metrics : V → result (list MetricInfo).
Variable search_values : pystr → result (list ValueInfo).
Variable today : date.
Variable yaml_tables : list TableState → pystr.
Variable yaml_metrics : list MetricState → pystr.
Variable yaml_date : DateInfo → pystr.
Variable yaml_db : list (pystr * json) → pystr.
(** The interleaving of the events of nodes that run side by side. *)
Variable schedule : list (list Event) → list Event.

(** The statements sent to the database, and the events streamed. *)
Record Run := { world : W; executed : list pystr; events : list Event }.
Abbreviation MA := (M Run).

Definition emit (e : Event) : MA () :=
  modify (λ r, {| world := world r; executed := executed r; events := events r ++ [e] |}).

Definition outside {A} (m : M W A) : MA A := λ r,
  match m (world r) with
  | (w, x) => ({| world := w; executed := executed r; events := events r |}, x)
  end.

Definition on_database {A} (m : M (W * list pystr) A) : MA A := λ r,
  match m (world r, executed r) with
  | ((w, l), x) => ({| world := w; executed := l; events := events r |}, x)
  end.
Definition traced (q : pystr) : M (W * list pystr) (list (list (pystr * json))) :=
  modify (λ s, (s.1, s.2 ++ [q])) ;; on_fst (execute q).

(** [try: ... except Exception: writer(error); raise]: a node around its body, which
    writes its own success. *)
Definition node (step : string) (body : MA update_) : MA update_ :=
  emit (Progress (u step) StRunning) ;;
  try_except (v ← body; emit (Progress (u step) StSuccess) ;; mret v)
    (λ e, emit (Progress (u step) StError) ;; raise e).

(** *** Recall *)

Definition extract_keywords (s : AgentState) : MA update_ :=
  node "抽取关键词" (mret (Keywords (fromkeys (query s :: extract_tags (query s))))).

Definition recall_column (s : AgentState) : MA update_ :=
  node "召回字段信息" (
    ks ← lift (need "keywords" (keywords s));
    expanded ← outside (llm_json "extend_keywords_for_column_recall" [("query", query s)]%string);
    terms ← lift (retrieval_terms (query s) ks expanded);
    found ← lift (vector_recall col_id embed_terms timed_out terms search_columns);
    mret (Columns found)).

Definition recall_metric (s : AgentState) : MA update_ :=
  node "召回指标信息" (
    ks ← lift (need "keywords" (keywords s));
    expanded ← outside (llm_json "extend_keywords_for_metric_recall" [("query", query s)]%string);
    terms ← lift (retrieval_terms (query s) ks expanded);
    found ← lift (vector_recall met_id embed_terms timed_out terms search_metrics);
    mret (Metrics found)).

Definition recall_value (s : AgentState) : MA update_ :=
  node "召回字段取值" (
    ks ← lift (need "keywords" (keywords s));
    expanded ← outside (llm_json "extend_keywords_for_value_recall" [("query", query s)]%string);
    terms ← lift (retrieval_terms (query s) ks expanded);
    found ← lift (value_recall val_id timed_out terms search_values);
    mret (Values found)).

(** *** Merging *)

(** The candidates by column identifier: [None] for one the metadata does not know. *)
Abbreviation Found := (list (pystr * option ColumnInfo)).

Definition add_relevant (d : Found) (m : MetricInfo) : result Found :=
  items ← jiter (met_columns m);
  Ok (foldl (λ d v, let c := as_str v in
                    match assoc c d with
                    | Some _ => d
                    | None => assoc_set c (get_column_info_by_id meta_db c) d
                    end) d items).

(** [if value not in examples: examples.append(value)]. *)
Definition add_example (v : json) (c : ColumnInfo) : result ColumnInfo :=
  let set ex := {| col_id := col_id c; col_name := col_name c; col_type := col_type c;
    col_role := col_role c; col_examples := ex; col_description := col_description c;
    col_alias := col_alias c; col_table := col_table c |} in
  match col_examples c with
  | JList l => Ok (if existsb (py_eqb v) l then c else set (JList (l ++ [v])))
  | JStr s => match v with
              | JStr t => if contains t s then Ok c else Raise attr_error
              | _ => Raise type_error end
  | JObj kvs => match v with
                | JStr t => if bool_decide (t ∈ keys kvs) then Ok c else Raise attr_error
                | _ => if hashable v then Raise attr_error else Raise type_error end
  | _ => Raise type_error
  end.

Definition add_value (d : Found) (v : ValueInfo) : result Found :=
  let c := val_column v in
  let d := match assoc c d with
           | Some _ => d
           | None => assoc_set c (get_column_info_by_id meta_db c) d
           end in
  match assoc c d with
  | Some (Some info) =>
      info ← add_example (val_value v) info; Ok (assoc_set c (Some info) d)
  | _ => Raise attr_error
  end.

(** [for x in xs: d = f(d, x)] with an [f] that may raise. *)
Fixpoint fold_r {A B} (f : A → B → result A) (a : A) (l : list B) : result A :=
  match l with
  | [] => Ok a
  | x :: l' => a' ← f a x; fold_r f a' l'
  end.

Definition by_table (d : list (pystr * list ColumnInfo)) (kv : pystr * option ColumnInfo)
    : result (list (pystr * list ColumnInfo)) :=
  match kv.2 with
  | None => Raise attr_error
  | Some c => Ok (assoc_set (col_table c) (default [] (assoc (col_table c) d) ++ [c]) d)
  end.

Definition with_keys (kv : pystr * list ColumnInfo) : pystr * list ColumnInfo :=
  let ids := col_id <$> kv.2 in
  (kv.1, kv.2 ++ filter (λ k, mem (col_id k) ids = false)
                   (get_key_columns_by_table_id driver_json meta_db kv.1)).

Definition column_state (c : ColumnInfo) : ColumnState :=
  {| cs_name := col_name c; cs_type := col_type c; cs_role := col_role c;
     cs_examples := col_examples c; cs_description := col_description c;
     cs_alias := col_alias c |}.
Definition table_state (kv : pystr * list ColumnInfo) : result TableState :=
  match get_table_info_by_id meta_db kv.1 with
  | None => Raise attr_error
  | Some t => Ok {| ts_name := tab_name t; ts_role := tab_role t;
                    ts_description := tab_description t; ts_columns := column_state <$> kv.2 |}
  end.
Definition metric_state (m : MetricInfo) : MetricState :=
  {| ms_name := met_name m; ms_description := met_description m; ms_columns := met_columns m;
     ms_alias := met_alias m |}.

Definition merge (cs : list ColumnInfo) (ms : list MetricInfo) (vs : list ValueInfo)
    : result update_ :=
  let d := foldl (λ d c, assoc_set (col_id c) (Some c) d) [] cs in
  d ← fold_r add_relevant d ms;
  d ← fold_r add_value d vs;
  t ← fold_r by_table [] d;
  tables ← map_r table_state (with_keys <$> t);
  Ok (Merged tables (metric_state <$> ms)).

Definition merge_retrieved_info (s : AgentState) : MA update_ :=
  node "合并召回信息" (
    cs ← lift (need "retrieved_column_infos" (retrieved_columns s));
    ms ← lift (need "retrieved_metric_infos" (retrieved_metrics s));
    vs ← lift (need "retrieved_value_infos" (retrieved_values s));
    lift (merge cs ms vs)).

(** *** Filtering *)

Definition keep_column (result_ : json) (t : TableState) (c : ColumnState) : result bool :=
  names ← json_at result_ (ts_name t);
  b ← json_in (cs_name c) names;
  Ok (b || is_key_role (cs_role c) || str_eqb (ts_name t) (u "dim_date")).

Definition filter_one_table (result_ : json) (t : TableState) : result (list TableState) :=
  b ← json_in (ts_name t) result_;
  if b : bool then
    cs ← filter_r (keep_column result_ t) (ts_columns t);
    Ok [{| ts_name := ts_name t; ts_role := ts_role t; ts_description := ts_description t;
           ts_columns := cs |}]
  else Ok [].

Definition filter_table (s : AgentState) : MA update_ :=
  node "过滤表信息" (
    ts ← lift (need "table_infos" (table_infos s));
    r ← outside (llm_json "filter_table_info"
          [("query", query s); ("table_infos", yaml_tables ts)]%string);
    kept ← lift (map_r (filter_one_table r) ts);
    mret (Tables (concat kept))).

Definition filter_metric (s : AgentState) : MA update_ :=
  node "过滤指标信息" (
    ms ← lift (need "metric_infos" (metric_infos s));
    r ← outside (llm_json "filter_metric_info"
          [("query", query s); ("metric_infos", yaml_metrics ms)]%string);
    kept ← lift (filter_r (λ m, json_in (ms_name m) r) ms);
    mret (FilteredMetrics kept)).

(** *** Context, generation, validation, correction, execution *)

Definition weekday_names : list pystr :=
  u <$> ["Monday"; "Tuesday"; "Wednesday"; "Thursday"; "Friday"; "Saturday"; "Sunday"]%string.

Definition date_state (d : date) : DateInfo :=
  {| di_date := iso_date d;
     di_weekday := nth (Z.to_nat (ordinal d mod 7)) weekday_names [];
     di_quarter := u "Q" ++ str_of_Z ((month d - 1) / 3 + 1) |}.

Definition add_extra_context (s : AgentState) : MA update_ :=
  node "添加额外上下文" (
    db ← on_database (get_db_info traced dialect_name);
    mret (Extra (date_state today) db)).

(** The context both prompts share. *)
Definition context_inputs (s : AgentState) : result (list (string * pystr)) :=
  ts ← need "table_infos" (table_infos s);
  ms ← need "metric_infos" (metric_infos s);
  d ← need "date_info" (date_info s);
  db ← need "db_info" (db_info s);
  Ok [("table_infos", yaml_tables ts); ("metric_infos", yaml_metrics ms);
      ("date_info", yaml_date d); ("db_info", yaml_db db); ("query", query s)]%string.

Definition UNSUPPORTED : pystr := u "UNSUPPORTED:".

Definition generate_sql (s : AgentState) : MA update_ :=
  node "生成SQL" (
    inputs ← lift (context_inputs s);
    r ← outside (llm_text "generate_sql" inputs);
    if startswith UNSUPPORTED (strip r)
    then raise (Exn ValueError (strip (removeprefix UNSUPPORTED (strip r))))
    else mret (Sql r)).

(** What both the validation and the execution check of a statement. *)
Definition check_sql (q text : pystr) : MA () :=
  lift (validate_relations text) ;;
  lift (validate_metrics q text) ;;
  lift (validate_period today q text) ;;
  on_database (dw_validate traced text).

Definition validate_sql (s : AgentState) : MA update_ :=
  node "校验SQL" (
    text ← lift (need "sql" (sql_text s));
    try_except (check_sql (query s) text ;; mret (Checked None))
      (λ e, mret (Checked (Some (exn_msg e))))).

Definition correct_sql (s : AgentState) : MA update_ :=
  node "校正SQL" (
    inputs ← lift (context_inputs s);
    text ← lift (need "sql" (sql_text s));
    err ← lift (need "error" (error s));
    r ← outside (llm_text "correct_sql"
          (inputs ++ [("sql", text); ("error", default (u "None") err)]%string));
    mret (Sql r)).

(** The result follows the success, both inside the [try]. *)
Definition run_sql (s : AgentState) : MA update_ :=
  emit (Progress (u "执行SQL") StRunning) ;;
  try_except (
    text ← lift (need "sql" (sql_text s));
    safe ← lift (safe_sql text);
    check_sql (query s) safe ;;
    rows ← on_database (dw_run traced safe);
    emit (Progress (u "执行SQL") StSuccess) ;;
    emit (Result rows safe MAX_ROWS) ;;
    mret Nothing)
    (λ e, emit (Progress (u "执行SQL") StError) ;; raise e).

(** ** The graph *)

(** A superstep of one node. *)
Definition step (f : AgentState → MA update_) (s : AgentState) : MA AgentState :=
  v ← f s; mret (apply_update s v).

(** The run of each node of a superstep on its own event list; an exception ends it. *)
Fixpoint side_by_side (fs : list (MA update_)) (r : Run) : Run * list (list Event) * result (list update_) :=
  match fs with
  | [] => (r, [], Ok [])
  | f :: fs' =>
      match f {| world := world r; executed := executed r; events := [] |} with
      | (r1, x) =>
          match side_by_side fs' {| world := world r1; executed := executed r1; events := events r |} with
          | (r2, es, xs) =>
              (r2, events r1 :: es,
               match x, xs with
               | Ok v, Ok vs => Ok (v :: vs)
               | Raise e, _ => Raise e
               | _, Raise e => Raise e
               end)
          end
      end
  end.

(** A superstep of several nodes: they all see the state before it. *)
Definition superstep (fs : list (AgentState → MA update_)) (s : AgentState) : MA AgentState := λ r,
  match side_by_side ((λ f, f s) <$> fs) r with
  | (r', es, x) =>
      ({| world := world r'; executed := executed r'; events := events r ++ schedule es |},
       foldl apply_update s <$> x)
  end.

Definition graph (s : AgentState) : MA AgentState :=
  s ← step extract_keywords s;
  s ← superstep [recall_column; recall_value; recall_metric] s;
  s ← step merge_retrieved_info s;
  s ← superstep [filter_table; filter_metric] s;
  s ← step add_extra_context s;
  s ← step generate_sql s;
  s ← step validate_sql s;
  err ← lift (need "error" (error s));
  s ← match err with None => mret s | Some _ => step correct_sql s end;
  step run_sql s.
End agent.
