(* ===== verification/AgentSpec.v ===== *)
(** * What the agent may do

    Whatever the model, the indexes and the database answer: the statements that reach
    the warehouse, and when a result is streamed. *)
From S2P Require Import Prelude.
From S2P Require Import PyStr.
From S2P Require Import PyRe.
From S2P Require Import Json.
From S2P Require Import PyTime.
From S2P Require Import Sql.
From S2P Require Import SqlSpec.
From S2P Require Import Business.
From S2P Require Import Retrieval.
From S2P Require Import Entities.
From S2P Require Import Agent.

Section spec.
Context {UT : UnicodeTables} {SG : SqlGlot} {W V : Type}.
Variable execute : pystr → M W (list (list (pystr * json))).
Variable dialect_name : pystr.
Variable meta_db : MetaDB.
Variable driver_json : json → json.
Variable llm_json : string → list (string * pystr) → M W json.
Variable llm_text : string → list (string * pystr) → M W pystr.
Variable extract_tags : pystr → list pystr.
Variable embed_terms : list pystr → result (list V).
Variable timed_out : bool.
Variable search_columns : V → result (list ColumnInfo).
Variable search_metrics : V → result (list MetricInfo).
Variable search_values : pystr → result (list ValueInfo).
Variable today : date.
Variable yaml_tables : list TableState → pystr.
Variable yaml_metrics : list MetricState → pystr.
Variable yaml_date : DateInfo → pystr.
Variable yaml_db : list (pystr * json) → pystr.
Variable schedule : list (list Event) → list Event.
(** The stream of a superstep holds only events its nodes wrote. *)
Hypothesis schedule_events : ∀ es e, e ∈ schedule es → e ∈ concat es.

Abbreviation R := (Run (W:=W)).
Abbreviation MA := (M R).

(** A statement the agent may send: its own two, or a guarded one, maybe explained. *)
Definition allowed (q : pystr) : Prop :=
  q = u "select version()" ∨ q = SESSION_LIMIT ∨
  ∃ text safe, safe_sql text = Ok safe ∧ (q = safe ∨ q = u "explain " ++ safe).

Definition is_progress (e : Event) : Prop :=
  match e with Progress _ _ => True | Result _ _ _ => False end.

(** [l'] is [l] and more elements in [P]. *)
Definition grows {A} (P : A → Prop) (l l' : list A) : Prop := ∃ x, l' = l ++ x ∧ Forall P x.

#[local] Instance grows_preorder {A} (P : A → Prop) : PreOrder (grows P).
Proof.
  split.
  - intros l. exists []. by rewrite app_nil_r.
  - intros l1 l2 l3 (x & -> & Hx) (y & -> & Hy). exists (x ++ y).
    rewrite app_assoc, Forall_app. auto.
Qed.

Definition guarded (r r' : R) : Prop := grows allowed (executed r) (executed r').
Definition quiet (r r' : R) : Prop :=
  guarded r r' ∧ grows is_progress (events r) (events r').

#[local] Instance guarded_preorder : PreOrder guarded.
Proof. unfold guarded. split; [intros r; reflexivity|]. intros r1 r2 r3 H1 H2. by etrans. Qed.
#[local] Instance quiet_preorder : PreOrder quiet.
Proof.
  split; [intros r; split; reflexivity|].
  intros r1 r2 r3 [H1 H2] [H3 H4]. split; by etrans.
Qed.

Lemma grows_refl {A} (P : A → Prop) l : grows P l l.
Proof. reflexivity. Qed.

Lemma quiet_guarded {A} (m : MA A) : keeps quiet m → keeps guarded m.
Proof. intros H r r' x Hm. by apply H in Hm as [? _]. Qed.

(** ** The steps of a node *)

Lemma emit_quiet st s : keeps quiet (emit (Progress st s) : MA ()).
Proof.
  intros r r' x [= <- _]. split; [apply grows_refl|]. eexists. split; [done|]. by constructor.
Qed.

Lemma outside_quiet {A} (m : M W A) : keeps quiet (outside m : MA A).
Proof.
  intros r r' x. unfold outside. destruct (m (world r)). intros [= <- _].
  split; apply grows_refl.
Qed.

Definition db_guarded (s s' : W * list pystr) : Prop := grows allowed s.2 s'.2.
#[local] Instance db_guarded_preorder : PreOrder db_guarded.
Proof. unfold db_guarded. split; [intros s; reflexivity|]. intros s1 s2 s3 H1 H2. by etrans. Qed.

Lemma traced_guarded q : allowed q → keeps db_guarded (traced execute q).
Proof.
  intros Hq s s' x. unfold traced, modify, on_fst, mbind, M_bind. cbn.
  destruct (execute q s.1). intros [= <- _]. exists [q]. split; [done|]. by constructor.
Qed.

Lemma on_database_quiet {A} (m : M (W * list pystr) A) :
  keeps db_guarded m → keeps quiet (on_database m : MA A).
Proof.
  intros Hm r r' x. unfold on_database. destruct (m (world r, executed r)) as [[w l] y] eqn:H.
  intros [= <- _]. apply Hm in H. split; [exact H|apply grows_refl].
Qed.

Lemma get_db_info_guarded : keeps db_guarded (get_db_info (traced execute) dialect_name).
Proof. unfold get_db_info. keeps_step; [apply traced_guarded; by left|keeps_steps]. Qed.

Lemma safe_allowed text safe : safe_sql text = Ok safe → allowed safe ∧ allowed (u "explain " ++ safe).
Proof. intros H. split; right; right; exists text, safe; auto. Qed.

Lemma lift_keeps {S A B} (P : S → S → Prop) `{!PreOrder P} (r : result A) (f : A → M S B) :
  (∀ a, r = Ok a → keeps P (f a)) → keeps P (a ← lift r; f a).
Proof.
  intros H s s' x. unfold mbind, M_bind, lift. destruct r as [a|e] eqn:E.
  - intros Hf. by eapply (H a).
  - by intros [= <- _].
Qed.

Lemma dw_validate_guarded text : keeps db_guarded (dw_validate (traced execute) text).
Proof.
  apply (lift_keeps _). intros safe [_ H]%safe_allowed.
  keeps_step; [by apply traced_guarded|keeps_steps].
Qed.

Lemma dw_run_guarded text : keeps db_guarded (dw_run (traced execute) text).
Proof.
  apply (lift_keeps _). intros safe [H _]%safe_allowed.
  keeps_step; [apply traced_guarded; by right; left|].
  keeps_step; [by apply traced_guarded|keeps_steps].
Qed.

#[local] Hint Extern 1 (keeps quiet (emit (Progress _ _))) => apply emit_quiet : keeps.
#[local] Hint Extern 1 (keeps quiet (outside _)) => apply outside_quiet : keeps.
#[local] Hint Extern 1 (keeps quiet (on_database _)) =>
  apply on_database_quiet; auto using get_db_info_guarded, dw_validate_guarded, dw_run_guarded : keeps.

Lemma node_quiet st (body : MA update_) : keeps quiet body → keeps quiet (node st body).
Proof. intros H. unfold node. keeps_steps. Qed.

Lemma check_sql_quiet q text : keeps quiet (check_sql execute today q text : MA ()).
Proof. unfold check_sql. keeps_steps. Qed.
#[local] Hint Extern 1 (keeps quiet (check_sql _ _ _ _)) => apply check_sql_quiet : keeps.

(** ** The graph *)

Definition quiet_node (f : AgentState → MA update_) : Prop := ∀ s, keeps quiet (f s).

Ltac quiet_node := intros s; apply node_quiet; keeps_steps.

Lemma extract_keywords_quiet : quiet_node (extract_keywords extract_tags).
Proof. quiet_node. Qed.
Lemma recall_column_quiet :
  quiet_node (recall_column llm_json embed_terms timed_out search_columns).
Proof. quiet_node. Qed.
Lemma recall_metric_quiet :
  quiet_node (recall_metric llm_json embed_terms timed_out search_metrics).
Proof. quiet_node. Qed.
Lemma recall_value_quiet : quiet_node (recall_value llm_json timed_out search_values).
Proof. quiet_node. Qed.
Lemma merge_quiet : quiet_node (merge_retrieved_info meta_db driver_json).
Proof. quiet_node. Qed.
Lemma filter_table_quiet : quiet_node (filter_table llm_json yaml_tables).
Proof. quiet_node. Qed.
Lemma filter_metric_quiet : quiet_node (filter_metric llm_json yaml_metrics).
Proof. quiet_node. Qed.
Lemma add_extra_context_quiet : quiet_node (add_extra_context execute dialect_name today).
Proof. quiet_node. Qed.
Lemma generate_sql_quiet :
  quiet_node (generate_sql llm_text yaml_tables yaml_metrics yaml_date yaml_db).
Proof. quiet_node. Qed.
Lemma validate_sql_quiet : quiet_node (validate_sql execute today).
Proof. quiet_node. Qed.
Lemma correct_sql_quiet :
  quiet_node (correct_sql llm_text yaml_tables yaml_metrics yaml_date yaml_db).
Proof. quiet_node. Qed.

Lemma side_by_side_quiet fs (r r' : R) es x :
  Forall (keeps quiet) fs → side_by_side fs r = (r', es, x) →
  guarded r r' ∧ events r' = events r ∧ Forall is_progress (concat es).
Proof.
  intros Hfs. revert r r' es x. induction Hfs as [|f fs Hf _ IH]; intros r r' es x; cbn.
  - intros [= <- <- _]. split_and!; [reflexivity|done|constructor].
  - destruct (f _) as [r1 y] eqn:H1. apply Hf in H1 as [Hg (new & Hev & Hp)]. cbn in Hg, Hev.
    destruct (side_by_side fs _) as [[r2 es'] xs] eqn:H2. apply IH in H2 as (Hg2 & He2 & Hp2).
    intros [= <- <- _]. cbn in Hg2, He2. split_and!.
    + by etrans.
    + done.
    + cbn [concat]. rewrite Hev. by apply Forall_app.
Qed.

Lemma superstep_quiet fs s : Forall quiet_node fs → keeps quiet (superstep schedule fs s).
Proof.
  intros Hfs r r' x. unfold superstep.
  destruct (side_by_side _ r) as [[r1 es] y] eqn:H.
  apply side_by_side_quiet in H as (Hg & He & Hp).
  - intros [= <- _]. split; [exact Hg|]. exists (schedule es). split; [done|].
    apply Forall_forall. intros e Hin%schedule_events.
    exact (proj1 (Forall_forall _ _) Hp e Hin).
  - rewrite Forall_fmap. eapply Forall_impl; [exact Hfs|]. intros f Hf. apply Hf.
Qed.

Lemma step_quiet f s : quiet_node f → keeps quiet (step f s).
Proof. intros H. unfold step. keeps_step; [apply H|keeps_steps]. Qed.

Abbreviation run_ := (run_sql execute today).
Abbreviation graph_ := (graph execute dialect_name meta_db driver_json llm_json llm_text
  extract_tags embed_terms timed_out search_columns search_metrics search_values today
  yaml_tables yaml_metrics yaml_date yaml_db schedule).

(** A statement that passed every check of the execution node. *)
Definition checked (q safe : pystr) : Prop :=
  (∃ text, safe_sql text = Ok safe) ∧ validate_relations safe = Ok tt ∧
  validate_metrics q safe = Ok tt ∧ validate_period today q safe = Ok tt.

(** How the last node ends: with the result of a checked statement, or without one. *)
Definition ends (q : pystr) (r r' : R) (x : result AgentState) : Prop :=
  guarded r r' ∧
  match x with
  | Ok _ => ∃ rows safe final, checked q safe ∧ safe_sql safe = Ok final ∧
      last (executed r') = Some final ∧
      events r' = events r ++ [Progress (u "执行SQL") StRunning;
        Progress (u "执行SQL") StSuccess; Result rows safe MAX_ROWS]
  | Raise _ => grows is_progress (events r) (events r')
  end.

Lemma emit_run e (r r' : R) x : emit e r = (r', x) →
  x = Ok tt ∧ executed r' = executed r ∧ events r' = events r ++ [e].
Proof. by intros [= <- <-]. Qed.

Lemma check_sql_run q text (r r' : R) :
  check_sql execute today q text r = (r', Ok tt) →
  events r' = events r ∧ validate_relations text = Ok tt ∧ validate_metrics q text = Ok tt ∧
  validate_period today q text = Ok tt.
Proof.
  intros H. unfold check_sql in H.
  apply M_bind_ok in H as (r1 & [] & [-> H1]%lift_ok & H).
  apply M_bind_ok in H as (r2 & [] & [-> H2]%lift_ok & H).
  apply M_bind_ok in H as (r3 & [] & [-> H3]%lift_ok & H).
  unfold on_database in H. destruct (dw_validate _ _ _) as [[w l] y]. by injection H as <- _.
Qed.

Lemma dw_run_last text (s s' : W * list pystr) rows :
  dw_run (traced execute) text s = (s', Ok rows) →
  ∃ final, safe_sql text = Ok final ∧ last s'.2 = Some final.
Proof.
  intros H. unfold dw_run in H.
  apply M_bind_ok in H as (s1 & final & [-> Hf]%lift_ok & H).
  apply M_bind_ok in H as (s2 & ? & _ & H). apply M_bind_ok in H as (s3 & raw & Ht & H).
  injection H as -> _. exists final. split; [done|].
  unfold traced, modify, on_fst, mbind, M_bind in Ht. cbn in Ht.
  destruct (execute final s2.1). injection Ht as <- _. cbn. apply last_snoc.
Qed.

(** A computation that may only raise quietly. *)
Definition raises_quietly {A} (m : MA A) : Prop := ∀ r r' e, m r = (r', Raise e) → quiet r r'.

Lemma raises_bind {A B} (m : MA A) (f : A → MA B) :
  keeps quiet m → (∀ a, raises_quietly (f a)) → raises_quietly (m ≫= f).
Proof.
  intros Hm Hf r r' e. unfold mbind, M_bind. destruct (m r) as [r1 [a|e']] eqn:E;
    apply Hm in E.
  - intros H%Hf. by etrans.
  - by intros [= <- _].
Qed.

Lemma run_body_quiet (s : AgentState) : raises_quietly (
  text ← lift (need "sql" (sql_text s));
  safe ← lift (safe_sql text);
  check_sql execute today (query s) safe ;;
  rows ← on_database (dw_run (traced execute) safe);
  emit (Progress (u "执行SQL") StSuccess) ;;
  emit (Result rows safe MAX_ROWS) ;;
  mret Nothing : MA update_).
Proof.
  do 4 (apply raises_bind; [keeps_steps|intros ?]).
  intros r r' e H. discriminate H.
Qed.

Lemma run_sql_ends s (r r' : R) x : step run_ s r = (r', x) → ends (query s) r r' x.
Proof.
  unfold step. intros H. unfold mbind, M_bind in H.
  destruct (run_ s r) as [r1 y] eqn:Hr. unfold run_sql in Hr.
  unfold mbind at 1, M_bind at 1 in Hr.
  destruct (emit _ r) as [r2 z] eqn:He. apply emit_run in He as (-> & Hx2 & He2).
  unfold try_except in Hr. cbn beta iota in Hr.
  match type of Hr with (match ?m r2 with _ => _ end) = _ => destruct (m r2) as [r3 [v|e]] eqn:Hb end.
  - injection Hr as <- <-. injection H as <- <-.
    apply M_bind_ok in Hb as (r4 & text & [-> Ht]%lift_ok & Hb).
    apply M_bind_ok in Hb as (r5 & safe & [-> Hs]%lift_ok & Hb).
    apply M_bind_ok in Hb as (r6 & [] & Hc & Hb).
    pose proof (check_sql_quiet _ _ _ _ _ Hc) as [Hg6 _].
    apply check_sql_run in Hc as (He6 & H1 & H2 & H3).
    apply M_bind_ok in Hb as (r7 & rows & Hd & Hb).
    pose proof (on_database_quiet _ (dw_run_guarded safe) _ _ _ Hd) as [Hg7 _].
    unfold on_database in Hd. destruct (dw_run _ _ _) as [[w l] z] eqn:Hrun.
    injection Hd as <- ->. apply dw_run_last in Hrun as (final & Hf & Hl).
    apply M_bind_ok in Hb as (r8 & ? & Hm1 & Hb). apply emit_run in Hm1 as (_ & Hx8 & He8).
    apply M_bind_ok in Hb as (r9 & ? & Hm2 & Hb). apply emit_run in Hm2 as (_ & Hx9 & He9).
    injection Hb as <- _. split.
    + unfold guarded. rewrite Hx9, Hx8. cbn. etrans; [|exact Hg7]. rewrite <- Hx2. exact Hg6.
    + exists rows, safe, final. split_and!; [|done| |].
      * split; [by exists text|done].
      * by rewrite Hx9, Hx8.
      * rewrite He9, He8. cbn [events]. rewrite He6, He2, <- !app_assoc. done.
  - assert (quiet r2 r3) as Hq.
    { eapply run_body_quiet. exact Hb. }
    unfold mbind, M_bind in Hr. destruct (emit _ r3) as [r4 z] eqn:He4.
    assert (quiet r3 r4) as Hq4 by (eapply emit_quiet; exact He4).
    apply emit_run in He4 as (-> & _). injection Hr as <- <-. injection H as <- <-.
    assert (quiet r r2) as Hq2.
    { split; [unfold guarded; by rewrite Hx2|]. eexists. split; [exact He2|by constructor]. }
    assert (quiet r r4) as [Hg Hp] by (etrans; [exact Hq2|]; by etrans).
    split; [exact Hg|exact Hp].
Qed.

(** How the graph ends, for the question [q]. *)
Definition conclusion (q : pystr) (r r' : R) (x : result AgentState) : Prop :=
  (∃ sent, executed r' = executed r ++ sent ∧ Forall allowed sent) ∧
  match x with
  | Raise _ => ∃ es, events r' = events r ++ es ∧ Forall is_progress es
  | Ok _ => ∃ es rows safe final,
      events r' = events r ++ es ++ [Result rows safe MAX_ROWS] ∧ Forall is_progress es ∧
      checked q safe ∧ safe_sql safe = Ok final ∧ last (executed r') = Some final
  end.
Definition concludes (q : pystr) (m : MA AgentState) : Prop :=
  ∀ r r' x, m r = (r', x) → conclusion q r r' x.

Lemma concludes_bind {A} q (m : MA A) (f : A → MA AgentState) :
  keeps quiet m → (∀ a r1 r2, m r1 = (r2, Ok a) → concludes q (f a)) → concludes q (m ≫= f).
Proof.
  intros Hm Hf r r' x. unfold mbind, M_bind. destruct (m r) as [r1 [a|e]] eqn:E;
    pose proof (Hm _ _ _ E) as [Hg (es & He & Hp)].
  - intros H. apply (Hf _ _ _ E) in H as [Hs Hx].
    split; [change (guarded r r'); by etrans|]. destruct x as [s'|e].
    + destruct Hx as (es' & rows & safe & final & He' & Hp' & Hrest).
      exists (es ++ es'), rows, safe, final. split_and!; [|by apply Forall_app|apply Hrest..].
      by rewrite He', He, <- !app_assoc.
    + destruct Hx as (es' & He' & Hp'). exists (es ++ es').
      by rewrite He', He, <- app_assoc, Forall_app.
  - intros [= <- <-]. split; [exact Hg|]. by exists es.
Qed.

Lemma run_sql_concludes s : concludes (query s) (step run_ s).
Proof.
  intros r r' x H. apply run_sql_ends in H as [Hg Hx]. split; [exact Hg|].
  destruct x as [s'|e]; [|exact Hx].
  destruct Hx as (rows & safe & final & Hc & Hs & Hl & He).
  eexists [_; _], rows, safe, final. split_and!; [exact He|repeat constructor|done..].
Qed.

Lemma apply_update_query s v : query (apply_update s v) = query s.
Proof. by destruct s, v. Qed.

Lemma step_query f s (r r' : R) s' : step f s r = (r', Ok s') → query s' = query s.
Proof.
  unfold step. intros H. apply M_bind_ok in H as (r1 & v & _ & H). injection H as _ <-.
  apply apply_update_query.
Qed.

Lemma superstep_query fs s (r r' : R) s' :
  superstep schedule fs s r = (r', Ok s') → query s' = query s.
Proof.
  unfold superstep. destruct (side_by_side _ r) as [[r1 es] [vs|e]]; [|done].
  cbn [fmap result_fmap]. intros [= _ <-]. revert s.
  induction vs as [|v vs IH]; intros s; [done|]. cbn. rewrite IH. apply apply_update_query.
Qed.

Ltac next lem :=
  let E := fresh "E" in let s' := fresh "st" in let ra := fresh "ra" in let rb := fresh "rb" in
  intros s' ra rb E; apply lem in E; rewrite <- E; clear E ra rb.

Lemma graph_concludes s : concludes (query s) (graph_ s).
Proof.
  unfold graph.
  apply concludes_bind; [apply step_quiet, extract_keywords_quiet|]. next step_query.
  apply concludes_bind; [apply superstep_quiet; repeat apply Forall_cons_2;
    auto using recall_column_quiet, recall_value_quiet, recall_metric_quiet, Forall_nil_2|].
  next superstep_query.
  apply concludes_bind; [apply step_quiet, merge_quiet|]. next step_query.
  apply concludes_bind; [apply superstep_quiet; repeat apply Forall_cons_2;
    auto using filter_table_quiet, filter_metric_quiet, Forall_nil_2|]. next superstep_query.
  apply concludes_bind; [apply step_quiet, add_extra_context_quiet|]. next step_query.
  apply concludes_bind; [apply step_quiet, generate_sql_quiet|]. next step_query.
  apply concludes_bind; [apply step_quiet, validate_sql_quiet|]. next step_query.
  apply concludes_bind; [keeps_steps|]. intros [msg|] ra rb _.
  - apply concludes_bind; [apply step_quiet, correct_sql_quiet|]. next step_query.
    apply run_sql_concludes.
  - apply concludes_bind; [keeps_steps|]. intros s8 rc rd [= _ <-]. apply run_sql_concludes.
Qed.

End spec.
