(* ===== verification/AgentCases.v ===== *)
(** * The agent on a question

    A run of the graph over the statements of SqlCases.v and the metadata of MetaSpec.v:
    a model that answers well, one that is corrected, and one that never does. *)
From S2P Require Import Prelude.
From S2P Require Import PyStr.
From S2P Require Import Json.
From S2P Require Import PyTime.
From S2P Require Import Sql.
From S2P Require Import SqlCases.
From S2P Require Import Business.
From S2P Require Import Retrieval.
From S2P Require Import Entities.
From S2P Require Import MetaSpec.
From S2P Require Import Agent.
From S2P Require Import AgentSpec.

Section cases.
#[local] Existing Instances AsciiCjk toy.

Definition one_row (_ : pystr) : M Z (list (list (pystr * json))) :=
  mret [[(u "aov", JInt 42)]].

Definition metadata : MetaDB :=
  {| table_info := [TableInfoMapper.to_model {| tab_id := u "fact_order";
       tab_name := u "fact_order"; tab_role := u "fact"; tab_description := u "orders" |}];
     column_info := [ColumnInfoMapper.to_model amount]; metric_info := [];
     column_metric := [] |}.

Definition prompts (name : string) (_ : list (string * pystr)) : M Z json := mret
  (if String.eqb name "filter_table_info"
   then JObj [(u "fact_order", JList [js "amount"])] else JList [js "sales"]).

(** What the model writes, and what it writes when asked to correct. *)
Definition writes (sql corrected : string) (name : string) (_ : list (string * pystr))
    : M Z pystr :=
  mret (if String.eqb name "correct_sql" then u corrected else u sql).

Definition start : Run := {| world := 0; executed := []; events := [] |}.

Abbreviation ask sql corrected :=
  (graph one_row (u "mysql") metadata (λ v, v) prompts (writes sql corrected) (λ _, [])
     (λ ts, Ok ts) false (λ _, Ok [amount]) (λ _, Ok []) (λ _, Ok []) today0
     (λ _, []) (λ _, []) (λ _, []) (λ _, []) (@concat Event)
     (initial question) start).

Example answered :
  (ask "SELECT q0" "").1 = {| world := 0;
    executed := [u "select version()"; u "explain SELECT q0 LIMIT 500";
                 u "explain SELECT q0 LIMIT 500"; SESSION_LIMIT; u "SELECT q0 LIMIT 500"];
    events := events (ask "SELECT q0" "").1 |} ∧
  length (events (ask "SELECT q0" "").1) = 23%nat ∧
  last (events (ask "SELECT q0" "").1)
    = Some (Result [JObj [(u "aov", JInt 42)]] (u "SELECT q0 LIMIT 500") 500).
Proof. by vm_compute. Qed.

(** A wrong month is corrected once; a second wrong answer is an error. *)
Example corrected_once :
  is_ok (ask "SELECT q1" "SELECT q0").2 = true ∧
  (ask "SELECT q1" "SELECT q1").2 = Raise (month_contract 1) ∧
  (ask "UNSUPPORTED: no profit" "").2 = Raise (Exn ValueError (u "no profit")).
Proof. by vm_compute. Qed.

Lemma concat_events (es : list (list Event)) e : e ∈ concat es → e ∈ concat es.
Proof. done. Qed.

End cases.
