(* ===== verification/ServiceSpec.v ===== *)
(** * What the warehouse service promises its callers

    The event stream is read back exactly, and every question ends with one verdict;
    cases of the router and of the middleware. *)
From S2P Require Import Prelude.
From S2P Require Import PyStr.
From S2P Require Import PyRe.
From S2P Require Import Json.
From S2P Require Import JsonParse.
From S2P Require Import PyTime.
From S2P Require Import Sql.
From S2P Require Import Business.
From S2P Require Import Retrieval.
From S2P Require Import Entities.
From S2P Require Import Agent.
From S2P Require Import AgentSpec.
From S2P Require Import Service.

(** ** Reading the stream *)

(** The blocks of a stream, each ended by an empty line. *)
Fixpoint blocks (acc s : pystr) : list pystr :=
  match s with
  | [] => []
  | c :: s1 =>
      match s1 with
      | d :: s2 => if (c =? 10) && (d =? 10) then rev acc :: blocks [] s2
                   else blocks (c :: acc) s1
      | [] => []
      end
  end.

Definition no_newline (s : pystr) : Prop := Forall (λ c, c ≠ 10) s.

Lemma blocks_line s acc rest :
  no_newline s → blocks acc (s ++ 10 :: 10 :: rest) = (rev acc ++ s) :: blocks [] rest.
Proof.
  intros Hs. revert acc. induction Hs as [|c s Hc _ IH]; intros acc.
  - by rewrite app_nil_r.
  - change ((c :: s) ++ 10 :: 10 :: rest) with (c :: (s ++ 10 :: 10 :: rest)).
    cbn [blocks]. rewrite (proj2 (Z.eqb_neq c 10)) by done. cbn [andb].
    destruct (s ++ 10 :: 10 :: rest) as [|d t] eqn:E; [by destruct s|].
    rewrite IH. cbn [rev]. by rewrite <- app_assoc.
Qed.

(** The event of a block. *)
Definition event_of {JR : JsonRuntime} (b : pystr) : option json :=
  if startswith (u "data: ") b
  then match loads (removeprefix (u "data: ") b) with Ok v => Some v | Raise _ => None end
  else None.
Definition read_stream {JR : JsonRuntime} (s : pystr) : list (option json) :=
  event_of <$> blocks [] s.

(** *** A printed value is one line *)

Lemma hex_digit_no_newline n : 0 ≤ n < 16 → hex_digit n ≠ 10.
Proof. intros H%hex_digit_printable. unfold printable in H. lia. Qed.

Lemma printable_no_newline s : Forall printable s → no_newline s.
Proof. intros H. eapply Forall_impl; [exact H|]. unfold printable. lia. Qed.

Lemma escape_char_no_newline c : 0 ≤ c → no_newline (escape_char false c).
Proof.
  intros Hc. unfold escape_char.
  repeat match goal with
  | |- context [if ?x =? ?y then _ else _] =>
      destruct (Z.eqb_spec x y) as [->|?]; [by repeat constructor|]
  end.
  destruct (Z.ltb_spec c 32); [by apply printable_no_newline, u_escape_printable|].
  cbn [negb orb]. by repeat constructor.
Qed.

Lemma dump_str_no_newline s :
  forallb is_scalar s = true → no_newline (dump_str false s).
Proof.
  intros Hs. unfold dump_str. constructor; [done|]. apply Forall_app.
  split; [|by repeat constructor].
  apply Forall_concat, Forall_fmap, Forall_forall. intros c Hc. apply escape_char_no_newline.
  rewrite forallb_forall in Hs. specialize (Hs c (proj1 (list_elem_of_In _ _) Hc)).
  unfold is_scalar in Hs. rewrite !andb_true_iff, Z.leb_le in Hs. apply Hs.
Qed.

Lemma join_no_newline sep l :
  no_newline sep → Forall no_newline l → no_newline (join sep l).
Proof.
  intros Hs. induction 1 as [|s l Hp Hl IH]; [constructor|]. destruct l as [|t l]; [done|].
  change (join sep (s :: t :: l)) with (s ++ sep ++ join sep (t :: l)).
  unfold no_newline in *. by rewrite !Forall_app.
Qed.

Lemma dump_no_newline v : plain v → no_newline (dumps false false v).
Proof.
  induction v as [|b|z|r|s|l IH|kvs IH] using json_ind'; intros Hv.
  - by repeat constructor.
  - destruct b; by repeat constructor.
  - apply printable_no_newline, (dump_printable (JInt z) Hv).
  - done.
  - by apply dump_str_no_newline.
  - apply plain_list in Hv. cbn [dumps]. unfold dump_seq. constructor; [done|].
    apply Forall_app. split; [|by repeat constructor]. apply join_no_newline; [by repeat constructor|].
    apply Forall_fmap. eapply Forall_impl; [apply Forall_and; split; [exact IH|exact Hv]|].
    cbn. tauto.
  - apply plain_obj in Hv as (_ & Hk & Hv). rewrite dump_obj. constructor; [done|].
    apply Forall_app. split; [|by repeat constructor]. apply join_no_newline; [by repeat constructor|].
    apply Forall_fmap, Forall_forall. intros [k v] Hin. unfold dump_pair, compose, no_newline.
    cbn [fst snd].
    rewrite forallb_forall in Hk. rewrite Forall_forall in Hv, IH.
    rewrite !Forall_app. split; [|split; [by repeat constructor|]].
    + apply dump_str_no_newline, (Hk (k, v)). by apply list_elem_of_In.
    + apply (IH (k, v) Hin), (Hv (k, v) Hin).
Qed.

(** C37. The stream of events is read back as sent: for messages without floats, whose
    strings are Unicode text, whose keys are distinct and whose integers are within the
    digit limit, splitting the text at empty lines and parsing what follows [data: ]
    gives the messages, in order, however many there are and whatever newlines their
    strings hold. *)
Theorem stream_roundtrip {JR : JsonRuntime} (ms : list (list (pystr * json))) :
  Forall (λ m, plain (JObj m)) ms →
  read_stream (concat (sse <$> ms)) = (λ m, Some (JObj m)) <$> ms.
Proof.
  unfold read_stream. induction 1 as [|m ms Hm _ IH]; [done|]. rewrite !fmap_cons.
  change (concat (sse m :: (sse <$> ms))) with (sse m ++ concat (sse <$> ms)).
  unfold sse at 1. rewrite app_assoc, <- app_assoc. cbn [app].
  rewrite blocks_line.
  2: { apply Forall_app. split; [by repeat constructor|by apply dump_no_newline]. }
  rewrite fmap_cons, IH. f_equal. cbn [rev app].
  change (event_of (u "data: " ++ dumps false false (JObj m)) = Some (JObj m)).
  unfold event_of. change (u "data: ") with [100; 97; 116; 97; 58; 32].
  cbn [app startswith Z.eqb Pos.eqb andb].
  change (removeprefix [100; 97; 116; 97; 58; 32]
            (100 :: 97 :: 116 :: 97 :: 58 :: 32 :: dumps false false (JObj m)))
    with (dumps false false (JObj m)).
  by rewrite scan_dump_loads.
Qed.

(** ** One verdict per question *)

Definition type_is (t : string) (c : list (pystr * json)) : Prop :=
  assoc (u "type") c = Some (js t).
(** Stamped with the request and the time since it began. *)
Definition identified (request_id : pystr) (c : list (pystr * json)) : Prop :=
  assoc (u "request_id") c = Some (JStr request_id) ∧
  ∃ ms, assoc (u "elapsed_ms") c = Some (JInt ms).

Section messages.
Variable round_ms : Z → Z → Z.
Variable repr_str : pystr → pystr.
Variable request_id : pystr.
Variable started : Z.
Abbreviation timed_ := (timed round_ms request_id started).
Abbreviation stamped_ := (stamped round_ms request_id started).

Lemma stamped_identified c now : identified request_id (stamped_ c now).
Proof.
  unfold identified, stamped. split; [|eexists; apply assoc_set_same].
  rewrite assoc_set_other by (by vm_compute). apply assoc_set_same.
Qed.

Lemma stamped_type t c now : type_is t c → type_is t (stamped_ c now).
Proof.
  unfold type_is, stamped. intros H. by rewrite !assoc_set_other by (by vm_compute).
Qed.

(** A message of an event: its type, and who it belongs to. *)
Lemma timed_spec e now starts :
  identified request_id (timed_ e now starts).1 ∧
  type_is (match e with Progress _ _ => "progress" | Result _ _ _ => "result" end)
    (timed_ e now starts).1.
Proof.
  assert (∀ c n t, identified request_id c ∧ type_is t c →
    identified request_id (assoc_set (u "duration_ms") (JInt n) c)
    ∧ type_is t (assoc_set (u "duration_ms") (JInt n) c)) as Hd.
  { unfold identified, type_is. intros c n t. by rewrite !assoc_set_other by (by vm_compute). }
  assert (∀ c t, type_is t c → identified request_id (stamped_ c now)
    ∧ type_is t (stamped_ c now)) as Hs.
  { split; [apply stamped_identified|by apply stamped_type]. }
  destruct e as [step [| |]|data sql n]; cbn [timed fst]; [by apply Hs| | |by apply Hs];
    (destruct (assoc step starts); cbn [fst]; [apply Hd|]; by apply Hs).
Qed.

Lemma encode_all_spec es starts :
  Forall (identified request_id) (encode_all round_ms request_id started es starts) ∧
  Forall2 (λ c e, type_is (match e.1 with
      Progress _ _ => "progress" | Result _ _ _ => "result" end) c)
    (encode_all round_ms request_id started es starts) es.
Proof.
  revert starts. induction es as [|[e now] es IH]; intros starts; [by split|].
  cbn [encode_all]. destruct (timed_spec e now starts) as [Hi Ht].
  destruct (timed_ e now starts) as [c starts']. destruct (IH starts') as [IHi IHt].
  split; by constructor.
Qed.

Lemma encode_all_app es es' starts : ∃ starts',
  encode_all round_ms request_id started (es ++ es') starts
  = encode_all round_ms request_id started es starts
    ++ encode_all round_ms request_id started es' starts'.
Proof.
  revert starts. induction es as [|[e now] es IH]; intros starts; [by exists starts|].
  cbn [encode_all app]. destruct (timed_ e now starts) as [c starts1].
  destruct (IH starts1) as [starts' ->]. by exists starts'.
Qed.

(** Messages that only report progress. *)
Lemma encode_all_progress es starts :
  Forall is_progress es.*1 →
  Forall (type_is "progress") (encode_all round_ms request_id started es starts).
Proof.
  intros Hp. destruct (encode_all_spec es starts) as [_ Ht].
  revert Hp. induction Ht as [|c [e now] cs es Hc _ IH]; intros Hp; [done|].
  inversion_clear Hp as [|? ? H1 H2]. constructor; [|auto]. by destruct e.
Qed.

Definition verdict (ms : list (list (pystr * json))) : Prop :=
  ∃ ps c, ms = ps ++ [c] ∧ Forall (type_is "progress") ps ∧
    (type_is "result" c ∨ type_is "error" c) ∧ Forall (identified request_id) ms.

(** The messages of a run that concluded as the agent does. *)
Lemma stream_verdict es (x : result AgentState) t :
  match x with
  | Ok _ => ∃ ps rows sql n, es.*1 = ps ++ [Result rows sql n] ∧ Forall is_progress ps
  | Raise _ => Forall is_progress es.*1
  end →
  verdict (query_stream round_ms repr_str request_id started es x t).
Proof.
  unfold query_stream. destruct x as [st|e].
  - intros (ps & rows & sql & n & He & Hp). rewrite app_nil_r.
    apply fmap_app_inv in He as (es1 & es2 & -> & He2 & ->).
    destruct es2 as [|[ev now] [|? ?]]; try discriminate He2. injection He2 as <-.
    pose proof (encode_all_spec (es1 ++ [(Result rows sql n, now)]) []) as [Hi _].
    destruct (encode_all_app es1 [(Result rows sql n, now)] []) as [starts' Ha].
    rewrite Ha in *. cbn [encode_all timed] in *.
    eexists _, _. split; [reflexivity|]. split; [|split; [left|exact Hi]].
    + apply encode_all_progress. exact Hp.
    + by apply stamped_type.
  - intros Hp. eexists _, _. split; [reflexivity|].
    split; [by apply encode_all_progress|]. split; [right; by apply stamped_type|].
    apply Forall_app. split; [apply encode_all_spec|]. constructor; [|done].
    apply stamped_identified.
Qed.
End messages.

Section served.
Context {UT : UnicodeTables} {SG : SqlGlot} {W V : Type}.
Variable execute : pystr → M W (list (list (pystr * json))).
Variable dialect_name : pystr.
Variable meta_db : MetaDB.
Variable driver_json : json → json.
Variable llm_json : string → list (string * pystr) → M W json.
Variable llm_text : string → list (string * pystr) → M W pystr.
Variable extract_tags : pystr → list pystr.
Variable embed_terms : list pystr → result (list V).
Variable timed_out : bool.
Variable search_columns : V → result (list ColumnInfo).
Variable search_metrics : V → result (list MetricInfo).
Variable search_values : pystr → result (list ValueInfo).
Variable today : date.
Variable yaml_tables : list TableState → pystr.
Variable yaml_metrics : list MetricState → pystr.
Variable yaml_date : DateInfo → pystr.
Variable yaml_db : list (pystr * json) → pystr.
Variable schedule : list (list Event) → list Event.
Hypothesis schedule_events : ∀ es e, e ∈ schedule es → e ∈ concat es.
Variable round_ms : Z → Z → Z.
Variable repr_str : pystr → pystr.
Variable request_id : pystr.
Variable started : Z.
Variable clock : nat → Z.

Abbreviation run_graph := (graph execute dialect_name meta_db driver_json llm_json llm_text
  extract_tags embed_terms timed_out search_columns search_metrics search_values today
  yaml_tables yaml_metrics yaml_date yaml_db schedule).
Abbreviation handler := (query_handler round_ms repr_str request_id started run_graph clock).

Lemma imap_fst (es : list Event) (f : nat → Z) : (imap (λ i e, (e, f i)) es).*1 = es.
Proof.
  revert f. induction es as [|e es IH]; intros f; [done|]. rewrite imap_cons. cbn.
  f_equal. apply (IH (λ i, f (S i))).
Qed.

End served.
