(* ===== verification/ServiceCases.v ===== *)
(** * Cases of the warehouse service's front door

    A question answered by the toy graph of [AgentCases], the router on a few replies of
    the model, and the middleware with and without its key. *)
From S2P Require Import Prelude.
From S2P Require Import PyStr.
From S2P Require Import PyRe.
From S2P Require Import Json.
From S2P Require Import JsonParse.
From S2P Require Import PyTime.
From S2P Require Import Sql.
From S2P Require Import SqlCases.
From S2P Require Import Business.
From S2P Require Import Retrieval.
From S2P Require Import Entities.
From S2P Require Import MetaSpec.
From S2P Require Import Agent.
From S2P Require Import AgentSpec.
From S2P Require Import AgentCases.
From S2P Require Import Service.
From S2P Require Import ServiceSpec.

Section cases.
#[local] Existing Instances AsciiCjk toy PlainJson.

(** ** The stream *)

Abbreviation served := (query_handler (λ a b, b - a) (λ s, s) (u "r-1") 0
  (graph one_row (u "mysql") metadata (λ v, v) prompts (writes "SELECT q0" "") (λ _, [])
     (λ ts, Ok ts) false (λ _, Ok [amount]) (λ _, Ok []) (λ _, Ok []) today0
     (λ _, []) (λ _, []) (λ _, []) (λ _, []) (@concat Event)) Z.of_nat).


Example blank_refused : query_schema (u "   ") = Raise empty_question
  ∧ query_schema (u " gmv ") = Ok (u "gmv").
Proof. by vm_compute. Qed.

(** An answer with a newline in it, and the next message. *)
Definition two_messages : list (list (pystr * json)) :=
  [[(u "type", js "progress"); (u "step", JStr [97; 10; 10; 98])];
   [(u "type", js "result"); (u "row_limit", JInt 500)]].

Lemma stream_roundtrip_witness :
  Forall (λ m, plain (JObj m)) two_messages ∧
  read_stream (concat (sse <$> two_messages)) = (λ m, Some (JObj m)) <$> two_messages.
Proof.
  assert (Forall (λ m, plain (JObj m)) two_messages) as H.
  { repeat constructor; try (by vm_compute); try (apply not_elem_of_cons; split; [by vm_compute|]);
      try (apply not_elem_of_nil). }
  split; [exact H|]. exact (stream_roundtrip two_messages H).
Defined.

(** ** The router *)

Definition reply (kind content : string) (_ : list (pystr * pystr)) : result pystr :=
  Ok (dumps true false (JObj [(u "kind", js kind); (u "content", js content)])).
Definition asks (t : string) (anchor : option bool) : RouteRequest :=
  {| text := u t; history := []; capabilities := []; has_query_anchor := anchor |}.
Definition no_lax (_ : json) : option bool := None.
Abbreviation routed kind content t anchor :=
  (route_question no_lax (reply kind content) (asks t anchor)).

(** A follow-up without a saved query is clarified; an ordinary question runs; a question
    about the context is answered; a reply of an unknown kind is an error. *)
Example routes :
  (d_kind <$> routed "warehouse" "gmv" "那华东呢" None) = Ok Clarification ∧
  (d_clarification <$> routed "warehouse" "gmv" "那华东呢" None) = Ok NO_CONTEXT ∧
  (d_kind <$> routed "warehouse" "gmv" "那华东销售额呢" None) = Ok Warehouse ∧
  (d_kind <$> routed "context" "ok" "忘掉" None) = Ok Answer ∧
  (d_clarification <$> routed "clarification" "?" "订单和日志" None) = Ok TWO_QUERIES ∧
  routed "delete" "x" "删除" None = Raise bad_decision ∧
  routed "answer" " " "你好" None = Raise no_content.
Proof. by vm_compute. Qed.

Lemma route_sound_witness :
  let d := {| d_kind := Warehouse; d_clarification := []; d_answer := [];
              d_question := u "gmv"; d_reset := false |} in
  routed "warehouse" "gmv" "gmv of 2025" None = Ok d ∧
  d_kind d ≠ Context ∧ strip (chosen d) ≠ [] ∧ d_answer d = [].
Proof.
  intros d. assert (routed "warehouse" "gmv" "gmv of 2025" None = Ok d) as H by by vm_compute.
  split; [exact H|].
  destruct (route_sound no_lax (reply "warehouse" "gmv") (asks "gmv of 2025" None) d H)
    as (H1 & H2 & _ & _ & H3 & _).
  split; [exact H1|]. split; [exact H2|]. by apply H3.
Defined.

(** ** The middleware *)

(** The application counts its calls. *)
Definition application (id : pystr) : M Z (Z * pystr) := λ n, (n + 1, Ok (200, u "body")).
Abbreviation called path key :=
  (add_request_id (λ _, None) (mret (u "new")) (u path) (u "secret") (u key) [] (u "refused")
     application).

Example middleware_runs :
  called "/api/query" "secret" 0
  = (1, Ok {| r_status := 200; r_request_id := Some (u "new"); r_body := u "body" |}) ∧
  called "/healthz" "" 0
  = (1, Ok {| r_status := 200; r_request_id := Some (u "new"); r_body := u "body" |}).
Proof. by vm_compute. Qed.

Lemma middleware_fails_closed_witness :
  called "/api/query" "guess" 0
  = (0, Ok {| r_status := 401; r_request_id := None; r_body := u "refused" |}) ∧
  (u "secret" ≠ [] ∧ u "guess" = u "secret" ∨ 0 = 0).
Proof.
  assert (called "/api/query" "guess" 0
    = (0, Ok {| r_status := 401; r_request_id := None; r_body := u "refused" |})) as H
    by by vm_compute.
  split; [exact H|].
  destruct (middleware_fails_closed (λ _, None) (mret (u "new")) (u "/api/query")
    (u "secret") (u "guess") [] (u "refused") application _ _ _ ltac:(by vm_compute) H)
    as [Hk|[Hw _]]; [by left|by right].
Defined.
End cases.
