(* ===== verification/DemoPool.v ===== *)
(** * The faulty connection pool of the demo service (demo/server.py, business)

    [/business] handles its requests as coroutines of one event loop around a shared
    [asyncio.Semaphore(1)] and a flag.  Each step below is what runs between two
    suspensions, so the requests interleave as the loop may interleave them. *)
From S2P Require Import Prelude.
From S2P Require Import PyStr.
#[local] Set Warnings "-clear-no-such-hyp".

(** ** asyncio.Semaphore *)

Record Waiter := { who : nat; granted : bool }.
#[export] Instance waiter_eq_dec : EqDecision Waiter.
Proof. solve_decision. Defined.
Record Sem := { value : Z; waiters : list Waiter }.

(** [locked()]: no permit, or others wait already (a cancelled waiter has left). *)
Definition locked (s : Sem) : bool := (value s =? 0) || negb (bool_decide (length (waiters s) = 0%nat)).

(** [_wake_up_next]: the first waiter whose future is not done gets the permit. *)
Fixpoint grant_first (ws : list Waiter) : option (list Waiter) :=
  match ws with
  | [] => None
  | w :: ws' => if granted w then cons w <$> grant_first ws'
                else Some ({| who := who w; granted := true |} :: ws')
  end.
Definition wake_up_next (s : Sem) : option Sem :=
  (λ ws, {| value := value s - 1; waiters := ws |}) <$> grant_first (waiters s).

Definition add_permit (s : Sem) : Sem := {| value := value s + 1; waiters := waiters s |}.
Definition take_permit (s : Sem) : Sem := {| value := value s - 1; waiters := waiters s |}.
Definition release (s : Sem) : Sem := default (add_permit s) (wake_up_next (add_permit s)).

(** [while self._value > 0: if not self._wake_up_next(): break]. *)
Fixpoint wake_fuel (n : nat) (s : Sem) : Sem :=
  match n with
  | O => s
  | S n' => if 0 <? value s
            then match wake_up_next s with Some s' => wake_fuel n' s' | None => s end
            else s
  end.
Definition wake_all (s : Sem) : Sem := wake_fuel (Z.to_nat (value s)) s.

Definition enqueue (i : nat) (s : Sem) : Sem :=
  {| value := value s; waiters := waiters s ++ [{| who := i; granted := false |}] |}.
Definition leave (i : nat) (s : Sem) : Sem :=
  {| value := value s; waiters := filter (λ w, who w ≠ i) (waiters s) |}.
Definition is_granted (i : nat) (s : Sem) : Prop :=
  {| who := i; granted := true |} ∈ waiters s.
#[export] Instance is_granted_dec i s : Decision (is_granted i s).
Proof. unfold is_granted. apply _. Defined.

(** The end of [acquire] once its future has the permit, and when it is cancelled: a
    permit granted meanwhile is given back. *)
Definition acquired (i : nat) (s : Sem) : Sem := wake_all (leave i s).
Definition cancelled (i : nat) (s : Sem) : Sem :=
  wake_all (leave i (if bool_decide (is_granted i s) then add_permit s else s)).

(** ** The handler *)

Inductive Reply :=
  Completed | PoolAcquireTimeout | DependencyReadTimeout | InvalidConfiguration.

(** Where a request is suspended, with the fault it read. *)
Inductive Phase :=
| Blocking (fault : pystr)    (* in the acquire that exhausts the pool *)
| Acquiring (fault : pystr)   (* in the acquire with a timeout *)
| Calling (fault : pystr)     (* in the call of the dependency *)
| Answered (r : Reply).

Record Pool := { sem : Sem; POOL_BLOCKED : bool; requests : gmap nat Phase }.

Definition pool_exhaustion : pystr := u "pool_exhaustion".
Definition bad_config : pystr := u "bad_config".
Definition calls_dependency (fault : pystr) : bool :=
  mem fault [u "dependency_timeout"; u "release_error"].

(** The permit is held: [select 1] runs, the permit goes back, maybe the call follows. *)
Definition inside (i : nat) (fault : pystr) (p : Pool) : Pool :=
  {| sem := release (sem p); POOL_BLOCKED := POOL_BLOCKED p;
     requests := <[i := if calls_dependency fault then Calling fault
                        else Answered Completed]> (requests p) |}.

Definition contend (i : nat) (fault : pystr) (p : Pool) : Pool :=
  if str_eqb fault bad_config
  then {| sem := sem p; POOL_BLOCKED := POOL_BLOCKED p;
          requests := <[i := Answered InvalidConfiguration]> (requests p) |}
  else if locked (sem p)
  then {| sem := enqueue i (sem p); POOL_BLOCKED := POOL_BLOCKED p;
          requests := <[i := Acquiring fault]> (requests p) |}
  else inside i fault
         {| sem := take_permit (sem p); POOL_BLOCKED := POOL_BLOCKED p;
            requests := requests p |}.

(** Another fault than the exhaustion gives the blocked permit back. *)
Definition unblock (fault : pystr) (p : Pool) : Pool :=
  if negb (str_eqb fault pool_exhaustion) && POOL_BLOCKED p
  then {| sem := release (sem p); POOL_BLOCKED := false; requests := requests p |} else p.

Definition enter (i : nat) (fault : pystr) (p0 : Pool) : Pool :=
  let p := unblock fault p0 in
  if str_eqb fault pool_exhaustion && negb (POOL_BLOCKED p)
  then if locked (sem p)
       then {| sem := enqueue i (sem p); POOL_BLOCKED := POOL_BLOCKED p;
               requests := <[i := Blocking fault]> (requests p) |}
       else contend i fault
              {| sem := take_permit (sem p); POOL_BLOCKED := true; requests := requests p |}
  else contend i fault p.

Definition blocks (i : nat) (fault : pystr) (p : Pool) : Pool :=
  contend i fault
    {| sem := acquired i (sem p); POOL_BLOCKED := true; requests := requests p |}.
Definition goes_on (i : nat) (fault : pystr) (p : Pool) : Pool :=
  inside i fault
    {| sem := acquired i (sem p); POOL_BLOCKED := POOL_BLOCKED p; requests := requests p |}.
Definition expires (i : nat) (p : Pool) : Pool :=
  {| sem := cancelled i (sem p); POOL_BLOCKED := POOL_BLOCKED p;
     requests := <[i := Answered PoolAcquireTimeout]> (requests p) |}.
Definition called (i : nat) (timed_out : bool) (p : Pool) : Pool :=
  {| sem := sem p; POOL_BLOCKED := POOL_BLOCKED p;
     requests := <[i := Answered (if timed_out then DependencyReadTimeout else Completed)]>
                   (requests p) |}.

(** A request arrives, resumes with its permit, is timed out, or hears from the
    dependency. *)
Inductive pool_step (p : Pool) : Pool → Prop :=
| Enter i fault : requests p !! i = None → pool_step p (enter i fault p)
| Blocks i fault :
    requests p !! i = Some (Blocking fault) → is_granted i (sem p) →
    pool_step p (blocks i fault p)
| Acquired i fault :
    requests p !! i = Some (Acquiring fault) → is_granted i (sem p) →
    pool_step p (goes_on i fault p)
| Expires i fault :
    requests p !! i = Some (Acquiring fault) → pool_step p (expires i p)
| Called i fault timed_out :
    requests p !! i = Some (Calling fault) → pool_step p (called i timed_out p).

Definition idle_pool : Pool :=
  {| sem := {| value := 1; waiters := [] |}; POOL_BLOCKED := false; requests := ∅ |}.

(** ** The semaphore's accounts *)

Definition b2z (b : bool) : Z := if b then 1 else 0.
Fixpoint promised (ws : list Waiter) : Z :=
  match ws with [] => 0 | w :: ws' => b2z (granted w) + promised ws' end.
(** Free and promised permits. *)
Definition permits (s : Sem) : Z := value s + promised (waiters s).

(** No permit lies idle while a waiter has none. *)
Record sem_ok (s : Sem) : Prop := {
  so_value : 0 ≤ value s;
  so_awake : 0 < value s → Forall (λ w, granted w = true) (waiters s);
  so_nodup : NoDup (who <$> waiters s) }.

Lemma promised_nonneg ws : 0 ≤ promised ws.
Proof. induction ws as [|w ws IH]; cbn; [lia|]. destruct (granted w); cbn; lia. Qed.

Lemma promised_app ws ws' : promised (ws ++ ws') = promised ws + promised ws'.
Proof. induction ws as [|w ws IH]; cbn; [done|]. lia. Qed.

Lemma grant_first_spec ws :
  match grant_first ws with
  | Some ws' => promised ws' = promised ws + 1 ∧ who <$> ws' = who <$> ws
      ∧ ¬ Forall (λ w, granted w = true) ws
  | None => Forall (λ w, granted w = true) ws
  end.
Proof.
  induction ws as [|[i [|]] ws IH]; cbn; [constructor| |].
  - destruct (grant_first ws) as [ws'|]; cbn; [|by constructor].
    destruct IH as (H1 & H2 & H3). split; [lia|]. split; [by rewrite <- H2|].
    intros H%Forall_inv_tail. done.
  - split; [lia|]. split; [done|]. by intros H%Forall_inv.
Qed.

Lemma release_spec s : sem_ok s →
  sem_ok (release s) ∧ permits (release s) = permits s + 1
  ∧ who <$> waiters (release s) = who <$> waiters s.
Proof.
  intros [Hv Ha Hn]. unfold release, wake_up_next, permits. cbn [add_permit value waiters].
  pose proof (grant_first_spec (waiters s)) as Hg.
  destruct (grant_first (waiters s)) as [ws'|]; cbn [fmap option_fmap option_map from_option id value waiters add_permit].
  - destruct Hg as (H1 & H2 & H3). split; [|split; [lia|done]].
    split; cbn; [lia| |by rewrite H2]. intros H. destruct H3. apply Ha. lia.
  - split; [|split; [lia|done]]. split; cbn; [lia|done|done].
Qed.

Lemma wake_fuel_spec n s : Z.of_nat n = value s → NoDup (who <$> waiters s) →
  sem_ok (wake_fuel n s) ∧ permits (wake_fuel n s) = permits s
  ∧ who <$> waiters (wake_fuel n s) = who <$> waiters s.
Proof.
  revert s. induction n as [|n IH]; intros s Hn Hd; cbn [wake_fuel].
  { split; [|done]. split; [lia|lia|done]. }
  rewrite (proj2 (Z.ltb_lt 0 (value s))) by lia. unfold wake_up_next.
  pose proof (grant_first_spec (waiters s)) as Hg.
  destruct (grant_first (waiters s)) as [ws'|]; cbn [fmap option_fmap option_map].
  - destruct Hg as (H1 & H2 & _).
    destruct (IH {| value := value s - 1; waiters := ws' |}) as (Ho & Hp & Hw);
      cbn [value waiters]; [lia|by rewrite H2|].
    split; [done|]. rewrite Hp, Hw. unfold permits. cbn. split; [lia|done].
  - split; [|done]. split; [lia|done|done].
Qed.

Lemma wake_all_spec s : 0 ≤ value s → NoDup (who <$> waiters s) →
  sem_ok (wake_all s) ∧ permits (wake_all s) = permits s
  ∧ who <$> waiters (wake_all s) = who <$> waiters s.
Proof. intros Hv Hn. apply wake_fuel_spec; [lia|done]. Qed.

Lemma filter_who i (ws : list Waiter) : who <$> filter (λ w, who w ≠ i) ws = filter (λ j, j ≠ i) (who <$> ws).
Proof.
  induction ws as [|w ws IH]; [done|]. cbn [fmap list_fmap]. rewrite !filter_cons.
  destruct (decide (who w ≠ i)); [|done]. cbn. by rewrite IH.
Qed.

(** Leaving the queue, with or without a permit promised. *)
Lemma leave_promised i ws : NoDup (who <$> ws) →
  promised (filter (λ w, who w ≠ i) ws)
  = promised ws - b2z (bool_decide ({| who := i; granted := true |} ∈ ws)).
Proof.
  induction ws as [|[j b] ws IH]; intros Hn; [done|]. rewrite fmap_cons in Hn.
  apply NoDup_cons in Hn as [Hj Hn]. rewrite filter_cons. cbn [who] in *.
  destruct (decide (j ≠ i)) as [Hji|Hji].
  - cbn [promised granted]. rewrite (IH Hn).
    assert (bool_decide ({| who := i; granted := true |} ∈ {| who := j; granted := b |} :: ws)
            = bool_decide ({| who := i; granted := true |} ∈ ws)) as ->; [|lia].
    apply bool_decide_ext. rewrite elem_of_cons. split; [by intros [[= -> _]|?]|by right].
  - apply dec_stable in Hji as ->.
    assert ({| who := i; granted := true |} ∉ ws) as Hno.
    { intros H. apply Hj. by apply (list_elem_of_fmap_2 who) in H. }
    rewrite (IH Hn), (bool_decide_false _ Hno). cbn [promised granted].
    destruct b.
    + rewrite bool_decide_true by apply list_elem_of_here. cbn. lia.
    + rewrite bool_decide_false; [cbn; lia|]. rewrite elem_of_cons. by intros [[=]|?].
Qed.

Lemma acquired_spec i s : sem_ok s → is_granted i s →
  sem_ok (acquired i s) ∧ permits (acquired i s) = permits s - 1
  ∧ who <$> waiters (acquired i s) = filter (λ j, j ≠ i) (who <$> waiters s).
Proof.
  intros [Hv Ha Hn] Hg. unfold acquired.
  destruct (wake_all_spec (leave i s)) as (H1 & H2 & H3); cbn [leave value waiters]; [done| |].
  { rewrite filter_who. by apply NoDup_filter. }
  split; [done|]. rewrite H2, H3. unfold permits. cbn [leave value waiters].
  rewrite leave_promised by done. rewrite bool_decide_true by done. cbn [b2z].
  split; [lia|apply filter_who].
Qed.

Lemma cancelled_spec i s : sem_ok s →
  sem_ok (cancelled i s) ∧ permits (cancelled i s) = permits s
  ∧ who <$> waiters (cancelled i s) = filter (λ j, j ≠ i) (who <$> waiters s).
Proof.
  intros [Hv Ha Hn]. unfold cancelled.
  set (s' := if bool_decide (is_granted i s) then add_permit s else s).
  assert (waiters s' = waiters s ∧ value s' = value s + b2z (bool_decide (is_granted i s)))
    as [Hw Hv'].
  { unfold s'. destruct (bool_decide _); cbn; split; lia || done. }
  clearbody s'.
  destruct (wake_all_spec (leave i s')) as (H1 & H2 & H3); cbn [leave value waiters].
  { destruct (bool_decide _); cbn in Hv'; lia. }
  { rewrite Hw, filter_who. by apply NoDup_filter. }
  split; [done|]. rewrite H2, H3. unfold permits. cbn [leave value waiters].
  rewrite Hw, Hv', leave_promised by done. unfold is_granted in *.
  split; [repeat case_bool_decide; cbn; try done; lia|apply filter_who].
Qed.

Lemma granted_promised i ws : {| who := i; granted := true |} ∈ ws → 1 ≤ promised ws.
Proof.
  induction ws as [|w ws IH]; [by intros ?%elem_of_nil|].
  intros [<-|H]%elem_of_cons; cbn; [pose proof (promised_nonneg ws); lia|].
  specialize (IH H). destruct (granted w); cbn; lia.
Qed.

Lemma all_granted_promised ws :
  Forall (λ w, granted w = true) ws → promised ws = Z.of_nat (length ws).
Proof. induction 1 as [|w ws Hw _ IH]; [done|]. cbn [promised length]. rewrite Hw. cbn. lia. Qed.

(** ** The pool's invariant *)

(** The request is suspended in an acquire. *)
Definition waits (p : Pool) (i : nat) : Prop :=
  ∃ f, requests p !! i = Some (Blocking f) ∨ requests p !! i = Some (Acquiring f).

(** One permit, somewhere, and the queue is the requests that wait; [spare] is what the
    running segment holds. *)
Record pool_at (spare : Z) (who_waits : nat → Prop) (p : Pool) : Prop := {
  pa_sem : sem_ok (sem p);
  pa_permits : permits (sem p) + b2z (POOL_BLOCKED p) + spare = 1;
  pa_waiters : ∀ i, i ∈ who <$> waiters (sem p) ↔ who_waits i }.
Definition pool_ok (p : Pool) : Prop := pool_at 0 (waits p) p.
(** During a segment of request [i], which is then in no acquire. *)
Definition others (i : nat) (p : Pool) (j : nat) : Prop := j ≠ i ∧ waits p j.

Lemma waits_insert p i ph j s b :
  waits {| sem := s; POOL_BLOCKED := b; requests := <[i := ph]> (requests p) |} j ↔
  (j = i ∧ ∃ f, ph = Blocking f ∨ ph = Acquiring f) ∨ others i p j.
Proof.
  unfold others, waits. cbn [requests]. destruct (decide (j = i)) as [->|Hj].
  - rewrite lookup_insert_eq. naive_solver.
  - rewrite lookup_insert_ne by done. naive_solver.
Qed.

Lemma inside_ok i fault p : pool_at 1 (others i p) p → pool_ok (inside i fault p).
Proof.
  intros [Hs Hp Hw]. destruct (release_spec _ Hs) as (H1 & H2 & H3).
  split; cbn [inside sem POOL_BLOCKED]; [done|lia|]. intros j. rewrite H3, Hw.
  unfold inside. rewrite waits_insert. destruct (calls_dependency fault); naive_solver.
Qed.

Lemma enqueue_ok i s : sem_ok s → permits s ≤ 1 → locked s = true →
  i ∉ who <$> waiters s →
  sem_ok (enqueue i s) ∧ permits (enqueue i s) = permits s.
Proof.
  intros [Hv Ha Hn] Hp Hl Hi. unfold permits in *. cbn [enqueue value waiters].
  rewrite promised_app. cbn [promised granted b2z]. split; [|lia].
  split; cbn [enqueue value waiters]; [done| |].
  - intros H. specialize (Ha H). rewrite (all_granted_promised _ Ha) in Hp.
    unfold locked in Hl. apply orb_true_iff in Hl as [Hl%Z.eqb_eq|Hl]; [lia|].
    apply negb_true_iff, bool_decide_eq_false in Hl. lia.
  - rewrite fmap_app. apply NoDup_app. split; [done|]. split; [|apply NoDup_singleton].
    intros j Hj Hj'. apply list_elem_of_singleton in Hj' as ->. done.
Qed.

Lemma enqueued_ok i ph p :
  (∃ f, ph = Blocking f ∨ ph = Acquiring f) →
  locked (sem p) = true → pool_at 0 (others i p) p →
  pool_ok {| sem := enqueue i (sem p); POOL_BLOCKED := POOL_BLOCKED p;
             requests := <[i := ph]> (requests p) |}.
Proof.
  intros Hph Hl [Hs Hp Hw].
  destruct (enqueue_ok i (sem p)) as [H1 H2]; [done| |done| |].
  { destruct (POOL_BLOCKED p); cbn in Hp; lia. }
  { rewrite Hw. by intros [? _]. }
  split; cbn [sem POOL_BLOCKED]; [done|by rewrite H2|]. intros j. rewrite waits_insert.
  cbn [enqueue waiters]. rewrite fmap_app, elem_of_app, Hw. cbn.
  rewrite list_elem_of_singleton. naive_solver.
Qed.

Lemma taken_ok i p b : locked (sem p) = false → pool_at 0 (others i p) p →
  b2z b = b2z (POOL_BLOCKED p) ∨ (b = true ∧ POOL_BLOCKED p = false) →
  pool_at (1 + b2z (POOL_BLOCKED p) - b2z b) (others i p)
    {| sem := take_permit (sem p); POOL_BLOCKED := b; requests := requests p |}.
Proof.
  intros Hl [[Hv Ha Hn] Hp Hw] Hb. apply orb_false_iff in Hl as [Hl%Z.eqb_neq He].
  apply negb_false_iff, bool_decide_eq_true in He.
  split; cbn [sem POOL_BLOCKED].
  - split; cbn [take_permit value waiters]; [lia| |done]. intros _. apply Ha. lia.
  - unfold permits in *. cbn [take_permit value waiters]. lia.
  - exact Hw.
Qed.

Lemma contend_ok i fault p : pool_at 0 (others i p) p → pool_ok (contend i fault p).
Proof.
  intros H. unfold contend. destruct (str_eqb fault bad_config).
  { destruct H as [Hs Hp Hw]. split; cbn [sem POOL_BLOCKED]; [done..|].
    intros j. rewrite waits_insert, Hw. naive_solver. }
  destruct (locked (sem p)) eqn:Hl; [apply enqueued_ok; eauto|].
  apply inside_ok. change (pool_at 1 (others i p)
    {| sem := take_permit (sem p); POOL_BLOCKED := POOL_BLOCKED p; requests := requests p |}).
  replace 1 with (1 + b2z (POOL_BLOCKED p) - b2z (POOL_BLOCKED p)) by lia.
  apply taken_ok; auto.
Qed.

Lemma unblock_ok fault p : pool_ok p →
  pool_ok (unblock fault p) ∧ requests (unblock fault p) = requests p.
Proof.
  intros H. unfold unblock. destruct (negb _ && POOL_BLOCKED p) eqn:Hb; [|done].
  apply andb_true_iff in Hb as [_ Hb]. destruct H as [Hs Hp Hw]. rewrite Hb in Hp.
  destruct (release_spec _ Hs) as (H1 & H2 & H3). split; [|done].
  split; cbn [sem POOL_BLOCKED]; [done|cbn in *; lia|]. intros j. rewrite H3. apply Hw.
Qed.

(** A new request is not in the queue; a waiter that leaves is not either. *)
Lemma new_request i p : pool_ok p → requests p !! i = None → pool_at 0 (others i p) p.
Proof.
  intros [Hs Hp Hw] Hi. split; [done..|]. intros j. rewrite Hw. unfold others.
  split; [|by intros [_ ?]]. intros H. split; [|done]. intros ->.
  destruct H as [f H]. naive_solver.
Qed.

Lemma acquired_ok i p : pool_ok p → is_granted i (sem p) →
  POOL_BLOCKED p = false ∧
  ∀ b, pool_at (1 - b2z b) (others i p)
    {| sem := acquired i (sem p); POOL_BLOCKED := b; requests := requests p |}.
Proof.
  intros [Hs Hp Hw] Hg. destruct (acquired_spec i _ Hs Hg) as (H1 & H2 & H3).
  pose proof (granted_promised _ _ Hg) as Hpr. pose proof (so_value _ Hs) as Hv.
  assert (POOL_BLOCKED p = false) as Hb.
  { destruct (POOL_BLOCKED p); [|done]. unfold permits in Hp. cbn in Hp. lia. }
  split; [done|]. intros b. rewrite Hb in Hp. cbn in Hp.
  split; cbn [sem POOL_BLOCKED]; [done|lia|]. intros j.
  rewrite H3, list_elem_of_filter, Hw. done.
Qed.

Lemma pool_step_keeps p p' : pool_ok p → pool_step p p' → pool_ok p'.
Proof.
  intros Hok Hstep.
  destruct Hstep as [i fault Hi|i fault Hi Hg|i fault Hi Hg|i fault Hi|i fault to Hi].
  - unfold enter. destruct (unblock_ok fault p Hok) as [Hu Hr].
    set (q := unblock fault p) in *. rewrite <- Hr in Hi. pose proof (new_request i q Hu Hi) as Hn.
    destruct (str_eqb fault pool_exhaustion && negb (POOL_BLOCKED q)) eqn:Hb;
      [|by apply contend_ok].
    apply andb_true_iff in Hb as [_ Hb%negb_true_iff].
    destruct (locked (sem q)) eqn:Hl; [apply enqueued_ok; eauto|].
    apply contend_ok. pose proof (taken_ok i q true Hl Hn) as Ht. rewrite Hb in Ht.
    apply Ht. auto.
  - destruct (acquired_ok i p Hok Hg) as [_ H]. apply contend_ok, (H true).
  - destruct (acquired_ok i p Hok Hg) as [Hb H]. apply inside_ok. rewrite Hb. apply (H false).
  - destruct Hok as [Hs Hp Hw]. destruct (cancelled_spec i _ Hs) as (H1 & H2 & H3).
    split; cbn [expires sem POOL_BLOCKED]; [done|lia|]. intros j. unfold expires.
    rewrite waits_insert, H3, list_elem_of_filter, Hw. unfold others. naive_solver.
  - destruct Hok as [Hs Hp Hw]. split; [done..|]. intros j. unfold called.
    rewrite waits_insert. cbn [sem]. rewrite Hw. unfold others, waits.
    destruct (decide (j = i)) as [->|]; naive_solver.
Qed.

Lemma idle_ok : pool_ok idle_pool.
Proof.
  split; [split; [done|constructor|constructor]|done|]. intros i.
  unfold waits. cbn [idle_pool requests sem waiters fmap list_fmap]. rewrite lookup_empty, elem_of_nil.
  naive_solver.
Qed.

Lemma pool_reachable_ok p : rtc pool_step idle_pool p → pool_ok p.
Proof.
  assert (∀ q, rtc pool_step q p → pool_ok q → pool_ok p) as H.
  { induction 1; eauto using pool_step_keeps. }
  intros Hr. exact (H _ Hr idle_ok).
Qed.

(** C11. However its requests interleave, the pool keeps its one permit: in every
    reachable state the free permits, those promised to waiters and the one the
    exhaustion holds are one together, so the semaphore is never released too often; the
    requests in the queue are those that wait; and unless the exhaustion holds the permit,
    when requests wait one of them has been promised it and can go on (no deadlock). *)
Theorem pool_safe p :
  rtc pool_step idle_pool p →
  value (sem p) + promised (waiters (sem p)) + b2z (POOL_BLOCKED p) = 1 ∧
  0 ≤ value (sem p) ≤ 1 ∧
  (∀ i, i ∈ who <$> waiters (sem p) ↔ waits p i) ∧
  (POOL_BLOCKED p = false → (∃ i, waits p i) → ∃ i, waits p i ∧ is_granted i (sem p)).
Proof.
  intros [[Hv Ha Hn] Hp Hw]%pool_reachable_ok. unfold permits in Hp.
  pose proof (promised_nonneg (waiters (sem p))) as Hpr.
  split; [lia|]. split; [destruct (POOL_BLOCKED p); cbn in Hp; lia|]. split; [done|].
  intros Hb [i Hi]. rewrite Hb in Hp. cbn in Hp.
  destruct (decide (value (sem p) = 0)) as [H0|H0].
  - assert (∀ ws, 1 ≤ promised ws → ∃ j, {| who := j; granted := true |} ∈ ws) as Hex.
    { induction ws as [|[j b] ws IH]; cbn; [lia|]. destruct b; cbn; intros H.
      - exists j. apply list_elem_of_here.
      - destruct IH as [k Hk]; [lia|]. exists k. by apply list_elem_of_further. }
    destruct (Hex (waiters (sem p))) as [j Hj]; [lia|]. exists j. split; [|done].
    apply Hw. by apply (list_elem_of_fmap_2 who) in Hj.
  - apply Hw in Hi. specialize (Ha ltac:(lia)).
    rewrite (all_granted_promised _ Ha) in Hp.
    destruct (waiters (sem p)); [by apply elem_of_nil in Hi|]. cbn [length] in Hp. lia.
Qed.

(** ** One request at a time *)

(** What a request that no other disturbs is answered, and whether the pool is then
    exhausted. *)
Definition alone (fault : pystr) (timed_out : bool) : Reply * bool :=
  if str_eqb fault pool_exhaustion then (PoolAcquireTimeout, true)
  else (if str_eqb fault bad_config then InvalidConfiguration
        else if calls_dependency fault && timed_out then DependencyReadTimeout
        else Completed, false).

(** Nobody waits, and the permit is free or held by the exhaustion. *)
Definition quiet (p : Pool) : Prop :=
  waiters (sem p) = [] ∧ value (sem p) = 1 - b2z (POOL_BLOCKED p).

Lemma quiet_eq p b : waiters (sem p) = [] → value (sem p) = 1 - b2z b →
  sem p = {| value := 1 - b2z b; waiters := [] |}.
Proof. destruct p as [[v ws] b' r]. cbn. by intros -> ->. Qed.

Lemma unblock_quiet fault p : quiet p → fault ≠ pool_exhaustion →
  unblock fault p
  = {| sem := {| value := 1; waiters := [] |}; POOL_BLOCKED := false; requests := requests p |}.
Proof.
  intros [Hw Hv] Hf. unfold unblock, str_eqb. rewrite bool_decide_false by done.
  destruct p as [[v ws] [|] r]; cbn in *; subst; done.
Qed.

(** C12. A request that runs undisturbed is answered as [alone] says, from any quiet pool,
    through steps of the interleaving: the exhaustion answers a timeout and keeps the
    permit, every other fault gets it back first and leaves it free, so one healthy
    request ends an exhaustion. *)
Theorem business_alone p i fault timed_out :
  quiet p → requests p !! i = None →
  ∃ p', rtc pool_step p p' ∧ quiet p' ∧
    POOL_BLOCKED p' = (alone fault timed_out).2 ∧
    requests p' = <[i := Answered (alone fault timed_out).1]> (requests p).
Proof.
  intros Hq Hi. unfold alone, str_eqb. destruct (decide (fault = pool_exhaustion)) as [->|Hf].
  - rewrite bool_decide_true by done. cbn [fst snd].
    assert (enter i pool_exhaustion p = {|
      sem := {| value := 0; waiters := [{| who := i; granted := false |}] |};
      POOL_BLOCKED := true; requests := <[i := Acquiring pool_exhaustion]> (requests p) |}) as He.
    { destruct p as [[v ws] [|] r], Hq as [Hw Hv]; cbn in Hw, Hv; subst; reflexivity. }
    exists (expires i (enter i pool_exhaustion p)). split.
    { eapply rtc_l; [by apply (Enter p i pool_exhaustion)|].
      eapply rtc_l; [|apply rtc_refl]. apply (Expires _ i pool_exhaustion). rewrite He. cbn.
      by rewrite lookup_insert_eq. }
    rewrite He. unfold expires, cancelled, leave. cbn [sem POOL_BLOCKED requests].
    rewrite bool_decide_false.
    2: { unfold is_granted. cbn. rewrite list_elem_of_singleton. by intros [=]. }
    cbn [value waiters]. rewrite filter_cons_False by (cbn; by intros []). cbn.
    split; [done|]. split; [done|]. by rewrite insert_insert_eq.
  - rewrite bool_decide_false by done. cbn [fst snd].
    pose proof (Enter p i fault Hi) as Hstep. unfold enter in Hstep.
    rewrite (unblock_quiet fault p Hq Hf) in Hstep. unfold str_eqb in Hstep at 1.
    rewrite bool_decide_false in Hstep by done. cbn [andb] in Hstep.
    unfold contend, str_eqb in Hstep.
    destruct (bool_decide (fault = bad_config)) eqn:Hb.
    { eexists. split; [eapply rtc_l; [exact Hstep|apply rtc_refl]|]. done. }
    change (locked _) with false in Hstep. cbn iota in Hstep. unfold inside in Hstep.
    cbn [sem take_permit value waiters POOL_BLOCKED requests] in Hstep.
    destruct (calls_dependency fault) eqn:Hc; cbn [andb].
    + eexists. split.
      { eapply rtc_l; [exact Hstep|]. eapply rtc_l; [|apply rtc_refl].
        apply (Called _ i fault timed_out). cbn. by rewrite lookup_insert_eq. }
      unfold called. cbn. split; [done|]. split; [done|]. rewrite insert_insert_eq.
      by destruct timed_out.
    + eexists. split; [eapply rtc_l; [exact Hstep|apply rtc_refl]|]. done.
Qed.

(** ** Cases *)

(** Two requests under exhaustion, then a healthy one: the first is timed out, the permit
    comes back. *)
Definition exhausted_twice : Pool :=
  expires 1 (expires 0 (enter 1 pool_exhaustion (enter 0 pool_exhaustion idle_pool))).

Example exhaustion_ends :
  POOL_BLOCKED exhausted_twice = true ∧
  POOL_BLOCKED (enter 2 (u "healthy") exhausted_twice) = false ∧
  requests (enter 2 (u "healthy") exhausted_twice) !! 2%nat = Some (Answered Completed) ∧
  requests exhausted_twice !! 1%nat = Some (Answered PoolAcquireTimeout).
Proof. by vm_compute. Qed.

(** A healthy request that arrives while another waits lets the waiter go first. *)
Definition overtaken : Pool :=
  enter 1 (u "healthy") (enter 0 pool_exhaustion idle_pool).

Lemma pool_safe_witness :
  value (sem overtaken) + promised (waiters (sem overtaken)) + b2z (POOL_BLOCKED overtaken) = 1 ∧
  ∃ i, waits overtaken i ∧ is_granted i (sem overtaken).
Proof.
  assert (rtc pool_step idle_pool overtaken) as Hr.
  { eapply rtc_l; [by apply (Enter idle_pool 0 pool_exhaustion)|].
    eapply rtc_l; [by apply (Enter _ 1 (u "healthy"))|]. apply rtc_refl. }
  destruct (pool_safe overtaken Hr) as (H1 & _ & _ & H2). split; [exact H1|].
  apply H2; [by vm_compute|]. exists 0%nat, pool_exhaustion. right. by vm_compute.
Defined.

Lemma business_alone_witness :
  ∃ p', rtc pool_step idle_pool p' ∧ quiet p' ∧
    POOL_BLOCKED p' = (alone pool_exhaustion false).2 ∧
    requests p' = <[0%nat := Answered (alone pool_exhaustion false).1]> (requests idle_pool).
Proof. exact (business_alone idle_pool 0 pool_exhaustion false ltac:(done) eq_refl). Defined.
