(* ===== verification/Demo.v ===== *)
(** * The development fixtures (demo/server.py)

    The local identity issuer, the control switch, the service that produces the faults,
    the read-only sources and the issue stub, over one state: the SQLite tables and the
    deployments of the control plane's database.  Git, the cluster, the HTTP clients and
    the clocks lie in the world [W]. *)
From S2P Require Import Prelude.
From S2P Require Import PyStr.
From S2P Require Import PyRe.
From S2P Require Import Json.
From S2P Require Import JsonParse.
From S2P Require Import PyTime.
From S2P Require Import IsoTime.
From S2P Require Import LogStore.
From S2P Require Import Contracts.
From S2P Require Import Runtime.
From S2P Require Import Connectors.
From S2P Require Import Api.
From S2P Require Import DemoPool.

(** ** The state *)

Record IssueRow := { number : Z; repo : pystr; title : json; issue_body : json }.
Record Demo := {
  config_rows : list (pystr * pystr); logs : list row; issue_rows : list IssueRow;
  releases : list Deployment; blocked : bool }.

Definition set_config (c : list (pystr * pystr)) (d : Demo) : Demo :=
  {| config_rows := c; logs := logs d; issue_rows := issue_rows d; releases := releases d;
     blocked := blocked d |}.
Definition add_log (r : row) (d : Demo) : Demo :=
  {| config_rows := config_rows d; logs := logs d ++ [r]; issue_rows := issue_rows d;
     releases := releases d; blocked := blocked d |}.
Definition add_issue (i : IssueRow) (d : Demo) : Demo :=
  {| config_rows := config_rows d; logs := logs d; issue_rows := issue_rows d ++ [i];
     releases := releases d; blocked := blocked d |}.
Definition set_releases (l : list Deployment) (d : Demo) : Demo :=
  {| config_rows := config_rows d; logs := logs d; issue_rows := issue_rows d;
     releases := l; blocked := blocked d |}.
Definition set_blocked (b : bool) (d : Demo) : Demo :=
  {| config_rows := config_rows d; logs := logs d; issue_rows := issue_rows d;
     releases := releases d; blocked := b |}.

(** The next [INTEGER PRIMARY KEY]. *)
Definition next_key (ids : list Z) : Z := foldr Z.max 0 ids + 1.

(** What a [TEXT] column holds of a bound value; the text of a real is SQLite's. *)
Definition bind_text (sqlite_real : pystr → pystr) (v : json) : result json :=
  match v with
  | JStr s => Ok (JStr s)
  | JNull => Ok JNull
  | JBool b => Ok (js (if b then "1" else "0"))
  | JInt z => if (- 2 ^ 63 <=? z) && (z <? 2 ^ 63) then Ok (JStr (str_of_Z z))
              else Raise (exn_of OverflowError "Python int too large to convert to SQLite INTEGER")
  | JFloat r => Ok (JStr (sqlite_real r))
  | JList _ | JObj _ =>
      Raise (exn_of (OtherError "ProgrammingError") "type is not supported")
  end.

Definition http (st : Z) (detail : string) : exn := http_exception st (u detail).

(** A string of the authorized scope. *)
Definition as_text (v : json) : result pystr :=
  match v with JStr s => Ok s | _ => Raise type_error end.

Definition svc17 : pystr := u "svc-17".
Definition sha_pattern : re := RRep (either (range 48 57) (range 97 102)) 40 (Some 40%nat).
Definition called_process : exn_class := OtherError "CalledProcessError".

Section server.
Context {JR : JsonRuntime} {TD : TzDatabase} {UT : UnicodeTables} {W : Type}.
Variable container_repr : json → pystr.
Variable sqlite_real : pystr → pystr.
Variable trunc : pystr → result Z.
(** The environment. *)
Variable ISSUER SHA : pystr.
Variable demo_password demo_key internal_key namespace : pystr.
Variable seed_database : bool.
(** The clocks: [time.time()], [time.time_ns()], [now()] as text, the database's [now()],
    and the time between two moments in milliseconds. *)
Variable unix_time : M W Z.
Variable time_ns : W → Z.
Variable now_iso : W → pystr.
Variable db_now : W → Z.
Variable elapsed_ms : W → W → json.
Variable timestamptz : json → result Z.
(** [jwt.encode] with the issuer's key; the public key. *)
Variable jwt_encode : json → pystr.
Variable JWK : json.
(** The control plane's API, the cluster's, and the dependency: whether the call timed
    out. *)
Variable post : pystr → json → M W response.
Variable kube_get : pystr → M W response.
Variable dependency : M W bool.
(** Git: the writes, and the reads of a state of the repository. *)
Variable commit_runbook : pystr → M W ().
Variable runbook_until : W → pystr → result pystr.
Variable commit_date : W → pystr → result pystr.
Variable show_runbook : W → pystr → result pystr.
Variable show_stat : W → pystr → result pystr.
Variable show_config : W → pystr → result pystr.
(** [select distinct ... limit 50]: the rows the database happens to keep. *)
Variable distinct50 : list pystr → list pystr.
(** The search index of the log store. *)
Variable level_of : pystr → pystr.
Variable fts : pystr → Z → bool.

Abbreviation MD := (M (Demo * W)).

Definition config (key default_ : string) : MD pystr := λ s,
  (s, Ok (default (u default_) (assoc (u key) (config_rows s.1)))).

(** ** Health and identity *)

Definition health : MD json :=
  fault ← config "fault" "";
  if str_eqb fault (u "probe_failure") then raise (http 503 "injected_probe_failure")
  else mret (JObj [(u "status", js "ok"); (u "mode", js "development-fixtures");
                   (u "commit", JStr SHA)]).

Definition discovery : json :=
  JObj [(u "issuer", JStr ISSUER); (u "jwks_uri", JStr (ISSUER ++ u "/jwks"));
        (u "authorization_endpoint", JStr (ISSUER ++ u "/authorize"));
        (u "token_endpoint", JStr (ISSUER ++ u "/token"));
        (u "response_types_supported", JList [js "id_token"]);
        (u "subject_types_supported", JList [js "public"]);
        (u "id_token_signing_alg_values_supported", JList [js "RS256"])].
Definition jwks : json := JObj [(u "keys", JList [JWK])].

Definition users : list pystr := u <$> ["alice"; "bob"; "carol"; "admin"]%string.

Definition token (b : json) : MD json :=
  name ← lift (jget "username" b);
  if negb (hashable name) then raise type_error else
  password ← (if existsb (λ n, py_eqb name (JStr n)) users then lift (jget "password" b)
              else mret JNull);
  if negb (existsb (λ n, py_eqb name (JStr n)) users && py_eqb password (JStr demo_password))
  then raise (http 401 "invalid_credentials")
  else
    iat ← on_snd unix_time;
    now ← on_snd unix_time;
    mret (JObj [
      (u "access_token", JStr (jwt_encode (JObj [
         (u "iss", JStr ISSUER); (u "aud", js "incidentdesk"); (u "sub", name);
         (u "iat", JInt iat); (u "exp", JInt (now + 3600))])));
      (u "token_type", js "Bearer"); (u "expires_in", JInt 3600);
      (u "identity_mode", js "local-development")]).

(** ** The control switch *)

(** [insert or replace into config]. *)
Definition set_keys (kvs : list (pystr * json)) (d : Demo) : Demo :=
  set_config (foldl (λ c kv, assoc_set kv.1 (py_str container_repr kv.2) c)
                (config_rows d) kvs) d.

Definition duplicate_id : exn := exn_of (OtherError "UniqueViolation") "deployments_pkey".

(** [insert into sources.deployments ... coalesce(max(watermark),0)+1]. *)
Definition top_mark (l : list Deployment) : Z :=
  match l with [] => 0 | d :: l' => foldr (λ d m, Z.max (watermark d) m) (watermark d) l' end.
Definition insert_release (version : pystr) (ns instant : Z) (l : list Deployment)
    : result (list Deployment) :=
  let id := u "dep-" ++ str_of_Z ns in
  if bool_decide (id ∈ dep_id <$> l) then Raise duplicate_id
  else Ok (l ++ [{| dep_id := id; dep_service := svc17; app_id := svc17;
                    dep_version := version; commit_sha := SHA; dep_time := instant;
                    watermark := top_mark l + 1; deleted := Some false |}]).

Definition release_now (version : pystr) : MD () := λ s,
  match insert_release version (time_ns s.2) (db_now s.2) (releases s.1) with
  | Ok l => ((set_releases l s.1, s.2), Ok ())
  | Raise e => (s, Raise e)
  end.

Definition notify (kvs : list (pystr * json)) : MD () :=
  r ← on_snd (post (u "/internal/v1/source-change")
    (JObj [(u "service", JStr svc17);
           (u "delete", JBool (match assoc (u "delete_runbook") kvs with
                               | Some v => py_eqb v (js "true") | None => false end))]));
  lift (raise_for_status r).

Definition has (k : string) (kvs : list (pystr * json)) : bool :=
  bool_decide (is_Some (assoc (u k) kvs)).
Definition text_at (k : string) (kvs : list (pystr * json)) : pystr :=
  match assoc (u k) kvs with Some v => py_str container_repr v | None => [] end.

Definition control (key : option pystr) (b : json) : MD json :=
  if negb (bool_decide (key = Some demo_key)) then raise (http 403 "Forbidden") else
  match b with
  | JObj kvs =>
      modify (λ s, (set_keys kvs s.1, s.2)) ;;
      (if has "release" kvs && seed_database then release_now (text_at "release" kvs)
       else mret ()) ;;
      (if has "delete_runbook" kvs || has "release" kvs || has "runbook" kvs
       then (if has "runbook" kvs then on_snd (commit_runbook (text_at "runbook" kvs))
             else mret ()) ;;
            notify kvs
       else mret ()) ;;
      mret (JObj [(u "configured", JList (JStr <$> keys kvs))])
  | _ => raise attr_error
  end.

(** [seed]: the deployments of the two services, kept when they are there. *)
Definition seed_row (instant : Z) (l : list Deployment) (svc : pystr) : list Deployment :=
  if bool_decide (u "dep-" ++ svc ∈ dep_id <$> l) then l
  else l ++ [{| dep_id := u "dep-" ++ svc; dep_service := svc; app_id := svc;
                dep_version := u "v2"; commit_sha := SHA; dep_time := instant;
                watermark := 1; deleted := Some false |}].
Definition seed_releases (instant : Z) (l : list Deployment) : list Deployment :=
  foldl (seed_row instant) l [svc17; u "svc-23"].
Definition seed : MD () := modify (λ s,
  (if seed_database then set_releases (seed_releases (db_now s.2) (releases s.1)) s.1 else s.1,
   s.2)).

(** ** The faulty service *)

Definition status_of (r : Reply) : Z := match r with Completed => 200 | _ => 503 end.
Definition class_of (r : Reply) : json :=
  match r with
  | Completed => JNull
  | PoolAcquireTimeout => js "PoolAcquireTimeout"
  | DependencyReadTimeout => js "DependencyReadTimeout"
  | InvalidConfiguration => js "InvalidConfiguration"
  end.
Definition message_of (fault : pystr) (r : Reply) : pystr :=
  match r with
  | Completed => u "request completed"
  | PoolAcquireTimeout => u "database pool exhausted: active=1 max=1"
  | DependencyReadTimeout =>
      u "upstream inventory timed out after 50ms"
      ++ (if str_eqb fault (u "release_error") then u " after release" else [])
  | InvalidConfiguration => u "invalid DB_POOL_SIZE configuration"
  end.

Definition payload_of (service fault : pystr) (r : Reply) (ms : json) (release : pystr) : json :=
  JObj [(u "service_name", js (if str_eqb service svc17 then "checkout-api" else "payment-api"));
        (u "level", js (if status_of r =? 200 then "INFO" else "ERROR"));
        (u "message", JStr (message_of fault r)); (u "error_class", class_of r);
        (u "duration_ms", ms); (u "release", JStr release); (u "commit", JStr SHA)].

(** A request that no other disturbs: [DemoPool] shows that it is answered so. *)
Definition business (service : pystr) : MD (Z * json) :=
  if negb (mem service [svc17; u "svc-23"]) then raise (http 400 "Bad Request") else
  fault ← config "fault" "healthy";
  s0 ← get;
  modify (λ s, (set_blocked (alone fault false).2 s.1, s.2)) ;;
  timed_out ← (if calls_dependency fault then on_snd dependency else mret false);
  let r := (alone fault timed_out).1 in
  release ← config "release" "v2";
  s1 ← get;
  let payload := payload_of service fault r (elapsed_ms s0.2 s1.2) release in
  (if negb (str_eqb fault (u "missing_logs"))
   then modify (λ s, (add_log (Row (next_key (rid <$> logs s.1)) service (now_iso s.2)
                                 (dumps true false payload)) s.1, s.2))
   else mret ()) ;;
  mret (status_of r, payload).

(** ** The read-only sources *)

Definition record_ (id stamp : pystr) (content : json) (locator version : pystr) : json :=
  JObj [(u "id", JStr id); (u "event_time", JStr stamp); (u "content", content);
        (u "locator", JStr locator); (u "version", JStr version); (u "deleted", JBool false)].

Definition runbook_record (w : W) (end_ version : pystr) : result json :=
  stamp ← commit_date w version;
  text ← show_runbook w version;
  Ok (record_ (u "orders-runbook") stamp
    (JObj [(u "markdown", JStr text); (u "service", JStr svc17);
           (u "provenance", js "local-demo"); (u "valid_as_of", JStr end_)])
    (u "demo-git://repo/" ++ version ++ u "/RUNBOOK.md") version).

(** The commits of the deployments in the window, and the one in force when it opens. *)
Definition deployed_shas (svc : pystr) (start end_ : Z) (table : list Deployment) : list pystr :=
  distinct50 (commit_sha <$> filter (λ d,
    in_window svc start end_ table d = true ∧ not_deleted d = true) table).

Definition commit_record (w : W) (svc : pystr) (end_ sha : pystr) : result (option json) :=
  stamp ← commit_date w sha;
  s ← fromisoformat stamp;
  e ← fromisoformat end_;
  late ← dt_ltb e s;
  if late : bool then Ok None else
  stat ← show_stat w sha;
  text ← show_config w sha;
  Ok (Some (record_ sha stamp
    (JObj [(u "commit", JStr sha); (u "diff", JStr stat); (u "config", JStr text);
           (u "config_path", js "config.json");
           (u "config_locator", JStr (u "demo-git://repo/" ++ sha ++ u "/config.json"));
           (u "service", JStr svc); (u "provenance", js "local-demo")])
    (u "demo-git://repo/commit/" ++ sha) sha)).

(** The loop over the commits: one Git cannot show is left out. *)
Fixpoint commit_records (w : W) (svc end_ : pystr) (shas : list pystr) : result (list json) :=
  match shas with
  | [] => Ok []
  | sha :: shas' =>
      here ← (if negb (fullmatch sha_pattern sha) then Ok None
              else match commit_record w svc end_ sha with
                   | Ok r => Ok r
                   | Raise e => if bool_decide (exn_cls e = called_process) then Ok None
                                else Raise e
                   end);
      rest ← commit_records w svc end_ shas';
      Ok (match here with Some r => r :: rest | None => rest end)
  end.

Definition related_records (source : pystr) (scope : json) (s : Demo * W) : result (list json) :=
  svc ← jindex "service" scope;
  if negb (py_eqb svc (JStr svc17)) then Ok [] else
  profile ← catalog_one (logs s.1) svc17;
  if str_eqb (prof_provenance profile) (u "public-dataset") then Ok [] else
  if str_eqb source (u "runbook") then
    if bool_decide (assoc (u "delete_runbook") (config_rows s.1) = Some (u "true")) then Ok []
    else
      end_ ← jindex "end" scope ≫= as_text;
      version ← runbook_until s.2 end_;
      if str_eqb version [] then Ok []
      else r ← runbook_record s.2 end_ version; Ok [r]
  else if negb seed_database then Ok [] else
    end_ ← jindex "end" scope;
    start ← jindex "start" scope;
    e ← timestamptz end_;
    t ← timestamptz start;
    text ← as_text end_;
    commit_records s.2 svc17 text (deployed_shas svc17 t e (releases s.1)).

(** The profiles of the services a caller asks for. *)
Definition profile_json (p : Profile) : json :=
  let text o := match o with Some s => JStr s | None => JNull end in
  JObj [(u "id", JStr (prof_id p)); (u "aliases", JList (prof_aliases p));
        (u "available_from", text (prof_from p)); (u "available_to", text (prof_to p));
        (u "provenance", JStr (prof_provenance p))].

Definition str_list (v : json) : option (list pystr) :=
  match v with
  | JList l => if (len l <=? 100) && forallb (λ x, match x with JStr _ => true | _ => false end) l
               then Some (omap (λ x, match x with JStr s => Some s | _ => None end) l) else None
  | _ => None
  end.

Definition source_catalog (given : pystr) (b : json) : MD json :=
  same ← lift (compare_digest given internal_key);
  if negb same then raise (http 401 "service_identity_required") else
  services ← lift (jget_or (JList []) "services" b);
  match str_list services with
  | None => raise (http 400 "invalid_services")
  | Some l => s ← get; ps ← lift (catalog (logs s.1) l); mret (JList (profile_json <$> ps))
  end.

(** [data] without its records, as [sources] extends it. *)
Definition log_answer (pg : Page) : list (pystr * json) :=
  [(u "next_cursor", match pg_cursor pg with Some c => JStr c | None => JNull end);
   (u "summary", JObj [
      (u "total_in_query", JInt (pg_total pg)); (u "matched", JInt (pg_matched pg));
      (u "levels", JObj ((λ kv, (kv.1, JInt kv.2)) <$> pg_levels pg));
      (u "selection", js "rare-patterns-and-severity-keyset");
      (u "template_scan", JInt (pg_scan pg));
      (u "terms", JList (JStr <$> s_terms (pg_spec pg)));
      (u "mode", JStr (s_mode (pg_spec pg))); (u "labels_used", JBool false)]);
   (u "provenance", JStr (pg_provenance pg))].

Definition log_record (svc : pystr) (rc : row * json) : json :=
  let id := str_of_Z (rid rc.1) in
  record_ id (rtime rc.1) rc.2 (u "logs://" ++ svc ++ [47] ++ id) id.

(** The authorized scope's service and window are strings. *)
Definition log_scope (scope : json) : result LogScope :=
  svc ← jindex "service" scope ≫= as_text;
  start ← jindex "start" scope ≫= as_text;
  end_ ← jindex "end" scope ≫= as_text;
  Ok {| log_service := svc; log_start := start; log_end := end_ |}.

(** What every answer says of itself. *)
Definition answer_tail (w : W) (scope : json) (sync : string) : result (list (pystr * json)) :=
  mark ← jindex "watermark" scope;
  Ok [(u "watermark", mark); (u "observed_at", JStr (now_iso w)); (u "scope", scope);
      (u "sync", js sync)].

Definition logs_source (scope : json) (limit : Z) (cursor : json) (s : Demo * W)
    : result json :=
  spec ← jget_or (JObj []) "query" scope;
  sc ← log_scope scope;
  match LogStore.query container_repr level_of fts (logs s.1) sc spec limit cursor with
  | Raise e => Raise (if is_value_error (exn_cls e) then http_exception 400 (exn_msg e) else e)
  | Ok pg =>
      tail ← answer_tail s.2 scope "indexed-keyset-v2";
      Ok (JObj (log_answer pg
                ++ (u "records", JList (log_record (log_service sc) <$> pg_records pg)) :: tail))
  end.

(** An object of the cluster. *)
Definition kept_keys : list pystr := u <$> ["status"; "reason"; "message"; "involvedObject"]%string.
Definition kube_record (resource : string) (item : json) : result json :=
  meta ← jindex "metadata" item;
  uid ← jindex "uid" meta;
  stamp ← jindex "creationTimestamp" meta;
  name ← jindex "name" meta;
  labels ← jget_or (JObj []) "labels" meta;
  release ← jget "release" labels;
  kvs ← match item with JObj kvs => Ok kvs | _ => Raise attr_error end;
  version ← jindex "resourceVersion" meta;
  Ok (JObj [
    (u "id", uid); (u "event_time", stamp);
    (u "content", JObj ((u "name", name) :: (u "release", release)
       :: filter (λ kv, kv.1 ∈ kept_keys) kvs));
    (u "locator", JStr (u "k8s://" ++ namespace ++ [47] ++ u resource ++ [47]
                        ++ py_str container_repr name));
    (u "version", version); (u "deleted", JBool false)]).

Definition kube_records (resource : string) : MD (list json) :=
  r ← on_snd (kube_get (u "/api/v1/namespaces/" ++ namespace ++ [47] ++ u resource));
  lift (raise_for_status r) ;;
  v ← lift (body r);
  items ← lift (jindex "items" v ≫= jiter);
  lift (map_r (kube_record resource) items).

Definition cluster_source (scope : json) : MD (list json) :=
  if str_eqb namespace [] then raise (http 503 "cluster_observer_not_configured") else
  svc ← lift (jindex "service" scope);
  if negb (py_eqb svc (JStr svc17)) then raise (http 403 "namespace_outside_service_scope") else
  pods ← kube_records "pods";
  events ← kube_records "events";
  mret (pods ++ events).

(** The answer of a source that is scanned again for every page. *)
Definition rescan (w : W) (extra : list (pystr * json)) (records : list json) (limit : Z)
    (scope : json) : result json :=
  next ← (if limit <? len records
          then match records !! Z.to_nat (limit - 1) with
               | Some r => jindex "id" r
               | None => Raise (exn_of IndexError "list index out of range")
               end
          else Ok JNull);
  tail ← answer_tail w scope "rescan";
  Ok (JObj (extra ++ (u "records", JList (upto limit records)) :: (u "next_cursor", next) :: tail)).

Definition read_source (source : pystr) (scope : json) (limit : Z) (cursor : json) : MD json :=
  if str_eqb source (u "logs") then s ← get; lift (logs_source scope limit cursor s)
  else if mem source [u "git"; u "runbook"] then
    s ← get;
    records ← lift (related_records source scope s);
    lift (rescan s.2 [(u "provenance", js "local-demo")] records limit scope)
  else
    records ← cluster_source scope;
    s ← get; lift (rescan s.2 [] records limit scope).

Definition source_names : list pystr := u <$> ["logs"; "git"; "runbook"; "cluster"]%string.

(** [POST /sources/{source}]: the task's scope first, from the control plane. *)
Definition authorize_task (source : pystr) (task : json) : MD json :=
  id ← lift (jindex "id" task);
  owner ← lift (jindex "owner" task);
  generation ← lift (jindex "generation" task);
  r ← on_snd (post (u "/internal/v1/tasks/" ++ py_str container_repr id ++ u "/authorize")
    (JObj [(u "owner", owner); (u "generation", generation); (u "tool", JStr source)]));
  if negb (status r =? 200) then raise (http_exception (status r) (u "scope_rejected"))
  else lift (body r).

Definition sources (source : pystr) (b : json) : MD json :=
  task ← lift (jindex "task" b);
  if negb (mem source source_names) then raise (http 404 "Not Found") else
  scope ← authorize_task source task;
  cursor ← lift (jget "cursor" b);
  asked ← lift (jget_or (JInt 50) "limit" b ≫= py_int trunc);
  let limit := Z.min 100 asked in
  if limit <? 1 then raise (http 400 "Bad Request") else
  down ← config "unavailable" "";
  if str_eqb down source then raise (http 503 "source_unavailable") else
  read_source source scope limit cursor.

(** ** The issue stub *)

Definition issue_json (r : IssueRow) : json :=
  JObj [(u "number", JInt (number r)); (u "title", title r); (u "body", issue_body r);
        (u "html_url", JStr (u "http://localhost:8090/github/repos/" ++ repo r
                             ++ u "/issues/" ++ str_of_Z (number r)));
        (u "integration", js "local-github-stub")].

Definition slug (owner name : pystr) : pystr := owner ++ [47] ++ name.

Definition issue (owner name : pystr) (n : Z) : MD json := λ s,
  match filter (λ r, number r = n ∧ repo r = slug owner name) (issue_rows s.1) with
  | r :: _ => (s, Ok (issue_json r))
  | [] => (s, Raise (http 404 "Not Found"))
  end.

Definition create_issue (owner name : pystr) (b : json) : MD json :=
  t ← lift (jindex "title" b);
  text ← lift (jindex "body" b);
  t' ← lift (bind_text sqlite_real t);
  text' ← lift (bind_text sqlite_real text);
  s ← get;
  let n := next_key (number <$> issue_rows s.1) in
  modify (λ s, (add_issue {| number := n; repo := slug owner name; title := t';
                             issue_body := text' |} s.1, s.2)) ;;
  issue owner name n.

(** [order by number desc]. *)
Definition newest_first (a b : IssueRow) : bool := number b <=? number a.
Definition of_repo (owner name : pystr) (rows : list IssueRow) : list IssueRow :=
  sort_by newest_first (filter (λ r, repo r = slug owner name) rows).

(** [limit ? offset ?]: a negative limit is none, a negative offset is zero. *)
Definition sql_page {A} (limit offset : Z) (l : list A) : list A :=
  let rest := drop (Z.to_nat offset) l in
  if limit <? 0 then rest else take (Z.to_nat limit) rest.

Definition issues (owner name : pystr) (page_ per_page : Z) : MD (list json) :=
  hidden ← config "hide_issues" "";
  if str_eqb hidden (u "true") then mret [] else
  s ← get;
  map_m (sql_page per_page ((page_ - 1) * per_page) (of_repo owner name (issue_rows s.1)))
    (λ r, issue owner name (number r)).
End server.
