(* ===== verification/DemoSpec.v ===== *)
(** * What the development fixtures guarantee

    The deployments they write page completely, the issues they file are found again, and
    the sources answer only for an authorized scope. *)
From S2P Require Import Prelude.
From S2P Require Import PyStr.
From S2P Require Import PyRe.
From S2P Require Import Json.
From S2P Require Import JsonParse.
From S2P Require Import PyTime.
From S2P Require Import IsoTime.
From S2P Require Import LogStore.
From S2P Require Import LogStoreSpec.
From S2P Require Import Contracts.
From S2P Require Import Runtime.
From S2P Require Import Connectors.
From S2P Require Import Api.
From S2P Require Import DemoPool.
From S2P Require Import Demo.

(** ** The deployments *)

(** Positive watermarks, no two the same within a service. *)
Record releases_ok (l : list Deployment) : Prop := {
  ro_marks : ∀ svc, NoDup (watermark <$> filter (λ d, dep_service d = svc) l);
  ro_positive : Forall (λ d, 0 < watermark d) l;
  ro_seeded : u "dep-" ++ svc17 ∈ dep_id <$> l ∧ u "dep-" ++ u "svc-23" ∈ dep_id <$> l }.

Section releases.
Variable SHA : pystr.

Lemma top_mark_above l d : d ∈ l → watermark d ≤ top_mark l.
Proof.
  assert (∀ m l d, (d ∈ l → watermark d ≤ foldr (λ d m, Z.max (watermark d) m) m l)
                   ∧ m ≤ foldr (λ d m, Z.max (watermark d) m) m l) as H.
  { intros m l'. induction l' as [|e l' IH]; intros d'; cbn; [split; [by intros ?%elem_of_nil|lia]|].
    split; [|specialize (IH d') as [_ IH]; lia].
    intros [->|Hd]%elem_of_cons; [lia|]. specialize (IH d') as [IH _]. specialize (IH Hd). lia. }
  destruct l as [|e l]; [by intros ?%elem_of_nil|]. cbn.
  intros [->|Hd]%elem_of_cons; [apply (H (watermark e) l e)|by apply (H (watermark e) l d)].
Qed.

Lemma insert_release_ok version ns instant l l' :
  releases_ok l → insert_release SHA version ns instant l = Ok l' → releases_ok l'.
Proof.
  intros [Hm Hp [Ha Hb]]. unfold insert_release. destruct (bool_decide _); [done|].
  intros [= <-].
  assert (0 ≤ top_mark l) as Hz.
  { destruct l as [|d l]; [done|]. pose proof (top_mark_above (d :: l) d (list_elem_of_here _ _)).
    apply Forall_inv in Hp. lia. }
  split.
  - intros svc. rewrite filter_app, fmap_app. apply NoDup_app. split; [apply Hm|]. split.
    + intros m Hin Hin'. apply list_elem_of_fmap in Hin as (d & -> & Hd).
      apply list_elem_of_filter in Hd as [_ Hd]. apply top_mark_above in Hd.
      apply list_elem_of_fmap in Hin' as (d' & He & Hd').
      apply list_elem_of_filter in Hd' as [_ Hd'%list_elem_of_singleton]. subst d'. cbn in He. lia.
    + apply (NoDup_fmap_2_strong watermark); [|apply NoDup_filter, NoDup_singleton].
      intros x y Hx Hy _. apply list_elem_of_filter in Hx as [_ Hx%list_elem_of_singleton].
      apply list_elem_of_filter in Hy as [_ Hy%list_elem_of_singleton]. congruence.
  - apply Forall_app. split; [done|]. constructor; [cbn; lia|constructor].
  - rewrite fmap_app, !elem_of_app. auto.
Qed.

Lemma seed_kept instant l : releases_ok l → seed_releases SHA instant l = l.
Proof.
  intros [_ _ [Ha Hb]]. unfold seed_releases. cbn [foldl]. unfold seed_row at 2.
  rewrite bool_decide_true by done. unfold seed_row. by rewrite bool_decide_true by done.
Qed.

Lemma seed_fresh instant : releases_ok (seed_releases SHA instant []).
Proof.
  split.
  - intros svc.
    assert (∃ a b, seed_releases SHA instant [] = [a; b] ∧ dep_service a = svc17
      ∧ dep_service b = u "svc-23") as (a & b & -> & Ha & Hb).
    { eexists _, _. split; [by vm_compute|]. by vm_compute. }
    rewrite !filter_cons, Ha, Hb.
    destruct (decide (svc17 = svc)) as [E1|], (decide (u "svc-23" = svc)) as [E2|];
      try (rewrite <- E1 in E2; by vm_compute in E2);
      repeat constructor; apply not_elem_of_nil.
  - by repeat constructor.
  - split; apply (bool_decide_unpack _); by vm_compute.
Qed.
End releases.

Lemma eligible_marks svc start end_ l :
  releases_ok l → NoDup (watermark <$> eligible_rows svc start end_ l).
Proof.
  intros [Hm _ _]. unfold eligible_rows. rewrite sort_by_perm.
  assert (filter (λ d, in_window svc start end_ l d = true) l
    = filter (λ d, in_window svc start end_ l d = true) (filter (λ d, dep_service d = svc) l)) as ->.
  { rewrite list_filter_filter. apply list_filter_iff. intros d. split; [|tauto]. intros H.
    split; [done|]. unfold in_window in H. rewrite !andb_true_iff in H.
    destruct H as [[H _] _]. by apply bool_decide_eq_true in H. }
  apply NoDup_fmap_filter, Hm.
Qed.

Lemma next_key_fresh ids : Forall (λ i, i < next_key ids) ids.
Proof.
  unfold next_key. apply Forall_forall. intros i Hi.
  assert (i ≤ foldr Z.max 0 ids); [|lia].
  induction ids as [|j ids IH]; [by apply elem_of_nil in Hi|]. cbn.
  apply elem_of_cons in Hi as [->|Hi]; [lia|]. specialize (IH Hi). lia.
Qed.

Lemma pages_concat {A} (n K : nat) (l : list A) :
  concat ((λ k, take n (drop (k * n) l)) <$> seq 0 K) = take (K * n) l.
Proof.
  induction K as [|K IH]; [done|]. rewrite seq_S, fmap_app, concat_app, IH. cbn.
  rewrite app_nil_r, take_take_drop. f_equal. lia.
Qed.

Lemma fmap_concat_ {A B} (f : A → B) (ls : list (list A)) :
  map f (concat ls) = concat (map (map f) ls).
Proof. induction ls as [|l ls IH]; [done|]. cbn. by rewrite map_app, IH. Qed.

(** ** The server's life *)

Section served.
Context {JR : JsonRuntime} {TD : TzDatabase} {UT : UnicodeTables} {W : Type}.
Variable container_repr : json → pystr.
Variable sqlite_real : pystr → pystr.
Variable trunc : pystr → result Z.
Variable SHA demo_key namespace : pystr.
Variable seed_database : bool.
Variable time_ns : W → Z.
Variable now_iso : W → pystr.
Variable db_now : W → Z.
Variable elapsed_ms : W → W → json.
Variable timestamptz : json → result Z.
Variable post : pystr → json → M W response.
Variable kube_get : pystr → M W response.
Variable dependency : M W bool.
Variable commit_runbook : pystr → M W ().
Variable runbook_until commit_date show_runbook show_stat show_config
  : W → pystr → result pystr.
Variable distinct50 : list pystr → list pystr.
Variable level_of : pystr → pystr.
Variable fts : pystr → Z → bool.

Abbreviation control_ := (control container_repr SHA demo_key seed_database time_ns db_now
  post commit_runbook).
Abbreviation business_ := (business SHA now_iso elapsed_ms dependency).
Abbreviation create_issue_ := (create_issue (W:=W) sqlite_real).
Abbreviation seed_ := (seed SHA seed_database db_now).

(** A request that changes the tables ends, however it ends, the server starts again, or
    the world goes on (the sources only read). *)
Inductive demo_step (s : Demo * W) : Demo * W → Prop :=
| Controls key b s' x : control_ key b s = (s', x) → demo_step s s'
| Serves svc s' x : business_ svc s = (s', x) → demo_step s s'
| Files owner name b s' x : create_issue_ owner name b s = (s', x) → demo_step s s'
| Starts s' x : seed_ s = (s', x) → demo_step s s'
| Meanwhile w : demo_step s (s.1, w).

(** What a handler keeps of the tables. *)
Definition on_demo (P : Demo → Demo → Prop) (s s' : Demo * W) : Prop := P s.1 s'.1.
#[local] Instance on_demo_preorder P : PreOrder P → PreOrder (on_demo P).
Proof.
  intros [Hr Ht]. split; unfold on_demo; [intros s; apply Hr|intros s1 s2 s3; apply Ht].
Qed.

Section tables.
Variable P : Demo → Demo → Prop.
Context {HP : PreOrder P}.
Hypothesis P_config : ∀ c d, P d (set_config c d).
Hypothesis P_log : ∀ r d, P d (add_log r d).
Hypothesis P_blocked : ∀ b d, P d (set_blocked b d).
Hypothesis P_issue : ∀ d r,
  number r = next_key (number <$> issue_rows d) → P d (add_issue r d).
Hypothesis P_release : ∀ version ns instant d l,
  insert_release SHA version ns instant (releases d) = Ok l → P d (set_releases l d).
Hypothesis P_seed : ∀ instant d, P d (set_releases (seed_releases SHA instant (releases d)) d).

Lemma demo_keeps_on_snd {A} (m : M W A) : keeps (on_demo P) (on_snd m).
Proof.
  intros [d w] s' x. unfold on_snd. cbn. destruct (m w) as [w' r]. intros [= <- _].
  unfold on_demo. cbn. reflexivity.
Qed.
Lemma keeps_config key def : keeps (on_demo P) (config (W:=W) key def).
Proof. intros s s' x [= <- _]. unfold on_demo. reflexivity. Qed.

#[local] Hint Extern 1 (keeps _ (on_snd _)) => apply demo_keeps_on_snd : keeps.
#[local] Hint Extern 1 (keeps _ (config _ _)) => apply keeps_config : keeps.

Lemma control_keeps key b : keeps (on_demo P) (control_ key b).
Proof.
  unfold control, notify. repeat (cbn beta iota zeta; first [keeps_step
    | apply (keeps_modify (on_demo P)); intros s; apply P_config
    | intros s s' x; unfold release_now;
      destruct (insert_release _ _ _ _ _) as [l|e] eqn:?; intros [= <- _];
      [by eapply P_release|unfold on_demo; reflexivity]]).
Qed.

Lemma business_keeps svc : keeps (on_demo P) (business_ svc).
Proof.
  unfold business. repeat (cbn beta iota zeta; first [keeps_step
    | apply (keeps_modify (on_demo P)); intros s; first [apply P_blocked | apply P_log]]).
Qed.

Lemma create_issue_keeps owner name b : keeps (on_demo P) (create_issue_ owner name b).
Proof.
  intros s s' x. unfold create_issue.
  unfold mbind at 1, M_bind at 1, lift at 1. destruct (jindex "title" b); [|by intros [= <- _]].
  unfold mbind at 1, M_bind at 1, lift at 1. destruct (jindex "body" b); [|by intros [= <- _]].
  unfold mbind at 1, M_bind at 1, lift at 1.
  destruct (bind_text sqlite_real a) as [t|]; [|by intros [= <- _]].
  unfold mbind at 1, M_bind at 1, lift at 1.
  destruct (bind_text sqlite_real a0) as [t'|]; [|by intros [= <- _]].
  unfold mbind, M_bind, get, modify. cbn beta iota. unfold issue.
  set (s1 := (add_issue _ s.1, s.2)). intros H. assert (s' = s1) as ->.
  { revert H. destruct (filter _ _); by intros [= <- _]. }
  apply P_issue. done.
Qed.

Lemma step_keeps s s' : demo_step s s' → on_demo P s s'.
Proof.
  intros Hs. destruct Hs as [key b s' x H|svc s' x H|owner name b s' x H|s' x H|w].
  - exact (control_keeps key b _ _ _ H).
  - exact (business_keeps svc _ _ _ H).
  - exact (create_issue_keeps owner name b _ _ _ H).
  - revert H. intros [= <- _]. unfold on_demo. destruct seed_database; [apply P_seed|reflexivity].
  - unfold on_demo. reflexivity.
Qed.

Lemma steps_keep s s' : rtc demo_step s s' → on_demo P s s'.
Proof. induction 1 as [|s1 s2 s3 H _ IH]; [reflexivity|]. etrans; [by apply step_keeps|done]. Qed.
End tables.

#[local] Instance impl_preorder (Q : Demo → Prop) : PreOrder (λ d d', Q d → Q d').
Proof. split; [by intros d|]. intros d1 d2 d3 H1 H2 H. auto. Qed.

Lemma releases_stay_ok s s' :
  rtc demo_step s s' → releases_ok (releases s.1) → releases_ok (releases s'.1).
Proof.
  apply (steps_keep (λ d d', releases_ok (releases d) → releases_ok (releases d'))); try done.
  - intros version ns instant d l H Hok. by eapply insert_release_ok.
  - intros instant d Hok. cbn [releases set_releases]. by rewrite seed_kept.
Qed.

(** Whatever happens to the demo once it has started on an empty table (requests that
    switch faults and release versions, successful or not, restarts), the connector of the
    deployments reads all of it: following the cursor from the start gives every eligible
    deployment of a service exactly once, in watermark order, in pages of any size. *)
Theorem releases_paged s0 s s' svc start end_ n :
  seed_database = true → releases s0.1 = [] → seed_ s0 = (s, Ok ()) →
  rtc demo_step s s' → 0 < n →
  let l := releases s'.1 in
  let ps := pages (S (length l)) svc start end_ 0 n l in
  concat ps = eligible_rows svc start end_ l ∧ StronglySorted mark_lt (concat ps) ∧
  Forall (λ p, len p ≤ n) ps.
Proof.
  intros Hdb H0 Hs Hsteps Hn l ps.
  assert (releases_ok l) as Hok.
  { apply (releases_stay_ok s); [done|]. revert Hs. intros [= <-]. rewrite Hdb. cbn.
    rewrite H0. apply seed_fresh. }
  pose proof (eligible_strict _ _ _ _ (eligible_marks svc start end_ l Hok)) as Hstrict.
  destruct (pages_spec (S (length l)) svc start end_ 0 n l) as [Hc Hl]; [done..| |].
  { unfold after_mark, eligible_rows. apply Nat.lt_succ_r.
    etrans; [apply length_filter|]. rewrite sort_by_perm. apply length_filter. }
  assert (after_mark 0 (eligible_rows svc start end_ l) = eligible_rows svc start end_ l) as Ha.
  { unfold after_mark. apply filter_all, Forall_forall. intros d Hd.
    apply elem_of_eligible in Hd as [Hd _].
    exact (proj1 (Forall_forall _ _) (ro_positive _ Hok) d Hd). }
  unfold ps. rewrite Hc, Ha. done.
Qed.

(** *** The issues *)

(** Issues are only added, under new numbers. *)
Definition issues_grow (d d' : Demo) : Prop :=
  (∃ new, issue_rows d' = issue_rows d ++ new) ∧
  (NoDup (number <$> issue_rows d) → NoDup (number <$> issue_rows d')).
#[local] Instance issues_grow_preorder : PreOrder issues_grow.
Proof.
  split.
  - intros d. split; [exists []; by rewrite app_nil_r|done].
  - intros d1 d2 d3 [[x H1] N1] [[y H2] N2]. split; [|auto].
    exists (x ++ y). by rewrite H2, H1, app_assoc.
Qed.

Lemma issues_grow_same d d' : issue_rows d' = issue_rows d → issues_grow d d'.
Proof. intros H. unfold issues_grow. rewrite H. split; [exists []; by rewrite app_nil_r|done]. Qed.

Lemma issues_stay s s' : rtc demo_step s s' → issues_grow s.1 s'.1.
Proof.
  apply (steps_keep issues_grow); try (intros; by apply issues_grow_same).
  intros d r Hr. split; [by exists [r]|]. intros Hn. cbn.
  rewrite fmap_app. apply NoDup_app. split; [done|]. split; [|apply NoDup_singleton].
  intros n Hin Hn'. apply list_elem_of_singleton in Hn' as ->. rewrite Hr in Hin.
  pose proof (proj1 (Forall_forall _ _) (next_key_fresh (number <$> issue_rows d)) _ Hin). cbn in *. lia.
Qed.

(** The row a number names. *)
Lemma issue_of_row owner name (s : Demo * W) r :
  NoDup (number <$> issue_rows s.1) → r ∈ issue_rows s.1 → repo r = slug owner name →
  issue owner name (number r) s = (s, Ok (issue_json r)).
Proof.
  intros Hn Hr Hs. unfold issue.
  assert (r ∈ filter (λ r', number r' = number r ∧ repo r' = slug owner name) (issue_rows s.1))
    as Hin by by apply list_elem_of_filter.
  destruct (filter _ _) as [|r' l] eqn:E; [by apply elem_of_nil in Hin|].
  assert (r' = r) as ->; [|done].
  assert (r' ∈ issue_rows s.1 ∧ number r' = number r) as [Hr' He].
  { assert (r' ∈ r' :: l) as Hr' by apply list_elem_of_here. rewrite <- E in Hr'.
    by apply list_elem_of_filter in Hr' as [[??]?]. }
  clear E Hin. revert Hr Hr' Hn. generalize (issue_rows s.1). intros rows Hr Hr' Hn.
  induction rows as [|x rows IH]; [by apply elem_of_nil in Hr|].
  rewrite fmap_cons in Hn. apply NoDup_cons in Hn as [Hx Hn].
  apply elem_of_cons in Hr. apply elem_of_cons in Hr'.
  destruct Hr as [->|Hr], Hr' as [->|Hr']; auto; exfalso; apply Hx.
  - rewrite <- He. by apply (list_elem_of_fmap_2 number).
  - rewrite He. by apply (list_elem_of_fmap_2 number).
Qed.

Lemma issue_state owner name n (s s' : Demo * W) x :
  issue owner name n s = (s', x) → s' = s.
Proof. unfold issue. destruct (filter _ _); by intros [= <- _]. Qed.

(** An issue that was filed is found again: whatever requests came before and come
    after, [GET] of the number that [POST] answered gives the same issue, with the text
    the caller sent, under a number no other issue has. *)
Theorem issue_found s0 s s1 s2 owner name b v :
  issue_rows s0.1 = [] → rtc demo_step s0 s →
  create_issue_ owner name b s = (s1, Ok v) → rtc demo_step s1 s2 →
  ∃ r, v = issue_json r ∧ repo r = slug owner name ∧
    (jindex "title" b ≫= bind_text sqlite_real) = Ok (title r) ∧
    (jindex "body" b ≫= bind_text sqlite_real) = Ok (issue_body r) ∧
    (number r ∉ number <$> issue_rows s.1) ∧
    issue owner name (number r) s2 = (s2, Ok v).
Proof.
  intros H0 Hs Hc Hs2. apply issues_stay in Hs as [_ Hn].
  rewrite H0 in Hn. specialize (Hn ltac:(constructor)).
  pose proof (issues_stay s s1) as Hg1.
  specialize (Hg1 (rtc_once _ _ (Files s owner name b s1 (Ok v) Hc))) as [_ Hn1].
  specialize (Hn1 Hn). apply issues_stay in Hs2 as [[new Hnew] Hn2]. specialize (Hn2 Hn1).
  unfold create_issue in Hc. inv_run.
  pose proof (issue_state _ _ _ _ _ _ Hc) as ->. cbn [fst] in *.
  set (r := {| number := next_key (number <$> issue_rows a3.1); repo := slug owner name;
               title := a1; issue_body := a2 |}) in *.
  pose proof (issue_of_row owner name (add_issue r a3.1, a3.2) r Hn1) as Hi.
  change (next_key (number <$> issue_rows a3.1)) with (number r) in Hc.
  rewrite Hi in Hc; [|cbn; apply elem_of_app; right; apply list_elem_of_here|done].
  injection Hc as <-. exists r. split; [done|]. split; [done|].
  split; [by rewrite Hr2|]. split; [by rewrite Hr1|]. split.
  - intros Hin. pose proof (proj1 (Forall_forall _ _) (next_key_fresh _) _ Hin). cbn in *. lia.
  - apply issue_of_row; [done| |done]. rewrite Hnew. cbn. rewrite !elem_of_app. left. right.
    apply list_elem_of_here.
Qed.

Lemma map_m_issues owner name (s : Demo * W) rows :
  Forall (λ r, issue owner name (number r) s = (s, Ok (issue_json r))) rows →
  map_m rows (λ r, issue owner name (number r)) s = (s, Ok (issue_json <$> rows)).
Proof.
  induction 1 as [|r rows Hr _ IH]; [done|]. cbn [map_m]. unfold mbind, M_bind.
  rewrite Hr, IH. done.
Qed.

(** Paging through the issues of a repository, unless they are hidden, lists each of
    them once, the newest first: a page is answered without an error, and the pages up to
    any that covers their number are together all of them. *)
Theorem issues_paged s0 s owner name per K :
  issue_rows s0.1 = [] → rtc demo_step s0 s → 0 < per → 0 ≤ K →
  assoc (u "hide_issues") (config_rows s.1) ≠ Some (u "true") →
  let all := of_repo owner name (issue_rows s.1) in
  let page k := issue_json <$> sql_page per ((k - 1) * per) all in
  (∀ k, 1 ≤ k → issues owner name k per s = (s, Ok (page k))) ∧
  (len all ≤ K * per → concat (page <$> seqZ 1 K) = issue_json <$> all) ∧
  StronglySorted (λ a b, number b ≤ number a) all.
Proof.
  intros H0 Hs Hper HK Hh all page. apply issues_stay in Hs as [_ Hn].
  rewrite H0 in Hn. specialize (Hn ltac:(constructor)). split; [|split].
  - intros k Hk. unfold issues, config. unfold mbind at 1, M_bind at 1. cbn [fst].
    assert (str_eqb (default (u "") (assoc (u "hide_issues") (config_rows s.1))) (u "true") = false) as ->.
    { apply bool_decide_eq_false. destruct (assoc _ _) as [v|]; cbn in *; [congruence|].
      by vm_compute. }
    unfold mbind, M_bind, get. fold all. apply map_m_issues, Forall_forall.
    intros r Hr. assert (r ∈ all) as Hall.
    { unfold sql_page in Hr. rewrite (proj2 (Z.ltb_ge per 0)) in Hr by lia.
      rewrite <- (take_drop (Z.to_nat ((k - 1) * per)) all), elem_of_app. right.
      rewrite <- (take_drop (Z.to_nat per) (drop _ all)), elem_of_app. by left. }
    unfold all, of_repo in Hall. rewrite sort_by_perm in Hall.
    apply list_elem_of_filter in Hall as [Hrepo Hin]. by apply issue_of_row.
  - intros Hlen. unfold page.
    assert (concat ((λ k, sql_page per ((k - 1) * per) all) <$> seqZ 1 K) = all) as Hc.
    { transitivity (take (Z.to_nat K * Z.to_nat per) all).
      - rewrite <- pages_concat. f_equal. unfold seqZ. rewrite <- list_fmap_compose.
        apply list_fmap_ext. intros i j Hj. unfold compose, sql_page.
        rewrite (proj2 (Z.ltb_ge per 0)) by lia. do 2 f_equal. nia.
      - apply take_ge. unfold len in Hlen. nia. }
    transitivity (issue_json <$> concat ((λ k, sql_page per ((k - 1) * per) all) <$> seqZ 1 K));
      [|by rewrite Hc].
    etrans; [|symmetry; apply fmap_concat_]. f_equal. apply (list_fmap_compose _ (map issue_json)).
  - pose proof (sort_by_strongly_sorted newest_first
      (filter (λ r, repo r = slug owner name) (issue_rows s.1))) as Hsort.
    assert (StronglySorted (λ a b, newest_first a b = true) all) as Hall.
    { apply Hsort; unfold newest_first; intros; lia. }
    clear -Hall. induction Hall as [|r rows _ IH Hr]; [constructor|]. constructor; [done|].
    eapply Forall_impl; [exact Hr|]. unfold newest_first. intros x. lia.
Qed.

(** *** The faulty service *)

Lemma on_snd_demo {A} (m : M W A) (s s' : Demo * W) x : on_snd m s = (s', x) → s'.1 = s.1.
Proof. unfold on_snd. destruct s as [d w]. cbn. destruct (m w). by intros [= <- _]. Qed.

(** What the demo service answers is what it logs: the answer is the one of the fault
    that is configured ([alone], which [DemoPool] refines), its status, level and error
    class agree, and exactly one row is added, with that payload, the service asked and a
    new identifier, unless the fault is the one that loses logs; nothing else but the
    pool changes. *)
Theorem business_logged service s s' st payload :
  business_ service s = (s', Ok (st, payload)) →
  mem service [svc17; u "svc-23"] = true ∧
  let fault := default (u "healthy") (assoc (u "fault") (config_rows s.1)) in
  ∃ timed_out, let r := (alone fault timed_out).1 in
    st = status_of r ∧ jindex "error_class" payload = Ok (class_of r) ∧
    jindex "level" payload = Ok (js (if bool_decide (st = 200) then "INFO" else "ERROR")) ∧
    ∃ new, s'.1 = {| config_rows := config_rows s.1; logs := logs s.1 ++ new;
                     issue_rows := issue_rows s.1; releases := releases s.1;
                     blocked := (alone fault timed_out).2 |} ∧
      if str_eqb fault (u "missing_logs") then new = [] else
      ∃ l, new = [l] ∧ rservice l = service ∧ rpayload l = dumps true false payload ∧
        Forall (λ l', rid l' < rid l) (logs s.1).
Proof.
  unfold business. destruct (mem service _) eqn:Hsvc; cbn [negb]; [|done].
  intros H. split; [done|]. cbn zeta.
  unfold mbind at 1, M_bind at 1, config at 1 in H.
  set (fault := default (u "healthy") (assoc (u "fault") (config_rows s.1))) in *.
  unfold mbind at 1, M_bind at 1, get at 1, mbind at 1, M_bind at 1, modify at 1 in H.
  apply M_bind_ok in H as (s1 & timed_out & Ht & H). exists timed_out.
  assert (s1.1 = set_blocked (alone fault timed_out).2 s.1) as Hs1.
  { assert ((alone fault false).2 = (alone fault timed_out).2) as <-
      by (unfold alone; by destruct (str_eqb fault pool_exhaustion)).
    revert Ht. destruct (calls_dependency fault); [apply on_snd_demo|by intros [= <- _]]. }
  clear Ht. unfold mbind at 1, M_bind at 1, config at 1 in H.
  unfold mbind at 1, M_bind at 1, get at 1 in H. set (r := (alone fault timed_out).1) in *.
  set (p := payload_of _ _ _ _ _ _) in H.
  assert (jindex "error_class" p = Ok (class_of r) ∧
    jindex "level" p = Ok (js (if status_of r =? 200 then "INFO" else "ERROR"))) as [Hc Hl]
    by done.
  clearbody p. apply M_bind_ok in H as (s2 & [] & Hw & H). injection H as <- <- <-.
  split; [done|]. split; [done|].
  split; [rewrite Hl; by destruct r|].
  destruct (str_eqb fault (u "missing_logs")); cbn [negb] in Hw.
  - injection Hw as <-. exists []. rewrite Hs1, app_nil_r. done.
  - injection Hw as <-. eexists [_]. cbn [fst]. rewrite Hs1. split; [reflexivity|].
    eexists. split; [reflexivity|]. split; [done|]. split; [done|]. cbn [rid logs set_blocked].
    pose proof (next_key_fresh (rid <$> logs s.1)) as Hf. by apply Forall_fmap in Hf.
Qed.

(** *** The sources *)

Abbreviation related_ := (related_records seed_database timestamptz runbook_until commit_date
  show_runbook show_stat show_config distinct50).
Abbreviation commit_record_ := (commit_record commit_date show_stat show_config).
Abbreviation sources_ := (sources container_repr trunc namespace seed_database now_iso
  timestamptz post kube_get runbook_until commit_date show_runbook show_stat show_config
  distinct50 level_of fts).

Lemma commit_records_spec w svc end_ shas recs :
  commit_records commit_date show_stat show_config w svc end_ shas = Ok recs →
  Forall (λ v, ∃ sha, sha ∈ shas ∧ fullmatch sha_pattern sha = true ∧
    commit_record_ w svc end_ sha = Ok (Some v)) recs.
Proof.
  revert recs. induction shas as [|sha shas IH]; intros recs H; cbn in H; inv_ok; [constructor|].
  assert (Forall (λ v, ∃ sha', sha' ∈ sha :: shas ∧ fullmatch sha_pattern sha' = true ∧
    commit_record_ w svc end_ sha' = Ok (Some v)) a0) as Hrest.
  { eapply Forall_impl; [by apply IH|]. intros v (x & Hx & H). exists x.
    split; [by apply list_elem_of_further|done]. }
  destruct a as [v|]; [|done]. constructor; [|done]. exists sha.
  split; [apply list_elem_of_here|]. revert Hm.
  destruct (fullmatch sha_pattern sha); cbn [negb]; [|done]. split; [done|].
  destruct (commit_record_ _ _ _ _) as [r|e]; [congruence|]. by destruct (bool_decide _).
Qed.

(** A commit that is not after the end of the scope. *)
Definition committed_by (w : W) (end_ sha : pystr) : Prop :=
  ∃ stamp t e, commit_date w sha = Ok stamp ∧ fromisoformat stamp = Ok t ∧
    fromisoformat end_ = Ok e ∧ dt_ltb e t = Ok false.

Lemma commit_record_spec w svc end_ sha v :
  commit_record_ w svc end_ sha = Ok (Some v) →
  committed_by w end_ sha ∧ jindex "id" v = Ok (JStr sha) ∧ jindex "version" v = Ok (JStr sha)
  ∧ (jindex "content" v ≫= jindex "service") = Ok (JStr svc).
Proof.
  unfold commit_record. intros H. inv_ok. destruct a2; [discriminate|]. inv_ok. split; [|done].
  unfold committed_by. eauto 10.
Qed.

(** What the demo's Git and runbook sources return belongs to the orders service of
    the local demo and to the scope's time: nothing for another service or for a public
    dataset, nothing of a deleted runbook; the runbook is the version of the end of the
    scope, and a commit is one that an undeleted deployment of that service, in the window
    or in force when it opens, names in full, and was made before the end. *)
Theorem related_scoped source scope s recs :
  (∀ l x, x ∈ distinct50 l → x ∈ l) →
  related_ source scope s = Ok recs → recs ≠ [] →
  jindex "service" scope = Ok (JStr svc17) ∧
  (∃ prof, catalog_one (logs s.1) svc17 = Ok prof ∧
    prof_provenance prof ≠ u "public-dataset") ∧
  ∃ end_, jindex "end" scope = Ok (JStr end_) ∧
  if str_eqb source (u "runbook")
  then assoc (u "delete_runbook") (config_rows s.1) ≠ Some (u "true") ∧
    ∃ version r, runbook_until s.2 end_ = Ok version ∧ version ≠ [] ∧ recs = [r] ∧
      runbook_record commit_date show_runbook s.2 end_ version = Ok r
  else ∃ start t e, jindex "start" scope = Ok start ∧ timestamptz start = Ok t ∧
    timestamptz (JStr end_) = Ok e ∧
    Forall (λ v, ∃ d, d ∈ releases s.1 ∧ in_window svc17 t e (releases s.1) d = true ∧
      not_deleted d = true ∧ fullmatch sha_pattern (commit_sha d) = true ∧
      committed_by s.2 end_ (commit_sha d) ∧ jindex "id" v = Ok (JStr (commit_sha d)) ∧
      (jindex "content" v ≫= jindex "service") = Ok (JStr svc17)) recs.
Proof.
  intros Hd H Hne. unfold related_records in H.
  apply bind_ok in H as (svc & Hsvc & H).
  destruct (py_eqb svc (JStr svc17)) eqn:He; cbn [negb] in H; [|congruence].
  apply py_eqb_str in He as ->. split; [done|].
  apply bind_ok in H as (prof & Hprof & H).
  destruct (str_eqb (prof_provenance prof) _) eqn:Hp; [congruence|].
  apply bool_decide_eq_false in Hp. split; [by exists prof|].
  destruct (str_eqb source (u "runbook")).
  - destruct (bool_decide _) eqn:Hdel; [congruence|]. apply bool_decide_eq_false in Hdel.
    apply bind_ok in H as (end_ & He & H). apply bind_ok in He as (ev & He & Ht).
    destruct ev; try done. injection Ht as ->.
    exists end_. split; [done|]. split; [done|]. apply bind_ok in H as (version & Hv & H).
    destruct (str_eqb version []) eqn:Hn; [congruence|]. apply bool_decide_eq_false in Hn.
    apply bind_ok in H as (r & Hr & H). injection H as <-. eauto 10.
  - destruct seed_database; cbn [negb] in H; [|congruence].
    apply bind_ok in H as (ev & He & H). apply bind_ok in H as (start & Hst & H).
    apply bind_ok in H as (e & Hte & H). apply bind_ok in H as (t & Htt & H).
    apply bind_ok in H as (end_ & Ht & H). destruct ev; try done. injection Ht as ->.
    exists end_. split; [done|]. exists start, t, e.
    split; [done|]. split; [done|]. split; [done|].
    apply commit_records_spec in H. eapply Forall_impl; [exact H|].
    intros v (sha & Hin & Hfull & Hrec). unfold deployed_shas in Hin. apply Hd in Hin.
    apply list_elem_of_fmap in Hin as (d & -> & Hin).
    apply list_elem_of_filter in Hin as [[Hw Hnd] Hin].
    apply commit_record_spec in Hrec as (Hby & Hid & _ & Hc). exists d. eauto 10.
Qed.

(** The records of an answer and the scope it names. *)
Definition answers (scope : json) (limit : Z) (v : json) : Prop :=
  jindex "scope" v = Ok scope ∧
  ∃ recs, jindex "records" v = Ok (JList recs) ∧ len recs ≤ limit.

Lemma rescan_answers w extra records limit scope v :
  0 ≤ limit → Forall (λ kv, kv.1 = u "provenance") extra →
  rescan now_iso w extra records limit scope = Ok v → answers scope limit v.
Proof.
  intros Hl He H. unfold rescan in H.
  apply bind_ok in H as (next & _ & H). apply bind_ok in H as (tail & Ht & H).
  injection H as <-. unfold answer_tail in Ht. apply bind_ok in Ht as (mark & _ & Ht).
  injection Ht as <-. unfold answers, jindex.
  assert (∀ k rest, k ≠ u "provenance" →
    assoc k (extra ++ rest : list (pystr * json)) = assoc k rest) as Ha.
  { intros k rest Hk. induction He as [|[k' x] l Hk' _ IH]; [done|]. cbn [app assoc].
    cbn in Hk'. subst k'. unfold str_eqb. by rewrite bool_decide_false. }
  rewrite !Ha by (by vm_compute). split; [done|]. eexists. split; [reflexivity|].
  unfold upto, len. rewrite length_take. lia.
Qed.

Lemma logs_source_answers scope limit cursor s v :
  1 ≤ limit ≤ 100 →
  logs_source container_repr now_iso level_of fts scope limit cursor s = Ok v →
  answers scope limit v.
Proof.
  intros Hl H. unfold logs_source in H.
  apply bind_ok in H as (spec & _ & H). apply bind_ok in H as (sc & _ & H).
  destruct (LogStore.query _ _ _ _ _ _ _ _) as [pg|e] eqn:Hq; [|done].
  apply bind_ok in H as (tail & Ht & H). injection H as <-.
  unfold answer_tail in Ht. apply bind_ok in Ht as (mark & _ & Ht). injection Ht as <-.
  apply query_within in Hq as (Hb & _). split; [done|]. eexists. split; [reflexivity|].
  unfold len in *. rewrite length_fmap. unfold clamp_limit in Hb. lia.
Qed.

Lemma kube_records_keeps resource :
  keeps (on_demo eq) (kube_records container_repr namespace kube_get resource).
Proof.
  unfold kube_records. repeat (cbn beta iota zeta; first [keeps_step
    | intros s s' x H; symmetry; exact (on_snd_demo _ _ _ _ H)]).
Qed.
#[local] Hint Extern 1 (keeps _ (kube_records _ _ _ _)) => apply kube_records_keeps : keeps.

Lemma cluster_keeps scope :
  keeps (on_demo eq) (cluster_source container_repr namespace kube_get scope).
Proof. unfold cluster_source. keeps_steps. Qed.

Lemma read_source_answers source scope limit cursor s s' v :
  1 ≤ limit ≤ 100 →
  read_source container_repr namespace seed_database now_iso timestamptz kube_get
    runbook_until commit_date show_runbook show_stat show_config distinct50 level_of fts
    source scope limit cursor s = (s', Ok v) →
  s'.1 = s.1 ∧ answers scope limit v.
Proof.
  intros Hl H. unfold read_source in H. destruct (str_eqb source (u "logs")).
  { inv_run. split; [done|]. by eapply logs_source_answers. }
  destruct (mem source _).
  { inv_run. split; [done|]. eapply rescan_answers; [| |done]; [lia|by repeat constructor]. }
  apply M_bind_ok in H as (s1 & recs & Hc & H). apply cluster_keeps in Hc as Hk.
  inv_run. split; [by symmetry|]. eapply rescan_answers; [| |done]; [lia|constructor].
Qed.

(** A source of the demo answers only what the control plane authorizes, and a page at
    a time: an answer comes after a 200 of the authorization of that task for that source,
    holds the scope the authorization returned, and at most the records asked for, never
    more than 100; a source configured as unavailable does not answer, and reading
    changes no table. *)
Theorem sources_bounded source b s s' v :
  sources_ source b s = (s', Ok v) →
  s'.1 = s.1 ∧ mem source source_names = true ∧
  assoc (u "unavailable") (config_rows s.1) ≠ Some source ∧
  ∃ task path body_ w r scope limit,
    jindex "task" b = Ok task ∧ jindex "tool" body_ = Ok (JStr source) ∧
    post path body_ s.2 = (w, Ok r) ∧ status r = 200 ∧ body r = Ok scope ∧
    1 ≤ limit ≤ 100 ∧ answers scope limit v.
Proof.
  intros H. unfold sources in H.
  apply M_bind_ok in H as (s0 & task & Ht & H). apply lift_ok in Ht as [-> Ht].
  destruct (mem source source_names) eqn:Hsrc; cbn [negb] in H; [|done].
  apply M_bind_ok in H as (s1 & scope & Ha & H).
  apply M_bind_ok in H as (s2 & cursor & Hc & H). apply lift_ok in Hc as [-> _].
  apply M_bind_ok in H as (s2 & asked & Hask & H). apply lift_ok in Hask as [-> _].
  cbn zeta in H. destruct (Z.ltb_spec (Z.min 100 asked) 1); [done|].
  apply M_bind_ok in H as (s2 & down & Hdown & H). injection Hdown as <- <-.
  destruct (str_eqb _ source) eqn:Hd; [done|]. apply bool_decide_eq_false in Hd.
  apply read_source_answers in H as [Hs Hv]; [|lia].
  unfold authorize_task in Ha.
  apply M_bind_ok in Ha as (s2 & id & Hid & Ha). apply lift_ok in Hid as [-> _].
  apply M_bind_ok in Ha as (s2 & owner & Ho & Ha). apply lift_ok in Ho as [-> _].
  apply M_bind_ok in Ha as (s2 & generation & Hg & Ha). apply lift_ok in Hg as [-> _].
  apply M_bind_ok in Ha as (s2 & r & Hp & Ha). apply on_snd_demo in Hp as Hdemo.
  destruct (Z.eqb_spec (status r) 200) as [Hst|]; cbn [negb] in Ha; [|done].
  apply lift_ok in Ha as [-> Hb]. rewrite Hdemo in Hs, Hd.
  split; [done|]. split; [done|].
  split. { intros Hu. by rewrite Hu in Hd. }
  unfold on_snd in Hp. destruct s as [d w]. cbn in Hp.
  destruct (post _ _ w) as [w' x] eqn:Hpost. injection Hp as <- ->.
  eexists task, _, _, w', r, scope, (Z.min 100 asked).
  split; [done|]. split; [|split; [exact Hpost|]]; [done|]. split; [done|].
  split; [done|]. split; [lia|done].
Qed.
End served.
