(* ===== verification/DemoCases.v ===== *)
(** * Cases of the development fixtures

    A server with one commit and a control plane that authorizes everything: its faults,
    its sources and its issues on concrete requests. *)
From S2P Require Import Prelude.
From S2P Require Import PyStr.
From S2P Require Import PyRe.
From S2P Require Import Json.
From S2P Require Import JsonParse.
From S2P Require Import PyTime.
From S2P Require Import IsoTime.
From S2P Require Import LogStore.
From S2P Require Import Contracts.
From S2P Require Import Runtime.
From S2P Require Import Connectors.
From S2P Require Import Api.
From S2P Require Import DemoPool.
From S2P Require Import Demo.
From S2P Require Import DemoSpec.

Section cases.
#[local] Existing Instances AsciiCjk UtcOnly PlainJson.

Definition no_repr (_ : json) : pystr := [].
Definition sha0 : pystr := replicate 40 97.
Definition scope0 : json := JObj [
  (u "service", JStr svc17); (u "start", js "2025-01-01T00:00:00+00:00");
  (u "end", js "2025-01-03T00:00:00+00:00"); (u "watermark", JInt 7)].
Definition plane0 (_ : pystr) (_ : json) : M Z response := λ n,
  (n + 1, Ok (Response 200 (Ok scope0))).
Definition cluster0 (_ : pystr) : M Z response := λ n, (n, Ok (Response 200 (Ok JNull))).
Definition instant0 (v : json) : result Z :=
  Ok (if json_eqb v (js "2025-01-01T00:00:00+00:00") then 0 else 100).
Definition read0 (s : string) (_ : Z) (_ : pystr) : result pystr := Ok (u s).
Definition committed0 : Z → pystr → result pystr := read0 "2025-01-02T00:00:00+00:00".
Definition distinct0 (l : list pystr) : list pystr := take 50 (fromkeys l).
Definition empty_demo : Demo :=
  {| config_rows := []; logs := []; issue_rows := []; releases := []; blocked := false |}.

Abbreviation seed0 := (seed sha0 true (λ n : Z, 50 + n)).
Abbreviation control0 := (control no_repr sha0 (u "key") true (λ n : Z, n) (λ n, 50 + n)
  plane0 (λ _, mret ())).
Abbreviation sources0 := (sources no_repr (λ _, Ok 0) [] true (λ _, []) instant0 plane0
  cluster0 (read0 "v1") committed0 (read0 "# Demo") (read0 "stat") (read0 "config")
  distinct0 (λ l, l) (λ _ _, false)).
Abbreviation business0 to := (business sha0 (λ n : Z, []) (λ _ _, JInt 1) (mret to)).
Abbreviation create0 := (create_issue (W:=Z) (λ s, s)).
Abbreviation demo_step0 := (demo_step no_repr (λ s, s) sha0 (u "key") true (λ n : Z, n)
  (λ _, []) (λ n, 50 + n) (λ _ _, JInt 1) plane0 (mret true) (λ _, mret ())).

(** The server after its start, and after a release. *)
Definition started : Demo * Z := (seed0 (empty_demo, 0)).1.
Definition switch (kvs : list (string * string)) : json :=
  JObj ((λ kv, (u kv.1, js kv.2)) <$> kvs).
Definition after_release : Demo * Z :=
  (control0 (Some (u "key")) (switch [("release", "v3"); ("fault", "release_error")]%string)
     started).1.
Definition ask (limit : Z) : json :=
  JObj [(u "task", JObj [(u "id", js "t1"); (u "owner", js "w1"); (u "generation", JInt 1)]);
        (u "limit", JInt limit)].

Example switched :
  length (releases after_release.1) = 3%nat ∧ (watermark <$> releases after_release.1) = [1; 1; 2] ∧
  (control0 (Some (u "guess")) (switch []) started).2 = Raise (http 403 "Forbidden") ∧
  (business0 true svc17 after_release).2
    = Ok (503, payload_of sha0 svc17 (u "release_error") DependencyReadTimeout (JInt 1) (u "v3")) ∧
  (business0 true (u "svc-9") after_release).2 = Raise (http 400 "Bad Request").
Proof. by vm_compute. Qed.

Lemma distinct0_sub l x : x ∈ distinct0 l → x ∈ l.
Proof.
  unfold distinct0. intros H.
  assert (x ∈ fromkeys l) as Hf
    by (rewrite <- (take_drop 50 (fromkeys l)); apply elem_of_app; by left).
  exact (proj1 (elem_of_fromkeys l x) Hf).
Qed.

Lemma after_release_step : rtc demo_step0 started after_release.
Proof.
  eapply rtc_l; [|apply rtc_refl].
  eapply (Controls) with (key := Some (u "key"))
    (b :=     (switch [("release", "v3"); ("fault", "release_error")]%string)).
  apply surjective_pairing.
Qed.

Lemma releases_paged_witness :
  let l := releases after_release.1 in
  let ps := pages (S (length l)) svc17 0 100 0 1 l in
  concat ps = eligible_rows svc17 0 100 l ∧ StronglySorted mark_lt (concat ps) ∧
  Forall (λ p, len p ≤ 1) ps.
Proof.
  exact (releases_paged no_repr (λ s, s) sha0 (u "key") true (λ n : Z, n)
    (λ _, []) (λ n, 50 + n) (λ _ _, JInt 1) plane0 (mret true) (λ _, mret ())
    (empty_demo, 0) started after_release svc17 0 100 1 eq_refl eq_refl eq_refl
    after_release_step ltac:(lia)).
Defined.

(** ** The faulty service *)

Lemma business_logged_witness :
  let out := business0 true svc17 after_release in
  is_ok out.2 = true ∧
  ∃ st payload new, out.2 = Ok (st, payload) ∧
    logs out.1.1 = logs after_release.1 ++ new ∧ length new = 1%nat.
Proof.
  intros out. assert (is_ok out.2 = true) as Hok by by vm_compute. split; [exact Hok|].
  assert (str_eqb (default (u "healthy") (assoc (u "fault") (config_rows after_release.1)))
    (u "missing_logs") = false) as Hm by by vm_compute.
  destruct out.2 as [[st payload]|e] eqn:E; [|done]. exists st, payload.
  destruct (business_logged sha0 (λ n : Z, []) (λ _ _, JInt 1) (mret true) svc17 after_release
    out.1 st payload) as [_ Hb].
  { rewrite <- E. apply surjective_pairing. }
  cbn zeta in Hb. destruct Hb as (to & _ & _ & _ & new & Hs & Hn). rewrite Hm in Hn.
  exists new. split; [done|]. rewrite Hs. split; [done|]. by destruct Hn as (l & -> & _).
Defined.

(** ** The issues *)

Definition bug (t : string) : json := JObj [(u "title", js t); (u "body", js "text")].
Definition filed : Demo * Z := (create0 (u "acme") (u "desk") (bug "first") (empty_demo, 0)).1.
Definition filed_twice : Demo * Z := (create0 (u "acme") (u "desk") (bug "second") filed).1.

Lemma filed_steps : rtc demo_step0 (empty_demo, 0) filed ∧ rtc demo_step0 filed filed_twice.
Proof.
  split; (eapply rtc_l; [|apply rtc_refl]).
  - eapply Files with (owner := u "acme") (name := u "desk") (b := bug "first").
    apply surjective_pairing.
  - eapply Files with (owner := u "acme") (name := u "desk") (b := bug "second").
    apply surjective_pairing.
Qed.

Definition first_issue : json :=
  issue_json {| number := 1; repo := slug (u "acme") (u "desk"); title := js "first";
                issue_body := js "text" |}.

Lemma issue_found_witness :
  create0 (u "acme") (u "desk") (bug "first") (empty_demo, 0) = (filed, Ok first_issue) ∧
  ∃ r, first_issue = issue_json r ∧ issue (u "acme") (u "desk") (number r) filed_twice
    = (filed_twice, Ok first_issue).
Proof.
  assert (create0 (u "acme") (u "desk") (bug "first") (empty_demo, 0) = (filed, Ok first_issue))
    as H by by vm_compute.
  split; [exact H|].
  destruct (issue_found no_repr (λ s, s) sha0 (u "key") true (λ n : Z, n)
    (λ _, []) (λ n, 50 + n) (λ _ _, JInt 1) plane0 (mret true) (λ _, mret ())
    (empty_demo, 0) (empty_demo, 0) filed filed_twice (u "acme") (u "desk") (bug "first")
    first_issue eq_refl (rtc_refl _ _) H (proj2 filed_steps))
    as (r & Hr & _ & _ & _ & _ & Hi).
  exists r. exact (conj Hr Hi).
Defined.

Lemma issues_paged_witness :
  let all := of_repo (u "acme") (u "desk") (issue_rows filed_twice.1) in
  let page k := issue_json <$> sql_page 1 ((k - 1) * 1) all in
  length all = 2%nat ∧ concat (page <$> seqZ 1 2) = issue_json <$> all ∧
  issues (u "acme") (u "desk") 2 1 filed_twice = (filed_twice, Ok (page 2)).
Proof.
  intros all page.
  assert (rtc demo_step0 (empty_demo, 0) filed_twice) as Hs
    by (etrans; [exact (proj1 filed_steps)|exact (proj2 filed_steps)]).
  assert (length all = 2%nat) as Hl by by vm_compute. split; [exact Hl|].
  destruct (issues_paged no_repr (λ s, s) sha0 (u "key") true (λ n : Z, n)
    (λ _, []) (λ n, 50 + n) (λ _ _, JInt 1) plane0 (mret true) (λ _, mret ())
    (empty_demo, 0) filed_twice (u "acme") (u "desk") 1 2 eq_refl Hs ltac:(lia) ltac:(lia)
    ltac:(by vm_compute)) as (Hp & Hc & _).
  split; [apply Hc; unfold len; fold all; rewrite Hl; lia|apply Hp; lia].
Defined.

(** ** The sources *)

Lemma related_scoped_witness :
  ∃ recs, related_records true instant0 (read0 "v1") committed0 (read0 "# Demo")
      (read0 "stat") (read0 "config") distinct0 (u "git") scope0 after_release = Ok recs ∧
    length recs = 1%nat ∧ jindex "service" scope0 = Ok (JStr svc17).
Proof.
  destruct (related_records true instant0 (read0 "v1") committed0 (read0 "# Demo")
      (read0 "stat") (read0 "config") distinct0 (u "git") scope0 after_release)
    as [recs|e] eqn:E; [|by vm_compute in E].
  exists recs. split; [done|].
  assert (length recs = 1%nat) as Hl by (vm_compute in E; by injection E as <-).
  split; [done|].
  destruct (related_scoped true instant0 (read0 "v1") committed0 (read0 "# Demo")
      (read0 "stat") (read0 "config") distinct0 (u "git") scope0 after_release recs
      distinct0_sub E) as [H _]; [by destruct recs|]. exact H.
Defined.

Lemma sources_bounded_witness :
  let out := sources0 (u "git") (ask 5) after_release in
  is_ok out.2 = true ∧ ∃ v scope limit, out.2 = Ok v ∧ answers scope limit v ∧ limit ≤ 100.
Proof.
  intros out. assert (is_ok out.2 = true) as Hok by by vm_compute. split; [exact Hok|].
  destruct out.2 as [v|e] eqn:E; [|done]. exists v.
  destruct (sources_bounded no_repr (λ _, Ok 0) [] true (λ _, []) instant0 plane0
    cluster0 (read0 "v1") committed0 (read0 "# Demo") (read0 "stat") (read0 "config")
    distinct0 (λ l, l) (λ _ _, false) (u "git") (ask 5) after_release out.1 v)
    as (_ & _ & _ & task & path & body_ & w & r & scope & limit & H).
  { rewrite <- E. apply surjective_pairing. }
  exists scope, limit. split; [done|]. split; [apply H|]. lia.
Defined.

(** A page that is full names a next one, but the source starts over: with its cursor the
    answer is the same again. *)
Definition with_cursor (limit : Z) (c : json) : json :=
  match ask limit with JObj kvs => JObj (kvs ++ [(u "cursor", c)]) | v => v end.
Definition two_commits : Demo * Z :=
  (set_releases (releases after_release.1 ++
     [{| dep_id := u "x"; dep_service := svc17; app_id := svc17; dep_version := u "v4";
         commit_sha := replicate 40 98; dep_time := 60; watermark := 9;
         deleted := Some false |}]) after_release.1, 0).

Example cursor_ignored :
  let out := (sources0 (u "git") (ask 1) two_commits).2 in
  (v ← out; jindex "next_cursor" v) = Ok (JStr sha0) ∧
  (sources0 (u "git") (with_cursor 1 (JStr sha0)) two_commits).2 = out.
Proof. by vm_compute. Qed.
End cases.
