(* ===== verification/SourceInfo.v ===== *)
(** * What the sources say of themselves (worker/incident_worker/connectors.py)

    A connector describes its capabilities and the fields of its records, and can be asked
    whether its source is there.  The descriptions are held against what the connectors
    and the fixtures actually return. *)
From S2P Require Import Prelude.
From S2P Require Import PyStr.
From S2P Require Import Json.
From S2P Require Import JsonParse.
From S2P Require Import PyTime.
From S2P Require Import LogStore.
From S2P Require Import Contracts.
From S2P Require Import Runtime.
From S2P Require Import Connectors.
From S2P Require Import Demo.
From S2P Require Import DemoSpec.

(** ** HTTP sources *)

Definition http_capabilities (name : pystr) : json :=
  let logs := str_eqb name (u "logs") in
  dict [("query", JBool true); ("pagination", JBool true); ("deletions", JBool true);
        ("incremental", JBool logs);
        ("scope", js "connection plus current task authorization");
        ("sync", js (if logs then "incremental" else "rescan"))]%string.

Definition http_discover : json :=
  dict [("record_fields", JList (js <$> ["id"; "event_time"; "content"; "locator"; "version";
                                         "deleted"]));
        ("version", js "1")]%string.

(** [httpx.HTTPError]: a failed transport or a raised status. *)
Definition is_http_error (e : exn) : bool :=
  match exn_cls e with TransportError _ | HTTPStatusError _ => true | _ => false end.

Section health.
Context {W : Type}.
(** [httpx.get(url + "/healthz", timeout=3)], and the statements of a connection that ask
    nothing: whether the database answered. *)
Variable get_healthz : M W response.
Variable select_one : M W ().
Variable getenv : string → option pystr.

Definition is_success (r : response) : bool := (200 <=? status r) && (status r <=? 299).

Definition http_health : M W bool :=
  try_except (r ← get_healthz; mret (is_success r))
    (λ e, if is_http_error e then mret false else raise e).

(** ** The deployments *)

Definition psycopg_error : exn_class := OtherError "psycopg.Error".

Definition deployment_health : M W bool :=
  match getenv "SOURCE_DATABASE_URL" with
  | None => raise (exn_of KeyError "'SOURCE_DATABASE_URL'")
  | Some _ =>
      try_except (select_one ;; mret true)
        (λ e, if bool_decide (exn_cls e = psycopg_error) then mret false else raise e)
  end.
End health.

Definition deployment_capabilities : json :=
  dict [("query", JBool true); ("pagination", JBool true); ("incremental", JBool true);
        ("deletions", JBool true); ("scope", js "current task service");
        ("sync", js "watermark")]%string.

Definition deployment_discover : json :=
  dict [("record_fields", JList (js <$> ["id"; "service"; "app_id"; "version"; "commit_sha";
                                         "event_time"; "watermark"; "deleted"]));
        ("version", js "1")]%string.

(** ** Descriptions and records *)

(** The fields a description names. *)
Definition record_fields (d : json) : list pystr :=
  match jindex "record_fields" d with
  | Ok (JList l) => omap (λ v, match v with JStr s => Some s | _ => None end) l
  | _ => []
  end.

Definition keys_of (v : json) : list pystr :=
  match v with JObj kvs => kvs.*1 | _ => [] end.

(** A record of an HTTP source has the fields described. *)
Definition described (r : json) : Prop := keys_of r ≡ₚ record_fields http_discover.

(** A deployment's fields are those of its content and the time beside it. *)
Definition deployment_described (r : json) : Prop :=
  ∃ c, jindex "content" r = Ok c ∧
    u "event_time" :: keys_of c ≡ₚ record_fields deployment_discover.

Section described_sources.
Context {JR : JsonRuntime} {TD : TzDatabase} {UT : UnicodeTables} {W : Type}.
Variable container_repr : json → pystr.
Variable trunc : pystr → result Z.
Variable namespace : pystr.
Variable seed_database : bool.
Variable now_iso : W → pystr.
Variable timestamptz : json → result Z.
Variable post : pystr → json → M W response.
Variable kube_get : pystr → M W response.
Variable runbook_until commit_date show_runbook show_stat show_config
  : W → pystr → result pystr.
Variable distinct50 : list pystr → list pystr.
Variable level_of : pystr → pystr.
Variable fts : pystr → Z → bool.

Local Abbreviation sources_ := (sources container_repr trunc namespace seed_database now_iso
  timestamptz post kube_get runbook_until commit_date show_runbook show_stat show_config
  distinct50 level_of fts).

Lemma record_described id stamp content locator version :
  described (record_ id stamp content locator version).
Proof. by vm_compute. Qed.

Lemma related_described source scope s recs :
  related_records seed_database timestamptz runbook_until commit_date show_runbook show_stat
    show_config distinct50 source scope s = Ok recs → Forall described recs.
Proof.
  unfold related_records. intros H. apply bind_ok in H as (svc & _ & H).
  destruct (negb _); [injection H as <-; constructor|]. apply bind_ok in H as (prof & _ & H).
  destruct (str_eqb _ _); [injection H as <-; constructor|].
  destruct (str_eqb source _).
  - destruct (bool_decide _); [injection H as <-; constructor|].
    apply bind_ok in H as (end_ & _ & H). apply bind_ok in H as (version & _ & H).
    destruct (str_eqb version []); [injection H as <-; constructor|].
    apply bind_ok in H as (r & Hr & H). injection H as <-. constructor; [|constructor].
    unfold runbook_record in Hr. apply bind_ok in Hr as (stamp & _ & Hr).
    apply bind_ok in Hr as (text & _ & Hr). injection Hr as <-. apply record_described.
  - destruct (negb _); [injection H as <-; constructor|].
    apply bind_ok in H as (end_ & _ & H). apply bind_ok in H as (start & _ & H).
    apply bind_ok in H as (e & _ & H). apply bind_ok in H as (t & _ & H).
    apply bind_ok in H as (text & _ & H). apply commit_records_spec in H.
    eapply Forall_impl; [exact H|]. intros v (sha & _ & _ & Hr). unfold commit_record in Hr.
    repeat (apply bind_ok in Hr as (? & _ & Hr)).
    match goal with _ : context [if ?b then _ else _] |- _ => destruct b end; [discriminate|].
    repeat (apply bind_ok in Hr as (? & _ & Hr)). injection Hr as <-. apply record_described.
Qed.

Lemma kube_described resource item r :
  kube_record container_repr namespace resource item = Ok r → described r.
Proof.
  unfold kube_record. intros H. repeat (apply bind_ok in H as (? & _ & H)). injection H as <-.
  by vm_compute.
Qed.

Lemma kube_records_described resource s s' recs :
  kube_records container_repr namespace kube_get resource s = (s', Ok recs) → Forall described recs.
Proof.
  unfold kube_records. intros H. apply M_bind_ok in H as (s1 & r & _ & H).
  apply M_bind_ok in H as (s2 & [] & _ & H). apply M_bind_ok in H as (s3 & v & _ & H).
  apply M_bind_ok in H as (s4 & items & _ & H). apply lift_ok in H as [_ H].
  apply map_r_ok in H. clear - H. induction H; constructor; [by eapply kube_described|done].
Qed.

Lemma cluster_described scope s s' recs :
  cluster_source container_repr namespace kube_get scope s = (s', Ok recs) → Forall described recs.
Proof.
  unfold cluster_source. destruct (str_eqb namespace []); [done|].
  intros (s1 & svc & _ & H)%M_bind_ok. destruct (negb _); [done|].
  apply M_bind_ok in H as (s2 & pods & Hp & H). apply M_bind_ok in H as (s3 & evs & He & H).
  injection H as _ <-. apply Forall_app. split; by eapply kube_records_described.
Qed.

(** The records of an answer. *)
Definition answer_described (v : json) : Prop :=
  ∃ recs, jindex "records" v = Ok (JList recs) ∧ Forall described recs.

Lemma assoc_extra k (extra rest : list (pystr * json)) :
  Forall (λ kv, kv.1 ≠ k) extra → assoc k (extra ++ rest) = assoc k rest.
Proof.
  induction 1 as [|[k' x] l Hk _ IH]; [done|]. cbn in *. unfold str_eqb.
  by rewrite bool_decide_false.
Qed.

Lemma rescan_described w extra records limit scope v :
  Forall (λ kv, kv.1 ≠ u "records") extra → Forall described records →
  rescan now_iso w extra records limit scope = Ok v → answer_described v.
Proof.
  intros He Hr H. unfold rescan in H. apply bind_ok in H as (next & _ & H).
  apply bind_ok in H as (tail & _ & H). injection H as <-. unfold answer_described, jindex.
  rewrite assoc_extra by done. eexists. split; [reflexivity|].
  by apply Forall_take.
Qed.

Lemma logs_described scope limit cursor s v :
  logs_source container_repr now_iso level_of fts scope limit cursor s = Ok v → answer_described v.
Proof.
  unfold logs_source. intros (spec & _ & H)%bind_ok. apply bind_ok in H as (sc & _ & H).
  destruct (LogStore.query _ _ _ _ _ _ _ _) as [pg|e]; [|done].
  apply bind_ok in H as (tail & _ & H). injection H as <-. eexists. split; [reflexivity|].
  apply Forall_fmap, Forall_forall. intros [r c] _. apply record_described.
Qed.

Lemma read_source_described source scope limit cursor s s' v :
  read_source container_repr namespace seed_database now_iso timestamptz kube_get
    runbook_until commit_date show_runbook show_stat show_config distinct50 level_of fts
    source scope limit cursor s = (s', Ok v) → answer_described v.
Proof.
  unfold read_source. destruct (str_eqb source (u "logs")).
  { intros (s1 & d & _ & H)%M_bind_ok. apply lift_ok in H as [_ H]. by eapply logs_described. }
  destruct (mem source _).
  - intros (s1 & d & _ & H)%M_bind_ok. apply M_bind_ok in H as (s2 & recs & Hr & H).
    apply lift_ok in Hr as [_ Hr]. apply lift_ok in H as [_ H].
    eapply rescan_described; [|by eapply related_described|exact H]. by repeat constructor.
  - intros (s1 & recs & Hr & H)%M_bind_ok. apply M_bind_ok in H as (s2 & d & _ & H).
    apply lift_ok in H as [_ H].
    eapply rescan_described; [constructor|by eapply cluster_described|exact H].
Qed.

(** Every record of every answer of the four HTTP sources has exactly the fields their
    connector declares. *)
Theorem sources_described source b s s' v :
  sources_ source b s = (s', Ok v) → answer_described v.
Proof.
  unfold sources. intros (s1 & task & _ & H)%M_bind_ok. destruct (negb _); [done|].
  apply M_bind_ok in H as (s2 & scope & _ & H). apply M_bind_ok in H as (s3 & cursor & _ & H).
  apply M_bind_ok in H as (s4 & asked & _ & H). cbn zeta in H. destruct (_ <? 1); [done|].
  apply M_bind_ok in H as (s5 & down & _ & H). destruct (str_eqb down source); [done|].
  by eapply read_source_described.
Qed.
End described_sources.

(** So has every row of the deployments. *)
Theorem deployments_described {W} post monotonic connect instant_iso timestamptz trunc now_iso
    step cursor (s s' : Runtime W) v :
  deployments_query post monotonic connect instant_iso timestamptz trunc now_iso step cursor s
    = (s', Ok v) →
  ∃ recs, jindex "records" v = Ok (JList recs) ∧ Forall deployment_described recs.
Proof.
  unfold deployments_query. intros (s1 & scope & _ & H)%M_bind_ok.
  apply M_bind_ok in H as (? & table & _ & H). do 7 apply M_bind_ok in H as (? & ? & _ & H).
  destruct (page _ _) as [rows next]. do 2 apply M_bind_ok in H as (? & ? & _ & H).
  injection H as _ <-. eexists. split; [reflexivity|].
  apply Forall_fmap, Forall_forall. intros d _. eexists. split; [reflexivity|].
  exact (Permutation_middle (u <$> ["id"; "service"; "app_id"; "version"; "commit_sha"]%string)
    (u <$> ["watermark"; "deleted"]%string) (u "event_time")).
Qed.

(** ** Health *)

(** Asking never raises what a source that is away raises, and says yes only to a 2xx. *)
Lemma http_health_answers {W} (g : M W response) w w' x :
  http_health g w = (w', x) →
  (∀ e, x = Raise e → is_http_error e = false) ∧
  (x = Ok true ↔ ∃ r, g w = (w', Ok r) ∧ raise_for_status r = Ok tt).
Proof.
  unfold http_health, try_except, mbind, M_bind. destruct (g w) as [w1 [r|e]] eqn:Hg.
  - intros [= <- <-]. split; [done|]. unfold is_success, raise_for_status. split.
    + intros [= E]. exists r. by rewrite E.
    + intros (r' & [= <-] & H). by destruct (_ && _).
  - destruct (is_http_error e) eqn:E; intros [= <- <-]; (split; [naive_solver|]); split; try done;
      by intros (r & ? & _).
Qed.
