(* ===== verification/Ingest.v ===== *)
(** * Loading the public logs (scripts/public_log_benchmark.py)

    [prepare] fetches two archives of the Loghub data sets, checks their digests, loads
    every line into the fixtures' table of logs and derives the cases the benchmark asks
    about; [source] runs its own query on every case and compares.  The labels of
    the data sets go to a table of their own.

    The state is what the script leaves behind: the downloaded files, the two tables
    as committed, and the saved evidence.  A line is parsed purely; rows wait in a batch
    and become visible when the batch is committed.  The download and the members of a zip
    archive are parameters; clocks, resource usage and printing are left out. *)
From S2P Require Import Prelude.
From S2P Require Import PyStr.
From S2P Require Import Json.
From S2P Require Import JsonParse.
From S2P Require Import Digests.
From S2P Require Import PyTime.
From S2P Require Import IsoTime.
From S2P Require Import LogStore.
From S2P Require Import Retrieval.

Inductive dataset := BGL | HDFS.
#[export] Instance dataset_eq_dec : EqDecision dataset.
Proof. solve_decision. Defined.

Definition dataset_name (d : dataset) : pystr :=
  match d with BGL => u "BGL" | HDFS => u "HDFS" end.

Record DataSpec := {
  ds_file : pystr; ds_member : pystr; ds_md5 : pystr; ds_lines : Z; ds_service : pystr }.

Definition SPECS : list (dataset * DataSpec) :=
  [(BGL, {| ds_file := u "BGL.zip"; ds_member := u "BGL.log";
            ds_md5 := u "4452953c470f2d95fcb32d5f6e733f7a"; ds_lines := 4747963;
            ds_service := u "svc-17" |});
   (HDFS, {| ds_file := u "HDFS_v1.zip"; ds_member := u "HDFS.log";
             ds_md5 := u "76a24b4d9a6164d543fb275f89773260"; ds_lines := 11175629;
             ds_service := u "svc-23" |})].

(** ** Text *)

(** [s.partition(" ")] when there is a space. *)
Fixpoint break_space (s : pystr) : option (pystr * pystr) :=
  match s with
  | [] => None
  | c :: s' => if c =? 32 then Some ([], s') else '(a, b) ← break_space s'; Some (c :: a, b)
  end.

(** [s.split(" ", n)]. *)
Fixpoint split_max (n : nat) (s : pystr) : list pystr :=
  match n with
  | O => [s]
  | S n' => match break_space s with
            | None => [s]
            | Some (a, b) => a :: split_max n' b
            end
  end.

(** [s.rstrip("\r\n")]. *)
Fixpoint rstrip_eol (s : pystr) : pystr :=
  match s with
  | [] => []
  | c :: s' => match rstrip_eol s' with
               | [] => if (c =? 13) || (c =? 10) then [] else [c]
               | t => c :: t
               end
  end.

(** [raw.decode("utf-8", errors="strict")]: no surrogates. *)
Definition utf8_strict (bs : list Z) : result pystr :=
  s ← utf8_read bs; if forallb is_scalar s then Ok s else Raise decode_error.

(** [s[i:j]]. *)
Definition slice (i j : nat) (s : pystr) : pystr := take (j - i) (drop i s).

(** ** Counters *)

(** [collections.Counter]: a dict that keeps the order of first use. *)
Abbreviation counter := (list (pystr * Z)) (only parsing).

Definition count_in (c : counter) (k : pystr) : Z := default 0 (assoc k c).
Definition tick (k : pystr) (c : counter) : counter := assoc_set k (count_in c k + 1) c.
Definition ticks (l : list pystr) (c : counter) : counter := foldl (λ c k, tick k c) c l.

(** ** One line *)

Definition max_second : Z := 253402300799.

(** [datetime.fromtimestamp(int(second), timezone.utc).isoformat()]. *)
Definition epoch_iso {TD : TzDatabase} (second : pystr) : result pystr :=
  n ← int_of_str second;
  let w := days_before_year 1970 * day_us + n * sec in
  if (0 <=? w) && (w <=? max_wall) then Ok (isoformat (DT w false (Offset 0)))
  else Raise (exn_of ValueError "year is out of range").

(** What the body of the loop computes from a line. *)
Record Parsed := {
  p_time : pystr; p_level : pystr; p_message : pystr; p_bucket : pystr;
  p_label : option pystr; p_empty : bool }.

(** [label != "-"]. *)
Definition alerted (p : Parsed) : bool :=
  match p_label p with Some l => negb (str_eqb l [45]) | None => false end.

Definition malformed (name : string) : exn := exn_of ValueError (name ++ " malformed line").

Definition bgl_line {TD : TzDatabase} (line : pystr) : result Parsed :=
  let fields := split_max 9 line in
  if (length fields <? 9)%nat then Raise (malformed "BGL")
  else
    event_time ← epoch_iso (nth 1 fields []);
    Ok {| p_time := event_time; p_level := nth 8 fields [];
          p_message := nth 1 (split_max 1 line) []; p_bucket := take 10 event_time;
          p_label := Some (nth 0 fields []); p_empty := (length fields =? 9)%nat |}.

Definition hdfs_line (line : pystr) : result Parsed :=
  let fields := split_max 5 line in
  if negb (length fields =? 6)%nat || negb (length (nth 0 fields []) =? 6)%nat
     || negb (length (nth 1 fields []) =? 6)%nat
  then Raise (malformed "HDFS")
  else
    let date := nth 0 fields [] in
    let clock := nth 1 fields [] in
    let event_time :=
      u "20" ++ slice 0 2 date ++ 45 :: slice 2 4 date ++ 45 :: drop 4 date
      ++ 84 :: slice 0 2 clock ++ 58 :: slice 2 4 clock ++ 58 :: drop 4 clock ++ u "+00:00" in
    Ok {| p_time := event_time; p_level := nth 3 fields []; p_message := line;
          p_bucket := take 13 event_time; p_label := None; p_empty := false |}.

Definition parse_line {TD : TzDatabase} (name : dataset) (line : pystr) : result Parsed :=
  match name with BGL => bgl_line line | HDFS => hdfs_line line end.

(** [json.dumps(payload, separators=(",", ":"))] for an object of strings and integers. *)
Definition dumps_compact (kvs : list (pystr * json)) : pystr :=
  123 :: join [44] (map (λ kv, dump_str true kv.1 ++ 58 :: dumps true false kv.2) kvs) ++ [125].

Definition payload_of (name : dataset) (n : Z) (p : Parsed) : list (pystr * json) :=
  [(u "service_name", js (match name with BGL => "checkout-api" | HDFS => "payment-api" end));
   (u "level", JStr (p_level p)); (u "message", JStr (p_message p));
   (u "dataset", JStr (dataset_name name)); (u "original_line", JInt n)].

(** ** The state *)

(** A case of the benchmark: a window of a service and what it holds. *)
Record Case := {
  c_name : pystr; c_dataset : dataset; c_service : pystr; c_start : pystr; c_end : pystr;
  c_records : Z; c_alerts : option Z }.

Record Manifest := {
  mf_url : pystr; mf_archive_bytes : Z; mf_md5 : pystr; mf_sha256 : pystr;
  mf_block_labels : counter; mf_lines : Z; mf_raw_bytes : Z; mf_raw_sha256 : pystr;
  mf_first_id : Z; mf_last_id : Z; mf_min_time : pystr; mf_max_time : pystr;
  mf_levels : counter; mf_alert_categories : counter; mf_empty_message_rows : Z;
  mf_nonstandard_level_rows : Z; mf_buckets : counter; mf_alert_buckets : counter }.

Record Summary := {
  sm_datasets : list (dataset * Manifest); sm_total_rows : Z; sm_cases : list Case }.

(** A row of [benchmark_alerts(log_id, label)]. *)
Abbreviation alert := (Z * pystr)%type (only parsing).

Record Bench := {
  downloads : list (pystr * list Z);
  logs : option (list row);
  benchmark_alerts : option (list alert);
  ingestion : option Summary }.

Definition set_downloads (f : list (pystr * list Z) → list (pystr * list Z)) (b : Bench) : Bench :=
  {| downloads := f (downloads b); logs := logs b; benchmark_alerts := benchmark_alerts b;
     ingestion := ingestion b |}.
Definition set_tables (ls : option (list row)) (als : option (list alert)) (b : Bench) : Bench :=
  {| downloads := downloads b; logs := ls; benchmark_alerts := als; ingestion := ingestion b |}.
Definition set_ingestion (s : Summary) (b : Bench) : Bench :=
  {| downloads := downloads b; logs := logs b; benchmark_alerts := benchmark_alerts b;
     ingestion := Some s |}.

(** A table that does not exist reads as empty here; the script creates it first. *)
Definition log_rows (b : Bench) : list row := default [] (logs b).
Definition alert_rows (b : Bench) : list alert := default [] (benchmark_alerts b).

(** The variables of the loop over one member. *)
Record Tally := {
  t_total : Z; t_n : Z; t_levels : counter; t_labels : counter; t_buckets : counter;
  t_alerts : counter; t_raw : list Z; t_min : pystr; t_max : pystr;
  t_batch : list row; t_truth : list alert; t_empty : Z }.

Definition start_tally (total : Z) : Tally :=
  {| t_total := total; t_n := 0; t_levels := []; t_labels := []; t_buckets := [];
     t_alerts := []; t_raw := []; t_min := u "9999"; t_max := []; t_batch := [];
     t_truth := []; t_empty := 0 |}.

(** [min(a, b)] and [max(a, b)] of strings: the first of equal arguments. *)
Definition str_min (a b : pystr) : pystr := if str_leb a b then a else b.
Definition str_max (a b : pystr) : pystr := if str_leb b a then a else b.

Definition sqlite_integrity : exn :=
  exn_of (OtherError "IntegrityError") "UNIQUE constraint failed: logs.id".
Definition missing_table : exn := exn_of (OtherError "OperationalError") "no such table".
Definition table_exists : exn :=
  exn_of (OtherError "OperationalError") "table benchmark_alerts already exists".

(** [con.executemany(...)] into both tables and [con.commit()]: a key that is taken
    undoes both. *)
Definition commit_batch (batch : list row) (truth : list alert) : M Bench () :=
  b ← get;
  match logs b, benchmark_alerts b with
  | Some ls, Some als =>
      if decide (NoDup (rid <$> ls ++ batch)) then
        if decide (NoDup (fst <$> als ++ truth))
        then modify (set_tables (Some (ls ++ batch)) (Some (als ++ truth)))
        else raise sqlite_integrity
      else raise sqlite_integrity
  | _, _ => raise missing_table
  end.

(** ** Loading one data set *)

Definition standard_levels : list pystr :=
  u <$> ["INFO"; "FATAL"; "WARNING"; "WARN"; "SEVERE"; "ERROR"; "FAILURE"; "DEBUG";
         "TRACE"]%string.

Section prepare.
Context {TD : TzDatabase}.
(** [urllib.request.urlretrieve]: the bytes at a URL. *)
Variable urlretrieve : pystr → result (list Z).
(** The lines of a member of a zip archive, and the [Label] column of its CSV file. *)
Variable zip_lines : list Z → pystr → result (list (list Z)).
Variable zip_labels : list Z → result (list pystr).

(** The row of one parsed line. *)
Definition row_of (name : dataset) (spec : DataSpec) (total n : Z) (p : Parsed) : row :=
  Row total (ds_service spec) (p_time p) (dumps_compact (payload_of name n p)).

Definition add_parsed (name : dataset) (spec : DataSpec) (raw : list Z) (p : Parsed)
    (t : Tally) : Tally :=
  let total := t_total t + 1 in
  let n := t_n t + 1 in
  {| t_total := total; t_n := n; t_levels := tick (p_level p) (t_levels t);
     t_labels := match p_label p with Some l => tick l (t_labels t) | None => t_labels t end;
     t_buckets := tick (p_bucket p) (t_buckets t);
     t_alerts := if alerted p then tick (p_bucket p) (t_alerts t) else t_alerts t;
     t_raw := t_raw t ++ raw;
     t_min := str_min (t_min t) (p_time p); t_max := str_max (t_max t) (p_time p);
     t_batch := t_batch t ++ [row_of name spec total n p];
     t_truth := if alerted p then t_truth t ++ [(total, default [] (p_label p))] else t_truth t;
     t_empty := t_empty t + (if p_empty p then 1 else 0) |}.

Definition clear_batch (t : Tally) : Tally :=
  {| t_total := t_total t; t_n := t_n t; t_levels := t_levels t; t_labels := t_labels t;
     t_buckets := t_buckets t; t_alerts := t_alerts t; t_raw := t_raw t; t_min := t_min t;
     t_max := t_max t; t_batch := []; t_truth := []; t_empty := t_empty t |}.

Definition BATCH : Z := 10000.

Definition ingest_line (name : dataset) (spec : DataSpec) (raw : list Z) (t : Tally)
    : M Bench Tally :=
  text ← lift (utf8_strict raw);
  p ← lift (parse_line name (rstrip_eol text));
  let t := add_parsed name spec raw p t in
  if BATCH <=? len (t_batch t)
  then commit_batch (t_batch t) (t_truth t) ;; mret (clear_batch t)
  else mret t.

Fixpoint ingest_lines (name : dataset) (spec : DataSpec) (lines : list (list Z)) (t : Tally)
    : M Bench Tally :=
  match lines with
  | [] => mret t
  | raw :: lines' => t' ← ingest_line name spec raw t; ingest_lines name spec lines' t'
  end.

(** *** The windows asked about *)

(** [round((n - 1) * f)] with the float product. *)
Definition position (last : Z) (f : Z * Z) : Z :=
  let '(num, den) := f in
  if den =? 1 then last * num
  else if last =? 0 then 0
  else let x := fround num den 0 in
       let y := fround (mant x * last) 1 (expo x) in
       round_even (mant y * 2 ^ Z.max (expo y) 0) (2 ^ Z.max (- expo y) 0).

Definition fractions : list (Z * Z) := [(0, 1); (1, 10); (1, 4); (1, 2); (3, 4); (9, 10); (1, 1)].

(** [max(c, key=c.get)] of a counter that is not empty: the first of the largest. *)
Fixpoint max_key (best : pystr * Z) (c : counter) : pystr :=
  match c with
  | [] => best.1
  | kv :: c' => max_key (if best.2 <? kv.2 then kv else best) c'
  end.

(** [min(ks, key=ratio)]: the first of the smallest. *)
Fixpoint min_key (ratio : pystr → float) (best : pystr) (ks : list pystr) : pystr :=
  match ks with
  | [] => best
  | k :: ks' => min_key ratio (if flt (ratio k) (ratio best) then k else best) ks'
  end.

Definition chosen (buckets alerts : counter) : result (list pystr) :=
  let available := sort_by str_leb (keys buckets) in
  picks ← map_r (λ f, match nth_error available
                              (Z.to_nat (position (len available - 1) f)) with
                      | Some k => Ok k
                      | None => Raise (exn_of IndexError "list index out of range")
                      end) fractions;
  let busiest := match alerts with [] => [] | kv :: c => [max_key kv c] end in
  let ratio k := fround (count_in alerts k) (count_in buckets k) 0 in
  let mixed := filter (λ k, count_in alerts k < count_in buckets k) (keys alerts) in
  let rarest := match mixed with [] => [] | k :: ks => [min_key ratio k ks] end in
  Ok (sort_by str_leb (fromkeys (picks ++ busiest ++ rarest))).

Definition case_of (name : dataset) (spec : DataSpec) (buckets alerts : counter) (key : pystr)
    : result Case :=
  let start := key ++ u (match name with BGL => "T00:00:00+00:00" | HDFS => ":00:00+00:00" end) in
  d ← fromisoformat (replace1 90 (u "+00:00") start);
  d ← dt_add d (match name with BGL => day_us | HDFS => 3600 * sec end);
  finish ← dt_add d (- sec);
  Ok {| c_name := dataset_name name ++ 58 :: key; c_dataset := name;
        c_service := ds_service spec; c_start := start; c_end := isoformat finish;
        c_records := count_in buckets key;
        c_alerts := match name with BGL => Some (count_in alerts key) | HDFS => None end |}.

Definition empty_case (x : dataset * DataSpec) : Case :=
  {| c_name := dataset_name x.1 ++ u ":empty"; c_dataset := x.1; c_service := ds_service x.2;
     c_start := u "2020-01-01T00:00:00Z"; c_end := u "2020-01-01T00:59:59Z"; c_records := 0;
     c_alerts := match x.1 with BGL => Some 0 | HDFS => None end |}.

(** *** The script *)

Definition archive_url (spec : DataSpec) : pystr :=
  u "https://zenodo.org/records/8196385/files/" ++ ds_file spec ++ u "?download=1".

(** The archive of a data set, downloaded unless it is there. *)
Definition fetch (x : dataset * DataSpec) : M Bench () :=
  b ← get;
  content ← match assoc (ds_file x.2) (downloads b) with
            | Some c => mret c
            | None => c ← lift (urlretrieve (archive_url x.2));
                      modify (set_downloads (assoc_set (ds_file x.2) c)) ;; mret c
            end;
  if str_eqb (md5_hex content) (ds_md5 x.2) then mret ()
  else raise (exn_of ValueError "archive checksum mismatch").

Definition archive_of (spec : DataSpec) (b : Bench) : list Z :=
  default [] (assoc (ds_file spec) (downloads b)).

(** One turn of the loop over the data sets: the number of rows before it, the value [n]
    still has, the manifests and cases so far. *)
Record Progress := {
  pr_total : Z; pr_n : option Z; pr_manifests : list (dataset * Manifest);
  pr_cases : list Case }.

Definition manifest_of (spec : DataSpec) (content : list Z) (blocks : counter) (first n : Z)
    (t : Tally) : Manifest :=
  {| mf_url := archive_url spec; mf_archive_bytes := len content; mf_md5 := md5_hex content;
     mf_sha256 := sha256_hex content; mf_block_labels := blocks; mf_lines := n;
     mf_raw_bytes := len (t_raw t); mf_raw_sha256 := sha256_hex (t_raw t);
     mf_first_id := first; mf_last_id := t_total t; mf_min_time := t_min t;
     mf_max_time := t_max t; mf_levels := t_levels t; mf_alert_categories := t_labels t;
     mf_empty_message_rows := t_empty t;
     mf_nonstandard_level_rows :=
       total_of (snd <$> filter (λ kv, mem kv.1 standard_levels = false) (t_levels t));
     mf_buckets := sort_by key_leb (t_buckets t);
     mf_alert_buckets := sort_by key_leb (t_alerts t) |}.

Definition unbound_n : exn :=
  exn_of (OtherError "UnboundLocalError") "cannot access local variable 'n'".

Definition load_dataset (pr : Progress) (x : dataset * DataSpec) : M Bench Progress :=
  let '(name, spec) := x in
  b ← get;
  let content := archive_of spec b in
  labels ← lift (match name with HDFS => zip_labels content | BGL => Ok [] end);
  lines ← lift (zip_lines content (ds_member spec));
  t ← ingest_lines name spec lines (start_tally (pr_total pr));
  (match t_batch t with [] => mret () | _ => commit_batch (t_batch t) (t_truth t) end) ;;
  n ← lift (match lines, pr_n pr with
            | [], None => Raise unbound_n
            | [], Some n => Ok n
            | _, _ => Ok (t_n t)
            end);
  if negb (n =? ds_lines spec) then raise (exn_of (OtherError "AssertionError") "lines")
  else
    keys ← lift (chosen (t_buckets t) (t_alerts t));
    cases ← lift (map_r (case_of name spec (t_buckets t) (t_alerts t)) keys);
    mret {| pr_total := t_total t; pr_n := Some n;
            pr_manifests := pr_manifests pr
              ++ [(name, manifest_of spec content (ticks labels [])
                           (pr_total pr + 1) n t)];
            pr_cases := pr_cases pr ++ cases |}.

Fixpoint load_datasets (pr : Progress) (specs : list (dataset * DataSpec)) : M Bench Progress :=
  match specs with
  | [] => mret pr
  | x :: specs' => pr' ← load_dataset pr x; load_datasets pr' specs'
  end.

(** [CREATE TABLE IF NOT EXISTS logs], the refusal, [CREATE TABLE benchmark_alerts]. *)
Definition create_tables : M Bench () :=
  b ← get;
  modify (set_tables (Some (log_rows b)) (benchmark_alerts b)) ;;
  match log_rows b, benchmark_alerts b with
  | _ :: _, _ => raise (exn_of RuntimeError "Refusing to append to nonempty logs")
  | [], Some _ => raise table_exists
  | [], None => modify (set_tables (Some []) (Some []))
  end.

Definition prepare (specs : list (dataset * DataSpec)) : M Bench Summary :=
  for_each specs fetch ;;
  create_tables ;;
  pr ← load_datasets {| pr_total := 0; pr_n := None; pr_manifests := []; pr_cases := [] |} specs;
  b ← get;
  if negb (len (log_rows b) =? pr_total pr)
  then raise (exn_of (OtherError "AssertionError") "count")
  else
    let s := {| sm_datasets := pr_manifests pr; sm_total_rows := len (log_rows b);
                sm_cases := pr_cases pr ++ map empty_case specs |} in
    modify (set_ingestion s) ;; mret s.
End prepare.

(** ** The benchmark of the source *)

(** The statement [SQL], without its order and limit. *)
Definition window_rows (c : Case) (rows : list row) : list row :=
  filter (λ r, str_eqb (rservice r) (c_service c) && str_leb (c_start c) (rtime r)
               && str_leb (rtime r) (c_end c) && (0 <? rid r) = true) rows.

Record SourceResult := {
  sr_case : Case; sr_returned : Z; sr_next_cursor : option pystr; sr_first_page_ids : list Z;
  sr_first_page_alerts : option Z; sr_expected_page_matches : bool }.

Definition source_case (b : Bench) (c : Case) : SourceResult :=
  let rows := take 51 (sort_by (λ x y, rid x <=? rid y) (window_rows c (log_rows b))) in
  let first_page := take 50 rows in
  let alert_hits :=
    total_of ((λ r, len (filter (λ a : alert, a.1 = rid r) (alert_rows b))) <$> first_page) in
  {| sr_case := c; sr_returned := len first_page;
     sr_next_cursor := if 50 <? len rows then str_of_Z ∘ rid <$> last first_page else None;
     sr_first_page_ids := rid <$> first_page;
     sr_first_page_alerts := match c_dataset c with BGL => Some alert_hits | HDFS => None end;
     sr_expected_page_matches := len first_page =? Z.min (c_records c) 50 |}.

Definition source : M Bench (list SourceResult) :=
  b ← get;
  match ingestion b with
  | None => raise (exn_of (OtherError "FileNotFoundError") "ingestion.json")
  | Some s =>
      let results := source_case b <$> sm_cases s in
      if forallb sr_expected_page_matches results then mret results
      else raise (exn_of (OtherError "AssertionError") "expected_page_matches")
  end.
