(* ===== verification/IngestSpec.v ===== *)
(** * What loading the public logs guarantees

    A description of a successful load by the lines it read, and its consequences: the
    cases the script derives say exactly what its query selects, following the
    log store's cursors over a case delivers just those rows, and the labels of the data
    sets leave no trace in the table the application reads. *)
From S2P Require Import Prelude.
From S2P Require Import PyStr.
From S2P Require Import Json.
From S2P Require Import JsonParse.
From S2P Require Import PyTime.
From S2P Require Import IsoTime.
From S2P Require Import LogStore.
From S2P Require Import Paging.
From S2P Require Import Ingest.

(** ** Counters *)

Lemma count_in_tick k k' c : count_in (tick k c) k' = count_in c k' + (if decide (k' = k) then 1 else 0).
Proof.
  unfold tick, count_in. case_decide as Hk; [subst|].
  - by rewrite assoc_set_same.
  - rewrite assoc_set_other by done. lia.
Qed.

(** A counter counts. *)
Lemma count_in_ticks l c k : count_in (ticks l c) k = count_in c k + len (filter (λ x, x = k) l).
Proof.
  revert c. induction l as [|x l IH]; intros c; [unfold ticks, len; cbn [foldl filter list_filter length]; lia|].
  cbn [ticks foldl]. fold (ticks l (tick x c)). rewrite IH, count_in_tick, filter_cons.
  unfold len. repeat case_decide; subst; cbn [length]; try congruence; lia.
Qed.

Lemma elem_of_keys_ticks l c k : k ∈ keys (ticks l c) ↔ k ∈ l ∨ k ∈ keys c.
Proof.
  revert c. induction l as [|x l IH]; intros c; cbn [ticks foldl].
  { split; [by right|]. by intros [?%not_elem_of_nil|]. }
  fold (ticks l (tick x c)). rewrite IH. unfold tick. rewrite keys_assoc_set, elem_of_cons.
  tauto.
Qed.

(** ** A load by its lines *)

(** The line [raw] of data set [name] parses to [p]. *)
Definition line_parsed {TD : TzDatabase} (name : dataset) (raw : list Z) (p : Parsed) : Prop :=
  ∃ text, utf8_strict raw = Ok text ∧ parse_line name (rstrip_eol text) = Ok p.

(** The rows of consecutive lines, the first of which follows [total] rows and is line
    [n + 1] of its file; and the labelled ones. *)
Fixpoint rows_from (name : dataset) (spec : DataSpec) (total n : Z) (ps : list Parsed) : list row :=
  match ps with
  | [] => []
  | p :: ps' => row_of name spec (total + 1) (n + 1) p
                :: rows_from name spec (total + 1) (n + 1) ps'
  end.

Fixpoint alerts_from (total : Z) (ps : list Parsed) : list (Z * pystr) :=
  match ps with
  | [] => []
  | p :: ps' => (if alerted p then [(total + 1, default [] (p_label p))] else [])
                ++ alerts_from (total + 1) ps'
  end.

Fixpoint all_rows (total : Z) (xs : list ((dataset * DataSpec) * list Parsed)) : list row :=
  match xs with
  | [] => []
  | x :: xs' => rows_from x.1.1 x.1.2 total 0 x.2 ++ all_rows (total + len x.2) xs'
  end.

Lemma alerts_from_app total ps qs :
  alerts_from total (ps ++ qs) = alerts_from total ps ++ alerts_from (total + len ps) qs.
Proof.
  revert total. induction ps as [|p ps IH]; intros total.
  { cbn [alerts_from app]. f_equal. unfold len. cbn. lia. }
  cbn [alerts_from app]. rewrite IH, app_assoc. do 2 f_equal. unfold len. cbn [length]. lia.
Qed.

(** The identifiers are consecutive. *)
Lemma rows_from_ids name spec total n ps :
  rid <$> rows_from name spec total n ps = seqZ (total + 1) (len ps).
Proof.
  revert total n. induction ps as [|p ps IH]; intros total n; [done|].
  cbn [rows_from fmap list_fmap]. change (list_fmap ?f) with (fmap (M := list) f). rewrite IH.
  unfold len. cbn [length]. rewrite Nat2Z.inj_succ, (seqZ_cons (total + 1)) by lia.
  cbn [rid row_of]. f_equal. f_equal; unfold len; lia.
Qed.

Lemma all_rows_ids total xs : rid <$> all_rows total xs = seqZ (total + 1) (len (concat xs.*2)).
Proof.
  revert total. induction xs as [|x xs IH]; intros total; [done|].
  cbn [all_rows fmap list_fmap concat]. change (list_fmap ?f) with (fmap (M := list) f).
  rewrite fmap_app, rows_from_ids, IH. unfold len. rewrite length_app, Nat2Z.inj_add.
  rewrite (seqZ_app (total + 1)) by lia. do 2 f_equal. lia.
Qed.

(** A row is labelled exactly when its line was. *)
Lemma elem_of_alerts total ps i :
  i ∈ (alerts_from total ps).*1
  ↔ ∃ j p, ps !! j = Some p ∧ alerted p = true ∧ i = total + 1 + Z.of_nat j.
Proof.
  revert total. induction ps as [|p ps IH]; intros total; cbn [alerts_from].
  { split; [by intros ?%not_elem_of_nil|]. by intros (j & p & Hj & _). }
  rewrite fmap_app, elem_of_app, IH. split.
  - intros [H|(j & q & Hj & Hq & ->)].
    + destruct (alerted p) eqn:Hp; [|by apply not_elem_of_nil in H].
      apply list_elem_of_singleton in H as ->. exists O, p. cbn. split; [done|]. split; [done|lia].
    + exists (S j), q. split; [done|]. split; [done|lia].
  - intros ([|j] & q & Hj & Hq & ->).
    + injection Hj as ->. left. rewrite Hq. apply list_elem_of_singleton. cbn. lia.
    + right. exists j, q. split; [done|]. split; [done|lia].
Qed.

Lemma rows_from_service name spec total n ps r :
  r ∈ rows_from name spec total n ps → rservice r = ds_service spec.
Proof.
  revert total n. induction ps as [|p ps IH]; intros total n; cbn [rows_from].
  { by intros ?%not_elem_of_nil. }
  intros [->|H]%elem_of_cons; [done|]. by eapply IH.
Qed.

(** ** The chosen windows *)

Lemma max_key_elem best c : max_key best c ∈ best.1 :: keys c.
Proof.
  revert best. induction c as [|kv c IH]; intros best; cbn; [apply list_elem_of_here|].
  specialize (IH (if best.2 <? kv.2 then kv else best)). destruct (best.2 <? kv.2).
  - by apply list_elem_of_further.
  - apply elem_of_cons in IH as [->|H]; [apply list_elem_of_here|].
    by apply list_elem_of_further, list_elem_of_further.
Qed.

Lemma min_key_elem ratio best ks : min_key ratio best ks ∈ best :: ks.
Proof.
  revert best. induction ks as [|k ks IH]; intros best; cbn; [apply list_elem_of_here|].
  specialize (IH (if Retrieval.flt (ratio k) (ratio best) then k else best)).
  destruct (Retrieval.flt _ _).
  - by apply list_elem_of_further.
  - apply elem_of_cons in IH as [->|H]; [apply list_elem_of_here|].
    by apply list_elem_of_further, list_elem_of_further.
Qed.

(** Only windows with rows are chosen. *)
Lemma chosen_buckets buckets alerts ks k :
  chosen buckets alerts = Ok ks → (∀ k, k ∈ keys alerts → k ∈ keys buckets) →
  k ∈ ks → k ∈ keys buckets.
Proof.
  intros H Hsub Hk. unfold chosen in H. apply bind_ok in H as (picks & Hp & H).
  injection H as <-. rewrite elem_of_sort_by, elem_of_fromkeys, !elem_of_app in Hk.
  destruct Hk as [Hk|[Hk|Hk]].
  - apply map_r_ok in Hp. apply list_elem_of_lookup in Hk as [i Hi].
    destruct (Forall2_lookup_r _ _ _ _ _ Hp Hi) as (f & _ & Hf).
    destruct (nth_error _ _) eqn:Hn; [|done]. injection Hf as ->.
    apply nth_error_In, list_elem_of_In in Hn. by apply elem_of_sort_by in Hn.
  - destruct alerts as [|kv c]; [by apply not_elem_of_nil in Hk|].
    apply list_elem_of_singleton in Hk as ->. apply Hsub, max_key_elem.
  - destruct (filter _ (keys alerts)) as [|k0 ks] eqn:Hf; [by apply not_elem_of_nil in Hk|].
    apply list_elem_of_singleton in Hk as ->. apply Hsub.
    pose proof (min_key_elem (λ k, Retrieval.fround (count_in alerts k) (count_in buckets k) 0) k0 ks)
      as Hm. rewrite <- Hf in Hm. by apply list_elem_of_filter in Hm as [_ ?].
Qed.

(** ** The script by its lines *)

Definition bucket_counts (ps : list Parsed) := ticks (p_bucket <$> ps) [].
Definition alert_counts (ps : list Parsed) :=
  ticks (p_bucket <$> filter (λ p, alerted p = true) ps) [].

Section loading.
Context {TD : TzDatabase}.
Variable urlretrieve : pystr → result (list Z).
Variable zip_lines : list Z → pystr → result (list (list Z)).
Variable zip_labels : list Z → result (list pystr).

Local Abbreviation prepare := (prepare urlretrieve zip_lines zip_labels).
Local Abbreviation load_dataset := (load_dataset zip_lines zip_labels).
Local Abbreviation load_datasets := (load_datasets zip_lines zip_labels).

(** What the loop over a member has done so far: the tables and the waiting rows, the
    counters, and nothing else. *)
Record loop_state (ls : list row) (als : list (Z * pystr)) (t : Tally) (b : Bench) : Prop := {
  loop_logs : ∃ com, logs b = Some com ∧ com ++ t_batch t = ls;
  loop_alerts : ∃ com, benchmark_alerts b = Some com ∧ com ++ t_truth t = als;
  loop_truth : t_batch t = [] → t_truth t = [] }.

Lemma commit_batch_ok ls als t b b' :
  loop_state ls als t b → commit_batch (t_batch t) (t_truth t) b = (b', Ok ()) →
  logs b' = Some ls ∧ benchmark_alerts b' = Some als ∧ downloads b' = downloads b.
Proof.
  intros [(l & Hl & <-) (a & Ha & <-) _]. unfold commit_batch.
  unfold mbind, M_bind, get. rewrite Hl, Ha.
  repeat case_decide; [|done..]. by intros [= <-].
Qed.

Record loop_step (name : dataset) (spec : DataSpec) (ps : list Parsed) (t t' : Tally) : Prop := {
  step_total : t_total t' = t_total t + len ps;
  step_n : t_n t' = t_n t + len ps;
  step_levels : t_levels t' = ticks (p_level <$> ps) (t_levels t);
  step_buckets : t_buckets t' = ticks (p_bucket <$> ps) (t_buckets t);
  step_alerts : t_alerts t' = ticks (p_bucket <$> filter (λ p, alerted p = true) ps) (t_alerts t) }.

Lemma ingest_line_ok name spec raw t b b' t' ls als :
  ingest_line name spec raw t b = (b', Ok t') → loop_state ls als t b →
  ∃ p, line_parsed name raw p ∧ loop_step name spec [p] t t' ∧
    loop_state (ls ++ rows_from name spec (t_total t) (t_n t) [p])
      (als ++ alerts_from (t_total t) [p]) t' b' ∧ downloads b' = downloads b.
Proof.
  intros H Hst. unfold ingest_line in H.
  apply M_bind_ok in H as (b1 & text & Ht & H). apply lift_ok in Ht as [-> Ht].
  apply M_bind_ok in H as (b1 & p & Hp & H). apply lift_ok in Hp as [-> Hp].
  exists p. split; [by exists text|]. set (t1 := add_parsed name spec raw p t) in *.
  assert (loop_step name spec [p] t t1) as Hstep.
  { split; unfold t1, add_parsed, len; cbn; try done.
    unfold filter. cbn. destruct (alerted p); by repeat case_decide. }
  assert (loop_state (ls ++ rows_from name spec (t_total t) (t_n t) [p])
            (als ++ alerts_from (t_total t) [p]) t1 b) as Hst1.
  { destruct Hst as [(l & Hl & <-) (a & Ha & <-) _].
    split; unfold t1, add_parsed; cbn; try (eexists; split; [eassumption|]).
    - by rewrite app_assoc.
    - destruct (alerted p); cbn; by rewrite <- ?app_assoc, ?app_nil_r.
    - by intros [_ ?]%app_nil. }
  destruct (BATCH <=? _).
  - apply M_bind_ok in H as (b1 & [] & Hc & H). injection H as <- <-.
    destruct (commit_batch_ok _ _ _ _ _ Hst1 Hc) as (Hl & Ha & Hd).
    split; [by destruct Hstep|]. split; [|done].
    split; [..|done]; eexists; (split; [eassumption|]); cbn; apply app_nil_r.
  - injection H as <- <-. done.
Qed.

Lemma ticks_app l l' c : ticks (l ++ l') c = ticks l' (ticks l c).
Proof. unfold ticks. by rewrite foldl_app. Qed.

Lemma ingest_lines_ok name spec lines t b b' t' ls als :
  ingest_lines name spec lines t b = (b', Ok t') → loop_state ls als t b →
  ∃ ps, Forall2 (line_parsed name) lines ps ∧ loop_step name spec ps t t' ∧
    loop_state (ls ++ rows_from name spec (t_total t) (t_n t) ps)
      (als ++ alerts_from (t_total t) ps) t' b' ∧ downloads b' = downloads b.
Proof.
  revert t b ls als. induction lines as [|raw lines IH]; intros t b ls als H Hst.
  { injection H as <- <-. exists []. split; [constructor|]. cbn. rewrite !app_nil_r.
    split; [|done]. split; unfold len; cbn; lia || done. }
  cbn [ingest_lines] in H. apply M_bind_ok in H as (b1 & t1 & H1 & H).
  destruct (ingest_line_ok _ _ _ _ _ _ _ _ _ H1 Hst) as (p & Hp & Hs1 & Hst1 & Hd1).
  destruct (IH _ _ _ _ H Hst1) as (ps & Hps & Hs & Hst' & Hd).
  exists (p :: ps). split; [by constructor|]. destruct Hs1 as [A1 A2 A3 A4 A5], Hs as [B1 B2 B3 B4 B5].
  assert (len [p] = 1) as Hlen by done. rewrite Hlen in *.
  split.
  - split; [rewrite B1|rewrite B2|rewrite B3|rewrite B4|rewrite B5].
    + rewrite A1. unfold len. cbn [length]. lia.
    + rewrite A2. unfold len. cbn [length]. lia.
    + by rewrite A3.
    + by rewrite A4.
    + rewrite A5, <- ticks_app, <- fmap_app, <- filter_app. done.
  - split; [|congruence]. rewrite A1, A2, <- !app_assoc in Hst'. cbn [rows_from alerts_from app] in *.
    by rewrite app_nil_r in Hst'.
Qed.

(** What a successful load of one data set says of its lines, cases and manifest. *)
Record dataset_facts (b : Bench) (x : (dataset * DataSpec) * list Parsed) (cs : list Case)
    (m : dataset * Manifest) : Prop := {
  df_lines : ∃ lines, zip_lines (archive_of x.1.2 b) (ds_member x.1.2) = Ok lines ∧
    Forall2 (line_parsed x.1.1) lines x.2;
  df_count : x.2 ≠ [] → len x.2 = ds_lines x.1.2;
  df_cases : Forall (λ c, ∃ k, k ∈ p_bucket <$> x.2 ∧
    case_of x.1.1 x.1.2 (bucket_counts x.2) (alert_counts x.2) k = Ok c) cs;
  df_levels : mf_nonstandard_level_rows m.2
    = total_of (snd <$> filter (λ kv, mem kv.1 standard_levels = false)
                  (ticks (p_level <$> x.2) [])) }.

(** The tables when all of [ls] and [als] are committed. *)
Definition committed (ls : list row) (als : list (Z * pystr)) (b : Bench) : Prop :=
  logs b = Some ls ∧ benchmark_alerts b = Some als.

Lemma load_dataset_ok pr x b b' pr' ls als :
  load_dataset pr x b = (b', Ok pr') → committed ls als b →
  ∃ ps cs m, dataset_facts b (x, ps) cs m ∧ downloads b' = downloads b ∧
    committed (ls ++ rows_from x.1 x.2 (pr_total pr) 0 ps)
      (als ++ alerts_from (pr_total pr) ps) b' ∧
    pr_total pr' = pr_total pr + len ps ∧ pr_cases pr' = pr_cases pr ++ cs ∧
    pr_manifests pr' = pr_manifests pr ++ [m].
Proof.
  destruct x as [name spec]. intros H [Hl Ha]. cbn [fst snd]. unfold Ingest.load_dataset in H.
  apply M_bind_ok in H as (b0 & b1 & [= <- <-] & H).
  apply M_bind_ok in H as (b1 & labels & Hlab & H). apply lift_ok in Hlab as [-> _].
  apply M_bind_ok in H as (b1 & lines & Hlines & H). apply lift_ok in Hlines as [-> Hlines].
  apply M_bind_ok in H as (b1 & t & Ht & H).
  destruct (ingest_lines_ok _ _ _ _ _ _ _ ls als Ht) as (ps & Hps & Hs & Hst & Hd).
  { split; [..|done]; eexists; (split; [eassumption|]); apply app_nil_r. }
  destruct Hs as [S1 S2 S3 S4 S5]. cbn [start_tally t_total t_n t_buckets t_alerts t_levels] in *.
  apply M_bind_ok in H as (b2 & [] & Hc & H).
  assert (committed (ls ++ rows_from name spec (pr_total pr) 0 ps)
            (als ++ alerts_from (pr_total pr) ps) b2 ∧ downloads b2 = downloads b) as [Hcom Hd2].
  { destruct (t_batch t) as [|r batch] eqn:Hb.
    - injection Hc as <-. destruct Hst as [(l & Hl' & H1) (a & Ha' & H2) H3].
      rewrite Hb, app_nil_r in H1. rewrite (H3 Hb), app_nil_r in H2. by subst.
    - rewrite <- Hb in Hc. destruct (commit_batch_ok _ _ _ _ _ Hst Hc) as (H1 & H2 & H3).
      split; [done|congruence]. }
  apply M_bind_ok in H as (b3 & n & Hn & H). apply lift_ok in Hn as [-> Hn].
  destruct (n =? ds_lines spec) eqn:Heq; [|done]. apply Z.eqb_eq in Heq. cbn [negb] in H.
  apply M_bind_ok in H as (b3 & ks & Hks & H). apply lift_ok in Hks as [-> Hks].
  apply M_bind_ok in H as (b3 & cs & Hcs & H). apply lift_ok in Hcs as [-> Hcs].
  injection H as <- <-. eexists ps, cs, (name, _). split; [|by auto]. rewrite S4, S5 in Hks, Hcs.
  split; cbn [fst snd].
  - by exists lines.
  - intros Hne. destruct lines; [by inversion Hps; subst|]. injection Hn as <-. lia.
  - apply map_r_ok in Hcs. apply Forall_forall. intros c [i Hi]%list_elem_of_lookup.
    destruct (Forall2_lookup_r _ _ _ _ _ Hcs Hi) as (k & Hk & Hc'). exists k.
    split; [|exact Hc']. apply list_elem_of_lookup_2 in Hk.
    assert (k ∈ keys (bucket_counts ps)) as Hin.
    { eapply chosen_buckets; [exact Hks| |exact Hk]. intros k' Hk'.
      apply elem_of_keys_ticks in Hk' as [Hk'|?]; [|by apply not_elem_of_nil in H].
      apply elem_of_keys_ticks. left. apply list_elem_of_fmap in Hk' as (p & -> & Hp).
      apply list_elem_of_filter in Hp as [_ Hp]. by apply list_elem_of_fmap_2. }
    apply elem_of_keys_ticks in Hin as [?|Hin]; [done|by apply not_elem_of_nil in Hin].
  - unfold manifest_of. cbn. by rewrite S3.
Qed.

Lemma load_datasets_ok specs pr b b' pr' ls als :
  load_datasets pr specs b = (b', Ok pr') → committed ls als b →
  ∃ xs css ms, xs.*1 = specs ∧ Forall3 (dataset_facts b) xs css ms ∧ downloads b' = downloads b ∧
    committed (ls ++ all_rows (pr_total pr) xs)
      (als ++ alerts_from (pr_total pr) (concat xs.*2)) b' ∧
    pr_total pr' = pr_total pr + len (concat xs.*2) ∧ pr_cases pr' = pr_cases pr ++ concat css ∧
    pr_manifests pr' = pr_manifests pr ++ ms.
Proof.
  revert pr b ls als. induction specs as [|x specs IH]; intros pr b ls als H Hcom.
  { injection H as <- <-. exists [], [], []. cbn. rewrite !app_nil_r.
    split_and!; try done; [constructor|unfold len; cbn; lia]. }
  cbn [Ingest.load_datasets] in H. apply M_bind_ok in H as (b1 & pr1 & H1 & H).
  destruct (load_dataset_ok _ _ _ _ _ _ _ H1 Hcom) as (ps & cs & m & Hf & Hd & Hc & Ht & Hcs & Hm).
  destruct (IH _ _ _ _ H Hc) as (xs & css & ms & Hx & Hfs & Hd' & Hc' & Ht' & Hcs' & Hm').
  exists ((x, ps) :: xs), (cs :: css), (m :: ms). cbn [fmap list_fmap fst snd concat all_rows].
  split; [by f_equal|]. split.
  { constructor; [done|]. eapply Forall3_impl; [exact Hfs|].
    intros y c n [F1 F2 F3 F4]. split; try done. unfold archive_of in *. by rewrite <- Hd. }
  rewrite Ht in Hc', Ht'. rewrite Hcs in Hcs'. rewrite Hm in Hm'.
  rewrite alerts_from_app, !app_assoc. rewrite <- !app_assoc in Hcs', Hm'.
  split; [congruence|]. split; [exact Hc'|]. split; [|by rewrite <- !app_assoc].
  rewrite Ht'. unfold len. rewrite length_app. lia.
Qed.
End loading.

(** ** Windows *)

Section windows.
Context {TD : TzDatabase}.

(** The text of a whole second of UTC. *)
Definition text_at (w : Z) : pystr := isoformat (DT w false (Offset 0)).
Definition wall_ok (w : Z) : Prop := 0 ≤ w ≤ max_wall.
Definition stamped (t : pystr) : Prop := ∃ w, wall_ok w ∧ w mod sec = 0 ∧ t = text_at w.

Definition bucket_width (name : dataset) : nat := match name with BGL => 10 | HDFS => 13 end.
Definition bucket_unit (name : dataset) : Z :=
  match name with BGL => day_us | HDFS => 3600 * sec end.
Definition bucket_floor (name : dataset) (w : Z) : Z := w / bucket_unit name * bucket_unit name.
Definition floor_suffix (name : dataset) : pystr :=
  u (match name with BGL => "T00:00:00+00:00" | HDFS => ":00:00+00:00" end).

Lemma bucket_floor_ok name w : wall_ok w → wall_ok (bucket_floor name w).
Proof.
  unfold wall_ok, bucket_floor. intros Hw.
  assert (0 < bucket_unit name) as Hu by by destruct name.
  pose proof (Z.div_mod w (bucket_unit name) ltac:(lia)).
  pose proof (Z.mod_pos_bound w (bucket_unit name) Hu).
  pose proof (Z.div_pos w (bucket_unit name) ltac:(lia) Hu). nia.
Qed.

Lemma text_leb w v : wall_ok w → wall_ok v → str_leb (text_at w) (text_at v) = (w <=? v).
Proof.
  intros Hw Hv. apply eq_true_iff_eq. rewrite str_leb_cmp, Z.leb_le.
  unfold text_at. by rewrite isoformat_cmp.
Qed.

Lemma text_inj w v : wall_ok w → wall_ok v → text_at w = text_at v → w = v.
Proof.
  intros Hw Hv H.
  pose proof (isoformat_cmp (DT w false (Offset 0)) (DT v false (Offset 0)) Hw Hv eq_refl eq_refl)
    as Hc. cbn [wall] in Hc. apply Z.compare_eq_iff. rewrite <- Hc. by apply str_cmp_eq.
Qed.

Lemma text_split w :
  text_at w = iso_date (date_of_ordinal (w / day_us)) ++ 84 :: iso_time (w mod day_us) ++ u "+00:00".
Proof. done. Qed.

Lemma hour_of us : us / sec / 3600 = us / (3600 * sec).
Proof. rewrite Z.div_div by done. f_equal. Qed.

(** The hours of a time of day, and a time of day of whole hours. *)
Lemma iso_time_head us : ∃ rest, iso_time us = digits 2 (us / (3600 * sec)) ++ 58 :: rest.
Proof. unfold iso_time. rewrite hour_of. eauto. Qed.

Lemma iso_time_hours k : iso_time (k * (3600 * sec)) = digits 2 k ++ u ":00:00".
Proof.
  unfold iso_time. rewrite hour_of, Z.div_mul by done.
  replace (k * (3600 * sec)) with (k * 3600 * sec) by lia.
  rewrite Z.div_mul, Z_mod_mult by done.
  replace (k * 3600 / 60 mod 60) with 0.
  2: { replace (k * 3600) with (k * 60 * 60) by lia. by rewrite Z.div_mul, Z_mod_mult. }
  replace (k * 3600 mod 60) with 0; [done|].
  replace (k * 3600) with (k * 60 * 60) by lia. by rewrite Z_mod_mult.
Qed.

(** The start of the bucket is the bucket's name and a suffix. *)
Lemma floor_text name w :
  text_at (bucket_floor name w) = take (bucket_width name) (text_at w) ++ floor_suffix name.
Proof.
  unfold bucket_floor. destruct name; cbn [bucket_unit bucket_width].
  - rewrite !text_split, Z.div_mul, Z_mod_mult by done.
    rewrite take_app, length_iso_date, take_ge by (rewrite length_iso_date; lia).
    cbn [Nat.sub take]. by rewrite app_nil_r.
  - rewrite !text_split.
    pose proof (Z.div_mod w day_us ltac:(done)) as Hd.
    pose proof (Z.mod_pos_bound w day_us ltac:(done)).
    set (q := w / day_us) in *. set (us := w mod day_us) in *. clearbody q us.
    pose proof (Z.div_mod us (3600 * sec) ltac:(done)).
    pose proof (Z.mod_pos_bound us (3600 * sec) ltac:(done)).
    set (h := us / (3600 * sec)) in *. 
    assert (w / (3600 * sec) * (3600 * sec) = q * day_us + h * (3600 * sec)) as ->.
    { assert (w / (3600 * sec) = q * 24 + h) as ->; [|unfold day_us; lia].
      symmetry. apply (Z.div_unique _ _ _ (us mod (3600 * sec))); [lia|].
      unfold day_us in Hd. lia. }
    assert (0 ≤ h * (3600 * sec) < day_us) as Hh.
    { split; [|lia]. unfold h. pose proof (Z.div_pos us (3600 * sec) ltac:(lia) ltac:(done)). lia. }
    rewrite Z.div_add_l, Z.div_small, Z.add_0_r by done.
    replace ((q * day_us + h * (3600 * sec)) mod day_us) with (h * (3600 * sec)).
    2: { symmetry. rewrite Z.add_comm, Z_mod_plus_full. by apply Z.mod_small. }
    rewrite iso_time_hours. destruct (iso_time_head us) as [rest ->]. fold h.
    pose proof (length_iso_date (date_of_ordinal q)) as Hl.
    rewrite take_app, Hl. rewrite take_ge by lia. cbn [Nat.sub take].
    rewrite <- !app_assoc. cbn [app]. by rewrite take_digits.
Qed.

(** What a time text is made of. *)
Lemma text_chars w c : c ∈ text_at w → 43 ≤ c ≤ 58 ∨ c = 84.
Proof.
  assert (∀ k n, c ∈ digits k n → 43 ≤ c ≤ 58) as Hd by (intros k n H%digits_range; lia).
  rewrite text_split. unfold iso_date. intros H.
  repeat first [rewrite elem_of_app in H; destruct H as [H|H]
               |rewrite elem_of_cons in H; destruct H as [H|H]];
    try (apply Hd in H; lia); try lia.
  - apply time_chars in H. lia.
  - apply list_elem_of_In in H. change (u "+00:00") with [43; 48; 48; 58; 48; 48] in H.
    cbn [In] in H. lia.
Qed.

Lemma text_no_Z w : 90 ∉ text_at w.
Proof. intros H%text_chars. lia. Qed.

Lemma text_length w : w mod sec = 0 → length (text_at w) = 25%nat.
Proof.
  intros Hw. rewrite text_split, length_app, length_iso_date. cbn [length].
  rewrite length_app. unfold iso_time.
  assert (w mod day_us mod sec = 0) as ->.
  { rewrite Z.mod_mod_divide; [done|]. by exists 86400. }
  rewrite Z.eqb_refl, app_nil_r.
  repeat (rewrite ?length_app; cbn [length]; rewrite ?length_digits). done.
Qed.

Lemma replace1_none c new s : c ∉ s → replace1 c new s = s.
Proof.
  induction s as [|d s IH]; intros H; [done|]. apply not_elem_of_cons in H as [Hd Hs].
  unfold replace1 in *. cbn. rewrite IH by done.
  destruct (Z.eqb_spec d c); [congruence|done].
Qed.
End windows.

Section case_windows.
Context {TD : TzDatabase}.

Lemma fromisoformat_text w : wall_ok w → fromisoformat (text_at w) = Ok (DT w false (Offset 0)).
Proof. apply fromisoformat_isoformat. Qed.

(** A case is the bucket it is named after, from its first to its last second. *)
Lemma case_of_window name spec buckets alerts w0 c :
  wall_ok w0 →
  case_of name spec buckets alerts (take (bucket_width name) (text_at w0)) = Ok c →
  c_service c = ds_service spec ∧
  c_records c = count_in buckets (take (bucket_width name) (text_at w0)) ∧
  (∀ n, c_alerts c = Some n → n = count_in alerts (take (bucket_width name) (text_at w0))) ∧
  c_start c = text_at (bucket_floor name w0) ∧
  c_end c = text_at (bucket_floor name w0 + bucket_unit name - sec) ∧
  wall_ok (bucket_floor name w0 + bucket_unit name - sec).
Proof.
  intros Hw H. unfold case_of in H. fold (floor_suffix name) in H.
  rewrite <- floor_text in H.
  pose proof (bucket_floor_ok name w0 Hw) as Hf. set (f := bucket_floor name w0) in *.
  rewrite replace1_none in H by apply text_no_Z.
  rewrite fromisoformat_text in H by done. cbn [mbind result_bind] in H.
  fold (bucket_unit name) in H.
  unfold dt_add in H. cbn [wall tzinfo] in H.
  destruct (_ && _) eqn:H1; [|done]. cbn [mbind result_bind wall tzinfo] in H.
  destruct (_ && _) eqn:H2 in H; [|done]. cbn [mbind result_bind] in H.
  injection H as <-. cbn [c_service c_records c_alerts c_start c_end].
  apply andb_true_iff in H2 as [H2 H3]. apply Z.leb_le in H2, H3.
  split; [reflexivity|]. split; [reflexivity|]. split; [|split; [reflexivity|split; [reflexivity|]]].
  - intros n Hn. destruct name; [|discriminate Hn].
    set (x := count_in _ _) in *. clearbody x. by injection Hn.
  - unfold wall_ok. lia.
Qed.

Lemma bucket_eq name w w0 :
  wall_ok w → wall_ok w0 →
  take (bucket_width name) (text_at w) = take (bucket_width name) (text_at w0)
  ↔ bucket_floor name w = bucket_floor name w0.
Proof.
  intros Hw Hw0. pose proof (floor_text name w) as H1. pose proof (floor_text name w0) as H2.
  split; intros H.
  - apply text_inj; [by apply bucket_floor_ok..|]. congruence.
  - rewrite H, H2 in H1. by apply app_inv_tail in H1.
Qed.

Lemma case_selects name spec buckets alerts w0 c w :
  wall_ok w0 → wall_ok w → w mod sec = 0 →
  case_of name spec buckets alerts (take (bucket_width name) (text_at w0)) = Ok c →
  str_leb (c_start c) (text_at w) && str_leb (text_at w) (c_end c)
  = bool_decide (take (bucket_width name) (text_at w) = take (bucket_width name) (text_at w0)).
Proof.
  intros Hw0 Hw Hs H.
  destruct (case_of_window _ _ _ _ _ _ Hw0 H) as (_ & _ & _ & -> & -> & He).
  pose proof (bucket_floor_ok name w0 Hw0) as Hf.
  rewrite !text_leb by done. apply eq_true_iff_eq.
  rewrite andb_true_iff, !Z.leb_le, bool_decide_eq_true, bucket_eq by done.
  unfold bucket_floor in *. 
  assert (0 < bucket_unit name ∧ ∃ k, bucket_unit name = k * sec) as [Hu [k Hk]].
  { destruct name; (split; [done|]); [by exists 86400|by exists 3600]. }
  pose proof (Z.div_mod w (bucket_unit name) ltac:(lia)) as Hd.
  pose proof (Z.mod_pos_bound w (bucket_unit name) Hu) as Hm.
  set (U := bucket_unit name) in *. set (q := w / U) in *. set (r := w mod U) in *.
  set (q0 := w0 / U) in *.
  assert (r ≤ U - sec) as Hr.
  { pose proof (Z.div_mod w sec ltac:(done)). clearbody U q r q0. unfold sec in *.
    assert (r = 1000000 * (w / 1000000 - k * q)) by nia. nia. }
  clearbody U q r q0. clear Hk k He Hf Hs H. unfold sec in *. split.
  - intros [A B]. assert (q < q0 + 1) by nia. assert (q0 < q + 1) by nia.
    by replace q0 with q by lia.
  - intros Hq. assert (q = q0) as -> by nia. lia.
Qed.
End case_windows.

(** ** Counting rows by lines *)

Lemma Forall2_conj {A B} (R S : A → B → Prop) l k :
  Forall2 R l k → Forall2 S l k → Forall2 (λ x y, R x y ∧ S x y) l k.
Proof. induction 1; inversion_clear 1; constructor; auto. Qed.

Lemma rows_from_lockstep (R : row → Parsed → Prop) name spec total n ps :
  (∀ i p, ps !! i = Some p →
    R (row_of name spec (total + 1 + Z.of_nat i) (n + 1 + Z.of_nat i) p) p) →
  Forall2 R (rows_from name spec total n ps) ps.
Proof.
  revert total n. induction ps as [|p ps IH]; intros total n H; cbn [rows_from]; constructor.
  - specialize (H O p eq_refl). by rewrite !Z.add_0_r in H.
  - apply IH. intros i q Hi. specialize (H (S i) q Hi).
    replace (total + 1 + 1 + Z.of_nat i) with (total + 1 + Z.of_nat (S i)) by lia.
    by replace (n + 1 + 1 + Z.of_nat i) with (n + 1 + Z.of_nat (S i)) by lia.
Qed.

Lemma all_rows_app total xs ys :
  all_rows total (xs ++ ys) = all_rows total xs ++ all_rows (total + len (concat xs.*2)) ys.
Proof.
  revert total. induction xs as [|x xs IH]; intros total.
  { cbn [all_rows app fmap list_fmap concat]. f_equal. unfold len. cbn. lia. }
  cbn [all_rows app fmap list_fmap concat]. rewrite IH, app_assoc. do 2 f_equal.
  unfold len. rewrite length_app. lia.
Qed.

Lemma all_rows_service total xs r :
  r ∈ all_rows total xs → rservice r ∈ (λ x, ds_service x.1.2) <$> xs.
Proof.
  revert total. induction xs as [|x xs IH]; intros total; cbn [all_rows].
  { by intros ?%not_elem_of_nil. }
  intros [H|H]%elem_of_app.
  - apply rows_from_service in H as ->. apply list_elem_of_here.
  - by eapply list_elem_of_further, IH.
Qed.

(** Only the rows of its own data set have the service of a case. *)
Lemma window_rows_own c xs1 x xs2 total :
  NoDup ((λ x, ds_service x.1.2) <$> xs1 ++ x :: xs2) → c_service c = ds_service x.1.2 →
  window_rows c (all_rows total (xs1 ++ x :: xs2))
  = window_rows c (rows_from x.1.1 x.1.2 (total + len (concat xs1.*2)) 0 x.2).
Proof.
  intros Hnd Hc. rewrite fmap_app, fmap_cons in Hnd.
  apply NoDup_app in Hnd as (_ & Hd1 & Hnd). apply NoDup_cons in Hnd as [Hd2 _].
  assert (∀ total ys, ds_service x.1.2 ∉ (λ x, ds_service x.1.2) <$> ys →
            window_rows c (all_rows total ys) = []) as Hnone.
  { intros t ys Hys. apply filter_none. intros r Hr. rewrite !andb_true_iff.
    intros [[[Hs _] _] _]. unfold str_eqb in Hs. apply bool_decide_eq_true in Hs.
    apply all_rows_service in Hr. congruence. }
  rewrite all_rows_app. cbn [all_rows]. unfold window_rows in *.
  rewrite !filter_app, !Hnone; [by rewrite app_nil_r|done|].
  intros H. apply (Hd1 _ H), list_elem_of_here.
Qed.

Section counting.
Context {TD : TzDatabase}.

Lemma line_parsed_bucket name raw p :
  line_parsed name raw p →
  p_bucket p = take (bucket_width name) (p_time p) ∧ (name = BGL → stamped (p_time p)).
Proof.
  intros (text & _ & H). destruct name; cbn [parse_line] in H.
  - unfold bgl_line in H. destruct (_ <? _)%nat; [done|].
    apply bind_ok in H as (t & Ht & H). injection H as <-. split; [done|]. intros _.
    unfold epoch_iso in Ht. apply bind_ok in Ht as (n & _ & Ht).
    destruct (_ && _) eqn:Hb; [|done]. injection Ht as <-.
    apply andb_true_iff in Hb as [H1 H2]. apply Z.leb_le in H1, H2.
    eexists. split; [split; [exact H1|exact H2]|]. split; [|reflexivity].
    unfold day_us. replace (_ + n * sec) with ((days_before_year 1970 * 86400 + n) * sec) by lia.
    apply Z_mod_mult.
  - unfold hdfs_line in H. destruct (_ || _); [done|]. by injection H as <-.
Qed.

(** The rows a case selects are those of the lines of its bucket. *)
Lemma case_lockstep name spec total n ps buckets alerts key c :
  0 ≤ total → Forall (λ p, stamped (p_time p) ∧ p_bucket p = take (bucket_width name) (p_time p)) ps →
  key ∈ p_bucket <$> ps → case_of name spec buckets alerts key = Ok c →
  Forall2 (λ r p, str_eqb (rservice r) (c_service c) && str_leb (c_start c) (rtime r)
               && str_leb (rtime r) (c_end c) && (0 <? rid r) = true ↔ p_bucket p = key)
    (rows_from name spec total n ps) ps.
Proof.
  intros Ht Hps Hk Hc. rewrite Forall_forall in Hps.
  apply list_elem_of_fmap in Hk as (p0 & -> & Hp0).
  destruct (Hps p0 Hp0) as [(w0 & Hw0 & Hs0 & Ht0) Hb0]. rewrite Hb0, Ht0 in *.
  destruct (case_of_window _ _ _ _ _ _ Hw0 Hc) as (Hsvc & _).
  apply rows_from_lockstep. intros i p Hi. apply list_elem_of_lookup_2 in Hi.
  destruct (Hps p Hi) as [(w & Hw & Hs & Hpt) Hb].
  cbn [row_of rservice rtime rid]. rewrite Hb, Hpt, Hsvc.
  unfold str_eqb. rewrite bool_decide_true, (proj2 (Z.ltb_lt _ _)) by (done || lia).
  rewrite andb_true_r. cbn [andb].
  rewrite (case_selects _ _ _ _ _ _ _ Hw0 Hw Hs Hc). apply bool_decide_eq_true.
Qed.

(** Row by row, labelled and alerted agree. *)
Lemma alerts_lockstep xs1 x xs2 :
  Forall2 (λ r p, rid r ∈ (alerts_from 0 (concat (xs1 ++ x :: xs2).*2)).*1 ↔ alerted p = true)
    (rows_from x.1.1 x.1.2 (len (concat xs1.*2)) 0 x.2) x.2.
Proof.
  apply rows_from_lockstep.
  intros i p Hi. cbn [row_of rid]. rewrite elem_of_alerts.
  assert (concat (xs1 ++ x :: xs2).*2 !! (length (concat xs1.*2) + i)%nat = Some p) as Hlk.
  { rewrite fmap_app, concat_app. cbn [fmap list_fmap concat].
    rewrite lookup_app_r by lia. rewrite Nat.add_comm, Nat.add_sub.
    rewrite lookup_app_l; [done|]. by eapply lookup_lt_Some. }
  unfold len. split.
  + intros (j & q & Hj & Hq & He).
    assert (j = (length (concat xs1.*2) + i)%nat) as -> by lia. congruence.
  + intros Hp. eexists _, p. split; [exact Hlk|]. split; [done|lia].
Qed.

Lemma case_counts xs1 x xs2 key c :
  NoDup ((λ x, ds_service x.1.2) <$> xs1 ++ x :: xs2) →
  Forall (λ p, stamped (p_time p) ∧ p_bucket p = take (bucket_width x.1.1) (p_time p)) x.2 →
  key ∈ p_bucket <$> x.2 →
  case_of x.1.1 x.1.2 (bucket_counts x.2) (alert_counts x.2) key = Ok c →
  let rows := window_rows c (all_rows 0 (xs1 ++ x :: xs2)) in
  let alert_ids := (alerts_from 0 (concat (xs1 ++ x :: xs2).*2)).*1 in
  c_records c = len rows ∧
  (∀ n, c_alerts c = Some n → n = len (filter (λ r, rid r ∈ alert_ids) rows)).
Proof.
  intros Hnd Hps Hk Hc. cbn zeta.
  destruct (proj1 (list_elem_of_fmap _ _ _) Hk) as (p0 & Hkey & Hp0).
  destruct (proj1 (Forall_forall _ _) Hps p0 Hp0) as [(w0 & Hw0 & Hs0 & Ht0) Hb0].
  pose proof Hc as Hc'. rewrite Hkey, Hb0, Ht0 in Hc'.
  destruct (case_of_window _ _ _ _ _ _ Hw0 Hc') as (Hsvc & Hrec & Hal & _).
  rewrite <- Ht0, <- Hb0, <- Hkey in Hrec, Hal. clear Hc'.
  rewrite window_rows_own by done. rewrite Z.add_0_l.
  set (total := len (concat xs1.*2)).
  assert (0 ≤ total) as Htot by (unfold total, len; lia).
  pose proof (case_lockstep _ _ total 0 _ _ _ _ _ Htot Hps Hk Hc) as Hl.
  split.
  - rewrite Hrec. unfold bucket_counts. rewrite count_in_ticks. 
    unfold count_in, len. cbn [assoc from_option]. rewrite Z.add_0_l. f_equal.
    rewrite filter_map, length_fmap. symmetry. apply length_filter_Forall2. exact Hl.
  - intros n ->%Hal. unfold alert_counts. rewrite count_in_ticks.
    unfold count_in, len. cbn [assoc from_option]. rewrite Z.add_0_l. f_equal.
    rewrite filter_map, length_fmap, list_filter_filter. unfold window_rows.
    rewrite list_filter_filter. symmetry. apply length_filter_Forall2.
    eapply Forall2_impl.
    { eapply Forall2_conj; [exact Hl|apply alerts_lockstep]. }
    intros r p [H1 H2]. cbn beta. rewrite H1, H2. apply and_comm.
Qed.
End counting.

(** ** The cases are exact *)

Section prepared.
Context {TD : TzDatabase}.
Variable urlretrieve : pystr → result (list Z).
Variable zip_lines : list Z → pystr → result (list (list Z)).
Variable zip_labels : list Z → result (list pystr).

Local Abbreviation prepare := (prepare urlretrieve zip_lines zip_labels).
Local Abbreviation dataset_facts := (dataset_facts zip_lines).

Lemma prepare_ok specs b b' s :
  prepare specs b = (b', Ok s) →
  ∃ xs css ms, xs.*1 = specs ∧ Forall3 (dataset_facts b') xs css ms ∧
    committed (all_rows 0 xs) (alerts_from 0 (concat xs.*2)) b' ∧
    sm_cases s = concat css ++ map empty_case specs ∧ sm_datasets s = ms ∧
    ingestion b' = Some s ∧
    downloads b' = downloads (for_each specs (fetch urlretrieve) b).1.
Proof.
  intros H. unfold Ingest.prepare in H.
  apply M_bind_ok in H as (b1 & [] & Hfetch & H).
  apply M_bind_ok in H as (b2 & [] & Hc & H).
  assert (committed [] [] b2 ∧ downloads b2 = downloads b1) as [Hcom Hd2].
  { unfold create_tables in Hc. unfold mbind, M_bind, get, modify, raise in Hc.
    cbn beta iota in Hc. destruct (log_rows b1); [|done].
    destruct (benchmark_alerts b1); [done|]. by injection Hc as <-. }
  apply M_bind_ok in H as (b3 & pr & Hl & H).
  destruct (load_datasets_ok _ _ _ _ _ _ _ _ _ Hl Hcom)
    as (xs & css & ms & Hx & Hf & Hd & Hcom' & _ & Hcs & Hms).
  apply M_bind_ok in H as (b4 & b5 & [= <- <-] & H).
  destruct (negb _); [done|]. apply M_bind_ok in H as (b6 & [] & [= <-] & H).
  injection H as <- <-. cbn [pr_total pr_cases pr_manifests app] in *.
  exists xs, css, ms. split; [done|]. split.
  { eapply Forall3_impl; [exact Hf|]. intros y c n [F1 F2 F3 F4]. split; try done.
    unfold archive_of in *. cbn [downloads set_ingestion]. by rewrite Hd. }
  split; [exact Hcom'|]. cbn [sm_cases sm_datasets ingestion set_ingestion].
  rewrite Hcs, Hms. split_and!; try done. rewrite Hfetch. cbn [fst downloads set_ingestion].
  congruence.
Qed.

(** The data's own promise: every line of the archives that is read carries a date and
    a clock.  (The script checks this of BGL, whose lines carry seconds since the epoch,
    and only the lengths of the fields of HDFS.) *)
Definition dates_valid (specs : list (dataset * DataSpec)) (b : Bench) : Prop :=
  ∀ spec lines raw p, (HDFS, spec) ∈ specs →
    zip_lines (archive_of spec b) (ds_member spec) = Ok lines → raw ∈ lines →
    line_parsed HDFS raw p → stamped (p_time p).

Lemma dataset_stamped specs b x cs m :
  dates_valid specs b → x.1 ∈ specs → dataset_facts b x cs m →
  Forall (λ p, stamped (p_time p) ∧ p_bucket p = take (bucket_width x.1.1) (p_time p)) x.2.
Proof.
  intros Hdv Hx [(lines & Hl & Hps) _ _ _]. apply Forall_forall. intros p Hp.
  apply list_elem_of_lookup in Hp as [i Hi].
  destruct (Forall2_lookup_r _ _ _ _ _ Hps Hi) as (raw & Hr & Hraw).
  apply list_elem_of_lookup_2 in Hr.
  destruct (line_parsed_bucket _ _ _ Hraw) as [Hb Hs]. split; [|exact Hb].
  destruct x as [[[] spec] ps]; cbn [fst snd] in *; [by apply Hs|].
  by eapply Hdv.
Qed.

(** Where a derived case comes from. *)
Lemma case_origin specs b b' s c :
  prepare specs b = (b', Ok s) → dates_valid specs b' →
  c ∈ sm_cases s → c ∉ map empty_case specs →
  ∃ xs1 x xs2 key, (xs1 ++ x :: xs2).*1 = specs ∧
    committed (all_rows 0 (xs1 ++ x :: xs2)) (alerts_from 0 (concat (xs1 ++ x :: xs2).*2)) b' ∧
    Forall (λ p, stamped (p_time p) ∧ p_bucket p = take (bucket_width x.1.1) (p_time p)) x.2 ∧
    key ∈ p_bucket <$> x.2 ∧
    case_of x.1.1 x.1.2 (bucket_counts x.2) (alert_counts x.2) key = Ok c.
Proof.
  intros H Hdv Hc Hne.
  destruct (prepare_ok _ _ _ _ H) as (xs & css & ms & Hx & Hf & Hcom & Hcs & _).
  rewrite Hcs in Hc. apply elem_of_app in Hc as [Hc|Hc]; [|done].
  apply list_elem_of_In, in_concat in Hc as (cs & Hcs' & Hc).
  apply list_elem_of_In in Hcs', Hc. apply list_elem_of_lookup in Hcs' as [i Hi].
  destruct (Forall3_lookup_m _ _ _ _ _ _ Hf Hi) as (x & m & Hxi & Hmi & Hfacts).
  assert (x.1 ∈ specs) as Hxs.
  { rewrite <- Hx. by apply list_elem_of_fmap_2, list_elem_of_lookup_2 with i. }
  pose proof (dataset_stamped _ _ _ _ _ Hdv Hxs Hfacts) as Hst.
  destruct Hfacts as [_ _ Hcases _]. rewrite Forall_forall in Hcases.
  destruct (Hcases c Hc) as (key & Hkey & Hcase).
  apply list_elem_of_split_length in Hxi as (xs1 & xs2 & -> & _).
  by exists xs1, x, xs2, key.
Qed.

Lemma case_texts specs b b' s c :
  prepare specs b = (b', Ok s) → dates_valid specs b' →
  c ∈ sm_cases s → c ∉ map empty_case specs →
  ∃ w v, wall_ok w ∧ wall_ok v ∧ c_start c = text_at w ∧ c_end c = text_at v.
Proof.
  intros H Hdv Hc Hne.
  destruct (case_origin _ _ _ _ _ H Hdv Hc Hne) as (xs1 & x & xs2 & key & _ & _ & Hst & Hk & Hcase).
  apply list_elem_of_fmap in Hk as (p & -> & Hp). rewrite Forall_forall in Hst.
  destruct (Hst p Hp) as [(w & Hw & _ & Ht) Hb]. rewrite Hb, Ht in Hcase.
  destruct (case_of_window _ _ _ _ _ _ Hw Hcase) as (_ & _ & _ & H1 & H2 & H3).
  eexists _, _. split_and!; [|exact H3|exact H1|exact H2]. by apply bucket_floor_ok.
Qed.

#[local] Instance case_eq_dec : EqDecision Case.
Proof. solve_decision. Defined.

(** The counts of a derived case are those of its window. *)
Lemma cases_counted specs b b' s :
  prepare specs b = (b', Ok s) →
  NoDup (ds_service ∘ snd <$> specs) → dates_valid specs b' →
  Forall (λ c, c ∈ map empty_case specs ∨
    let rows := window_rows c (log_rows b') in
    c_records c = len rows ∧
    (∀ n, c_alerts c = Some n → n = len (filter (λ r, rid r ∈ (alert_rows b').*1) rows)))
    (sm_cases s).
Proof.
  intros H Hnd Hdv. apply Forall_forall. intros c Hc.
  destruct (decide (c ∈ map empty_case specs)) as [He|He]; [by left|right].
  destruct (case_origin _ _ _ _ _ H Hdv Hc He)
    as (xs1 & x & xs2 & key & Hx & [Hl Ha] & Hst & Hkey & Hcase).
  unfold log_rows, alert_rows. rewrite Hl, Ha. cbn [from_option id].
  refine (case_counts xs1 x xs2 key c _ Hst Hkey Hcase).
  rewrite <- Hx in Hnd. rewrite <- list_fmap_compose in Hnd. exact Hnd.
Qed.
End prepared.

(** ** The query answers as expected *)

Section answers.
Context {TD : TzDatabase}.
Variable urlretrieve : pystr → result (list Z).
Variable zip_lines : list Z → pystr → result (list (list Z)).
Variable zip_labels : list Z → result (list pystr).

Local Abbreviation prepare := (prepare urlretrieve zip_lines zip_labels).

(** C18. What the benchmark expects is what the source returns.  After a successful load,
    the number of records of every case the script derived is the number of rows the
    script's query selects over its window, and its number of alerts the number of those
    rows whose line was labelled; and when nothing is dated in the hour the script takes
    to be empty, the script's second half, which queries the source, passes its own
    assertions and reports a matching first page for every case. *)
Theorem cases_exact specs b b' s :
  prepare specs b = (b', Ok s) →
  NoDup (ds_service ∘ snd <$> specs) → dates_valid zip_lines specs b' →
  Forall (λ c, c ∈ map empty_case specs ∨
    let rows := window_rows c (log_rows b') in
    c_records c = len rows ∧
    (∀ n, c_alerts c = Some n → n = len (filter (λ r, rid r ∈ (alert_rows b').*1) rows)))
    (sm_cases s) ∧
  ((∀ x, x ∈ specs → window_rows (empty_case x) (log_rows b') = []) →
   source b' = (b', Ok (source_case b' <$> sm_cases s))).
Proof.
  intros H Hnd Hdv.
  pose proof (cases_counted _ _ _ _ _ _ _ H Hnd Hdv) as Hex. split; [exact Hex|].
  intros Hempty. destruct (prepare_ok _ _ _ _ _ _ _ H) as (_ & _ & _ & _ & _ & _ & _ & _ & Hi & _).
  unfold source. unfold mbind, M_bind, get. rewrite Hi.
  assert (forallb sr_expected_page_matches (source_case b' <$> sm_cases s) = true) as ->; [|done].
  apply forallb_forall. intros r Hr. apply list_elem_of_In, list_elem_of_fmap in Hr as (c & -> & Hc).
  cbn [source_case sr_expected_page_matches]. apply Z.eqb_eq.
  assert (c_records c = len (window_rows c (log_rows b'))) as ->.
  { rewrite Forall_forall in Hex. destruct (Hex c Hc) as [Hc'|[Hc' _]]; [|exact Hc'].
    apply list_elem_of_fmap in Hc' as (x & -> & Hx). by rewrite Hempty. }
  unfold len. rewrite !length_take, (Permutation_length (sort_by_perm _ _)). lia.
Qed.
End answers.

(** ** The labels stay outside *)

(** A word without spaces or line ends, in ASCII. *)
Definition word (a : list Z) : Prop := Forall (λ c, 33 ≤ c < 127) a.

(** Two lines of BGL that differ at most in their first field, the label. *)
Definition relabelled (raw raw' : list Z) : Prop :=
  ∃ a a' rest, word a ∧ word a' ∧ raw = a ++ 32 :: rest ∧ raw' = a' ++ 32 :: rest.

Lemma utf8_strict_word a bs :
  word a → utf8_strict (a ++ 32 :: bs) = t ← utf8_strict bs; Ok (a ++ 32 :: t).
Proof.
  intros Ha.
  assert (utf8_read (a ++ 32 :: bs) = t ← utf8_read bs; Ok (a ++ 32 :: t)) as Hr.
  { induction Ha as [|c a Hc _ IH].
    - cbn [app utf8_read Z.ltb Z.compare Pos.compare Pos.compare_cont]. by destruct (utf8_read bs).
    - cbn [app utf8_read]. rewrite (proj2 (Z.ltb_lt c 128)), IH by lia.
      by destruct (utf8_read bs). }
  unfold utf8_strict. rewrite Hr. destruct (utf8_read bs) as [t|e]; [|done].
  cbn [mbind result_bind]. rewrite forallb_app.
  assert (forallb is_scalar a = true) as ->.
  { apply forallb_forall. intros c Hc%list_elem_of_In. unfold word in Ha.
    rewrite Forall_forall in Ha. specialize (Ha c Hc). unfold is_scalar. lia. }
  cbn [andb forallb]. change (is_scalar 32) with true. cbn [andb].
  by destruct (forallb is_scalar t).
Qed.

Lemma rstrip_word a t : word a → rstrip_eol (a ++ 32 :: t) = a ++ 32 :: rstrip_eol t.
Proof.
  induction 1 as [|c a Hc _ IH]; cbn [app rstrip_eol].
  - by destruct (rstrip_eol t).
  - rewrite IH. by destruct a.
Qed.

Lemma break_word a t : word a → break_space (a ++ 32 :: t) = Some (a, t).
Proof.
  induction 1 as [|c a Hc _ IH]; cbn [app break_space]; [done|].
  rewrite (proj2 (Z.eqb_neq c 32)), IH by lia. done.
Qed.

(** What the application sees of a line. *)
Definition visible (p q : Parsed) : Prop :=
  p_time p = p_time q ∧ p_level p = p_level q ∧ p_message p = p_message q.

Lemma relabelled_visible {TD : TzDatabase} raw raw' p q :
  relabelled raw raw' → line_parsed BGL raw p → line_parsed BGL raw' q → visible p q.
Proof.
  intros (a & a' & rest & Ha & Ha' & -> & ->) (t & Ht & Hp) (t' & Ht' & Hq).
  rewrite utf8_strict_word in Ht, Ht' by done.
  destruct (utf8_strict rest) as [w|e]; [|done]. injection Ht as <-. injection Ht' as <-.
  cbn [parse_line] in *. rewrite rstrip_word in Hp, Hq by done. unfold bgl_line in *.
  cbn [split_max] in *. rewrite break_word in Hp, Hq by done.
  set (fields := match break_space (rstrip_eol w) with Some _ => _ | None => _ end) in *.
  cbn [length nth] in *. destruct (_ <? _)%nat; [done|].
  destruct (epoch_iso _) as [e|]; [|done]. injection Hp as <-. injection Hq as <-. done.
Qed.

Lemma rows_from_visible name spec total n ps qs :
  Forall2 visible ps qs → rows_from name spec total n ps = rows_from name spec total n qs.
Proof.
  intros H. revert total n. induction H as [|p q ps qs (H1 & H2 & H3) _ IH]; intros total n; [done|].
  cbn [rows_from]. rewrite IH. f_equal. unfold row_of, payload_of. by rewrite H1, H2, H3.
Qed.

Lemma all_rows_visible total xs ys :
  Forall2 (λ x y, x.1 = y.1 ∧ Forall2 visible x.2 y.2) xs ys →
  all_rows total xs = all_rows total ys.
Proof.
  intros H. revert total. induction H as [|x y xs ys [Hxy Hv] _ IH]; intros total; [done|].
  cbn [all_rows]. rewrite IH, Hxy, (rows_from_visible _ _ _ _ _ _ Hv).
  unfold len. by rewrite (Forall2_length _ _ _ Hv).
Qed.

Section labels.
Context {TD : TzDatabase}.
Variable urlretrieve : pystr → result (list Z).
Variables zip_lines zip_lines' : list Z → pystr → result (list (list Z)).
Variables zip_labels zip_labels' : list Z → result (list pystr).

(** Two ways to label the same archives: the lines of BGL may differ in their label. *)
Definition relabels (specs : list (dataset * DataSpec)) : Prop :=
  ∀ x content lines lines', x ∈ specs →
    zip_lines content (ds_member x.2) = Ok lines →
    zip_lines' content (ds_member x.2) = Ok lines' →
    Forall2 (match x.1 with BGL => relabelled | HDFS => eq end) lines lines'.

Lemma facts_visible b b' x y c c' m m' specs :
  relabels specs → x.1 ∈ specs → x.1 = y.1 → downloads b = downloads b' →
  dataset_facts zip_lines b x c m → dataset_facts zip_lines' b' y c' m' →
  Forall2 visible x.2 y.2.
Proof.
  intros Hr Hx Hxy Hd [(lines & Hl & Hp) _ _ _] [(lines' & Hl' & Hp') _ _ _].
  unfold archive_of in Hl, Hl'. rewrite <- Hd, <- Hxy in Hl'. rewrite <- Hxy in Hp'.
  specialize (Hr _ _ _ _ Hx Hl Hl'). apply Forall2_flip in Hp.
  apply Forall2_same_length_lookup_2.
  { etrans; [by eapply Forall2_length|]. etrans; [by eapply Forall2_length|].
    by eapply Forall2_length. }
  intros i p q Hi Hj.
  destruct (Forall2_lookup_l _ _ _ _ _ Hp Hi) as (raw & Hraw & Hpp).
  destruct (Forall2_lookup_r _ _ _ _ _ Hp' Hj) as (raw' & Hraw' & Hqq).
  pose proof (Forall2_lookup_lr _ _ _ _ _ _ Hr Hraw Hraw') as Hrel.
  destruct x as [[[] spec] ps]; cbn [fst snd] in *.
  - by eapply relabelled_visible.
  - subst raw'. destruct Hpp as (t & Ht & Hpp), Hqq as (t' & Ht' & Hqq).
    assert (p = q) as ->; [congruence|done].
Qed.

(** Data set labels are held outside the application's logs: two successful loads of
    archives that differ in nothing but the labels of BGL's lines leave the same table of
    logs, whatever windows the labels made the script choose. *)
Theorem labels_held_outside specs b b1 b2 s1 s2 :
  prepare urlretrieve zip_lines zip_labels specs b = (b1, Ok s1) →
  prepare urlretrieve zip_lines' zip_labels' specs b = (b2, Ok s2) →
  relabels specs → logs b1 = logs b2.
Proof.
  intros H1 H2 Hr.
  destruct (prepare_ok _ _ _ _ _ _ _ H1) as (xs & cs & ms & Hx & Hf & [Hl _] & _ & _ & _ & Hd).
  destruct (prepare_ok _ _ _ _ _ _ _ H2) as (ys & cs' & ms' & Hy & Hf' & [Hl' _] & _ & _ & _ & Hd').
  rewrite Hl, Hl'. f_equal. apply all_rows_visible.
  assert (length xs = length ys) as Hlen.
  { apply (f_equal length) in Hx, Hy. rewrite length_fmap in Hx, Hy. congruence. }
  apply Forall2_same_length_lookup_2; [done|]. intros i x y Hi Hj.
  destruct (Forall3_lookup_l _ _ _ _ _ _ Hf Hi) as (c & m & _ & _ & Hfx).
  destruct (Forall3_lookup_l _ _ _ _ _ _ Hf' Hj) as (c' & m' & _ & _ & Hfy).
  assert (x.1 = y.1) as Hxy.
  { apply (f_equal (lookup i)) in Hx, Hy. rewrite list_lookup_fmap, Hi in Hx.
    rewrite list_lookup_fmap, Hj in Hy. cbn in Hx, Hy. congruence. }
  split; [done|]. eapply facts_visible; [exact Hr| |exact Hxy| |exact Hfx|exact Hfy].
  - rewrite <- Hx. by apply list_elem_of_fmap_2, list_elem_of_lookup_2 with i.
  - congruence.
Qed.
End labels.
