(* ===== verification/IngestPages.v ===== *)
(** * Reading the loaded logs back

    The loader composed with the log store: the payload the loader writes is the JSON the
    log store parses, the loaded table satisfies what complete paging asks of a table, and
    so following the log store's cursors over a case of the benchmark delivers exactly the
    records the case expects. *)
From S2P Require Import Prelude.
From S2P Require Import PyStr.
From S2P Require Import Json.
From S2P Require Import JsonParse.
From S2P Require Import PyTime.
From S2P Require Import IsoTime.
From S2P Require Import LogStore.
From S2P Require Import Paging.
From S2P Require Import Ingest.
From S2P Require Import IngestSpec.

(** ** Compact JSON *)

Section compact.
Context {JR : JsonRuntime}.

Definition compact_pair (kv : pystr * json) : pystr :=
  dump_str true kv.1 ++ 58 :: dumps true false kv.2.

(** Objects without blanks are read back like those with blanks. *)
Lemma scan_pairs_compact l :
  l ≠ [] → Forall (λ kv, plain kv.2) l →
  forallb (λ kv, forallb is_scalar kv.1) l = true → ∀ n acc rest,
  NoDup (keys (acc ++ l)) →
  (2 * length (join [44%Z] (map compact_pair l)) + 2 ≤ n)%nat →
  scan_pairs n acc (join [44] (map compact_pair l) ++ 125 :: rest) = Ok (JObj (acc ++ l), rest).
Proof.
  intros Hne. induction l as [|[k v] l IH]; [done|]. clear Hne.
  intros Hp Hk n acc rest Hnd Hn. inversion_clear Hp as [|? ? Hpv Hpl]. cbn [snd] in Hpv.
  cbn [forallb fst] in Hk. apply andb_true_iff in Hk as [Hk Hkl].
  assert (assoc_set k v acc = acc ++ [(k, v)]) as Hset.
  { apply assoc_set_fresh. unfold keys in *. rewrite fmap_app in Hnd.
    apply NoDup_app in Hnd as (_ & Hd & _). intros H. apply (Hd k H), list_elem_of_here. }
  destruct n as [|n]; [lia|]. set (tail := join [44] (map compact_pair l)) in *.
  assert (join [44] (map compact_pair ((k, v) :: l))
          = compact_pair (k, v) ++ match l with [] => [] | _ => 44 :: tail end) as Hj.
  { destruct l; cbn [map join]; [by rewrite app_nil_r|done]. }
  rewrite Hj in *. rewrite length_app in Hn. unfold compact_pair in *. cbn [fst snd] in *.
  unfold dump_str in *. rewrite !length_app in Hn. cbn [length app] in *.
  cbn [scan_pairs Z.eqb Pos.eqb negb]. rewrite <- !app_assoc. cbn [app].
  rewrite scan_str_dump by done. cbn [app skip_ws].
  change (is_ws 58) with false. cbn iota. cbn [Z.eqb Pos.eqb negb].
  pose proof (scan_dump true v Hpv) as Hv.
  rewrite skip_ws_head by by apply dump_head.
  destruct l as [|[k' v'] l].
  - rewrite Hv by (done || lia). cbn [app skip_ws]. change (is_ws 125) with false.
    cbn iota. cbn [Z.eqb Pos.eqb]. by rewrite Hset.
  - rewrite Hv by (done || lia). cbn [app skip_ws]. change (is_ws 44) with false.
    cbn iota. cbn [Z.eqb Pos.eqb]. rewrite Hset.
    assert (skip_ws (tail ++ 125 :: rest) = tail ++ 125 :: rest) as ->.
    { apply skip_ws_head. unfold tail, compact_pair, dump_str. cbn [map join fst].
      destruct l; cbn [map]; eexists _, _; (split; [reflexivity|done]). }
    rewrite IH; [by rewrite <- app_assoc|done|done|done| |cbn [length] in Hn; lia].
    by rewrite <- app_assoc.
Qed.

Lemma loads_compact kvs : kvs ≠ [] → plain (JObj kvs) → loads (dumps_compact kvs) = Ok (JObj kvs).
Proof.
  intros Hne (Hnd & Hk & Hv)%plain_obj. unfold dumps_compact, loads.
  change (startswith [65279] (123 :: _)) with false. cbn iota. cbn [skip_ws].
  change (is_ws 123) with false. cbn iota zeta.
  pose proof (scan_pairs_compact kvs Hne Hv Hk) as Hs. unfold compact_pair in Hs.
  set (text := join [44] (map _ kvs)) in *.
  assert (∃ t, text = 34 :: t) as [t Ht].
  { unfold text, dump_str. destruct kvs as [|kv kvs]; [done|]. destruct kvs; cbn [map join app]; eauto. }
  unfold scan_fuel. cbn [length]. rewrite length_app. cbn [length].
  replace (2 * S (length text + 1) + 2)%nat with (S (2 * length text + 5)) by lia.
  cbn [scan Z.eqb Pos.eqb]. rewrite Ht at 1. cbn [app skip_ws].
  change (is_ws 34) with false. cbn iota. cbn [Z.eqb Pos.eqb]. 
  change (34 :: t ++ [125]) with ((34 :: t) ++ [125]). rewrite <- Ht.
  rewrite Hs by (done || lia). done.
Qed.
End compact.

(** ** The loaded rows are well formed *)

Lemma elem_of_rows_from name spec total n ps r :
  r ∈ rows_from name spec total n ps →
  ∃ i p, ps !! i = Some p ∧
    r = row_of name spec (total + 1 + Z.of_nat i) (n + 1 + Z.of_nat i) p.
Proof.
  revert total n. induction ps as [|p ps IH]; intros total n; cbn [rows_from].
  { by intros ?%not_elem_of_nil. }
  intros [->|H]%elem_of_cons.
  - exists O, p. by rewrite !Z.add_0_r.
  - destruct (IH _ _ H) as (i & q & Hi & ->). exists (S i), q. split; [done|].
    f_equal; lia.
Qed.

Lemma elem_of_all_rows total xs r :
  r ∈ all_rows total xs →
  ∃ x t i p, x ∈ xs ∧ x.2 !! i = Some p ∧ r = row_of x.1.1 x.1.2 t (1 + Z.of_nat i) p.
Proof.
  revert total. induction xs as [|x xs IH]; intros total; cbn [all_rows].
  { by intros ?%not_elem_of_nil. }
  intros [H|H]%elem_of_app.
  - apply elem_of_rows_from in H as (i & p & Hi & ->). rewrite Z.add_0_l.
    eexists x, _, i, p. split; [apply list_elem_of_here|done].
  - destruct (IH _ H) as (y & t & i & p & Hy & H'). exists y, t, i, p.
    split; [by apply list_elem_of_further|done].
Qed.

(** *** Text *)

Definition text_ok (s : pystr) : Prop := forallb is_scalar s = true.

Lemma text_ok_cons c s : text_ok (c :: s) ↔ is_scalar c = true ∧ text_ok s.
Proof. unfold text_ok. cbn. by rewrite andb_true_iff. Qed.

Lemma break_space_ok s a b : text_ok s → break_space s = Some (a, b) → text_ok a ∧ text_ok b.
Proof.
  revert a b. induction s as [|c s IH]; intros a b; [done|]. rewrite text_ok_cons.
  intros [Hc Hs]. cbn [break_space]. destruct (c =? 32); [by intros [= <- <-]|].
  destruct (break_space s) as [[a' b']|]; [|done]. cbn. intros [= <- <-].
  rewrite text_ok_cons. destruct (IH a' b'); auto.
Qed.

Lemma split_max_ok n s k : text_ok s → text_ok (nth k (split_max n s) []).
Proof.
  revert s k. induction n as [|n IH]; intros s k Hs; cbn [split_max].
  - by destruct k as [|[|k]].
  - destruct (break_space s) as [[a b]|] eqn:Hb; [|by destruct k as [|[|k]]].
    destruct (break_space_ok _ _ _ Hs Hb). destruct k as [|k]; cbn [nth]; auto.
Qed.

Lemma rstrip_eol_ok s : text_ok s → text_ok (rstrip_eol s).
Proof.
  induction s as [|c s IH]; [done|]. rewrite text_ok_cons. intros [Hc Hs]. cbn [rstrip_eol].
  specialize (IH Hs). destruct (rstrip_eol s).
  - destruct (_ || _); [done|]. by rewrite text_ok_cons.
  - by rewrite text_ok_cons.
Qed.

Lemma line_texts {TD : TzDatabase} name raw p :
  line_parsed name raw p → text_ok (p_level p) ∧ text_ok (p_message p).
Proof.
  intros (text & Ht & H). unfold utf8_strict in Ht. apply bind_ok in Ht as (s & _ & Ht).
  destruct (forallb is_scalar s) eqn:Hs; [|done]. injection Ht as ->.
  apply (rstrip_eol_ok text) in Hs. set (line := rstrip_eol text) in *. clearbody line.
  destruct name; cbn [parse_line] in H.
  - unfold bgl_line in H. destruct (_ <? _)%nat; [done|].
    apply bind_ok in H as (t & _ & H). injection H as <-.
    split; [by apply (split_max_ok 9 line 8)|by apply (split_max_ok 1 line 1)].
  - unfold hdfs_line in H. destruct (_ || _); [done|]. injection H as <-.
    split; [by apply (split_max_ok 5 line 3)|done].
Qed.

(** The log store reads back what the loader wrote. *)
Lemma loads_payload {JR : JsonRuntime} name n p :
  1 ≤ n < 2 ^ 63 → text_ok (p_level p) → text_ok (p_message p) →
  loads (dumps_compact (payload_of name n p)) = Ok (JObj (payload_of name n p)).
Proof.
  intros Hn Hl Hm. apply loads_compact; [done|]. apply plain_obj_iff. split_and!.
  - change (keys (payload_of name n p))
      with (u <$> ["service_name"; "level"; "message"; "dataset"; "original_line"]%string).
    apply (bool_decide_unpack _). by vm_compute.
  - by vm_compute.
  - repeat constructor; cbn [snd plain]; try done; try (by destruct name; vm_compute).
    by apply id_ok.
Qed.

(** *** Levels *)

Lemma ticks_positive l c :
  Forall (λ kv, 1 ≤ kv.2) c → Forall (λ kv, 1 ≤ kv.2) (ticks l c).
Proof.
  revert c. induction l as [|k l IH]; intros c Hc; [done|]. apply IH. clear IH l.
  assert (0 ≤ count_in c k) as H0.
  { unfold count_in. destruct (assoc k c) as [v|] eqn:Ha; [|done].
    apply assoc_elem_of in Ha. rewrite Forall_forall in Hc. specialize (Hc _ Ha). cbn in *. lia. }
  unfold tick. generalize (count_in c k) H0. intros v Hv. clear H0.
  induction Hc as [|[k' v'] c Hkv Hc IH]; cbn [assoc_set].
  - repeat constructor. cbn. lia.
  - destruct (str_eqb k k'); constructor; cbn [snd] in *; try lia; done.
Qed.

Lemma total_zero (l : list (pystr * Z)) :
  Forall (λ kv, 1 ≤ kv.2) l → total_of (snd <$> l) = 0 → l = [].
Proof.
  intros Hl. assert (0 ≤ total_of (snd <$> l) ∧ (l ≠ [] → 1 ≤ total_of (snd <$> l))) as [H1 H2].
  { induction Hl as [|kv l Hkv _ [IH1 IH2]]; [done|]. unfold total_of in *. cbn. split; lia. }
  intros H. destruct l; [done|]. specialize (H2 ltac:(done)). lia.
Qed.

(** A manifest without nonstandard levels has none among its rows. *)
Lemma levels_standard ps p :
  total_of (snd <$> filter (λ kv, mem kv.1 standard_levels = false) (ticks (p_level <$> ps) [])) = 0 →
  p ∈ ps → p_level p ∈ standard_levels.
Proof.
  intros H%total_zero Hp.
  2: { apply Forall_forall. intros kv [_ Hkv]%list_elem_of_filter. revert kv Hkv.
       apply Forall_forall, ticks_positive. constructor. }
  destruct (mem (p_level p) standard_levels) eqn:Hm; [by apply mem_elem_of|exfalso].
  assert (p_level p ∈ keys (ticks (p_level <$> ps) [])) as Hk.
  { apply elem_of_keys_ticks. left. by apply list_elem_of_fmap_2. }
  apply list_elem_of_fmap in Hk as (kv & Hkv & Hin).
  assert (kv ∈ filter (λ kv, mem kv.1 standard_levels = false) (ticks (p_level <$> ps) [])) as Hf.
  { apply list_elem_of_filter. by rewrite <- Hkv. }
  rewrite H in Hf. by apply not_elem_of_nil in Hf.
Qed.

Lemma standard_known l : l ∈ standard_levels → l ∈ known_levels.
Proof.
  assert (forallb (λ l, mem l known_levels) standard_levels = true) as H by by vm_compute.
  intros Hl%list_elem_of_In. apply mem_elem_of. exact (proj1 (forallb_forall _ _) H l Hl).
Qed.

(** *** Times *)

Lemma stamped_ok {TD : TzDatabase} t :
  stamped t → forallb is_scalar t = true ∧ len (dump_str true t) ≤ 64.
Proof.
  intros (w & _ & Hw & ->). pose proof (text_length w Hw) as Hl.
  assert (∀ c, c ∈ text_at w → is_scalar c = true ∧ escape_char true c = [c]) as Hc.
  { intros c Hc%text_chars. unfold is_scalar, escape_char. split; [lia|].
    repeat match goal with |- context [?a =? ?b] => rewrite (proj2 (Z.eqb_neq a b)) by lia end.
    repeat match goal with |- context [?a <? ?b] =>
      first [rewrite (proj2 (Z.ltb_ge a b)) by lia|rewrite (proj2 (Z.ltb_lt a b)) by lia] end.
    repeat match goal with |- context [?a <=? ?b] =>
      first [rewrite (proj2 (Z.leb_le a b)) by lia|rewrite (proj2 (Z.leb_gt a b)) by lia] end.
    done. }
  split; [apply forallb_forall; intros c Hin%list_elem_of_In; by apply Hc|].
  assert (concat (escape_char true <$> text_at w) = text_at w) as He.
  { induction (text_at w) as [|c s IH] in Hc |- *; [done|]. cbn.
    destruct (Hc c (list_elem_of_here _ _)) as [_ ->]. cbn. f_equal. apply IH.
    intros d Hd. by apply Hc, list_elem_of_further. }
  unfold dump_str, len. cbn [length]. rewrite length_app, He, Hl. cbn. lia.
Qed.

(** ** Following the cursors over a case *)

(** What SQLite's level expression computes on a payload with a standard level. *)
Definition level_law {JR : JsonRuntime} (level_of : pystr → pystr) : Prop :=
  ∀ payload kvs l, loads payload = Ok (JObj kvs) → assoc (u "level") kvs = Some (JStr l) →
    l ∈ standard_levels → level_of payload = l.

(** The sizes the script demands fit SQLite's row numbers. *)
Definition sizes_ok (specs : list (dataset * DataSpec)) : Prop :=
  Forall (λ x, 0 ≤ ds_lines x.2) specs ∧ total_of (ds_lines ∘ snd <$> specs) < 2 ^ 63.

Lemma specs_sizes : sizes_ok SPECS.
Proof. split; [repeat constructor; by vm_compute|by vm_compute]. Qed.

Section readback.
Context {JR : JsonRuntime} {TD : TzDatabase} {UT : UnicodeTables}.
Variable urlretrieve : pystr → result (list Z).
Variable zip_lines : list Z → pystr → result (list (list Z)).
Variable zip_labels : list Z → result (list pystr).

Local Abbreviation prepare := (prepare urlretrieve zip_lines zip_labels).

Lemma lines_bounded b xs css ms :
  Forall3 (dataset_facts zip_lines b) xs css ms →
  Forall (λ x : (dataset * DataSpec), 0 ≤ ds_lines x.2) xs.*1 →
  len (concat xs.*2) ≤ total_of (ds_lines ∘ snd <$> xs.*1) ∧
  ∀ x, x ∈ xs → len x.2 ≤ total_of (ds_lines ∘ snd <$> xs.*1).
Proof.
  induction 1 as [|x c m xs css ms [_ Hn _ _] _ IH]; intros Hpos.
  { split; [done|]. by intros ? ?%not_elem_of_nil. }
  inversion_clear Hpos as [|? ? Hx Hxs]. destruct (IH Hxs) as [IH1 IH2].
  assert (len x.2 ≤ ds_lines x.1.2).
  { destruct x.2; [done|]. rewrite <- Hn; done. }
  assert (0 ≤ total_of (ds_lines ∘ snd <$> xs.*1)) by (unfold len in IH1; lia).
  unfold total_of in *. cbn [fmap list_fmap concat foldr compose]. cbn [fmap list_fmap] in *.
  split.
  - unfold len in *. rewrite length_app. lia.
  - intros y [->|Hy]%elem_of_cons; [lia|]. specialize (IH2 y Hy). unfold compose in *. lia.
Qed.

Lemma facts_of b xs css ms x :
  Forall3 (dataset_facts zip_lines b) xs css ms → x ∈ xs →
  ∃ c m, m ∈ ms ∧ dataset_facts zip_lines b x c m.
Proof.
  intros Hf [i Hi]%list_elem_of_lookup.
  destruct (Forall3_lookup_l _ _ _ _ _ _ Hf Hi) as (c & m & _ & Hm & H).
  exists c, m. split; [by eapply list_elem_of_lookup_2|done].
Qed.

Section loaded.
Variables (level_of : pystr → pystr) (specs : list (dataset * DataSpec)) (b b' : Bench).
Variable s : Summary.
Hypothesis run : prepare specs b = (b', Ok s).
Hypothesis sizes : sizes_ok specs.
Hypothesis dates : dates_valid zip_lines specs b'.
Hypothesis levels : level_law level_of.
Hypothesis standard : Forall (λ m, mf_nonstandard_level_rows m.2 = 0) (sm_datasets s).

(** The loaded table is what complete paging asks for. *)
Lemma loaded_table :
  NoDup (rid <$> log_rows b') ∧ Forall (row_good level_of) (log_rows b') ∧
  Forall payload_good (log_rows b').
Proof.
  destruct (prepare_ok _ _ _ _ _ _ _ run) as (xs & css & ms & Hx & Hf & [Hl _] & _ & Hms & _).
  unfold log_rows. rewrite Hl. cbn [from_option id].
  destruct sizes as [Hpos Hsize]. rewrite <- Hx in Hpos, Hsize.
  destruct (lines_bounded _ _ _ _ Hf Hpos) as [Hlen Hlens].
  split; [rewrite all_rows_ids; apply NoDup_seqZ|].
  rewrite <- Forall_and. apply Forall_forall. intros r Hr.
  assert (rid r ∈ seqZ (0 + 1) (len (concat xs.*2))) as Hid
    by (rewrite <- all_rows_ids; by apply list_elem_of_fmap_2).
  apply elem_of_seqZ in Hid.
  destruct (elem_of_all_rows _ _ _ Hr) as (x & t & i & p & Hxin & Hi & Heq).
  destruct (facts_of _ _ _ _ _ Hf Hxin) as (c & m & Hm & Hfacts).
  assert (x.1 ∈ specs) as Hxs by (rewrite <- Hx; by apply list_elem_of_fmap_2).
  pose proof (dataset_stamped _ _ _ _ _ _ dates Hxs Hfacts) as Hst.
  pose proof (list_elem_of_lookup_2 _ _ _ Hi) as Hp.
  rewrite Forall_forall in Hst. destruct (Hst p Hp) as [Hst' _].
  apply stamped_ok in Hst' as [Hs1 Hs2].
  destruct Hfacts as [(lines & _ & Hlines) _ _ Hlev].
  destruct (Forall2_lookup_r _ _ _ _ _ Hlines Hi) as (raw & _ & Hraw).
  destruct (line_texts _ _ _ Hraw) as [Ht1 Ht2].
  assert (p_level p ∈ standard_levels) as Hstd.
  { eapply levels_standard; [|exact Hp]. rewrite <- Hlev. rewrite Hms in standard.
    by apply (proj1 (Forall_forall _ _) standard m). }
  pose proof (lookup_lt_Some _ _ _ Hi) as Hlt. specialize (Hlens x Hxin). unfold len in Hlens.
  pose proof (loads_payload x.1.1 (1 + Z.of_nat i) p ltac:(lia) Ht1 Ht2) as Hpay.
  split.
  - rewrite Heq in *. cbn [row_of rid] in Hid. split; [cbn [row_of rid]; lia|].
    cbn [row_of rtime rpayload]. split_and!; [done|done|].
    rewrite (levels _ _ _ Hpay eq_refl Hstd). by apply standard_known.
  - rewrite Heq. exists (payload_of x.1.1 (1 + Z.of_nat i) p), (p_message p). split; [exact Hpay|done].
Qed.
End loaded.

Definition all_spec : json := JObj [(u "mode", js "all")].
Definition case_scope (c : Case) : LogScope :=
  {| log_service := c_service c; log_start := c_start c; log_end := c_end c |}.

Lemma canonical_text w : wall_ok w → canonical (text_at w) = Ok (text_at w).
Proof.
  intros Hw. unfold canonical. rewrite replace1_none by apply text_no_Z.
  rewrite fromisoformat_text by done. done.
Qed.

(** The loader, the log store and its cursors agree: after a successful load whose
    manifests count no nonstandard level, asking the log store for everything in the
    window of a derived case and following its cursors ends, loses and repeats nothing,
    and delivers as many records as the case expects. *)
Theorem cases_read_back repr level_of fts specs b b' s c limit :
  prepare specs b = (b', Ok s) → sizes_ok specs →
  NoDup (ds_service ∘ snd <$> specs) → dates_valid zip_lines specs b' →
  Forall (λ m, mf_nonstandard_level_rows m.2 = 0) (sm_datasets s) →
  level_law level_of → c ∈ sm_cases s → c ∉ map empty_case specs →
  ∃ pgs,
    pages repr level_of fts (log_rows b') (case_scope c) all_spec limit
      (length (log_rows b') + 2) JNull = Ok pgs ∧
    (concat pgs).*1 ≡ₚ window_rows c (log_rows b') ∧ len (concat pgs) = c_records c.
Proof.
  intros H Hsz Hnd Hdv Hstd Hlaw Hc Hne.
  destruct (loaded_table level_of _ _ _ _ H Hsz Hdv Hlaw Hstd) as (Hids & Hgood & Hpay).
  pose proof (cases_counted _ _ _ _ _ _ _ H Hnd Hdv) as Hex. rewrite Forall_forall in Hex.
  destruct (Hex c Hc) as [?|[Hrec _]]; [done|].
  destruct (case_texts _ _ _ _ _ _ _ _ H Hdv Hc Hne) as (w & v & Hw & Hv & Hs & He).
  assert (canonical (c_start c) = Ok (c_start c)) as Hcs by (rewrite Hs; by apply canonical_text).
  assert (canonical (c_end c) = Ok (c_end c)) as Hce by (rewrite He; by apply canonical_text).
  destruct (pages_complete repr level_of fts (log_rows b') (case_scope c) all_spec limit
    {| s_mode := u "all"; s_terms := []; s_levels := [] |} (c_start c) (c_end c))
    as (pgs & Hp & Hperm); try done; [constructor|].
  assert (sel_rows (select level_of fts (log_rows b') (c_service c) (c_start c) (c_end c)
            {| s_mode := u "all"; s_terms := []; s_levels := [] |})
          = window_rows c (log_rows b')) as Hsel.
  { unfold select, window_rows. cbn [s_mode s_terms s_levels sel_rows].
    change (str_eqb (u "all") (u "anomalies")) with false. cbn [andb].
    apply filter_ext_in. intros r Hr. unfold in_scope.
    rewrite Forall_forall in Hgood. destruct (Hgood r Hr) as [Hid _].
    rewrite (proj2 (Z.ltb_lt 0 (rid r))) by lia. done. }
  cbn [log_service case_scope] in Hperm. rewrite Hsel in Hperm.
  exists pgs. split; [exact Hp|]. split; [exact Hperm|].
  rewrite Hrec. unfold len. rewrite <- (Permutation_length Hperm). by rewrite length_fmap.
Qed.
End readback.
