(* ===== verification/IngestCases.v ===== *)
(** * A small load

    Two archives of a few lines, loaded by the script: concrete runs and the witnesses of
    the theorems about the loader. *)
From S2P Require Import Prelude.
From S2P Require Import PyStr.
From S2P Require Import Json.
From S2P Require Import JsonParse.
From S2P Require Import Digests.
From S2P Require Import PyTime.
From S2P Require Import IsoTime.
From S2P Require Import LogStore.
From S2P Require Import Paging.
From S2P Require Import Ingest.
From S2P Require Import IngestSpec.
From S2P Require Import IngestPages.

#[local] Existing Instances UtcOnly AsciiCjk PlainJson.

Definition small_spec (file member service : string) (n : Z) : DataSpec :=
  let url := u "https://zenodo.org/records/8196385/files/" ++ u file ++ u "?download=1" in
  {| ds_file := u file; ds_member := u member; ds_md5 := md5_hex (utf8 url); ds_lines := n;
     ds_service := u service |}.

Definition small_specs : list (dataset * DataSpec) :=
  [(BGL, small_spec "BGL.zip" "BGL.log" "svc-17" 3);
   (HDFS, small_spec "HDFS_v1.zip" "HDFS.log" "svc-23" 2)].

(** The server answers with the address itself, and the archives hold these lines. *)
Definition small_fetch (url : pystr) : result (list Z) := Ok (utf8 url).

Definition bgl_lines (label : string) : list (list Z) :=
  [utf8 (u (label ++ " 1117838570 2005.06.03 N1 T N1 RAS KERNEL INFO cache parity corrected")%string)
     ++ [10];
   utf8 (u "KERNDTLB 1117838573 2005.06.03 N1 T N1 RAS KERNEL FATAL data TLB error") ++ [13; 10];
   utf8 (u "- 1117924970 2005.06.04 N2 T N2 RAS KERNEL INFO") ++ [10]].
Definition hdfs_lines : list (list Z) :=
  [utf8 (u "081109 203615 148 INFO dfs.DataNode: Receiving block blk_1") ++ [10];
   utf8 (u "081109 203807 222 WARN dfs.DataNode: Got exception") ++ [10]].

Definition small_zip (label : string) (_ : list Z) (member : pystr) : result (list (list Z)) :=
  Ok (if str_eqb member (u "BGL.log") then bgl_lines label else hdfs_lines).
Definition small_labels (_ : list Z) : result (list pystr) := Ok (u <$> ["Normal"; "Anomaly"]%string).

Definition fresh : Bench :=
  {| downloads := []; logs := None; benchmark_alerts := None; ingestion := None |}.

Definition small_run (label : string) : Bench * result Summary :=
  prepare small_fetch (small_zip label) small_labels small_specs fresh.

(** The days of BGL and the hour of HDFS, each with its records and labelled records. *)
Example small_cases :
  match (small_run "-").2 with
  | Ok s => (λ c, (c_name c, c_end c, c_records c, c_alerts c)) <$> sm_cases s
  | Raise _ => []
  end
  = [(u "BGL:2005-06-03", u "2005-06-03T23:59:59+00:00", 2, Some 1);
     (u "BGL:2005-06-04", u "2005-06-04T23:59:59+00:00", 1, Some 0);
     (u "HDFS:2008-11-09T20", u "2008-11-09T20:59:59+00:00", 2, None);
     (u "BGL:empty", u "2020-01-01T00:59:59Z", 0, Some 0);
     (u "HDFS:empty", u "2020-01-01T00:59:59Z", 0, None)].
Proof. by vm_compute. Qed.

(** A second load refuses the volume and leaves it as it was. *)
Example small_refuses :
  let b := (small_run "-").1 in
  match prepare small_fetch (small_zip "-") small_labels small_specs b with
  | (b', Raise e) => bool_decide (logs b' = logs b) && bool_decide (exn_cls e = RuntimeError)
  | _ => false
  end = true.
Proof. by vm_compute. Qed.

(** ** Witnesses *)

Definition stamp_check (t : pystr) : bool :=
  match IsoTime.fromisoformat t with
  | Ok d => (0 <=? wall d) && (wall d <=? max_wall) && (wall d mod sec =? 0)
            && str_eqb t (text_at (wall d))
  | Raise _ => false
  end.

Lemma stamp_check_ok t : stamp_check t = true → stamped t.
Proof.
  unfold stamp_check. destruct (IsoTime.fromisoformat t) as [d|]; [|done].
  rewrite !andb_true_iff, !Z.leb_le, Z.eqb_eq. unfold str_eqb. rewrite bool_decide_eq_true.
  intros [[[H1 H2] H3] H4]. by exists (wall d).
Qed.

Lemma small_dates label b : dates_valid (small_zip label) small_specs b.
Proof.
  intros spec lines raw p Hs Hl Hr (t & Ht & Hp).
  apply elem_of_cons in Hs as [[= ?]|Hs]. apply list_elem_of_singleton in Hs as [= ->].
  injection Hl as <-. apply stamp_check_ok.
  apply elem_of_cons in Hr as [->|Hr]; [|apply list_elem_of_singleton in Hr as ->].
  - vm_compute in Ht. injection Ht as <-. vm_compute in Hp. injection Hp as <-. by vm_compute.
  - vm_compute in Ht. injection Ht as <-. vm_compute in Hp. injection Hp as <-. by vm_compute.
Qed.

Lemma small_services : NoDup (ds_service ∘ snd <$> small_specs).
Proof. apply (bool_decide_unpack _). by vm_compute. Qed.

Definition small_summary (label : string) : Summary :=
  match (small_run label).2 with
  | Ok s => s
  | Raise _ => {| sm_datasets := []; sm_total_rows := 0; sm_cases := [] |}
  end.

Lemma small_ok label :
  is_ok (small_run label).2 = true →
  prepare small_fetch (small_zip label) small_labels small_specs fresh
  = ((small_run label).1, Ok (small_summary label)).
Proof.
  unfold small_summary. fold (small_run label). intros H.
  destruct (small_run label) as [b [s|e]]; done.
Qed.

Lemma cases_exact_witness :
  is_ok (small_run "-").2 = true ∧
  Forall (λ c, c ∈ map empty_case small_specs ∨
    let rows := window_rows c (log_rows (small_run "-").1) in
    c_records c = len rows ∧
    (∀ n, c_alerts c = Some n →
       n = len (filter (λ r, rid r ∈ (alert_rows (small_run "-").1).*1) rows)))
    (sm_cases (small_summary "-")) ∧
  source (small_run "-").1
    = ((small_run "-").1, Ok (source_case (small_run "-").1 <$> sm_cases (small_summary "-"))).
Proof.
  assert (is_ok (small_run "-").2 = true) as H by by vm_compute.
  split; [exact H|].
  destruct (cases_exact _ _ _ _ _ _ _ (small_ok "-" H) small_services (small_dates _ _))
    as [Hex Hsource].
  split; [exact Hex|]. apply Hsource. intros x Hx.
  apply elem_of_cons in Hx as [->|Hx]; [|apply list_elem_of_singleton in Hx as ->];
    by vm_compute.
Defined.

Lemma small_relabels : relabels (small_zip "-") (small_zip "APPREAD") small_specs.
Proof.
  intros x content lines lines' Hx Hl Hl'. injection Hl as <-. injection Hl' as <-.
  apply elem_of_cons in Hx as [->|Hx]; [|apply list_elem_of_singleton in Hx as ->].
  - change (Forall2 relabelled (bgl_lines "-") (bgl_lines "APPREAD")).
    assert (∀ a a' rest raw raw', forallb (λ c, (33 <=? c) && (c <? 127)) (a ++ a') = true →
              raw = a ++ 32 :: rest → raw' = a' ++ 32 :: rest → relabelled raw raw') as Hr.
    { intros a a' rest raw raw' Hw -> ->. rewrite forallb_app, andb_true_iff in Hw.
      exists a, a', rest. destruct Hw as [H1 H2].
      split_and!; try done; apply Forall_forall; intros c Hc%list_elem_of_In.
      - pose proof (proj1 (forallb_forall _ _) H1 c Hc). cbn in *. lia.
      - pose proof (proj1 (forallb_forall _ _) H2 c Hc). cbn in *. lia. }
    constructor; [|constructor; [|constructor; [|constructor]]].
    + by eapply (Hr (u "-") (u "APPREAD")); [vm_compute|vm_compute|vm_compute].
    + by eapply (Hr (u "KERNDTLB") (u "KERNDTLB")); [vm_compute|vm_compute|vm_compute].
    + by eapply (Hr (u "-") (u "-")); [vm_compute|vm_compute|vm_compute].
  - change (Forall2 eq hdfs_lines hdfs_lines). by apply Forall_Forall2_diag, Forall_true.
Qed.

(** Calling the first line an alert changes the alerts and not the logs. *)
Lemma labels_held_outside_witness :
  is_ok (small_run "-").2 = true ∧ is_ok (small_run "APPREAD").2 = true ∧
  bool_decide (alert_rows (small_run "-").1 = alert_rows (small_run "APPREAD").1) = false ∧
  logs (small_run "-").1 = logs (small_run "APPREAD").1.
Proof.
  assert (is_ok (small_run "-").2 = true) as H1 by by vm_compute.
  assert (is_ok (small_run "APPREAD").2 = true) as H2 by by vm_compute.
  split; [exact H1|]. split; [exact H2|]. split; [by vm_compute|].
  exact (labels_held_outside _ _ _ _ _ _ _ _ _ _ _ (small_ok "-" H1) (small_ok "APPREAD" H2)
           small_relabels).
Defined.

(** The level of a payload, as SQLite's expression gives it. *)
Lemma level_text_law : level_law level_text.
Proof.
  intros payload kvs l Hl Hlev Hstd. unfold level_text. rewrite Hl, Hlev.
  cbn [upper AsciiCjk].
  assert (forallb (λ l, str_eqb (ascii_upper_char <$> l) l) standard_levels = true) as H
    by by vm_compute.
  apply list_elem_of_In in Hstd. pose proof (proj1 (forallb_forall _ _) H l Hstd) as He.
  unfold str_eqb in He. by apply bool_decide_eq_true in He.
Qed.

Definition hdfs_case : Case :=
  match sm_cases (small_summary "-") with _ :: _ :: c :: _ => c | _ => empty_case
    (HDFS, small_spec "HDFS_v1.zip" "HDFS.log" "svc-23" 2) end.

Lemma cases_read_back_witness :
  ∃ pgs,
    pages (dumps false false) level_text no_match (log_rows (small_run "-").1)
      (case_scope hdfs_case) all_spec 1 (length (log_rows (small_run "-").1) + 2) JNull = Ok pgs ∧
    (concat pgs).*1 ≡ₚ window_rows hdfs_case (log_rows (small_run "-").1) ∧
    len (concat pgs) = 2.
Proof.
  assert (is_ok (small_run "-").2 = true) as H by by vm_compute.
  assert (c_records hdfs_case = 2) as Hc by by vm_compute.
  rewrite <- Hc.
  refine (cases_read_back _ _ _ _ _ _ _ _ _ _ _ _ (small_ok "-" H) _ small_services
            (small_dates _ _) _ level_text_law _ _).
  - split; [repeat constructor; by vm_compute|by vm_compute].
  - apply (bool_decide_unpack _). by vm_compute.
  - apply (list_elem_of_lookup_2 _ 2). by vm_compute.
  - intros Hin%(list_elem_of_fmap_2 c_name).
    apply mem_elem_of in Hin.
    assert (mem (c_name hdfs_case) (c_name <$> map empty_case small_specs) = false) as Hno
      by by vm_compute.
    congruence.
Defined.
