(* ===== verification/OpenApi.v ===== *)
(** * The published interface (scripts/contracts.py)

    The script that writes contracts/openapi.json: one call of [endpoint] per operation of
    the control plane, four corrections of what it wrote, and the document around them.
    Dictionaries keep the order of insertion.  The schema of [LogQuery] is pydantic's and
    is a parameter. *)
From S2P Require Import Prelude.
From S2P Require Import PyStr.
From S2P Require Import Json.

(** ** Dictionaries *)

(** [{**d, ...}]. *)
Definition extend (d : json) (kvs : list (string * json)) : json :=
  match d with
  | JObj l => JObj (foldl (λ acc kv, assoc_set (u kv.1) kv.2 acc) l kvs)
  | _ => d
  end.

Definition s_ : json := dict [("type", js "string")].
Definition n_ : json := dict [("type", js "integer")].

(** [obj(props, required)]: every property is required unless a list is given. *)
Definition obj (props : list (string * json)) (required : option (list string)) : json :=
  let required := match required with
                  | None | Some [] => fst <$> props
                  | Some l => l
                  end in
  dict [("type", js "object"); ("additionalProperties", JBool false);
        ("properties", dict props); ("required", JList (js <$> required))].

(** ** Operations *)

(** An operation object, the methods of a path, the paths. *)
Abbreviation operation := (list (pystr * json)) (only parsing).
Abbreviation paths_t := (list (pystr * list (pystr * list (pystr * json)))) (only parsing).

(** The text up to the next closing brace on the line, and what follows the brace. *)
Fixpoint to_brace (s : pystr) : option (pystr * pystr) :=
  match s with
  | [] => None
  | c :: s' => if c =? 125 then Some ([], s')
               else if c =? 10 then None
               else '(a, b) ← to_brace s'; Some (c :: a, b)
  end.

(** [re.findall(r"{(.*?)}", path)]. *)
Fixpoint findall_braces (fuel : nat) (s : pystr) : list pystr :=
  match fuel, s with
  | O, _ | _, [] => []
  | S fuel', c :: s' =>
      if c =? 123 then
        match to_brace s' with
        | Some (name, rest) => name :: findall_braces fuel' rest
        | None => findall_braces fuel' s'
        end
      else findall_braces fuel' s'
  end.
Definition path_names (path : pystr) : list pystr := findall_braces (length path) path.

Definition responses : json :=
  dict ((λ r, (r.1, dict [("description", js r.2)])) <$>
    [("200", "Success"); ("202", "Durably accepted"); ("400", "Invalid input");
     ("401", "Authentication required"); ("403", "Scope or role forbidden");
     ("409", "Version, lease or idempotency conflict"); ("429", "Quota exceeded")]%string).

Definition scheme (name : string) : json := JList [dict [(name, JList [])]].

Definition path_parameter (name : pystr) : json :=
  JObj [(u "name", JStr name); (u "in", js "path"); (u "required", JBool true);
        (u "schema", s_)].
Definition protocol_header : json :=
  dict [("name", js "X-Protocol-Version"); ("in", js "header"); ("required", JBool true);
        ("schema", extend s_ [("enum", JList [js "1"])])].
Definition idempotency_header : json :=
  dict [("name", js "Idempotency-Key"); ("in", js "header"); ("required", JBool true);
        ("schema", extend s_ [("maxLength", JInt 128)])].

(** The paths whose POST takes an idempotency key. *)
Definition keyed_paths : list pystr :=
  u <$> ["/api/v1/investigations"; "/api/v1/investigations/natural"; "/api/v1/queries";
         "/api/v1/conversations"; "/api/v1/conversations/{id}/turns"]%string.

Definition operation_of (path : pystr) (method summary : string) (body : option json)
    (internal : bool) : operation :=
  let params :=
    (path_parameter <$> path_names path)
    ++ (if internal then [protocol_header] else [])
    ++ (if mem path keyed_paths && str_eqb (u method) (u "post") then [idempotency_header] else []) in
  [(u "summary", js summary);
   (u "security", scheme (if internal then "WorkerKey" else "BearerAuth"));
   (u "responses", responses)]
  ++ match body with
     | Some b => [(u "requestBody", dict [("required", JBool true);
                    ("content", dict [("application/json", dict [("schema", b)])])])]
     | None => []
     end
  ++ match params with [] => [] | _ => [(u "parameters", JList params)] end.

Definition put_operation (path : pystr) (method : string) (op : operation) (paths : paths_t)
    : paths_t :=
  assoc_set path (assoc_set (u method) op (default [] (assoc path paths))) paths.

(** One statement of the script: it extends or corrects [paths]. *)
Abbreviation statement := (paths_t → result paths_t) (only parsing).

Definition endpoint (path method summary : string) (body : option json) (internal : bool)
    : statement := λ paths,
  Ok (put_operation (u path) method (operation_of (u path) method summary body internal) paths).

Definition no_key : exn := exn_of KeyError "KeyError".

(** [paths[path][method]]. *)
Definition find_operation (path method : string) (paths : paths_t) : result operation :=
  match assoc (u path) paths with
  | Some ms => match assoc (u method) ms with Some op => Ok op | None => Raise no_key end
  | None => Raise no_key
  end.

Definition set_key (k path method : string) (v : json) : statement := λ paths,
  op ← find_operation path method paths;
  Ok (put_operation (u path) method (assoc_set (u k) v op) paths).

Definition set_parameters (path method : string) (ps : list json) : statement :=
  set_key "parameters" path method (JList ps).
Definition set_security (path method name : string) : statement :=
  set_key "security" path method (scheme name).

(** [paths[path][method]["parameters"].append(p)]. *)
Definition append_parameter (path method : string) (p : json) : statement := λ paths,
  op ← find_operation path method paths;
  match assoc (u "parameters") op with
  | Some (JList ps) =>
      Ok (put_operation (u path) method (assoc_set (u "parameters") (JList (ps ++ [p])) op) paths)
  | Some _ => Raise attr_error
  | None => Raise no_key
  end.

(** ** The script *)

Section document.
(** [LogQuery.model_json_schema()]. *)
Variable log_query_schema : json.

Definition callback : json :=
  obj [("owner", s_); ("generation", n_); ("callback_id", s_); ("kind", s_);
       ("payload", dict [("type", js "object")]); ("status", s_);
       ("report", dict [("type", js "object")]); ("manifest", dict [("type", js "object")]);
       ("tool", s_);
       ("records", dict [("type", js "array"); ("items", dict [("type", js "object")]);
                         ("maxItems", JInt 1000)])]
    (Some ["owner"; "generation"]%string).

Definition statements : list statement :=
  [endpoint "/api/v1/investigations/natural" "post"
     "Interpret one sentence with Mistral; 200 clarification or 202 scoped investigation" (Some
     (obj [("text", extend s_ [("minLength", JInt 3); ("maxLength", JInt 4000)]); ("timezone",
     s_)] None)) false;
   endpoint "/api/v1/queries" "post"
     "Conversational assistant; answer, clarification or durable query job" (Some (obj [("text",
     extend s_ [("minLength", JInt 1); ("maxLength", JInt 2000)]); ("history", dict [("type", js
     "array"); ("maxItems", JInt 12); ("items", obj [("role", extend s_ [("enum", JList [js
     "user"; js "assistant"])]); ("content", extend s_ [("minLength", JInt 1); ("maxLength",
     JInt 2000)])] (Some ["role"; "content"]))]); ("timezone", s_); ("mode", extend s_ [("enum",
     JList [js "auto"; js "warehouse"; js "investigation"])])] (Some ["text"]))) false;
   endpoint "/api/v1/queries" "get"
     "Latest 50 owned business queries, filtered by current dataset access" None false;
   endpoint "/api/v1/queries/{id}" "get"
     "Persisted query progress, executed SQL, rows and errors" None false;
   endpoint "/api/v1/conversations" "post"
     "Idempotently create an owned persistent conversation" (Some (dict [("type", js "object");
     ("additionalProperties", JBool false)])) false;
   endpoint "/api/v1/conversations" "get"
     "Latest 50 owned conversations filtered by current source permissions" None false;
   set_parameters "/api/v1/conversations" "get"
     [dict [("name", js "offset"); ("in", js "query");
        ("schema", dict [("type", js "integer"); ("minimum", JInt 0); ("maximum", JInt 100000)])]];
   endpoint "/api/v1/conversations/{id}" "get"
     "Owned conversation with latest 50 turns; before sequence cursor loads earlier turns" None
     false;
   append_parameter "/api/v1/conversations/{id}" "get"
     (dict [("name", js "before"); ("in", js "query");
        ("schema", dict [("type", js "integer"); ("minimum", JInt 1)])]);
   endpoint "/api/v1/conversations/{id}/turns" "post"
     "Append using server-owned history, expected revision and idempotency key; replay is safe"
     (Some (obj [("text", extend s_ [("minLength", JInt 1); ("maxLength", JInt 2000)]); ("mode",
     extend s_ [("enum", JList [js "auto"; js "warehouse"; js "investigation"])]); ("timezone",
     s_); ("revision", extend n_ [("minimum", JInt 0)])] (Some ["text"; "revision"]))) false;
   endpoint "/api/v1/datasets" "get" "Enabled datasets visible to current team memberships" None
     false;
   endpoint "/api/v1/me" "get" "Current identity and memberships" None false;
   endpoint "/api/v1/services" "get" "Accessible services" None false;
   endpoint "/api/v1/investigations" "post" "Atomically create investigation and queue job"
     (Some (obj [("service", s_); ("symptom", extend s_ [("minLength", JInt 3); ("maxLength",
     JInt 4000)]); ("start", extend s_ [("format", js "date-time")]); ("end", extend s_
     [("format", js "date-time")]); ("timezone", s_); ("query", log_query_schema)] (Some
     ["service"; "symptom"; "start"; "end"; "timezone"]))) false;
   endpoint "/api/v1/investigations" "get"
     "Latest 50 accessible investigations; offset query pagination" None false;
   endpoint "/api/v1/investigations/{id}" "get" "Investigation, evidence, action and freshness"
     None false;
   endpoint "/api/v1/investigations/{id}/events" "get"
     "JSON events or SSE; Last-Event-ID cursor, reconnect after 25 seconds" None false;
   endpoint "/api/v1/investigations/{id}/cancel" "post"
     "Persist cancellation; already dispatched actions still reconcile" None false;
   endpoint "/api/v1/investigations/{id}/resume" "post"
     "Resume after information/failure; revalidate scope" (Some (obj [("information", s_)]
     None)) false;
   endpoint "/api/v1/investigations/{id}/action" "put"
     "Save draft with expected version; previous approval invalidated" (Some (obj [("version",
     n_); ("title", s_); ("body", s_)] None)) false;
   endpoint "/api/v1/investigations/{id}/action/{decision}" "post"
     "approve, reject or reconcile expected action version" (Some (obj [("version", n_)] None))
     false;
   endpoint "/api/v1/investigations/{id}/feedback" "post"
     "Keep human feedback separate from report" (Some (obj [("helpful", dict [("type", js
     "boolean")]); ("confirmed", dict [("type", js "boolean")]); ("final_cause", s_)] None))
     false;
   endpoint "/api/v1/investigations/{id}/replay" "get"
     "Currently authorized recording export; deleted/obsolete returns 410" None false;
   endpoint "/api/v1/investigations/{id}/memory" "post" "Create unreviewed candidate" (Some (obj
     [("content", s_)] None)) false;
   endpoint "/api/v1/memories" "get" "Only reviewed, current, in-scope memories" None false;
   endpoint "/api/v1/memories/{id}/{decision}" "post" "confirm or revoke by team approver" None
     false;
   endpoint "/api/v1/investigations/{id}/badcase" "post"
     "Candidate or human labelled development sample" (Some (obj [("category", s_); ("label",
     s_)] None)) false;
   endpoint "/api/v1/admin" "get" "Configuration only; no implicit business access" None false;
   endpoint "/api/v1/admin/members" "put" "Change or revoke team role" (Some (obj [("subject",
     s_); ("team", s_); ("role", s_)] None)) false;
   endpoint "/api/v1/admin/services/{id}/invalidate" "post"
     "New source version or content deletion" (Some (obj [("delete", dict [("type", js
     "boolean")])] None)) false;
   endpoint "/internal/v1/claim" "post" "Atomic lease claim; 204 when no slot or work" (Some
     (obj [("owner", s_)] None)) true;
   endpoint "/internal/v1/tasks/{id}/{operation}" "post"
     "heartbeat, authorize, event, result, failure; all fenced by lease and original principal"
     (Some (callback)) true;
   endpoint "/api/v1/badcases" "get" "Current team-scoped review samples" None false;
   endpoint "/api/v1/badcases/{id}/review" "post" "Approver confirms development label" (Some
     (obj [("label", s_)] None)) false;
   endpoint "/api/v1/admin/services/{id}" "put" "Configure service test repository" (Some (obj
     [("repo", s_); ("enabled", dict [("type", js "boolean")])] None)) false;
   endpoint "/internal/v1/source-change" "post"
     "Trusted source notification; X-Source-Key identity" (Some (obj [("service", s_);
     ("delete", dict [("type", js "boolean")])] None)) false;
   set_security "/internal/v1/source-change" "post" "SourceKey";
   set_parameters "/internal/v1/source-change" "post" [protocol_header]].

Definition run_statements (l : list statement) : result paths_t :=
  foldl (λ r f, r ≫= f) (Ok []) l.

Definition security_schemes : json :=
  dict [("BearerAuth", dict [("type", js "http"); ("scheme", js "bearer");
                             ("bearerFormat", js "OIDC JWT")]);
        ("SourceKey", dict [("type", js "apiKey"); ("in", js "header"); ("name", js "X-Source-Key")]);
        ("WorkerKey", dict [("type", js "apiKey"); ("in", js "header");
                            ("name", js "X-Worker-Key")])].

Definition openapi : result json :=
  paths ← run_statements statements;
  Ok (dict
    [("openapi", js "3.1.0");
     ("info", dict [("title", js "IncidentDesk"); ("version", js "1.1.0")]);
     ("servers", JList [dict [("url", js "http://localhost:8080")]]);
     ("paths", JObj ((λ p : pystr * list (pystr * operation),
                        (p.1, JObj ((λ m, (m.1, JObj m.2)) <$> p.2))) <$> paths));
     ("components", dict [("securitySchemes", security_schemes)])]).
End document.

(** ** The document is consistent *)

(** Whether an operation declares a required parameter. *)
Definition declares (place : string) (name : pystr) (op : list (pystr * json)) : bool :=
  match assoc (u "parameters") op with
  | Some (JList ps) =>
      existsb (λ p, match p with
                    | JObj kvs => bool_decide (assoc (u "name") kvs = Some (JStr name))
                                  && bool_decide (assoc (u "in") kvs = Some (js place))
                                  && bool_decide (assoc (u "required") kvs = Some (JBool true))
                    | _ => false
                    end) ps
  | _ => false
  end.

Definition secured_by (op : list (pystr * json)) (name : string) : bool :=
  bool_decide (assoc (u "security") op = Some (scheme name)).

Definition is_internal (path : pystr) : bool := startswith (u "/internal/") path.

Definition operation_ok (path method : pystr) (op : list (pystr * json)) : bool :=
  forallb (λ name, declares "path" name op) (path_names path)
  && (if is_internal path
      then (secured_by op "WorkerKey" || secured_by op "SourceKey")
           && declares "header" (u "X-Protocol-Version") op
      else secured_by op "BearerAuth")
  && (negb (mem path keyed_paths && str_eqb method (u "post"))
      || declares "header" (u "Idempotency-Key") op).

(** What [endpoint] writes declares the parameters of any path. *)
Lemma endpoint_declares path method summary body internal :
  forallb (λ name, declares "path" name (operation_of path method summary body internal))
    (path_names path) = true.
Proof.
  apply forallb_forall. intros name Hn. unfold operation_of, declares.
  set (rest := _ ++ (if mem path keyed_paths && _ then _ else _)).
  assert (path_parameter <$> path_names path ≠ []) as Hne.
  { destruct (path_names path); [by destruct Hn|done]. }
  destruct ((path_parameter <$> path_names path) ++ rest) as [|p ps] eqn:Hp.
  { by apply app_nil in Hp as [? _]. }
  assert (∀ a : list (pystr * json), assoc (u "parameters")
            ([(u "summary", js summary);
              (u "security", scheme (if internal then "WorkerKey" else "BearerAuth"));
              (u "responses", responses)] ++
             match body with
             | Some b => [(u "requestBody", dict [("required", JBool true);
                            ("content", dict [("application/json", dict [("schema", b)])])])]
             | None => []
             end ++ [(u "parameters", JList (p :: ps))]) = Some (JList (p :: ps))) as Ha
    by by destruct body.
  rewrite (Ha []). apply existsb_exists. exists (path_parameter name). split.
  - rewrite <- Hp. apply in_or_app. left. apply list_elem_of_In, list_elem_of_fmap_2.
    by apply list_elem_of_In.
  - unfold path_parameter. rewrite !andb_true_iff, !bool_decide_eq_true.
    split_and!; by vm_compute.
Qed.

(** The paths of the document, and that each of its operations is in order. *)
Definition paths_ok (paths : list (pystr * list (pystr * list (pystr * json)))) : bool :=
  forallb (λ p, forallb (λ m, operation_ok p.1 m.1 m.2) p.2) paths.

