(* ===== verification/GateSpec.v ===== *)
(** * What the regression gate and the replay guarantee

    The gate opens exactly when every case passes and there is one to regress; and the
    record of an investigation suffices to repeat it: replaying the snapshots of a run,
    offline, gives the same facts from the same evidence. *)
From S2P Require Import Prelude.
From S2P Require Import PyStr.
From S2P Require Import PyRe.
From S2P Require Import Json.
From S2P Require Import PyTime.
From S2P Require Import Redaction.
From S2P Require Import Contracts.
From S2P Require Import Runtime.
From S2P Require Import Context.
From S2P Require Import Assemble.
From S2P Require Import AssembleSpec.
From S2P Require Import Report.
From S2P Require Import Evaluation.
From S2P Require Import Gate.

Lemma on_fst_ok {S T A} (m : M S A) (r r' : S) (t t' : T) a :
  on_fst m (r, t) = ((r', t'), Ok a) → t' = t ∧ m r = (r', Ok a).
Proof.
  unfold on_fst. cbn [fst snd]. destruct (m r) as [r1 x]. by intros [= <- <- ->].
Qed.

(** ** One run against another *)

Section replay.
Context {UT : UnicodeTables} {TD : TzDatabase} {R : Type} {RO : RuntimeOps R} {RL : RuntimeLaws R}.
Variable container_repr : json → pystr.

(** The two runtimes serve runs of the same service and team, and the offline one may
    still make [k] calls. *)
Definition alike (k : Z) (r1 : R) (r2 : OfflineRuntime) : Prop :=
  service (rt_run r1) = service (o_run r2) ∧ team (rt_run r1) = team (o_run r2) ∧
  o_calls r2 + k ≤ steps (budget (o_run r2)).

(** What the first returns from some locals, the second returns from the same, and the
    locals stay the same; the second makes at most [k] calls. *)
Definition sim {A} (k : Z) (m1 : M (R * locals) A) (m2 : M (OfflineRuntime * locals) A) : Prop :=
  ∀ j r1 r2 l r1' l' a, 0 ≤ j → alike (j + k) r1 r2 → m1 (r1, l) = ((r1', l'), Ok a) →
  ∃ r2', m2 (r2, l) = ((r2', l'), Ok a) ∧ alike j r1' r2' ∧ o_run r2' = o_run r2.

Lemma sim_ret {A} (a : A) : sim 0 (mret a) (mret a).
Proof.
  intros j r1 r2 l r1' l' a' Hj Ha [= <- <- <-]. exists r2. rewrite Z.add_0_r in Ha. done.
Qed.
Lemma sim_raise {A} e (m : M (OfflineRuntime * locals) A) : sim 0 (raise e) m.
Proof. intros j r1 r2 l r1' l' a' Hj Ha [=]. Qed.
Lemma sim_lift {A} (r : result A) : sim 0 (lift r) (lift r).
Proof.
  intros j r1 r2 l r1' l' a' Hj Ha [= <- <- ->]. exists r2. rewrite Z.add_0_r in Ha. done.
Qed.
Lemma sim_loc f : sim 0 (loc f) (loc f).
Proof.
  intros j r1 r2 l r1' l' a' Hj Ha [= <- <- <-]. exists r2. rewrite Z.add_0_r in Ha. done.
Qed.
Lemma sim_hook n d1 d2 : sim 0 (on_fst (rt_hook n d1)) (on_fst (rt_hook n d2)).
Proof.
  intros j r1 r2 l r1' l' a' Hj (Hs & Ht & Hc) H. unfold on_fst in H. cbn in H.
  destruct (rt_hook n d1 r1) as [r x] eqn:Hh. injection H as <- <- ->.
  apply law_hook in Hh. eexists. split; [by destruct a'|].
  split; [|done]. unfold alike. rewrite Hh. cbn. split_and!; [done..|lia].
Qed.

Lemma sim_bind {A B} k (m1 : M (R * locals) A) (m2 : M (OfflineRuntime * locals) A)
    (f1 : A → M _ B) (f2 : A → M _ B) :
  0 ≤ k → sim 0 m1 m2 → (∀ a, sim k (f1 a) (f2 a)) → sim k (m1 ≫= f1) (m2 ≫= f2).
Proof.
  intros Hk Hm Hf j r1 r2 l r1' l' b Hj Ha H. apply M_bind_ok in H as ([r3 l3] & a & H1 & H2).
  destruct (Hm (j + k) r1 r2 l r3 l3 a) as (r4 & H4 & Ha4 & Ho); [lia|by rewrite Z.add_0_r|done|].
  destruct (Hf a j r3 r4 l3 r1' l' b Hj Ha4 H2) as (r5 & H5 & Ha5 & Ho5).
  exists r5. split; [|split; [done|congruence]]. unfold mbind, M_bind. by rewrite H4.
Qed.

Lemma sim_for_each {A} (xs : list A) b1 b2 :
  (∀ x, sim 0 (b1 x) (b2 x)) → sim 0 (for_each xs b1) (for_each xs b2).
Proof.
  intros Hb. induction xs as [|x xs IH]; cbn [for_each]; [apply sim_ret|].
  apply sim_bind; [done|apply Hb|]. intros _. exact IH.
Qed.

(** Reading the state: the locals are the same, and of the run only team and service. *)
Lemma sim_get {A} (f1 : R * locals → M _ A) (f2 : OfflineRuntime * locals → M _ A) :
  (∀ r1 r2 l, service (rt_run r1) = service (o_run r2) → team (rt_run r1) = team (o_run r2) →
     sim 0 (f1 (r1, l)) (f2 (r2, l))) →
  sim 0 (get ≫= f1) (get ≫= f2).
Proof.
  intros Hf j r1 r2 l r1' l' a Hj Ha H. exact (Hf r1 r2 l (proj1 Ha) (proj1 (proj2 Ha))
    j r1 r2 l r1' l' a Hj Ha H).
Qed.
Lemma sim_run {A} (f1 : RunContext → M (R * locals) A) (f2 : RunContext → M _ A) :
  (∀ a1 a2, service a1 = service a2 → team a1 = team a2 → sim 0 (f1 a1) (f2 a2)) →
  sim 0 (the_run ≫= f1) (the_run ≫= f2).
Proof.
  intros Hf j r1 r2 l r1' l' a Hj Ha H.
  exact (Hf _ _ (proj1 Ha) (proj1 (proj2 Ha)) j r1 r2 l r1' l' a Hj Ha H).
Qed.

Ltac sim_step :=
  lazymatch goal with
  | |- sim _ (mret _) (mret _) => apply sim_ret
  | |- sim _ (raise _) _ => apply sim_raise
  | |- sim _ (lift _) (lift _) => apply sim_lift
  | |- sim _ (loc _) (loc _) => apply sim_loc
  | |- sim _ (on_fst (rt_hook _ _)) (on_fst (rt_hook _ _)) => apply sim_hook
  | |- sim _ (get ≫= _) _ => apply sim_get; intros ?r1 ?r2 ?l ?Hs ?Ht
  | |- sim _ (the_run ≫= _) _ => apply sim_run; intros ?a1 ?a2 ?Hs ?Ht
  | |- sim _ (_ ≫= _) (_ ≫= _) => apply sim_bind; [done| |intros ?]
  | |- sim _ (for_each _ _) (for_each _ _) => apply sim_for_each; intros ?
  | |- sim _ (match ?x with _ => _ end) (match ?x with _ => _ end) => destruct x
  end.
Ltac sim_steps :=
  repeat (cbn beta iota zeta delta [fst snd];
    repeat match goal with H : service ?a = service ?b |- _ => rewrite H; clear H end;
    repeat match goal with H : team ?a = team ?b |- _ => rewrite H; clear H end; sim_step).

Lemma process_row_sim step out row :
  sim 0 (process_row container_repr step out row) (process_row container_repr step out row).
Proof. unfold process_row, check_mapping. sim_steps. Qed.

Lemma relate_sim : sim 0 relate relate.
Proof. unfold relate, compare_versions, relate_release, relate_observation. sim_steps. Qed.

(** *** One step *)

Variable registry_query : PlanStep → option json → M R json.
Variable elapsed : R → json.
Variable elapsed' : OfflineRuntime → json.
Hypothesis registry_law : ∀ step c r r' x, registry_query step c r = (r', x) → rt_run r' = rt_run r.

(** What [try_step] does with what it fetched, once redacted: the retrieval of a log query,
    and the rest. *)
Definition take_retrieval {S} `{RuntimeOps S} (step : PlanStep) (out : json) : M (S * locals) () :=
  if bool_decide (step_source step = Logs) then
    s ← get;
    ret ← lift (jget_or (l_retrieval s.2) "retrieval" out);
    loc (set_retrieval ret)
  else mret ().

Definition use_records {S} `{RuntimeOps S} (el : S → json) (step : PlanStep) (out : json)
    : M (S * locals) () :=
  let src := step_source step in
  let name := source_name src in
  loc (set_records name out) ;;
  n ← lift (jindex "records" out ≫= jlen);
  on_fst (rt_hook (u "retrieval_returned")
            (JObj [(u "source", JStr name); (u "count", JInt n)])) ;;
  obs ← lift (jindex "observed_at" out);
  wm ← lift (jindex "watermark" out);
  loc (add_freshness {| fresh_source := src; observed_at := obs;
                        watermark := py_str container_repr wm;
                        snapshot_consistency := u "independent_source" |}) ;;
  cursor ← lift (jget "next_cursor" out);
  (if truthy cursor then loc (add_missing (name ++ truncated_note)) else mret ()) ;;
  recs ← lift (jindex "records" out ≫= jiter);
  flags ← lift (map_r (λ r, d ← jget "deleted" r; Ok (r, truthy d)) recs);
  let available := fst <$> filter (λ x, x.2 = false) flags in
  (match available with
   | [] => loc (add_missing (name ++ u ": no accessible records in scope"))
   | _ => mret ()
   end) ;;
  for_each available (process_row container_repr step out) ;;
  s ← get;
  on_fst (rt_hook (u "tool_after")
            (JObj [(u "source", JStr name); (u "status", js "ok");
                   (u "milliseconds", el s.1)])).

Lemma try_step_use {S} `{RuntimeOps S} q (el : S → json) step recorded :
  try_step container_repr q el step recorded
  = (out ← fetch q step recorded;
     take_retrieval step (redact out) ;; use_records el step (redact out)).
Proof. reflexivity. Qed.

Lemma take_retrieval_sim step out : sim 0 (take_retrieval step out) (take_retrieval step out).
Proof. unfold take_retrieval. sim_steps. Qed.
Lemma use_records_sim step out :
  sim 0 (use_records elapsed step out) (use_records elapsed' step out).
Proof. unfold use_records. pose proof process_row_sim. sim_steps; auto. Qed.

Lemma take_retrieval_logs {S} `{RuntimeOps S} step kvs v x (r : S) l :
  step_source step = Logs → assoc (u "retrieval") kvs = Some v →
  take_retrieval step (JObj kvs) (r, set_retrieval x l) = take_retrieval step (JObj kvs) (r, l).
Proof.
  intros Hs Hv. unfold take_retrieval. rewrite bool_decide_true by done.
  unfold mbind, M_bind, get, lift. cbn. by rewrite Hv.
Qed.

(** A live fetch leaves the locals alone, but for the retrieval of a log query, which it
    also writes into the output. *)
Lemma fetch_live_run step (r1 r1' : R) l l' out :
  fetch_live registry_query step (r1, l) = ((r1', l'), Ok out) →
  rt_run r1' = rt_run r1 ∧
  ((l' = l ∧ step_source step ≠ Logs) ∨
   ∃ ret kvs, l' = set_retrieval ret l ∧ step_source step = Logs ∧ out = JObj kvs ∧
     assoc (u "retrieval") kvs = Some ret).
Proof.
  unfold fetch_live. intros H. apply M_bind_ok in H as ([r2 l2] & o & Hq & H).
  apply on_fst_ok in Hq as [-> Hr]. apply registry_law in Hr.
  destruct (step_source step) eqn:Hsrc;
    [|injection H as <- <- <-; split; [done|]; by left..].
  apply M_bind_ok in H as ([r4 l4] & op & Hp & H).
  apply on_fst_ok in Hp as [-> Hm]. apply more_pages_run in Hm; [|done].
  destruct op as [o2 pages].
  apply M_bind_ok in H as (s1 & summary & [-> _]%lift_ok & H).
  apply M_bind_ok in H as (s1 & n & [-> _]%lift_ok & H).
  apply M_bind_ok in H as (s1 & cursor & [-> _]%lift_ok & H).
  apply M_bind_ok in H as (s1 & prov & [-> _]%lift_ok & H).
  apply M_bind_ok in H as (s1 & ret & [-> _]%lift_ok & H).
  apply M_bind_ok in H as (s1 & [] & Hl & H). injection Hl as <-.
  apply lift_ok in H as [H1 H2]. injection H1 as -> ->. split; [congruence|]. right.
  unfold jset in H2. destruct o2; try done. injection H2 as <-.
  exists ret, (assoc_set (u "retrieval") ret kvs). split_and!; try done. apply assoc_set_same.
Qed.

(** *** The records kept *)

Definition same_records {S} (s s' : S * locals) : Prop := l_records s'.2 = l_records s.2.
#[local] Instance same_records_preorder {S} : PreOrder (@same_records S).
Proof. split; [done|]. intros s1 s2 s3 H1 H2. unfold same_records in *. congruence. Qed.

Lemma loc_records f : (∀ l, l_records (f l) = l_records l) → keeps same_records (loc f : M (R * locals) ()).
Proof. intros H s s' x [= <- _]. apply H. Qed.
Lemma on_fst_records {A} (m : M R A) : keeps same_records (on_fst m : M (R * locals) A).
Proof. intros s s' x. unfold on_fst. destruct (m s.1). by intros [= <- _]. Qed.
Lemma the_run_records : keeps same_records (the_run : M (R * locals) _).
Proof. by intros s s' x [= <- _]. Qed.
#[local] Hint Extern 1 (keeps same_records (loc _)) => (apply loc_records; done) : keeps.
#[local] Hint Extern 1 (keeps same_records (on_fst _)) => apply on_fst_records : keeps.
#[local] Hint Extern 1 (keeps same_records the_run) => apply the_run_records : keeps.

Lemma process_row_records step out row :
  keeps same_records (process_row container_repr step out row : M (R * locals) ()).
Proof. unfold process_row, check_mapping. keeps_steps. Qed.

Lemma use_records_kept step out (s s' : R * locals) :
  use_records elapsed step out s = (s', Ok tt) →
  l_records s'.2 = assoc_set (source_name (step_source step)) out (l_records s.2).
Proof.
  unfold use_records. intros H. apply M_bind_ok in H as (s1 & [] & Hl & H).
  injection Hl as <-. match type of H with ?m _ = _ => assert (keeps same_records m) as Hk end.
  { pose proof process_row_records. keeps_steps. }
  apply Hk in H. exact H.
Qed.

(** *** The steps *)

(** A step without the clauses that turn an exception into a missing source. *)
Definition unhandled_step (step : PlanStep) : M (R * locals) () :=
  on_fst (rt_hook (u "tool_before")
            (JObj [(u "source", JStr (source_name (step_source step)))])) ;;
  try_step container_repr registry_query elapsed step None.

Definition name_of (st : PlanStep) : pystr := source_name (step_source st).

Lemma unhandled_step_run step (r1 r1' : R) l l' :
  unhandled_step step (r1, l) = ((r1', l'), Ok tt) →
  ∃ r3 out, rt_run r3 = rt_run r1 ∧
    (take_retrieval step (redact out) ;; use_records elapsed step (redact out)) (r3, l)
      = ((r1', l'), Ok tt) ∧
    l_records l' = assoc_set (name_of step) (redact out) (l_records l).
Proof.
  unfold unhandled_step. rewrite try_step_use. intros H.
  apply M_bind_ok in H as ([r2 l2] & [] & [-> Hh]%on_fst_ok & H). apply law_hook in Hh.
  apply M_bind_ok in H as ([r3 l3] & out & Hf & H).
  apply fetch_live_run in Hf as [Hr Hf]. exists r3, out. split; [congruence|].
  assert ((take_retrieval step (redact out) ;; use_records elapsed step (redact out)) (r3, l)
    = ((r1', l'), Ok tt)) as H2.
  { destruct Hf as [[-> _]|(ret & kvs & -> & Hs & -> & Hk)]; [exact H|].
    revert H. unfold mbind, M_bind. cbn [redact].
    erewrite take_retrieval_logs; [done..|].
    erewrite assoc_redact; [by rewrite Hk|by vm_compute]. }
  split; [exact H2|]. apply M_bind_ok in H2 as ([r4 l4] & [] & Ht & Hu).
  apply use_records_kept in Hu. cbn in Hu. rewrite Hu. f_equal.
  unfold take_retrieval in Ht. case_bool_decide; [|by injection Ht as _ <-].
  apply M_bind_ok in Ht as (s5 & s6 & [= <- <-] & Ht).
  apply M_bind_ok in Ht as (s7 & ret & [-> _]%lift_ok & Ht). by injection Ht as _ <-.
Qed.

Lemma offline_tool st : mem (name_of st) offline_tools = true.
Proof. unfold name_of. destruct (step_source st); by vm_compute. Qed.

(** The same step from the record. *)
Lemma step_replayed q recs step j (r1 r1' : R) r2 l l' :
  0 ≤ j → alike (j + 1) r1 r2 → unhandled_step step (r1, l) = ((r1', l'), Ok tt) →
  (∀ o, assoc (name_of step) (l_records l') = Some o →
     assoc (name_of step) recs = Some o ∧ redact o = o) →
  ∃ r2', do_step container_repr q elapsed' (Some recs) step (r2, l) = ((r2', l'), Ok tt) ∧
    alike j r1' r2' ∧ o_run r2' = o_run r2.
Proof.
  intros Hj (Hs & Ht & Hc) H Hrec. apply unhandled_step_run in H as (r3 & out & Hr & Hu & Hl).
  destruct (Hrec (redact out)) as [Hin Hid]; [rewrite Hl; apply assoc_set_same|].
  unfold do_step. unfold mbind at 1, M_bind at 1.
  set (d := JObj [(u "source", JStr (source_name (step_source step)))]).
  set (r4 := log_event (JObj [(u "hook", JStr (u "tool_before")); (u "data", d);
                              (u "status", js "pass")]) r2).
  change (on_fst (rt_hook (u "tool_before") d) (r2, l)) with ((r4, l), Ok () : result ()).
  unfold try_except. rewrite try_step_use. unfold fetch, fetch_recorded.
  change (source_name (step_source step)) with (name_of step). rewrite Hin.
  set (r5 := {| o_run := o_run r4; events := events r4; o_calls := o_calls r4 + 1 |}).
  assert (on_fst (rt_authorize (name_of step)) (r4, l)
    = ((r5, l), Ok (JObj [(u "team", JStr (team (o_run r4))); (u "service", JStr (service (o_run r4)))])))
    as Hauth.
  { unfold on_fst. cbn [fst snd rt_authorize offline_ops]. unfold offline_authorize.
    rewrite offline_tool. cbn [negb].
    assert ((steps (budget (o_run r2)) <? o_calls r2 + 1) = false) as Hlt by lia.
    change (o_calls r4) with (o_calls r2). cbn [o_run o_calls r4 log_event].
    by rewrite Hlt. }
  unfold mbind at 1, M_bind at 1. unfold mbind at 1, M_bind at 1. rewrite Hauth.
  cbn [mret M_ret]. rewrite Hid.
  destruct (sim_bind 0 _ _ (λ _, use_records elapsed step (redact out))
    (λ _, use_records elapsed' step (redact out)) (Z.le_refl 0)
    (take_retrieval_sim step (redact out)) (λ _, use_records_sim step (redact out))
    j r3 r5 l r1' l' tt Hj) as (r6 & H6 & Ha & Ho); [|exact Hu|].
  { unfold alike. rewrite Hr. cbn. split_and!; [done..|lia]. }
  rewrite H6. exists r6. split; [done|]. split; [done|]. by rewrite Ho.
Qed.

Lemma unhandled_steps_records steps (r1 r1' : R) l l' k :
  for_each steps unhandled_step (r1, l) = ((r1', l'), Ok tt) →
  k ∉ (name_of <$> steps) → assoc k (l_records l') = assoc k (l_records l).
Proof.
  revert r1 l. induction steps as [|st steps IH]; intros r1 l H Hk; [by injection H as <- <-|].
  rewrite fmap_cons, not_elem_of_cons in Hk. destruct Hk as [Hne Hk].
  cbn [for_each] in H. apply M_bind_ok in H as ([r2 l2] & [] & H1 & H2).
  rewrite (IH _ _ H2 Hk). apply unhandled_step_run in H1 as (_ & out & _ & _ & ->).
  by apply assoc_set_other.
Qed.

Lemma steps_replayed q recs steps j (r1 r1' : R) r2 l l' :
  0 ≤ j → alike (j + len steps) r1 r2 → NoDup (name_of <$> steps) →
  for_each steps unhandled_step (r1, l) = ((r1', l'), Ok tt) →
  (∀ k o, k ∈ (name_of <$> steps) → assoc k (l_records l') = Some o →
     assoc k recs = Some o ∧ redact o = o) →
  (∀ k, k ∈ (name_of <$> steps) → is_Some (assoc k (l_records l'))) ∧
  ∃ r2', for_each steps (do_step container_repr q elapsed' (Some recs)) (r2, l)
         = ((r2', l'), Ok tt) ∧ alike j r1' r2' ∧ o_run r2' = o_run r2.
Proof.
  revert r1 r2 l. induction steps as [|st steps IH]; intros r1 r2 l Hj Ha Hnd H Hrec.
  { injection H as <- <-. split; [intros k Hk; by apply elem_of_nil in Hk|].
    exists r2. split_and!; [done| |done]. unfold len in Ha. cbn in Ha. by rewrite Z.add_0_r in Ha. }
  rewrite fmap_cons in Hnd. apply NoDup_cons in Hnd as [Hn Hnd].
  cbn [for_each] in H |- *. apply M_bind_ok in H as ([r3 l3] & [] & H1 & H2).
  pose proof (unhandled_steps_records _ _ _ _ _ _ H2 Hn) as Hkeep.
  assert (is_Some (assoc (name_of st) (l_records l3))) as Hst.
  { apply unhandled_step_run in H1 as (_ & out & _ & _ & ->). rewrite assoc_set_same. eauto. }
  destruct (step_replayed q recs st (j + len steps) r1 r3 r2 l l3) as (r4 & H4 & Ha4 & Ho4).
  - unfold len. lia.
  - replace (j + len steps + 1) with (j + len (st :: steps)); [done|]. unfold len. cbn. lia.
  - exact H1.
  - intros o Ho. apply Hrec; [apply list_elem_of_here|]. by rewrite Hkeep.
  - destruct (IH r3 r4 l3 Hj Ha4 Hnd H2) as (Hall & r5 & H5 & Ha5 & Ho5).
    { intros k o Hk. apply Hrec. by apply list_elem_of_further. }
    split.
    + intros k [->|Hk]%elem_of_cons; [by rewrite Hkeep|auto].
    + exists r5. split; [|split; [done|congruence]]. unfold mbind, M_bind. by rewrite H4.
Qed.

(** *** The whole run *)

Variable model_dump_json : ContextBundle → result pystr.
Variable observe : bool.

(** [assemble] without the clauses that turn an exception of a step into a missing
    source: it returns where no step failed. *)
Definition unhandled_assemble : M R (ContextBundle * list (pystr * json)) := λ rt,
  match validate_plan (default_plan observe (rt_run rt)) (rt_run rt) with
  | Raise e => (rt, Raise e)
  | Ok p =>
      match (on_fst (rt_hook (u "plan_validated")
               (JObj [(u "steps", JInt (len (plan_steps p)))])) ;;
             for_each (plan_steps p) unhandled_step ;;
             relate ;;
             finish model_dump_json p None) (rt, no_locals) with
      | ((rt', _), x) => (rt', x)
      end
  end.

Lemma for_each_ok {S A} (xs : list A) (b1 b2 : A → M S ()) s s' :
  (∀ x s s', b1 x s = (s', Ok tt) → b2 x s = (s', Ok tt)) →
  for_each xs b1 s = (s', Ok tt) → for_each xs b2 s = (s', Ok tt).
Proof.
  intros Hb. revert s. induction xs as [|x xs IH]; intros s H; [done|].
  cbn [for_each] in *. apply M_bind_ok in H as (s1 & [] & H1 & H2).
  unfold mbind, M_bind. rewrite (Hb _ _ _ H1). by apply IH.
Qed.

Lemma unhandled_do_step step (s s' : R * locals) :
  unhandled_step step s = (s', Ok tt) →
  do_step container_repr registry_query elapsed None step s = (s', Ok tt).
Proof.
  unfold unhandled_step, do_step. intros H. apply M_bind_ok in H as (s1 & [] & H1 & H2).
  unfold mbind, M_bind. rewrite H1. unfold try_except. by rewrite H2.
Qed.

(** A run in which no step failed, and what it went through. *)
Lemma unhandled_run (rt rt' : R) br :
  unhandled_assemble rt = (rt', Ok br) →
  let p := default_plan observe (rt_run rt) in
  plan_ok p (rt_run rt) ∧
  assemble container_repr registry_query elapsed model_dump_json observe None None rt = (rt', Ok br) ∧
  ∃ r1 r2 r3 l2 l3 l4, rt_run r1 = rt_run rt ∧
    for_each (plan_steps p) unhandled_step (r1, no_locals) = ((r2, l2), Ok tt) ∧
    relate (r2, l2) = ((r3, l3), Ok tt) ∧
    finish model_dump_json p None (r3, l3) = ((rt', l4), Ok br).
Proof.
  unfold unhandled_assemble, assemble. cbn [default from_option id].
  destruct (validate_plan _ _) as [p|e] eqn:Hp; [|done].
  apply validate_plan_spec in Hp as [-> Hok]. intros H.
  set (p := default_plan observe (rt_run rt)) in *. split; [done|].
  match type of H with (match ?m with _ => _ end = _) => destruct m as [[r l4] x] eqn:H1 end.
  injection H as <- ->.
  apply M_bind_ok in H1 as ([r1 l1] & [] & Hh & H1).
  apply M_bind_ok in H1 as ([r2 l2] & [] & Hsteps & H1).
  apply M_bind_ok in H1 as ([r3 l3] & [] & Hrel & Hfin). split.
  - unfold assemble_body. unfold mbind, M_bind. rewrite Hh.
    rewrite (for_each_ok _ _ _ _ _ unhandled_do_step Hsteps), Hrel, Hfin. done.
  - apply on_fst_ok in Hh as [-> Hh]. apply law_hook in Hh.
    exists r1, r2, r3, l2, l3, l4. done.
Qed.

Lemma finish_live p (r r' : R) l l' br :
  finish model_dump_json p None (r, l) = ((r', l'), Ok br) →
  rt_run r' = rt_run r ∧ br.2 = l_records l ∧
  ∃ b0 m, make_bundle (rt_run r) p l = Ok b0 ∧ br.1 = set_memories m b0.
Proof.
  unfold finish. intros H. apply M_bind_ok in H as (s1 & s2 & [= <- <-] & H). cbn [fst snd] in H.
  apply M_bind_ok in H as (s1 & b0 & [-> Hb]%lift_ok & H).
  apply M_bind_ok in H as (s1 & text & [-> _]%lift_ok & H).
  apply M_bind_ok in H as (s1 & bytes & [-> _]%lift_ok & H).
  apply M_bind_ok in H as (s1 & [] & Hx & H).
  destruct (_ <? _); [done|]. injection Hx as <-.
  apply M_bind_ok in H as ([r1 l1] & b & Hm & H).
  apply M_bind_ok in Hm as ([r2 l2] & hist & [-> Ha]%on_fst_ok & Hm). apply law_authorize in Ha.
  apply M_bind_ok in Hm as (s2 & m & [-> _]%lift_ok & [= <- <- <-]).
  apply M_bind_ok in H as ([r4 l4] & [] & [-> Hh]%on_fst_ok & [= <- <- <-]). apply law_hook in Hh.
  split; [congruence|]. split; [done|]. by exists b0, m.
Qed.

(** The bundle the reevaluation assembles: the recorded one, with the budget of the
    offline run and no memories. *)
Definition replayed_bundle (b : ContextBundle) : ContextBundle :=
  {| scope := scope b; objects := objects b; facts := facts b; evidence := evidence b;
     missing := missing b; conflicts := conflicts b; freshness := freshness b;
     plan := plan b; token_budget := 12000; memories := JList [];
     retrieval := retrieval b |}.

Lemma finish_recorded p rec (o : OfflineRuntime) l b text bytes :
  make_bundle (o_run o) p l = Ok b → model_dump_json b = Ok text → encode text = Ok bytes →
  len bytes ≤ output_bytes (budget (o_run o)) →
  ∃ o', finish model_dump_json p (Some rec) (o, l) = ((o', l), Ok (b, l_records l)).
Proof.
  intros Hb Ht He Hl. unfold finish. unfold mbind at 1, M_bind at 1, get. cbn [fst snd].
  unfold lift. unfold mbind at 1, M_bind at 1. cbn [rt_run offline_ops]. rewrite Hb.
  unfold mbind at 1, M_bind at 1. rewrite Ht. unfold mbind at 1, M_bind at 1. rewrite He.
  rewrite (proj2 (Z.ltb_ge _ _) Hl). eexists. reflexivity.
Qed.

Lemma default_names_distinct r : NoDup (name_of <$> plan_steps (default_plan observe r)).
Proof. apply default_sources_distinct. Qed.

Lemma relate_records : keeps same_records (relate : M (R * locals) ()).
Proof.
  unfold relate, compare_versions, relate_release, relate_observation. keeps_steps.
Qed.

(** The run assembled again from its record. *)
Lemma assemble_replayed q (rt rt' : R) b recs rep text bytes :
  unhandled_assemble rt = (rt', Ok (b, recs)) → report container_repr b = Ok rep →
  (∀ k o, assoc k recs = Some o → redact o = o) →
  model_dump_json (replayed_bundle b) = Ok text → encode text = Ok bytes →
  len bytes ≤ 262144 →
  (∀ st, st ∈ plan_steps (plan b) → is_Some (assoc (name_of st) recs)) ∧
  ∃ o, assemble container_repr q elapsed' model_dump_json observe None (Some recs)
         (new_offline (offline_run rep)) = (o, Ok (replayed_bundle b, recs)).
Proof.
  intros H Hrep Hid Ht He Hl. apply unhandled_run in H as (Hok & Has & r1 & r2 & r3 & l2 & l3 & l4
    & Hr1 & Hsteps & Hrel & Hfin).
  set (p := default_plan observe (rt_run rt)) in *.
  apply (assemble_run container_repr registry_query elapsed model_dump_json observe registry_law
    (rt_run rt)) in Has as Hrt'; [|done].
  apply finish_live in Hfin as (Hr3 & Hrecs & b0 & m & Hb0 & Hb). cbn in Hrecs, Hb.
  rewrite <- Hr3, Hrt' in Hb0.
  assert (r_context rep = b) as Hctx by (unfold report in Hrep; inv_ok; done).
  assert (scope b = {| scope_team := team (rt_run rt); scope_subject := subject (rt_run rt);
      scope_service := service (rt_run rt) |} ∧ plan b = p ∧
    make_bundle (offline_run rep) p l3 = Ok (replayed_bundle b)) as (Hscope & Hplan & Hb').
  { unfold make_bundle in Hb0 |- *. destruct (l_retrieval l3) eqn:Hret; try done.
    injection Hb0 as <-. rewrite Hb. cbn. split_and!; [done..|].
    unfold offline_run. rewrite Hctx, Hb. cbn. unfold replayed_bundle. cbn. done. }
  set (off := offline_run rep) in *.
  assert (default_plan observe off = p) as Hp.
  { unfold off, offline_run, p, default_plan. rewrite Hctx, Hscope, Hplan. done. }
  assert (l_records l3 = l_records l2) as Hl3 by apply (relate_records _ _ _ Hrel).
  rewrite Hl3 in Hrecs. subst recs.
  assert (len (plan_steps p) ≤ 12) as Hlen
    by (unfold p, default_plan; cbn [plan_steps]; destruct observe; by vm_compute).
  set (o1 := (offline_hook (u "plan_validated") (JObj [(u "steps", JInt (len (plan_steps p)))])
    true (new_offline off)).1).
  destruct (steps_replayed q (l_records l2) (plan_steps p) 0 r1 r2 o1 no_locals l2)
    as (Hall & o2 & Ho2 & Ha2 & Hrun2); [done| | |exact Hsteps| |].
  { unfold alike. rewrite Hr1. split_and!.
    1,2: change (o_run o1) with off; unfold off, offline_run; by rewrite Hctx, Hscope.
    change (0 + (0 + len (plan_steps p)) ≤ 12). lia. }
  { apply default_names_distinct. }
  { intros k o _ Ho. split; [done|]. by apply (Hid k). }
  split.
  { rewrite Hplan. intros st Hst. apply Hall. by apply list_elem_of_fmap_2. }
  destruct (relate_sim 0 r2 o2 l2 r3 l3 tt (Z.le_refl 0) Ha2 Hrel) as (o3 & Ho3 & _ & Hrun3).
  assert (o_run o3 = off) as Hoff by (rewrite Hrun3, Hrun2; done).
  destruct (finish_recorded p (l_records l2) o3 l3 (replayed_bundle b) text bytes)
    as (o4 & Ho4); [by rewrite Hoff|done|done|rewrite Hoff; exact Hl|].
  exists o4. unfold assemble. cbn [default from_option id rt_run offline_ops o_run new_offline].
  rewrite Hp. rewrite (proj2 (validate_plan_spec p off p)).
  2: { split; [done|]. unfold plan_ok in *. unfold off at 1 2 3 4, offline_run. rewrite Hctx, Hscope, Hplan.
       cbn [service start end_ budget steps scope_service]. destruct Hok as (H1 & H2 & H3 & H4 & _ & H6).
       split_and!; done. }
  unfold assemble_body. unfold mbind, M_bind.
  change (on_fst (rt_hook (u "plan_validated") (JObj [(u "steps", JInt (len (plan_steps p)))]))
    (new_offline off, no_locals)) with ((o1, no_locals), Ok () : result ()).
  cbv beta iota. rewrite Ho2. cbv beta iota. rewrite Ho3. cbv beta iota. rewrite Ho4. by rewrite Hl3.
Qed.

Lemma recorded_grounded (rt rt' : R) b recs rep :
  unhandled_assemble rt = (rt', Ok (b, recs)) → report container_repr b = Ok rep →
  forallb (cites_b (ids (r_evidence rep)))
    ((fact_evidence <$> r_facts rep) ++ (cand_evidence <$> candidates rep)) = true.
Proof.
  intros H Hrep. apply unhandled_run in H as (_ & Has & _).
  eapply assemble_inv in Has as (_ & _ & l & (_ & Hf & _) & (Hfe & Hee & _) & _);
    [|exact registry_law|reflexivity].
  unfold report in Hrep. inv_ok. cbn [r_evidence r_facts candidates]. rewrite Hfe, Hee.
  rewrite forallb_app. apply andb_true_iff. split; apply forallb_forall.
  - intros cs (f & -> & Hin)%list_elem_of_In%list_elem_of_fmap.
    rewrite Forall_forall in Hf. by apply cites_b_spec, Hf.
  - intros cs (f & -> & Hin)%list_elem_of_In%list_elem_of_fmap.
    pose proof (report_candidates_grounded (l_evidence l)) as Hc.
    rewrite Forall_forall in Hc. by apply cites_b_spec, Hc.
Qed.

(** C17. A recorded investigation can be repeated from its record.  Take any run of the
    worker's default plan in which no source failed, on whatever runtime and sources, with
    the report of its bundle and the snapshots it recorded; let a second redaction leave
    the snapshots as they are.  Then the historical replay passes its checks, and the
    reevaluation, which has no network and the fixed budgets of the script, assembles the
    same facts, evidence, conflicts and notes from the snapshots alone and finds nothing
    changed, provided the bundle fits the script's output budget. *)
Theorem replay_faithful q (rt rt' : R) b recs rep text bytes :
  unhandled_assemble rt = (rt', Ok (b, recs)) → report container_repr b = Ok rep →
  (∀ k o, assoc k recs = Some o → redact o = o) →
  model_dump_json (replayed_bundle b) = Ok text → encode text = Ok bytes →
  len bytes ≤ 262144 →
  let data := {| rec_report := rep; rec_snapshots := recs |} in
  let script := replay_script container_repr q elapsed' model_dump_json observe in
  let same re := {| reevaluated := re; writes_enabled := false; original_facts := len (facts b);
                    current_facts := len (facts b); changed := false |} in
  script false data = Ok (same false) ∧ script true data = Ok (same true) ∧
  ∃ o, assemble container_repr q elapsed' model_dump_json observe None (Some recs)
         (new_offline (offline_run rep)) = (o, Ok (replayed_bundle b, recs)).
Proof.
  intros H Hrep Hid Ht He Hl data script same.
  pose proof (recorded_grounded _ _ _ _ _ H Hrep) as Hgr.
  destruct (assemble_replayed q _ _ _ _ _ _ _ H Hrep Hid Ht He Hl) as (Hall & o & Ho).
  assert (existsb (λ s, bool_decide (assoc (source_name (step_source s)) recs = None))
    (plan_steps (plan b)) = false) as Hrec.
  { apply not_true_iff_false. intros (st & Hst%list_elem_of_In & Hn%bool_decide_eq_true)%existsb_exists.
    destruct (Hall st Hst) as [x Hx]. unfold name_of in Hx. congruence. }
  assert (∃ rep', report container_repr (replayed_bundle b) = Ok rep' ∧ r_facts rep' = facts b)
    as (rep' & Hrep' & Hf').
  { unfold report in *. inv_ok. change (report_answer container_repr (replayed_bundle b))
      with (report_answer container_repr b). rewrite Hm. by eexists. }
  assert (r_context rep = b ∧ r_facts rep = facts b) as [Hctx Hf]
    by (unfold report in Hrep; inv_ok; done).
  assert (∀ (re : bool) result, (if re then
      let '(_, x) := assemble container_repr q elapsed' model_dump_json observe
                       None (Some recs) (new_offline (offline_run rep)) in
      br ← x; report container_repr br.1 else Ok rep) = Ok result → r_facts result = facts b →
    script re data = Ok (same re)) as Hscript.
  { intros re result Hre Hfr. unfold script, replay_script. cbn [rec_report rec_snapshots data].
    rewrite Hctx, Hrec, Hgr. unfold guard_r. cbn [mbind result_bind]. rewrite Hre.
    cbn [mbind result_bind]. rewrite Hf, Hfr, bool_decide_true by done. done. }
  split; [|split].
  - apply (Hscript false rep); done.
  - apply (Hscript true rep'); [|done]. by rewrite Ho.
  - by exists o.
Qed.
End replay.

(** ** The gate *)

Section gate.
Context {UT : UnicodeTables} {TD : TzDatabase}.
Variable container_repr : json → pystr.
Variable registry_query : PlanStep → option json → M OfflineRuntime json.
Variable elapsed : OfflineRuntime → json.
Variable model_dump_json : ContextBundle → result pystr.
Variable observe : bool.
Variable model_validate : json → result RunContext.

Abbreviation run_replay := (run_replay container_repr registry_query elapsed model_dump_json observe).
Abbreviation run_case := (run_case container_repr registry_query elapsed model_dump_json observe).
Abbreviation evaluate := (evaluate container_repr registry_query elapsed model_dump_json observe
  model_validate).
Abbreviation gate := (gate container_repr registry_query elapsed model_dump_json observe
  model_validate).
Abbreviation development := (filter (λ c, is_split "development" c = true)).

(** A case replays in every variant or in none, under its own name. *)
Lemma replay_variants c v w r :
  run_replay c v = Ok r → ∃ r', run_replay c w = Ok r' ∧ rp_case r' = case_id c.
Proof.
  unfold run_replay, Gate.run_replay, replay. destruct (assemble _ _ _ _ _ _ _ _) as [rt x].
  destruct x as [br|e]; [|done]. cbn [mbind result_bind].
  destruct (report container_repr br.1); [|done]. cbn [mbind result_bind]. intros _.
  eexists. split; reflexivity.
Qed.

Lemma replay_name c v r : run_replay c v = Ok r → rp_case r = case_id c.
Proof.
  intros H. destruct (replay_variants c v v r H) as (r' & H' & Hn). congruence.
Qed.

Lemma map_r_const {A B} (m : result A) (l : list B) :
  l ≠ [] → map_r (λ n, r ← m; Ok (r, n)) l =
  match m with Ok r => Ok ((λ n, (r, n)) <$> l) | Raise e => Raise e end.
Proof.
  intros Hl. destruct m as [r|e]; [clear Hl|by destruct l].
  induction l as [|n l IH]; [done|]. cbn [map_r mbind result_bind]. cbn [mbind result_bind] in IH.
  by rewrite IH.
Qed.

Lemma run_case_ok c rs :
  run_case c = Ok rs ↔ ∃ r, run_replay c "current" = Ok r ∧ rs = (λ n, (r, n)) <$> repeats c.
Proof.
  unfold run_case, Gate.run_case. rewrite map_r_const by (unfold repeats; by destruct (is_split _ c)).
  destruct (run_replay c "current") as [r|e].
  - split; [intros [= <-]; eauto|]. by intros (r' & [= <-] & ->).
  - split; [done|]. by intros (r' & ? & _).
Qed.

Lemma map_r_total {A B} (f : A → result B) l :
  (∀ x, x ∈ l → ∃ y, f x = Ok y) → ∃ k, map_r f l = Ok k ∧ Forall2 (λ x y, f x = Ok y) l k.
Proof.
  intros H. assert (∃ k, Forall2 (λ x y, f x = Ok y) l k) as [k Hk].
  { induction l as [|x l IH]; [by exists []|]. destruct (H x) as [y Hy]; [apply list_elem_of_here|].
    destruct IH as [k Hk]; [intros z Hz; apply H; by apply list_elem_of_further|].
    exists (y :: k). by constructor. }
  exists k. split; [by apply map_r_ok|done].
Qed.

Lemma new_pass_ok results id r n : (r, n) ∈ results → rp_case r = id →
  ∃ b, new_pass results id = Ok b.
Proof.
  intros Hin Hid. unfold new_pass.
  assert ((r, n) ∈ filter (λ n : Replayed * Z, rp_case n.1 = id) results) as Hf
    by (by apply list_elem_of_filter).
  destruct (filter _ results); [by apply elem_of_nil in Hf|eauto].
Qed.

(** How often a case is run. *)
Definition runs_of (cases : list Case) : Z := len (concat (repeats <$> cases)).

Lemma length_filter_split {A} (f : A → bool) (l : list A) :
  len (filter (λ x, f x = true) l) + len (filter (λ x, f x = false) l) = len l.
Proof.
  unfold len. induction l as [|x l IH]; [done|]. rewrite !filter_cons.
  destruct (f x); cbn [decide bool_eq_dec]; [rewrite decide_True, decide_False by done|
    rewrite decide_False, decide_True by done]; cbn [length]; lia.
Qed.
Lemma no_failed {A} (f : A → bool) (l : list A) :
  filter (λ x, f x = false) l = [] ↔ forallb f l = true.
Proof.
  induction l as [|x l IH]; [done|]. rewrite filter_cons. cbn [forallb].
  destruct (f x); [rewrite decide_False by done; done|by rewrite decide_True by done].
Qed.

(** What the runs of the suite are. *)
Lemma results_of cases rss :
  map_r run_case cases = Ok rss →
  len (concat rss) = runs_of cases ∧
  (∀ x, x ∈ concat rss → ∃ c, c ∈ cases ∧ run_replay c "current" = Ok x.1) ∧
  (∀ c, c ∈ cases → ∃ r n, (r, n) ∈ concat rss ∧ rp_case r = case_id c).
Proof.
  intros H%map_r_ok. unfold runs_of. induction H as [|c rs cases rss Hc _ (IH1 & IH2 & IH3)].
  { split_and!; [done|intros x Hx; by apply elem_of_nil in Hx|intros c Hx; by apply elem_of_nil in Hx]. }
  apply run_case_ok in Hc as (r & Hr & ->). cbn [concat fmap list_fmap]. split_and!.
  - unfold len in *. rewrite !length_app, length_fmap. lia.
  - intros x [Hx|Hx]%elem_of_app.
    + apply list_elem_of_fmap in Hx as (n & -> & _). exists c. split; [apply list_elem_of_here|done].
    + destruct (IH2 x Hx) as (c' & ? & ?). exists c'. split; [by apply list_elem_of_further|done].
  - intros c' [->|Hin]%elem_of_cons.
    + exists r, 1. split; [|by eapply replay_name]. apply elem_of_app. left.
      apply list_elem_of_fmap. exists 1. split; [done|]. unfold repeats.
      destruct (is_split _ c); apply list_elem_of_here.
    + destruct (IH3 c' Hin) as (r' & n & ? & ?). exists r', n. split; [|done].
      apply elem_of_app. by right.
Qed.

Lemma current_checks c r :
  run_replay c "current" = Ok r → grounding (checks r) = true ∧ no_writes (checks r) = true.
Proof. intros H. apply replay_checks_hold in H as (Hg & Hn & _). by rewrite Hg. Qed.

Lemma regressed_fails c r : run_replay c "regressed" = Ok r → pass r = false.
Proof. intros H. apply replay_checks_hold in H as (_ & _ & Hp). by apply Hp. Qed.

(** The comparisons with the regressed variants. *)
Lemma diffs_of cases old results diffs :
  map_r (λ c, run_replay c "regressed") cases = Ok old →
  map_r (λ r, new ← new_pass results (rp_case r); Ok (rp_case r, pass r, new)) old = Ok diffs →
  (λ d, d.1.1) <$> diffs = case_id <$> cases ∧ Forall (λ d, d.1.2 = false) diffs ∧
  existsb (λ r, negb (pass r)) old = bool_decide (cases ≠ []).
Proof.
  intros H%map_r_ok. revert diffs. induction H as [|c r cases old Hc _ IH]; intros diffs Hd.
  { injection Hd as <-. split_and!; [done|constructor|done]. }
  cbn [map_r] in Hd. apply bind_ok in Hd as (d & Hd & Hds). apply bind_ok in Hds as (ds & Hds & [= <-]).
  apply bind_ok in Hd as (b & _ & [= <-]). destruct (IH ds Hds) as (H1 & H2 & _).
  apply regressed_fails in Hc as Hf. apply replay_name in Hc as Hn.
  cbn [fmap list_fmap existsb fst snd]. rewrite Hf. split_and!; [|by constructor|done].
  rewrite Hn. f_equal. exact H1.
Qed.

(** C28. The gate does what it is for.  When the files can be read, every case replays and
    there are at least two runs, the evaluation returns a report.  Of any report it
    returns: there are three runs per held-out case and one per other; every run cites
    only evidence it has and makes no call beyond its record; the regressed variant of
    every development case, and of no other, is compared, and fails; and the script
    succeeds exactly when no run failed and there is a development case to regress. *)
Theorem gate_decides files cases :
  map_r (read_case model_validate) files = Ok cases →
  ((∀ c, c ∈ cases → ∃ r, run_replay c "current" = Ok r) → 2 ≤ runs_of cases →
   ∃ g, evaluate files = Ok g) ∧
  ∀ g, evaluate files = Ok g →
    g_runs g = runs_of cases ∧ g_passed g + len (g_failed g) = g_runs g ∧
    Forall (λ x, grounding (checks x.1) = true ∧ no_writes (checks x.1) = true) (per_case g) ∧
    (λ d, d.1.1) <$> version_diffs g = case_id <$> development cases ∧
    Forall (λ d, d.1.2 = false) (version_diffs g) ∧
    (gate files = Ok g ↔ g_failed g = [] ∧ development cases ≠ []).
Proof.
  intros Hc. unfold gate, Gate.gate, evaluate, Gate.evaluate. rewrite Hc. cbn [mbind result_bind].
  split.
  - intros Hall Hruns.
    destruct (map_r_total run_case cases) as (rss & Hrss & Hf2).
    { intros c Hin. destruct (Hall c Hin) as [r Hr]. eexists. apply run_case_ok. eauto. }
    destruct (map_r_total (λ c, run_replay c "regressed") (development cases)) as (old & Hold & Hof2).
    { intros c [_ Hin]%list_elem_of_filter. destruct (Hall c Hin) as [r Hr].
      destruct (replay_variants c _ "regressed" r Hr) as (r' & H' & _). eauto. }
    destruct (results_of cases rss Hrss) as (Hlen & _ & Hnames).
    destruct (map_r_total (λ r, new ← new_pass (concat rss) (rp_case r); Ok (rp_case r, pass r, new))
      old) as (diffs & Hd & _).
    { intros r Hr. apply list_elem_of_lookup in Hr as [i Hi].
      destruct (Forall2_lookup_r _ _ _ _ _ Hof2 Hi) as (c & Hci & Hcr).
      apply list_elem_of_lookup_2, list_elem_of_filter in Hci as [_ Hci].
      destruct (Hnames c Hci) as (r' & n & Hin & Hn). apply replay_name in Hcr.
      destruct (new_pass_ok (concat rss) (rp_case r) r' n Hin) as [b Hb]; [congruence|].
      rewrite Hb. cbn. eauto. }
    rewrite Hrss. cbn [mbind result_bind]. rewrite Hold. cbn [mbind result_bind].
    unfold check_statistics. rewrite Hlen.
    rewrite (proj2 (Z.ltb_ge _ _)), (proj2 (Z.ltb_ge _ _)) by lia. cbn [mbind result_bind].
    rewrite Hd. cbn [mbind result_bind]. eauto.
  - intros g Hg. apply bind_ok in Hg as (rss & Hrss & Hg). apply bind_ok in Hg as (old & Hold & Hg).
    apply bind_ok in Hg as ([] & Hst & Hg). apply bind_ok in Hg as (diffs & Hd & Hg).
    rewrite Hrss. cbn [mbind result_bind]. rewrite Hold. cbn [mbind result_bind].
    rewrite Hst. cbn [mbind result_bind]. rewrite Hd. cbn [mbind result_bind].
    injection Hg as <-. cbn [g_runs g_passed g_failed per_case version_diffs candidate_pass
      injected_regression_blocked].
    destruct (results_of cases rss Hrss) as (Hlen & Hfrom & _).
    destruct (diffs_of _ _ _ _ Hold Hd) as (Hn & Hf & Hb). split_and!; try done.
    + by rewrite (length_filter_split (λ r : Replayed * Z, pass r.1)).
    + apply Forall_forall. intros x Hx. destruct (Hfrom x Hx) as (c & _ & Hr).
      by eapply current_checks.
    + rewrite (no_failed (λ r : Replayed * Z, pass r.1)), Hb.
      destruct (forallb _ _), (bool_decide _) eqn:Hbd; cbn;
        [apply bool_decide_eq_true in Hbd|apply bool_decide_eq_false in Hbd| |];
        (split; [|intros [? ?]]); try done.
Qed.
End gate.
