(* ===== verification/GateCases.v ===== *)
(** * The suite's own cases, and a recorded run

    Some of the generated cases go through the gate in the kernel, and a run on a toy
    runtime with live sources is replayed from its record. *)
From S2P Require Import Prelude.
From S2P Require Import PyStr.
From S2P Require Import PyRe.
From S2P Require Import Json.
From S2P Require Import Digests.
From S2P Require Import PyTime.
From S2P Require Import Redaction.
From S2P Require Import Contracts.
From S2P Require Import Runtime.
From S2P Require Import Context.
From S2P Require Import Assemble.
From S2P Require Import AssembleSpec.
From S2P Require Import Report.
From S2P Require Import Evaluation.
From S2P Require Import Cases.
From S2P Require Import Gate.
From S2P Require Import GateSpec.

#[local] Existing Instances UtcOnly AsciiCjk.

(** pydantic on a run of the suite, whose fixed fields are those of [case_run_00]. *)
Definition suite_validate (v : json) : result RunContext :=
  id ← jtext "id" v; sy ← jtext "symptom" v;
  Ok {| run_id := id; subject := u "alice"; team := u "orders"; service := u "svc-17";
        symptom := sy; start := at_hour 9; end_ := at_hour 11; source_version := 1;
        generation := 1; attempt := 1; owner := u "offline"; lease_seconds := 15;
        query := default_log_query; budget := case_budget |}.

Abbreviation evaluate0 := (evaluate repr0 no_query (λ _, JInt 0) serialize0 false suite_validate).
Abbreviation gate0 := (gate repr0 no_query (λ _, JInt 0) serialize0 false suite_validate).
Abbreviation ablation0 := (ablation repr0 no_query (λ _, JInt 0) serialize0 false suite_validate).

(** An exhausted pool and a missing log of the development split, and a held-out case. *)
Definition sample : list json := generated <$> [0; 4; 12].
Definition suite : list Case :=
  match map_r (read_case suite_validate) sample with Ok l => l | Raise _ => [] end.

(** The first generated case is the transcribed one. *)
Example first_case : head suite = Some case_00.
Proof. by vm_compute. Qed.

(** Five runs pass and two regressed variants fail: the gate opens. *)
Lemma gate_decides_witness :
  ∃ g, gate0 sample = Ok g ∧ g_runs g = 5 ∧ g_passed g = 5 ∧
    len (version_diffs g) = 2.
Proof.
  assert (map_r (read_case suite_validate) sample = Ok suite) as Hs by by vm_compute.
  destruct (gate_decides repr0 no_query (λ _, JInt 0) serialize0 false suite_validate
    sample suite Hs) as [Htotal Hrep].
  assert (forallb (λ c, is_ok (run_replay repr0 no_query (λ _, JInt 0) serialize0 false c "current"))
    suite = true) as Hall by by vm_compute.
  destruct Htotal as [g Hg].
  - intros c Hc%list_elem_of_In. rewrite forallb_forall in Hall. specialize (Hall c Hc).
    destruct (run_replay _ _ _ _ _ c _); [eauto|done].
  - by vm_compute.
  - assert (match evaluate0 sample with Ok g => g_failed g | Raise _ => [] end = [])
      as Hnone by by vm_compute.
    rewrite Hg in Hnone.
    destruct (Hrep g Hg) as (Hruns & Hsum & _ & Hn & _ & Hgate).
    assert (runs_of suite = 5) as H5 by by vm_compute.
    exists g. rewrite Hnone, Hruns, H5 in Hsum. change (len []) with 0 in Hsum. split_and!.
    + apply Hgate. split; [done|]. by vm_compute.
    + by rewrite Hruns.
    + lia.
    + apply (f_equal len) in Hn. unfold len in *. rewrite !length_fmap in Hn. rewrite Hn.
      by vm_compute.
Defined.

(** The perturbations: an alias that is not mapped is caught wherever there is a log, and
    an ungrounded candidate always. *)
Example ablation_suite :
  match ablation0 sample with
  | Ok rows => (ungrounded_candidate_perturbation <$> rows) = [false; false] ∧
               (unmapped_alias_perturbation <$> rows) = [false; true]
  | Raise _ => False
  end.
Proof. by vm_compute. Qed.

(** ** A live run and its replay *)

(** A runtime that authorizes everything and remembers something. *)
#[local] Instance toy_ops : RuntimeOps RunContext := {|
  rt_run := id;
  rt_authorize _ := mret (JObj [(u "memories", JList [js "an earlier case"])]);
  rt_hook _ _ := mret ();
  rt_event _ _ := mret ();
|}.
#[local] Instance toy_laws : RuntimeLaws RunContext.
Proof. split; by intros r * [= <- _]. Qed.

(** Sources that answer with the records of [case_00]; the log names a password. *)
Definition live_log : pystr * json :=
  recorded_source "logs" [fixture "logs"
    [(u "service_name", js "checkout-api"); (u "level", js "ERROR");
     (u "message", js "pool login failed, password: hunter2"); (u "release", js "v2")]].
Definition live_query (step : PlanStep) (cursor : option json) : M RunContext json :=
  lift (match assoc (source_name (step_source step)) (live_log :: tail (recording case_00)) with
        | Some out => Ok out
        | None => Raise (exn_of RuntimeError "no source")
        end).
Lemma live_query_law step c r r' x : live_query step c r = (r', x) → rt_run r' = rt_run r.
Proof. by intros [= <- _]. Qed.

Abbreviation live_run := (unhandled_assemble repr0 live_query (λ _, JInt 7) serialize0 false case_run_00).

Abbreviation script0 re rep recs := (replay_script repr0 no_query (λ _, JInt 0) serialize0 false re
  {| rec_report := rep; rec_snapshots := recs |}).

(** What the theorem asks of the run, evaluated. *)
Definition replayable (b : ContextBundle) (recs : list (pystr * json)) : bool :=
  is_ok (report repr0 b)
  && forallb (λ kv, bool_decide (redact kv.2 = kv.2)) recs
  && match serialize0 (replayed_bundle b) ≫= encode with
     | Ok bytes => len bytes <=? 262144 | Raise _ => false end
  && negb (len (facts b) =? 0).

Lemma replay_faithful_witness :
  match live_run.2 with
  | Ok (b, recs) => ∃ rep, report repr0 b = Ok rep ∧ facts b ≠ [] ∧
      memories b = JList [js "an earlier case"] ∧
      script0 true rep recs = Ok {| reevaluated := true; writes_enabled := false;
        original_facts := len (facts b); current_facts := len (facts b); changed := false |}
  | Raise _ => False
  end.
Proof.
  assert (match live_run.2 with
          | Ok (b, recs) => replayable b recs = true ∧ memories b = JList [js "an earlier case"]
          | Raise _ => False end) as Hok by by vm_compute.
  revert Hok. destruct live_run as [rt' [[b recs]|e]] eqn:H; [|done].
  cbn [snd]. intros [Hok Hmem]. unfold replayable in Hok.
  apply andb_true_iff in Hok as [[[Hrep Hred]%andb_true_iff Hsize]%andb_true_iff Hne].
  destruct (report repr0 b) as [rep|e] eqn:Hr; [|done]. exists rep.
  destruct (serialize0 (replayed_bundle b)) as [text|e] eqn:Ht; [|done]. cbn in Hsize.
  destruct (encode text) as [bytes|e] eqn:He; [|done]. apply Z.leb_le in Hsize.
  split; [done|]. split; [by intros Hf; rewrite Hf in Hne|]. split; [done|].
  refine (proj1 (proj2 (replay_faithful repr0 live_query (λ _, JInt 7) (λ _, JInt 0) live_query_law
    serialize0 false no_query case_run_00 rt' b recs rep text bytes H Hr _ Ht He Hsize))).
  intros k o Hk%assoc_elem_of. rewrite forallb_forall in Hred.
  apply list_elem_of_In in Hk. specialize (Hred _ Hk). by apply bool_decide_eq_true in Hred.
Defined.
