(* ===== verification/Stats.v ===== *)
(** * Timing statistics (scripts/load.py, search_v2_load.py,
      public_log_investigations.py)

    The load scripts summarise what they measured with percentiles whose index is
    computed in binary64 ([math.ceil(len(values) * 0.95) - 1]), and pass or fail on a
    quotient compared with [0.01].  The arithmetic is written out as the interpreter
    does it (Retrieval's [float]), and the theorems say that the answers are those of
    exact arithmetic. *)
From stdpp Require Import sorting.
From S2P Require Import Prelude.
From S2P Require Import PyStr.
From S2P Require Import Json.
From S2P Require Import Retrieval.

(** ** More of binary64: products, quotients, integer parts *)

(** [n * x] for an integer [n] below [2 ^ 53], which is converted exactly. *)
Definition fmul_int (n : Z) (x : float) : float :=
  if n * mant x =? 0 then fzero else fround (n * mant x) 1 (expo x).

(** [n / d] for integers. *)
Definition fdiv_int (n d : Z) : float := if n =? 0 then fzero else fround n d 0.

(** [math.ceil(x)] and [int(x)]. *)
Definition fceil (x : float) : Z :=
  if 0 <=? expo x then mant x * 2 ^ expo x else - (- mant x / 2 ^ (- expo x)).
Definition ffloor (x : float) : Z :=
  if 0 <=? expo x then mant x * 2 ^ expo x else mant x / 2 ^ (- expo x).

(** [round(x, 3)]: the nearest thousandth, then the nearest double. *)
Definition round3 (x : float) : float :=
  fdiv_int (round_even (1000 * mant x * 2 ^ Z.max (expo x) 0) (2 ^ Z.max (- expo x) 0)) 1000.

(** The literals [0.5], [0.95] and [0.01]. *)
Definition f0_5 : float := fround 1 2 0.
Definition f0_95 : float := fround 95 100 0.
Definition f0_01 : float := fround 1 100 0.

(** ** The scripts' statistics *)

Definition fle (x y : float) : bool := negb (flt y x).

(** [sorted(values)]. *)
Definition sorted (l : list float) : list float := sort_by fle l.

(** [l[i]] for a non-negative index. *)
Definition at_index (l : list float) (i : Z) : result float :=
  match l !! Z.to_nat i with
  | Some x => Ok x
  | None => Raise (exn_of IndexError "list index out of range")
  end.

(** [max(l)]: the first of the greatest. *)
Definition fmax (l : list float) : result float :=
  match l with
  | [] => Raise (exn_of ValueError "max() iterable argument is empty")
  | x :: l' => Ok (foldl (λ m y, if flt m y then y else m) x l')
  end.

Record percentile := { p50 : float; p95 : float; pmax : float }.

(** public_log_investigations.py: [p] is a float but for [max_s], where it is [1]. *)
Definition percentiles (values : list float) : result (option percentile) :=
  let l := sorted values in
  let n := Z.of_nat (length l) in
  if (n =? 0) then Ok None
  else
    a ← at_index l (Z.max 0 (fceil (fmul_int n f0_5) - 1));
    b ← at_index l (Z.max 0 (fceil (fmul_int n f0_95) - 1));
    c ← at_index l (Z.max 0 (n * 1 - 1));
    Ok (Some {| p50 := round3 a; p95 := round3 b; pmax := round3 c |}).

(** search_v2_load.py: [stats], where an index of [-1] is the last element and an empty
    list has none. *)
Definition at_signed (l : list float) (i : Z) : result float :=
  let i := if i <? 0 then Z.of_nat (length l) + i else i in
  if i <? 0 then Raise (exn_of IndexError "list index out of range") else at_index l i.

Definition stats (a : list float) : result percentile :=
  let l := sorted a in
  let n := Z.of_nat (length l) in
  x ← at_signed l (fceil (fmul_int n f0_5) - 1);
  y ← at_signed l (fceil (fmul_int n f0_95) - 1);
  z ← fmax l;
  Ok {| p50 := round3 x; p95 := round3 y; pmax := round3 z |}.

(** load.py: the outcome of one request, and the verdict over all of them. *)
Record Timing := { ms : float; t_status : Z; t_kind : pystr }.

Definition non_success (results : list Timing) : Z :=
  Z.of_nat (length (filter (λ x, t_status x ∉ [200; 202]) results)).

Record LoadReport := {
  requests : Z; p50_ms : float; p95_ms : float; max_ms : float;
  errors : Z; non_success_rate : float; statuses : list (Z * Z); pass : bool }.

Definition load_report (duration rate : Z) (results : list Timing) : result LoadReport :=
  let times := sorted (ms <$> results) in
  let errors := non_success results in
  let n := Z.of_nat (length results) in
  let hist := (λ s, (s, Z.of_nat (length (filter (λ x, t_status x = s) results))))
                <$> fromkeys (t_status <$> results) in
  a ← at_index times (Z.of_nat (length times) / 2);
  b ← at_index times (ffloor (fmul_int (Z.of_nat (length times)) f0_95));
  c ← fmax times;
  Ok {| requests := n; p50_ms := a; p95_ms := b; max_ms := c; errors := errors;
        non_success_rate := fdiv_int errors n; statuses := hist;
        pass := (600 <=? duration) && (20 <=? rate) && flt b (F 500 0)
                && flt (fdiv_int errors n) f0_01 |}.

(** ** Order *)

(** A number as a multiple of [2 ^ - K]. *)
Definition scaled (K : Z) (x : float) : Z := mant x * 2 ^ (expo x + K).

Lemma scaled_shift K d x :
  0 ≤ d → 0 ≤ expo x + K → scaled (K + d) x = scaled K x * 2 ^ d.
Proof.
  intros Hd HK. unfold scaled. rewrite Z.add_assoc, Z.pow_add_r by lia. ring.
Qed.

Lemma flt_scaled K x y :
  0 ≤ expo x + K → 0 ≤ expo y + K → flt x y = (scaled K x <? scaled K y).
Proof.
  intros Hx Hy. unfold flt. set (e := Z.min (expo x) (expo y)).
  change (mant x * 2 ^ (expo x - e)) with (scaled (- e) x).
  change (mant y * 2 ^ (expo y - e)) with (scaled (- e) y).
  assert (0 ≤ K + e) by lia.
  replace K with (- e + (K + e)) by lia. rewrite !scaled_shift by lia.
  assert (0 < 2 ^ (K + e)) by (apply Z.pow_pos_nonneg; lia).
  apply eq_iff_eq_true. rewrite !Z.ltb_lt. apply Z.mul_lt_mono_pos_r. lia.
Qed.

Lemma flt_spec x y K :
  0 ≤ expo x + K → 0 ≤ expo y + K → flt x y = true ↔ scaled K x < scaled K y.
Proof. intros Hx Hy. rewrite (flt_scaled K) by done. apply Z.ltb_lt. Qed.

Lemma fle_spec x y K :
  0 ≤ expo x + K → 0 ≤ expo y + K → fle x y = true ↔ scaled K x ≤ scaled K y.
Proof.
  intros Hx Hy. unfold fle. rewrite (flt_scaled K) by done. rewrite negb_true_iff.
  apply Z.ltb_ge.
Qed.

Lemma fle_total x y : fle x y = true ∨ fle y x = true.
Proof.
  pose proof (Z.le_max_l (- expo x) (- expo y)). pose proof (Z.le_max_r (- expo x) (- expo y)).
  rewrite !(fle_spec _ _ (Z.max (- expo x) (- expo y))) by lia. lia.
Qed.

Lemma fle_trans x y z : fle x y = true → fle y z = true → fle x z = true.
Proof.
  set (K := Z.max (- expo x) (Z.max (- expo y) (- expo z))).
  rewrite !(fle_spec _ _ K) by lia. lia.
Qed.

Lemma fle_refl x : fle x x = true.
Proof. destruct (fle_total x x); done. Qed.

Lemma flt_fle x y : flt x y = true → fle x y = true.
Proof.
  set (K := Z.max (- expo x) (- expo y)).
  rewrite (flt_spec _ _ K), (fle_spec _ _ K) by lia. lia.
Qed.

Lemma flt_fle_trans x y z : flt x y = true → fle y z = true → flt x z = true.
Proof.
  set (K := Z.max (- expo x) (Z.max (- expo y) (- expo z))).
  rewrite (fle_spec _ _ K), !(flt_spec _ _ K) by lia. lia.
Qed.

Lemma fle_flt_trans x y z : fle x y = true → flt y z = true → flt x z = true.
Proof.
  set (K := Z.max (- expo x) (Z.max (- expo y) (- expo z))).
  rewrite (fle_spec _ _ K), !(flt_spec _ _ K) by lia. lia.
Qed.

(** ** Rounding *)

Lemma round_even_spec n d :
  0 < d →
  2 * Z.abs (n - round_even n d * d) ≤ d ∧
  (2 * Z.abs (n - round_even n d * d) = d → Z.even (round_even n d) = true).
Proof.
  intros Hd. unfold round_even. pose proof (Z.div_mod n d ltac:(lia)) as E.
  pose proof (Z.mod_pos_bound n d Hd) as B. set (q := n / d) in *. set (r := n mod d) in *.
  destruct (Z.ltb_spec (2 * r) d); [split; nia|].
  destruct (Z.ltb_spec d (2 * r)); [split; nia|].
  destruct (Z.even q) eqn:Hev; split; try done; try nia.
  intros _. by rewrite Z.even_add, Hev.
Qed.

(** A larger fraction never rounds lower. *)
Lemma round_even_mono n1 d1 n2 d2 :
  0 < d1 → 0 < d2 → n1 * d2 ≤ n2 * d1 → round_even n1 d1 ≤ round_even n2 d2.
Proof.
  intros H1 H2 H. destruct (round_even_spec n1 d1 H1) as [A1 T1].
  destruct (round_even_spec n2 d2 H2) as [A2 T2].
  set (q1 := round_even n1 d1) in *. set (q2 := round_even n2 d2) in *.
  destruct (Z.le_gt_cases q1 q2) as [?|Hgt]; [done|exfalso].
  assert (L1 : (2 * q1 - 1) * d1 ≤ 2 * n1) by lia.
  assert (L2 : 2 * n2 ≤ (2 * q2 + 1) * d2) by lia.
  assert (M1 : (2 * q1 - 1) * d1 * d2 ≤ 2 * n1 * d2) by (apply Z.mul_le_mono_nonneg_r; lia).
  assert (M2 : 2 * n2 * d1 ≤ (2 * q2 + 1) * d2 * d1) by (apply Z.mul_le_mono_nonneg_r; lia).
  assert (0 < d1 * d2) by nia.
  assert (q1 = q2 + 1) as Hq by nia.
  assert (2 * n1 * d2 = (2 * q2 + 1) * d1 * d2 ∧ 2 * n2 * d1 = (2 * q2 + 1) * d2 * d1)
    as [E1 E2] by (rewrite Hq in *; lia).
  assert (2 * n1 = (2 * q2 + 1) * d1) by (apply (Z.mul_reg_r _ _ d2); lia).
  assert (2 * n2 = (2 * q2 + 1) * d2) by (apply (Z.mul_reg_r _ _ d1); lia).
  rewrite Hq in *. clear Hgt.
  assert (Z.even (q2 + 1) = true) by (apply T1; lia).
  assert (Z.even q2 = true) as Hev by (apply T2; lia).
  rewrite Z.even_add, Hev in *. done.
Qed.

(** The scale of a fraction puts it within two binades. *)
Lemma scale_bounds n d u v :
  0 < n → 0 < d → 0 ≤ u → 0 ≤ v → u - v = 53 + Z.log2 d - Z.log2 n →
  2 ^ 52 * (d * 2 ^ v) < n * 2 ^ u < 2 ^ 54 * (d * 2 ^ v).
Proof.
  intros Hn Hd Hu Hv E. pose proof (Z.log2_spec n Hn) as [N1 N2].
  pose proof (Z.log2_spec d Hd) as [D1 D2].
  rewrite Z.pow_succ_r in N2, D2 by apply Z.log2_nonneg.
  assert (Hp : 2 ^ Z.log2 n * 2 ^ u = 2 ^ 53 * 2 ^ Z.log2 d * 2 ^ v).
  { pose proof (Z.log2_nonneg n). pose proof (Z.log2_nonneg d).
    rewrite <- !Z.pow_add_r by lia. f_equal. lia. }
  assert (0 < 2 ^ u) by (apply Z.pow_pos_nonneg; lia).
  assert (0 < 2 ^ v) by (apply Z.pow_pos_nonneg; lia).
  set (U := 2 ^ u) in *. set (V := 2 ^ v) in *.
  set (A := 2 ^ Z.log2 n) in *. set (B := 2 ^ Z.log2 d) in *.
  assert (A * U ≤ n * U < 2 * A * U) by nia.
  assert (B * V ≤ d * V < 2 * B * V) by nia. lia.
Qed.

(** [fround] picks the binade of the fraction and rounds the fraction to it. *)
Lemma fround_spec n d e :
  0 < n → 0 < d →
  ∃ s m,
    (∀ K, 0 ≤ e - s + K → 0 ≤ expo (fround n d e) + K ∧
       scaled K (fround n d e) = m * 2 ^ (e - s + K)) ∧
    2 ^ 52 ≤ m ≤ 2 ^ 53 ∧
    let a := n * 2 ^ Z.max s 0 in let b := d * 2 ^ Z.max (- s) 0 in
    m = round_even a b ∧ 2 ^ 52 * b ≤ a < 2 ^ 53 * b.
Proof.
  intros Hn Hd. set (s0 := 53 + Z.log2 d - Z.log2 n).
  pose proof (scale_bounds n d (Z.max s0 0) (Z.max (- s0) 0) Hn Hd
    ltac:(lia) ltac:(lia) ltac:(lia)) as Hs0.
  set (a s := n * 2 ^ Z.max s 0). set (b s := d * 2 ^ Z.max (- s) 0).
  change (2 ^ 52 * b s0 < a s0 < 2 ^ 54 * b s0) in Hs0.
  set (s := if a s0 / b s0 <? 2 ^ 53 then s0 else s0 - 1).
  assert (Hb : ∀ s, 0 < b s).
  { intros x. apply Z.mul_pos_pos; [lia|]. apply Z.pow_pos_nonneg; lia. }
  assert (Hs : 2 ^ 52 * b s ≤ a s < 2 ^ 53 * b s).
  { unfold s. destruct (Z.ltb_spec (a s0 / b s0) (2 ^ 53)) as [Hq|Hq].
    - pose proof (Z.mul_succ_div_gt (a s0) (b s0) (Hb s0)). specialize (Hb s0). nia.
    - pose proof (Z.mul_div_le (a s0) (b s0) (Hb s0)). specialize (Hb s0).
      assert (2 ^ 53 * b s0 ≤ a s0) by nia.
      destruct (Z.le_gt_cases 1 s0).
      + assert (b (s0 - 1) = b s0) as -> by (unfold b; do 2 f_equal; lia).
        assert (a s0 = 2 * a (s0 - 1)); [|lia]. unfold a.
        replace (Z.max s0 0) with (Z.succ (Z.max (s0 - 1) 0)) by lia.
        rewrite Z.pow_succ_r by lia. ring.
      + assert (a (s0 - 1) = a s0) as -> by (unfold a; do 2 f_equal; lia).
        assert (b (s0 - 1) = 2 * b s0) as ->; [|lia]. unfold b.
        replace (Z.max (- (s0 - 1)) 0) with (Z.succ (Z.max (- s0) 0)) by lia.
        rewrite Z.pow_succ_r by lia. ring. }
  assert (Hm : 2 ^ 52 ≤ round_even (a s) (b s) ≤ 2 ^ 53).
  { pose proof (round_even_spec (a s) (b s) (Hb s)) as [A _]. specialize (Hb s). nia. }
  exists s, (round_even (a s) (b s)). split; [|by split].
  intros K HK. change (fround n d e) with
    (if round_even (a s) (b s) =? 2 ^ 53 then F (2 ^ 52) (e - s + 1)
     else F (round_even (a s) (b s)) (e - s)).
  destruct (Z.eqb_spec (round_even (a s) (b s)) (2 ^ 53)) as [E|_]; [|by split].
  unfold scaled. cbn [mant expo]. split; [lia|]. rewrite E.
  replace (e - s + 1 + K) with (Z.succ (e - s + K)) by lia.
  rewrite Z.pow_succ_r by lia. ring.
Qed.

Lemma fractions_apart n1 d1 n2 d2 u1 v1 u2 v2 :
  0 < d1 → 0 < d2 → 0 < u1 → 0 < v1 → 0 < u2 → 0 < v2 →
  n1 * d2 ≤ n2 * d1 → 2 ^ 52 * (d1 * v1) ≤ n1 * u1 → n2 * u2 < 2 ^ 53 * (d2 * v2) →
  2 * (u1 * v2) ≤ u2 * v1 → False.
Proof.
  intros. set (D := d1 * d2). assert (0 < D) by nia.
  assert (0 < u1 * u2) by nia.
  assert (n1 * d2 * (u1 * u2) ≤ n2 * d1 * (u1 * u2)) by nia.
  assert (2 ^ 52 * (d1 * v1) * (d2 * u2) ≤ n1 * u1 * (d2 * u2)) by nia.
  assert (n2 * u2 * (d1 * u1) < 2 ^ 53 * (d2 * v2) * (d1 * u1)) by nia.
  assert (D * (u2 * v1) < D * (2 * (u1 * v2))) by (unfold D; lia).
  assert (D * (2 * (u1 * v2)) ≤ D * (u2 * v1)) by nia. lia.
Qed.

(** Rounding respects the order of the fractions. *)
Lemma fround_mono n1 d1 n2 d2 e :
  0 < n1 → 0 < d1 → 0 < n2 → 0 < d2 → n1 * d2 ≤ n2 * d1 →
  fle (fround n1 d1 e) (fround n2 d2 e) = true.
Proof.
  intros Hn1 Hd1 Hn2 Hd2 H.
  destruct (fround_spec n1 d1 e Hn1 Hd1) as (s1 & m1 & V1 & M1 & R1 & B1).
  destruct (fround_spec n2 d2 e Hn2 Hd2) as (s2 & m2 & V2 & M2 & R2 & B2).
  set (K := Z.max (- e + s1) (- e + s2)).
  destruct (V1 K) as [K1 E1]; [lia|]. destruct (V2 K) as [K2 E2]; [lia|].
  rewrite (fle_spec _ _ K), E1, E2 by done. clear V1 V2 K1 K2 E1 E2.
  assert (P : ∀ z, 0 ≤ z → 0 < 2 ^ z) by (intros; apply Z.pow_pos_nonneg; lia).
  destruct (Z.lt_trichotomy s1 s2) as [Hlt|[->|Hlt]].
  - exfalso. pose proof (P (Z.max s1 0) ltac:(lia)) as U1.
    pose proof (P (Z.max (- s1) 0) ltac:(lia)) as W1.
    pose proof (P (Z.max s2 0) ltac:(lia)) as U2.
    pose proof (P (Z.max (- s2) 0) ltac:(lia)) as W2.
    assert (Hr : 2 * (2 ^ Z.max s1 0 * 2 ^ Z.max (- s2) 0)
              ≤ 2 ^ Z.max s2 0 * 2 ^ Z.max (- s1) 0).
    { rewrite <- !Z.pow_add_r, <- Z.pow_succ_r by lia.
      apply Z.pow_le_mono_r; lia. }
    eapply (fractions_apart n1 d1 n2 d2); [..|exact H|apply B1|apply B2|exact Hr]; done.
  - apply Z.mul_le_mono_nonneg_r; [pose proof (P (e - s2 + K) ltac:(lia)); lia|].
    rewrite R1, R2. pose proof (P (Z.max s2 0) ltac:(lia)).
    pose proof (P (Z.max (- s2) 0) ltac:(lia)).
    set (A := 2 ^ Z.max s2 0) in *. set (B := 2 ^ Z.max (- s2) 0) in *.
    apply round_even_mono; [by apply Z.mul_pos_pos..|].
    assert (n1 * d2 * (A * B) ≤ n2 * d1 * (A * B))
      by (apply Z.mul_le_mono_nonneg_r; [nia|done]). lia.
  - replace (e - s2 + K) with (e - s1 + K + (s1 - s2 - 1) + 1) by lia.
    assert (0 ≤ e - s1 + K) as Hx by lia. assert (0 ≤ s1 - s2 - 1) as Hy by lia.
    revert Hx Hy. generalize (e - s1 + K) (s1 - s2 - 1). intros x y Hx Hy.
    rewrite !Z.pow_add_r by lia. change (2 ^ 1) with 2.
    apply P in Hx, Hy. set (X := 2 ^ x) in *. set (Y := 2 ^ y) in *.
    assert (X ≤ X * Y) by nia. nia.
Qed.


(** ** Integer parts *)

Lemma fceil_scaled K x :
  0 ≤ K → 0 ≤ expo x + K → fceil x = - (- scaled K x / 2 ^ K).
Proof.
  intros HK Hx. assert (0 < 2 ^ K) by (apply Z.pow_pos_nonneg; lia).
  unfold fceil, scaled. destruct (Z.leb_spec 0 (expo x)).
  - rewrite Z.pow_add_r, Z.mul_assoc, <- Z.mul_opp_l, Z.div_mul by lia. lia.
  - replace (2 ^ K) with (2 ^ (- expo x) * 2 ^ (expo x + K))
      by (rewrite <- Z.pow_add_r by lia; f_equal; lia).
    rewrite <- Z.mul_opp_l, Z.div_mul_cancel_r; [done| |]; apply Z.pow_nonzero; lia.
Qed.

Lemma ffloor_scaled K x :
  0 ≤ K → 0 ≤ expo x + K → ffloor x = scaled K x / 2 ^ K.
Proof.
  intros HK Hx. assert (0 < 2 ^ K) by (apply Z.pow_pos_nonneg; lia).
  unfold ffloor, scaled. destruct (Z.leb_spec 0 (expo x)).
  - rewrite Z.pow_add_r, Z.mul_assoc, Z.div_mul by lia. lia.
  - replace (2 ^ K) with (2 ^ (- expo x) * 2 ^ (expo x + K))
      by (rewrite <- Z.pow_add_r by lia; f_equal; lia).
    rewrite Z.div_mul_cancel_r; [done| |]; apply Z.pow_nonzero; lia.
Qed.

(** A product with a double in [0.5, 1): the product rounded to a multiple [D] of the
    unit in its last place. *)
Lemma product_rounds n M :
  0 < n < 2 ^ 40 → 2 ^ 52 ≤ M < 2 ^ 53 →
  ∃ D k m, 0 < D ∧ 2 ^ 12 ≤ k ∧ D * (2 * k) = 2 ^ 53 ∧ m = round_even (n * M) D ∧
    2 ^ 52 * D ≤ n * M < 2 ^ 53 * D ∧
    fceil (fmul_int n (F M (-53))) = - (- m / (2 * k)) ∧
    ffloor (fmul_int n (F M (-53))) = m / (2 * k).
Proof.
  intros Hn HM. unfold fmul_int. cbn [mant expo].
  destruct (Z.eqb_spec (n * M) 0); [nia|].
  destruct (fround_spec (n * M) 1 (-53)) as (s & m & V & Hm & R & B); [nia|lia|].
  assert (s ≤ 0).
  { destruct (Z.le_gt_cases s 0) as [|Hs]; [done|].
    replace (Z.max (- s) 0) with 0 in B by lia. replace (Z.max s 0) with s in B by lia.
    assert (2 ^ 1 ≤ 2 ^ s) by (apply Z.pow_le_mono_r; lia). nia. }
  replace (Z.max s 0) with 0 in * by lia. replace (Z.max (- s) 0) with (- s) in * by lia.
  rewrite Z.mul_1_r, Z.mul_1_l in *. set (D := 2 ^ (- s)) in *.
  assert (0 < D) by (apply Z.pow_pos_nonneg; lia).
  assert (- s < 41).
  { apply (Z.pow_lt_mono_r_iff 2); [lia|lia|]. fold D. nia. }
  assert (HDk : D * (2 * 2 ^ (52 + s)) = 2 ^ 53).
  { unfold D. rewrite <- Z.pow_succ_r, <- Z.pow_add_r by lia. f_equal. lia. }
  assert (2 ^ 12 ≤ 2 ^ (52 + s)) by (apply Z.pow_le_mono_r; lia).
  exists D, (2 ^ (52 + s)), m. do 5 (split; [done|]).
  destruct (V 53) as [Ve Vs]; [lia|]. replace (-53 - s + 53) with (- s) in Vs by lia.
  fold D in Vs. rewrite (fceil_scaled 53), (ffloor_scaled 53), Vs, <- HDk by lia.
  split; [rewrite <- Z.mul_opp_l|]; rewrite (Z.mul_comm D), Z.div_mul_cancel_r; lia.
Qed.

(** A quotient within the integer part. *)
Lemma div_between m k q : 0 < k → q * k ≤ m < (q + 1) * k → m / k = q.
Proof. intros Hk H. symmetry. apply (Z.div_unique m k q (m - q * k)); lia. Qed.

Lemma ceil_between m k q : 0 < k → (q - 1) * k < m ≤ q * k → - (- m / k) = q.
Proof. intros Hk H. rewrite (div_between (- m) k (- q)); lia. Qed.

(** The double [0.95] is below [19 / 20] by four parts in ten of its last bit; over all
    lengths below [2 ^ 40] neither that nor the rounding of the product moves an index. *)
Lemma index_p95 n :
  0 < n < 2 ^ 40 →
  fceil (fmul_int n f0_95) = - (- (19 * n) / 20) ∧ ffloor (fmul_int n f0_95) = 19 * n / 20.
Proof.
  intros Hn. replace f0_95 with (F 8556839292003942 (-53)) by by vm_compute.
  destruct (product_rounds n 8556839292003942 Hn)
    as (D & k' & m & HD & Hk & HDk & R & B & -> & ->); [lia|].
  destruct (round_even_spec (n * 8556839292003942) D HD) as [E _]. rewrite <- R in E.
  set (k := 2 * k') in *.
  clear R. set (e := n * 8556839292003942 - m * D) in *.
  assert (He : - D ≤ 2 * e ≤ D) by lia.
  assert (Hd : (19 * n * k - 20 * m) * D = 8 * n + 20 * e).
  { unfold e. replace ((19 * n * k - 20 * m) * D) with (19 * n * (D * k) - 20 * (m * D)) by ring.
    rewrite HDk. lia. }
  assert (-6 < 19 * n * k - 20 * m < 19) as Hdelta by nia.
  clear Hd He E B e HDk. set (q := 19 * n / 20). set (r := (19 * n) mod 20).
  assert (Hq : 19 * n = 20 * q + r) by apply Z.div_mod, eq_refl || (apply Z.div_mod; lia).
  assert (Hr : 0 ≤ r < 20) by (apply Z.mod_pos_bound; lia).
  rewrite Hq in Hdelta |- *.
  assert (Hm : q * k ≤ m < (q + 1) * k) by nia.
  split; [|rewrite (div_between m k q) by lia; symmetry; apply div_between; lia].
  destruct (Z.eq_dec r 0) as [Hr0|Hr0].
  - rewrite (ceil_between m k q), (ceil_between _ 20 q) by nia. done.
  - rewrite (ceil_between m k (q + 1)), (ceil_between _ 20 (q + 1)) by nia. done.
Qed.

Lemma index_p50 n : 0 < n < 2 ^ 40 → fceil (fmul_int n f0_5) = - (- n / 2).
Proof.
  intros Hn. replace f0_5 with (F (2 ^ 52) (-53)) by by vm_compute.
  destruct (product_rounds n (2 ^ 52) Hn) as (D & k & m & HD & Hk & HDk & R & B & -> & _);
    [lia|].
  destruct (round_even_spec (n * 2 ^ 52) D HD) as [E _]. rewrite <- R in E. clear R.
  assert (n * 2 ^ 52 = n * k * D) as Hx.
  { assert (2 ^ 52 = D * k) as -> by lia. ring. }
  rewrite Hx in E.
  assert (m = n * k) as -> by nia.
  rewrite <- Z.mul_opp_l, Z.div_mul_cancel_r by lia. done.
Qed.

(** [a / b < 0.01] decided in binary64 is [100 * a < b], for counts. *)
Lemma quotient_below a b :
  0 ≤ a → 0 < b < 2 ^ 53 → flt (fdiv_int a b) f0_01 = true ↔ 100 * a < b.
Proof.
  intros Ha Hb. unfold fdiv_int, f0_01. destruct (Z.eqb_spec a 0) as [->|Hna].
  { split; [lia|]. by intros _; vm_compute. }
  destruct (Z.le_gt_cases b (100 * a)) as [Hle|Hlt].
  { split; [|lia]. pose proof (fround_mono 1 100 a b 0 ltac:(lia) ltac:(lia) ltac:(lia)
      ltac:(lia) ltac:(lia)) as H. unfold fle in H. apply negb_true_iff in H. congruence. }
  split; [done|]. intros _.
  destruct (fround_spec a b 0) as (s & m & V & Hm & R & B); [lia|lia|].
  assert (Hs : 7 ≤ s).
  { destruct (Z.le_gt_cases 7 s) as [|Hs]; [done|]. exfalso.
    assert (Hu : 2 ^ Z.max s 0 ≤ 2 ^ 6) by (apply Z.pow_le_mono_r; lia).
    assert (1 ≤ 2 ^ Z.max (- s) 0) by (pose proof (Z.pow_pos_nonneg 2 (Z.max (- s) 0)); lia).
    nia. }
  replace (Z.max s 0) with s in * by lia. replace (Z.max (- s) 0) with 0 in * by lia.
  rewrite Z.mul_1_r in *. destruct (V (s + 59)) as [Ve Vs]; [lia|].
  replace (fround 1 100 0) with (F 5764607523034235 (-59)) by by vm_compute.
  apply (flt_spec _ _ (s + 59)); [done|cbn; lia|]. rewrite Vs. unfold scaled.
  cbn [mant expo]. replace (0 - s + (s + 59)) with 59 by lia.
  replace (-59 + (s + 59)) with s by lia.
  destruct (round_even_spec (a * 2 ^ s) b ltac:(lia)) as [E _]. rewrite <- R in E.
  set (S := 2 ^ s) in *. assert (0 < S) by (apply Z.pow_pos_nonneg; lia).
  assert (2 * (m * b) ≤ 2 * (a * S) + b) by lia.
  assert (2 * 2 ^ 52 * (m * b) ≤ (2 * 2 ^ 52 + 1) * (a * S)) by lia.
  assert (100 * (a * S) ≤ (b - 1) * S) by nia.
  assert (100 * 2 ^ 53 * (m * b) < 2 ^ 53 * (b * S)) by nia.
  assert (100 * m < S) by nia. lia.
Qed.

(** ** Ranks *)

(** How many values are at most, or below, a bound. *)
Definition at_most (v : float) (l : list float) : Z :=
  Z.of_nat (length (filter (λ y, fle y v = true) l)).
Definition below (v : float) (l : list float) : Z :=
  Z.of_nat (length (filter (λ y, flt y v = true) l)).

(** The nearest-rank percentile: a value that at least [p] percent of the values do
    not exceed, and fewer are below. *)
Definition nearest_rank (p : Z) (l : list float) (v : float) : Prop :=
  v ∈ l ∧ p * Z.of_nat (length l) ≤ 100 * at_most v l ∧
  100 * below v l < p * Z.of_nat (length l).

Lemma sorted_perm l : sorted l ≡ₚ l.
Proof. apply sort_by_perm. Qed.

Lemma length_sorted l : length (sorted l) = length l.
Proof. by rewrite sorted_perm. Qed.

Lemma at_most_sorted v l : at_most v (sorted l) = at_most v l.
Proof. unfold at_most. by rewrite sorted_perm. Qed.
Lemma below_sorted v l : below v (sorted l) = below v l.
Proof. unfold below. by rewrite sorted_perm. Qed.

(** A sorted list around one of its elements. *)
Lemma sorted_middle l i v :
  sorted l !! i = Some v →
  ∃ l1 l2, sorted l = l1 ++ v :: l2 ∧ length l1 = i ∧
    (∀ y, y ∈ l1 → fle y v = true) ∧ (∀ y, y ∈ l2 → fle v y = true).
Proof.
  intros Hi. pose proof (lookup_lt_Some _ _ _ Hi).
  exists (take i (sorted l)), (drop (S i) (sorted l)).
  split; [by rewrite take_drop_middle|]. split; [by rewrite length_take_le by lia|].
  pose proof (sort_by_strongly_sorted fle l fle_total fle_trans) as Hs.
  change (sort_by fle l) with (sorted l) in Hs. rewrite <- (take_drop_middle _ _ _ Hi) in Hs.
  apply StronglySorted_app in Hs as (Hc & _ & Hd).
  apply StronglySorted_cons in Hd as [Hd _]. split; intros y Hy.
  - apply Hc; [done|apply list_elem_of_here].
  - rewrite Forall_forall in Hd. by apply Hd.
Qed.

(** What the position of a value in the sorted list says of the values. *)
Lemma sorted_at_most l i v : sorted l !! i = Some v → Z.of_nat i < at_most v l.
Proof.
  intros (l1 & l2 & E & Hl & H1 & _)%sorted_middle.
  rewrite <- at_most_sorted, E. unfold at_most.
  rewrite filter_app, filter_cons_True by apply fle_refl.
  rewrite filter_all by by apply Forall_forall. rewrite length_app. cbn. lia.
Qed.

Lemma sorted_below l i v w :
  sorted l !! i = Some v → flt v w = true ↔ Z.of_nat i < below w l.
Proof.
  intros (l1 & l2 & E & Hl & H1 & H2)%sorted_middle.
  rewrite <- below_sorted, E. unfold below. split.
  - intros Hv. rewrite filter_app, filter_cons_True by done.
    rewrite filter_all by (apply Forall_forall; eauto using fle_flt_trans).
    rewrite length_app. cbn. lia.
  - intros Hlt. destruct (flt v w) eqn:Hv; [done|exfalso].
    rewrite filter_app, (filter_none _ (v :: l2)), app_nil_r in Hlt.
    { pose proof (length_filter (λ y, flt y w = true) l1). lia. }
    intros y Hy Hyw. apply elem_of_cons in Hy as [->|Hy]; [congruence|].
    pose proof (fle_flt_trans v y w (H2 y Hy) Hyw). congruence.
Qed.

Lemma flt_irrefl v : flt v v = false.
Proof. pose proof (fle_refl v) as H. unfold fle in H. by destruct (flt v v). Qed.

Lemma sorted_lookup_rank l i v p :
  sorted l !! i = Some v →
  p * Z.of_nat (length l) ≤ 100 * (Z.of_nat i + 1) →
  100 * Z.of_nat i < p * Z.of_nat (length l) → nearest_rank p l v.
Proof.
  intros Hi H1 H2. split; [rewrite <- sorted_perm; by eapply list_elem_of_lookup_2|].
  pose proof (sorted_at_most _ _ _ Hi).
  destruct (sorted_below l i v v Hi) as [_ Hb]. rewrite flt_irrefl in Hb.
  assert (¬ Z.of_nat i < below v l) by (intros ?%Hb; done). lia.
Qed.

Lemma sorted_lookup_le l i j v w :
  sorted l !! i = Some v → sorted l !! j = Some w → (i ≤ j)%nat → fle v w = true.
Proof.
  intros Hi Hj Hij. destruct (decide (i = j)) as [->|]; [|].
  { assert (v = w) as -> by congruence. apply fle_refl. }
  destruct (sorted_middle l i v Hi) as (l1 & l2 & E & Hl & _ & H2).
  apply H2. rewrite E in Hj. rewrite lookup_app_r in Hj by lia.
  apply list_elem_of_lookup. exists (j - length l1 - 1)%nat.
  replace (j - length l1)%nat with (S (j - length l1 - 1)) in Hj by lia. done.
Qed.

Lemma at_index_lookup l i :
  0 ≤ i < Z.of_nat (length l) → ∃ v, at_index l i = Ok v ∧ l !! Z.to_nat i = Some v.
Proof.
  intros Hi. destruct (lookup_lt_is_Some_2 l (Z.to_nat i)) as [v Hv]; [lia|].
  exists v. unfold at_index. by rewrite Hv.
Qed.

(** The element at the index of a percentile is the nearest rank. *)
Lemma at_index_rank l i p :
  0 ≤ i < Z.of_nat (length l) →
  p * Z.of_nat (length l) ≤ 100 * (i + 1) → 100 * i < p * Z.of_nat (length l) →
  ∃ v, at_index (sorted l) i = Ok v ∧ sorted l !! Z.to_nat i = Some v ∧ nearest_rank p l v.
Proof.
  intros Hi H1 H2. destruct (at_index_lookup (sorted l) i) as (v & Hv & Hl).
  { by rewrite length_sorted. }
  exists v. split; [done|]. split; [done|].
  eapply sorted_lookup_rank; [exact Hl|..]; rewrite Z2Nat.id; lia.
Qed.

Definition countable_length (l : list float) : Prop :=
  (0 < length l)%nat ∧ Z.of_nat (length l) < 2 ^ 40.

(** What [percentiles] selects, before rounding. *)
Lemma percentiles_ranks l :
  countable_length l →
  ∃ a b c,
    percentiles l = Ok (Some {| p50 := round3 a; p95 := round3 b; pmax := round3 c |}) ∧
    (nearest_rank 50 l a ∧ nearest_rank 95 l b ∧ nearest_rank 100 l c) ∧
    fle a b = true ∧ fle b c = true ∧
    let n := Z.of_nat (length l) in
    at_index (sorted l) (- (- n / 2) - 1) = Ok a ∧
    at_index (sorted l) (- (- (19 * n) / 20) - 1) = Ok b ∧
    sorted l !! Z.to_nat (n - 1) = Some c.
Proof.
  intros [Hl Hn]. unfold percentiles. rewrite length_sorted.
  set (n := Z.of_nat (length l)) in *. assert (0 < n < 2 ^ 40) as Hn' by lia.
  destruct (index_p95 n Hn') as [-> _]. rewrite (index_p50 n Hn').
  assert ((n =? 0) = false) as -> by lia.
  rewrite !Z.max_r by (Z.to_euclidean_division_equations; lia).
  rewrite Z.mul_1_r.
  destruct (at_index_rank l (- (- n / 2) - 1) 50) as (a & Ha & Ia & Ra);
    [Z.to_euclidean_division_equations; lia..|].
  destruct (at_index_rank l (- (- (19 * n) / 20) - 1) 95) as (b & Hb & Ib & Rb);
    [Z.to_euclidean_division_equations; lia..|].
  destruct (at_index_rank l (n - 1) 100) as (c & Hc & Ic & Rc); [lia..|].
  exists a, b, c. rewrite Ha, Hb, Hc. split; [done|]. split; [done|].
  split; [|split; [|done]].
  - apply (sorted_lookup_le l _ _ _ _ Ia Ib). Z.to_euclidean_division_equations; lia.
  - apply (sorted_lookup_le l _ _ _ _ Ib Ic). Z.to_euclidean_division_equations; lia.
Qed.

(** ** Rounding for display *)

Definition nonneg (x : float) : Prop := 0 ≤ mant x.

(** The thousandths nearest to a number. *)
Definition thousandths (x : float) : Z :=
  round_even (1000 * mant x * 2 ^ Z.max (expo x) 0) (2 ^ Z.max (- expo x) 0).

Lemma thousandths_mono x y : fle x y = true → thousandths x ≤ thousandths y.
Proof.
  set (K := Z.max (- expo x) (- expo y)). intros H.
  apply (fle_spec _ _ K) in H; [|lia..]. unfold scaled in H.
  assert (P : ∀ z, 0 < 2 ^ Z.max z 0) by (intros; apply Z.pow_pos_nonneg; lia).
  apply round_even_mono; [apply P|apply P|].
  set (T := Z.max (- expo x) 0 + Z.max (- expo y) 0 - K).
  assert (EX : 2 ^ Z.max (expo x) 0 * 2 ^ Z.max (- expo y) 0 = 2 ^ (expo x + K) * 2 ^ T).
  { rewrite <- !Z.pow_add_r by lia. f_equal. lia. }
  assert (EY : 2 ^ Z.max (expo y) 0 * 2 ^ Z.max (- expo x) 0 = 2 ^ (expo y + K) * 2 ^ T).
  { rewrite <- !Z.pow_add_r by lia. f_equal. lia. }
  assert (0 < 2 ^ T) by (apply Z.pow_pos_nonneg; lia).
  rewrite <- !Z.mul_assoc, EX, EY. nia.
Qed.

Lemma round3_mono x y : nonneg x → fle x y = true → fle (round3 x) (round3 y) = true.
Proof.
  intros Hx H%thousandths_mono. unfold round3, fdiv_int.
  fold (thousandths x) (thousandths y).
  assert (0 ≤ thousandths x).
  { unfold nonneg in Hx. assert (P : ∀ z, 0 < 2 ^ Z.max z 0) by (intros; apply Z.pow_pos_nonneg; lia).
    pose proof (round_even_mono 0 1 (1000 * mant x * 2 ^ Z.max (expo x) 0)
      (2 ^ Z.max (- expo x) 0) ltac:(lia) (P _)) as Hm. specialize (P (expo x)).
    apply Hm. nia. }
  destruct (Z.eqb_spec (thousandths x) 0) as [Hz|Hz].
  - destruct (Z.eqb_spec (thousandths y) 0); [apply fle_refl|].
    destruct (fround_spec (thousandths y) 1000 0) as (s & m & V & Hm & _); [lia|lia|].
    destruct (V (Z.max 0 s)) as [Ve Vs]; [lia|].
    apply (fle_spec _ _ (Z.max 0 s)); [cbn; lia|done|]. rewrite Vs.
    change (scaled (Z.max 0 s) fzero) with 0.
    apply Z.mul_nonneg_nonneg; [lia|apply Z.pow_nonneg; lia].
  - destruct (Z.eqb_spec (thousandths y) 0); [lia|]. apply fround_mono; lia.
Qed.

(** Numbers that compare equal are shown alike. *)
Lemma round3_same x y : fle x y = true → fle y x = true → round3 x = round3 y.
Proof.
  intros H1%thousandths_mono H2%thousandths_mono. unfold round3.
  fold (thousandths x) (thousandths y). f_equal. lia.
Qed.

Lemma at_signed_nonneg l i : 0 ≤ i → at_signed l i = at_index l i.
Proof. intros Hi. unfold at_signed. by rewrite !(proj2 (Z.ltb_ge i 0)). Qed.

Lemma fmax_spec l m : fmax l = Ok m → m ∈ l ∧ ∀ y, y ∈ l → fle y m = true.
Proof.
  destruct l as [|x l]; [done|]. cbn. intros [= <-]. revert x.
  induction l as [|z l IH]; intros x; cbn.
  - split; [apply list_elem_of_here|]. intros y Hy%list_elem_of_singleton. subst.
    apply fle_refl.
  - destruct (IH (if flt x z then z else x)) as [Hin Hmax].
    assert (Hfz : fle x (if flt x z then z else x) = true ∧
                  fle z (if flt x z then z else x) = true).
    { destruct (flt x z) eqn:E; split; try apply fle_refl; [by apply flt_fle|].
      unfold fle. by rewrite E. }
    split.
    { apply elem_of_cons in Hin as [->|Hin]; [|by do 2 apply list_elem_of_further].
      destruct (flt x z); rewrite !elem_of_cons; auto. }
    assert (Hm := Hmax _ (list_elem_of_here _ _)). destruct Hfz.
    intros y [->|[->|Hy]%elem_of_cons]%elem_of_cons;
      [eapply fle_trans; eassumption..|]. apply Hmax. by apply list_elem_of_further.
Qed.

(** C26. The reported percentiles are the nearest ranks: of the values measured, the
    ones whose rounding to thousandths is shown as p50, p95 and max are such that at
    least 50, 95 and 100 percent of the values do not exceed them while fewer are
    below, although their positions are computed in binary64; they are shown in
    order, and [stats] shows the same. *)
Theorem percentiles_nearest_rank l :
  countable_length l → Forall nonneg l →
  ∃ a b c,
    let p := {| p50 := round3 a; p95 := round3 b; pmax := round3 c |} in
    percentiles l = Ok (Some p) ∧ stats l = Ok p ∧
    nearest_rank 50 l a ∧ nearest_rank 95 l b ∧ nearest_rank 100 l c ∧
    fle (p50 p) (p95 p) = true ∧ fle (p95 p) (pmax p) = true.
Proof.
  intros Hl Hpos. destruct (percentiles_ranks l Hl) as (a & b & c & Hp & (Ra & Rb & Rc) & Hab & Hbc &
    Ia & Ib & Ic). destruct Hl as [Hl Hn].
  exists a, b, c. split; [done|]. rewrite Forall_forall in Hpos. split.
  - unfold stats. rewrite length_sorted.
    destruct (index_p95 (Z.of_nat (length l))) as [-> _]; [lia|].
    rewrite index_p50 by lia.
    rewrite !at_signed_nonneg by (Z.to_euclidean_division_equations; lia).
    rewrite Ia, Ib. cbn [mbind result_bind].
    destruct (sorted l) as [|x l'] eqn:E; [by rewrite lookup_nil in Ic|]. rewrite <- E in *.
    destruct (fmax (sorted l)) as [m|] eqn:Em; [|by rewrite E in Em].
    apply fmax_spec in Em as [Hin Hmax]. cbn. do 2 f_equal.
    apply round3_same; [|apply Hmax; by eapply list_elem_of_lookup_2].
    apply list_elem_of_lookup in Hin as [i Hi].
    pose proof (lookup_lt_Some _ _ _ Hi) as Hlt. rewrite length_sorted in Hlt.
    apply (sorted_lookup_le l i _ _ _ Hi Ic). lia.
  - do 3 (split; [done|]). cbn.
    split; apply round3_mono; try done; apply Hpos; [apply Ra|apply Rb].
Qed.

(** An even distribution of a hundred values. *)
Lemma percentiles_nearest_rank_witness :
  let l := (λ n, F (Z.of_nat n) 0) <$> seq 1 20 in
  countable_length l ∧ Forall nonneg l ∧
  ∃ a b c, percentiles l = Ok (Some {| p50 := round3 a; p95 := round3 b; pmax := round3 c |}).
Proof.
  intros l. assert (H1 : countable_length l) by (split; cbn; lia).
  assert (H2 : Forall nonneg l) by (apply Forall_fmap, Forall_forall; intros x _; cbn; unfold nonneg; cbn; lia).
  split; [done|]. split; [done|].
  destruct (percentiles_nearest_rank l H1 H2) as (a & b & c & H & _). by exists a, b, c.
Defined.

(** The verdict of a load test, in whole numbers. *)
Definition load_passes (duration rate : Z) (results : list Timing) : Prop :=
  600 ≤ duration ∧ 20 ≤ rate ∧
  95 * Z.of_nat (length results) < 100 * below (F 500 0) (ms <$> results) ∧
  100 * non_success results < Z.of_nat (length results).

(** A load test passes exactly when it ran ten minutes at twenty requests a second,
    more than 95 percent of the requests took less than half a second and fewer than one
    percent failed: the positions and the quotient computed in binary64 decide nothing
    otherwise. Without a request there is no report. *)
Theorem load_verdict duration rate results :
  Z.of_nat (length results) < 2 ^ 40 →
  match load_report duration rate results with
  | Ok r => pass r = true ↔ load_passes duration rate results
  | Raise e => results = [] ∧ exn_cls e = IndexError
  end.
Proof.
  intros Hn. unfold load_report. rewrite length_sorted, length_fmap.
  destruct results as [|x results]; [done|]. set (rs := x :: results) in *.
  set (n := Z.of_nat (length rs)) in *. assert (0 < n) by (unfold n; cbn; lia).
  assert (Hlen : Z.of_nat (length (sorted (ms <$> rs))) = n) by by rewrite length_sorted, length_fmap.
  destruct (index_p95 n) as [_ ->]; [lia|].
  destruct (at_index_lookup (sorted (ms <$> rs)) (n / 2)) as (a & -> & _).
  { rewrite Hlen. Z.to_euclidean_division_equations; lia. }
  destruct (at_index_lookup (sorted (ms <$> rs)) (19 * n / 20)) as (b & -> & Hb).
  { rewrite Hlen. Z.to_euclidean_division_equations; lia. }
  cbn [mbind result_bind].
  destruct (fmax (sorted (ms <$> rs))) as [m|] eqn:Em.
  2: { destruct (sorted (ms <$> rs)); [cbn in Hlen; lia|done]. }
  cbn [mbind result_bind pass]. unfold load_passes. fold n.
  assert (0 ≤ non_success rs) by apply Nat2Z.is_nonneg.
  rewrite !andb_true_iff, !Z.leb_le, (quotient_below _ n) by lia.
  rewrite (sorted_below _ _ _ (F 500 0) Hb), Z2Nat.id by (apply Z.div_pos; lia).
  set (k := below (F 500 0) (ms <$> rs)).
  assert (19 * n / 20 < k ↔ 95 * n < 100 * k) by (Z.to_euclidean_division_equations; lia).
  tauto.
Qed.

Lemma load_verdict_witness :
  let r s := {| ms := F 1 0; t_status := s; t_kind := u "list" |} in
  load_passes 600 20 [r 200; r 202] ∧ ¬ load_passes 600 20 [r 200; r 500].
Proof.
  intros r. split.
  - pose proof (load_verdict 600 20 [r 200; r 202] ltac:(by vm_compute)) as H.
    assert (E : (match load_report 600 20 [r 200; r 202] with
                 | Ok v => pass v | Raise _ => false end) = true) by by vm_compute.
    destruct (load_report _ _ _); [by apply H|done].
  - pose proof (load_verdict 600 20 [r 200; r 500] ltac:(by vm_compute)) as H.
    assert (E : (match load_report 600 20 [r 200; r 500] with
                 | Ok v => pass v | Raise _ => true end) = false) by by vm_compute.
    destruct (load_report _ _ _); [|done]. intros Hl%H. congruence.
Defined.
