(* ===== verification/Drivers.v ===== *)
(** * Scripts that drive a deployed system (scripts/smoke.py, k8s_reliability.py)

    The calls the acceptance scripts share: a token, an investigation created, and the
    loops that wait for an answer with a deadline on a clock.  The
    network and the clocks are those of a world [W]; time is in nanoseconds.  A loop on a
    clock has fuel, and the theorems say which fuel is enough when sleeping takes as long
    as it should. *)
From S2P Require Import Prelude.
From S2P Require Import PyStr.
From S2P Require Import Json.
From S2P Require Import PyTime.
From S2P Require Import IsoTime.
From S2P Require Import Runtime.

Definition assertion (msg : pystr) : exn := Exn (OtherError "AssertionError") msg.

(** [v in {"a", "b"}] for a set of strings: the value is hashed first. *)
Definition in_strings (v : json) (l : list string) : result bool :=
  if hashable v then Ok (existsb (λ s, py_eqb v (js s)) l) else Raise type_error.

(** ["a" + v]. *)
Definition concat_str (s : pystr) (v : json) : result pystr :=
  match v with JStr t => Ok (s ++ t) | _ => Raise type_error end.

(** [all(p(x) for x in l)] where the test may raise. *)
Fixpoint all_r {A} (p : A → result bool) (l : list A) : result bool :=
  match l with
  | [] => Ok true
  | x :: l' => b ← p x; if b : bool then all_r p l' else Ok false
  end.

(** [d[k] = v] in a dict whose keys are values. *)
Fixpoint set_item (k v : json) (d : list (json * json)) : list (json * json) :=
  match d with
  | [] => [(k, v)]
  | x :: d' => if py_eqb x.1 k then (x.1, v) :: d' else x :: set_item k v d'
  end.

(** Repeat a round until it has an answer; [None] when the fuel is used up. *)
Fixpoint until {S A} (fuel : nat) (round : M S (option A)) : M S (option A) :=
  match fuel with
  | O => mret None
  | Datatypes.S n => x ← round; match x with Some a => mret (Some a) | None => until n round end
  end.

Section drivers.
Context {TD : TzDatabase} {W : Type}.
(** [http method url headers payload]. *)
Variable http : pystr → pystr → list (pystr * pystr) → json → M W response.
Variable monotonic : W → Z.
(** [time.time()], which may be set back. *)
Variable time_ : W → Z.
Variable sleep : Z → W → W.
(** [datetime.now(timezone.utc).isoformat()] and the same a day earlier. *)
Variable now_iso day_ago_iso : W → pystr.
Variable uuid4 : W → pystr.
(** [kubectl -n incidentdesk ...], which raises when the command fails. *)
Variable kubectl : list pystr → M W ().
Variables (BASE SOURCE : pystr).

Definition pause (d : Z) : M W () := modify (sleep d).

(** A request whose answer must be a success with a JSON body. *)
Definition fetch_json (method url : pystr) (headers : list (pystr * pystr)) (payload : json)
    : M W json :=
  r ← http method url headers payload;
  lift (raise_for_status r) ;;
  lift (body r).

Definition login (user : pystr) : M W (list (pystr * pystr)) :=
  v ← fetch_json (u "POST") (SOURCE ++ u "/token") []
        (dict [("username", JStr user); ("password", js "demo-password")]);
  t ← lift (jindex "access_token" v ≫= concat_str (u "Bearer "));
  mret [(u "Authorization", t)].

Definition investigation_path (id : pystr) : pystr := u "/api/v1/investigations/" ++ id.

(** What the client waits for: an action that came to an end, or a task that did. *)
Definition answers (action : bool) (v : json) : result bool :=
  if action then
    a ← jget_or (JObj []) "action" v; s ← jget "state" a; in_strings s ["succeeded"; "unknown"]
  else s ← jindex "status" v; b ← in_strings s ["queued"; "running"]; Ok (negb b).

Definition task_timeout (id : pystr) : exn := assertion (u "task_timeout:" ++ id).

(** One round of [wait]. *)
Definition wait_round (headers : list (pystr * pystr)) (id : pystr) (action : bool) (end_ : Z)
    : M W (option json) :=
  w ← get;
  if monotonic w <? end_ then
    v ← fetch_json (u "GET") (BASE ++ investigation_path id) headers JNull;
    b ← lift (answers action v);
    if b : bool then mret (Some v)
    else pause (billion / 4) ;; mret None
  else raise (task_timeout id).

Definition wait (fuel : nat) (headers : list (pystr * pystr)) (id : pystr) (action : bool)
    (timeout : Z) : M W (option json) :=
  w ← get;
  until fuel (wait_round headers id action (monotonic w + timeout * billion)).

(** k8s_reliability.py. *)
Definition create (headers : list (pystr * pystr)) : M W json :=
  w ← get;
  r ← http (u "POST") (BASE ++ u "/api/v1/investigations")
        (headers ++ [(u "Idempotency-Key", uuid4 w)])
        (dict [("service", js "svc-17"); ("symptom", js "Kubernetes failure recovery test");
               ("start", JStr (day_ago_iso w)); ("end", JStr (now_iso w));
               ("timezone", js "UTC")]);
  lift (raise_for_status r) ;;
  pause (3 * billion / 100) ;;
  lift (body r ≫= jindex "id").

(** The rounds of [measure]: [finished] maps the identifiers of finished tasks. *)
Definition note_finished (ids : list json) (finished : list (json * json)) (i : json)
    : result (list (json * json)) :=
  id ← jindex "id" i;
  if existsb (py_eqb id) ids then
    s ← jindex "status" i; b ← in_strings s ["queued"; "running"];
    if b : bool then Ok finished
    else if hashable id then Ok (set_item id s finished) else Raise type_error
  else Ok finished.

Fixpoint fold_r {A B} (f : B → A → result B) (b : B) (l : list A) : result B :=
  match l with [] => Ok b | x :: l' => b' ← f b x; fold_r f b' l' end.

Definition measure_round (headers : list (pystr * pystr)) (ids : list json) (start : Z)
    : M (W * list (json * json)) (option (list (json * json))) :=
  s ← get;
  if (len s.2 <? len ids) && (monotonic s.1 - start <? 120 * billion) then
    v ← on_fst (fetch_json (u "GET") (BASE ++ u "/api/v1/investigations") headers JNull);
    l ← lift (jiter v);
    f ← lift (fold_r (note_finished ids) s.2 l);
    modify (λ s, (s.1, f)) ;; on_fst (pause (billion / 4)) ;; mret None
  else mret (Some s.2).

Definition stop_iteration : exn := exn_of (OtherError "StopIteration") "".
Definition zero_division : exn := exn_of (OtherError "ZeroDivisionError") "division by zero".

(** [e["kind"] == kind]. *)
Definition of_kind (kind : string) (e : json) : result bool :=
  k ← jindex "kind" e; Ok (py_eqb k (js kind)).

(** [next((x for x in l if p(x)), None)]. *)
Fixpoint find_r {A} (p : A → result bool) (l : list A) : result (option A) :=
  match l with
  | [] => Ok None
  | x :: l' => b ← p x; if b : bool then Ok (Some x) else find_r p l'
  end.

Definition created_at (e : json) : result datetime :=
  v ← jindex "created_at" e;
  match v with JStr s => fromisoformat s | _ => Raise type_error end.

(** How long a task waited in the queue, in microseconds, if it was claimed. *)
Definition queue_time (events : list json) : result (option Z) :=
  q ← find_r (of_kind "queued") events;
  match q with
  | None => Raise stop_iteration
  | Some q =>
      cl ← find_r (of_kind "claimed") events;
      match cl with
      | None => Ok None
      | Some c => t1 ← created_at c; t0 ← created_at q; d ← dt_sub t1 t0; Ok (Some d)
      end
  end.

Definition event_list (headers : list (pystr * pystr)) (id : json) : M W (list json) :=
  k ← lift (concat_str (u "/api/v1/investigations/") id);
  r ← http (u "GET") (BASE ++ k ++ u "/events") headers JNull;
  lift (body r ≫= jiter).

(** The assertion on the ends of the tasks (its message, the dict, is left out). *)
Definition all_finished (n : Z) (finished : list (json * json)) : result () :=
  guard_r (len finished =? n) (assertion []) ;;
  ok ← all_r (λ kv, in_strings kv.2 ["completed"; "partial"; "waiting_information"]) finished;
  guard_r ok (assertion []).

Record Measurement := {
  m_replicas : Z; m_tasks : Z; m_elapsed : Z; m_queue : list Z; m_terminals : list (json * json) }.

Definition measure (fuel : nat) (replicas : Z) (n : nat) : M W (option Measurement) :=
  kubectl [u "scale"; u "deploy/worker"; u "--replicas=" ++ str_of_Z replicas] ;;
  kubectl [u "rollout"; u "status"; u "deploy/worker"; u "--timeout=90s"] ;;
  headers ← login (u "alice");
  w ← get;
  ids ← map_m (repeat () n) (λ _, create headers);
  f ← (λ w1, match until fuel (measure_round headers ids (monotonic w)) (w1, []) with
             | (s, x) => (s.1, x) end);
  match f with
  | None => mret None
  | Some finished =>
      qs ← map_m ids (λ id, es ← event_list headers id; lift (queue_time es));
      w' ← get;
      lift (all_finished (Z.of_nat n) finished) ;;
      (if monotonic w' =? monotonic w then raise zero_division else mret ()) ;;
      match omap id qs with
      | [] => raise zero_division
      | q => mret (Some {| m_replicas := replicas; m_tasks := Z.of_nat n;
                           m_elapsed := monotonic w' - monotonic w; m_queue := q;
                           m_terminals := finished |})
      end
  end.

(** Waiting for the checkpoint before the worker is killed, by the wall clock. *)
Definition checkpoint_round (headers : list (pystr * pystr)) (id : json) (end_ : Z)
    : M W (option ()) :=
  w ← get;
  if time_ w <? end_ then
    es ← event_list headers id;
    c ← lift (find_r (of_kind "checkpoint_saved") es);
    match c with
    | Some _ => mret (Some ())
    | None => pause (billion / 10) ;; mret None
    end
  else raise (assertion (u "checkpoint not observed")).

Definition await_checkpoint (fuel : nat) (headers : list (pystr * pystr)) (id : json)
    : M W (option ()) :=
  w ← get; until fuel (checkpoint_round headers id (time_ w + 30 * billion)).
End drivers.

(** ** Loops *)

Lemma all_r_true {A} (p : A → result bool) l x : all_r p l = Ok true → x ∈ l → p x = Ok true.
Proof.
  induction l as [|y l IH]; cbn; [by intros _ ?%elem_of_nil|].
  destruct (p y) as [[]|e] eqn:E; cbn; try done.
  intros H [->|Hx]%elem_of_cons; [done|auto].
Qed.

Section until.
Context {S A : Type}.
Variable round : M S (option A).

(** A clock that each fruitless round moves on, and that none passes the deadline of:
    fuel that covers the time to the deadline is enough. *)
Lemma until_ends (mu : S → Z) d B fuel s s' :
  0 < d → (∀ s s', round s = (s', Ok None) → mu s < B ∧ mu s + d ≤ mu s') →
  B ≤ mu s + d * Z.of_nat fuel → until (Datatypes.S fuel) round s ≠ (s', Ok None).
Proof.
  intros Hd Hr. revert s. induction fuel as [|n IH]; intros s HB;
    cbn [until]; unfold mbind, M_bind; destruct (round s) as [s1 [[a|]|e]] eqn:E; try done;
    apply Hr in E as [? ?]; [lia|]. apply IH. lia.
Qed.

(** What holds of the start and is kept by fruitless rounds holds when the last one
    begins. *)
Lemma until_last (I : S → Prop) fuel s s' x :
  I s → (∀ s s', I s → round s = (s', Ok None) → I s') →
  until fuel round s = (s', x) → x ≠ Ok None →
  ∃ s0 y, I s0 ∧ round s0 = (s', y) ∧ y ≠ Ok None ∧
    x = match y with Ok a => Ok a | Raise e => Raise e end.
Proof.
  intros Hs Hk. revert s Hs. induction fuel as [|n IH]; intros s Hs; cbn [until].
  { by intros [= <- <-]. }
  unfold mbind, M_bind. destruct (round s) as [s1 [[a|]|e]] eqn:E.
  - intros [= <- <-] _. by exists s, (Ok (Some a)).
  - apply IH. by eapply Hk.
  - intros [= <- <-] _. by exists s, (Raise e).
Qed.
End until.

(** ** The waits end *)

Section waits.
Context {TD : TzDatabase} {W : Type}.
Variable http : pystr → pystr → list (pystr * pystr) → json → M W response.
Variable monotonic : W → Z.
Variable sleep : Z → W → W.
Variables (BASE SOURCE : pystr).
Hypothesis sleep_law : ∀ d w, 0 ≤ d → monotonic w + d ≤ monotonic (sleep d w).
Hypothesis http_law : ∀ m url h p w w' x,
  http m url h p w = (w', x) → monotonic w ≤ monotonic w'.

Local Abbreviation wait_ := (wait http monotonic sleep BASE).
Local Abbreviation round_ := (wait_round http monotonic sleep BASE).

Lemma fetch_json_clock m url h p w w' x :
  fetch_json http m url h p w = (w', x) → monotonic w ≤ monotonic w'.
Proof.
  unfold fetch_json, mbind, M_bind, lift. destruct (http m url h p w) as [w1 [r|e]] eqn:E;
    apply http_law in E; [|by intros [= <- _]].
  destruct (raise_for_status r); by intros [= <- _].
Qed.

Lemma wait_round_clock h id action end_ w w' :
  round_ h id action end_ w = (w', Ok None) →
  monotonic w < end_ ∧ monotonic w + billion / 4 ≤ monotonic w'.
Proof.
  unfold wait_round. intros (w1 & w2 & E & H)%M_bind_ok. injection E as <- <-.
  destruct (Z.ltb_spec (monotonic w) end_); [|done]. split; [done|].
  apply M_bind_ok in H as (w2 & v & Hv & H). apply fetch_json_clock in Hv.
  apply M_bind_ok in H as (w3 & b & [-> Hb]%lift_ok & H).
  destruct b; [done|]. apply M_bind_ok in H as (w4 & [] & Hp & H).
  injection Hp as <-. injection H as <-.
  pose proof (sleep_law (billion / 4) w2 ltac:(done)). lia.
Qed.

(** One request of the wait and the reading of its answer. *)
Definition asked (h : list (pystr * pystr)) (id : pystr) (action : bool) : M W bool :=
  v ← fetch_json http (u "GET") (BASE ++ investigation_path id) h JNull; lift (answers action v).

(** Waiting for a task ends, whatever the server answers: four rounds for each second
    of the timeout and one more are enough; what is returned is an answer the client
    waited for, and an error is the request's own or the timeout, reported when the time
    is over. *)
Theorem wait_ends fuel h id action timeout w w' x :
  4 * timeout < Z.of_nat fuel → 0 < Z.of_nat fuel →
  wait_ fuel h id action timeout w = (w', x) →
  match x with
  | Ok (Some v) => answers action v = Ok true
  | Ok None => False
  | Raise e =>
      e = task_timeout id ∧ monotonic w + timeout * billion ≤ monotonic w' ∨
      ∃ w0, asked h id action w0 = (w', Raise e)
  end.
Proof.
  intros Hf Hf0 H. change (wait_ fuel h id action timeout w) with
    (until fuel (round_ h id action (monotonic w + timeout * billion)) w) in H.
  destruct fuel as [|fuel]; [lia|].
  set (end_ := monotonic w + timeout * billion) in *.
  assert (Hx : x ≠ Ok None).
  { intros ->. apply (until_ends (round_ h id action end_) monotonic (billion / 4) end_ fuel w w' eq_refl);
      [|unfold end_, billion in *; change (1000000000 / 4) with 250000000; lia|done].
    intros ? ?. apply wait_round_clock. }
  apply (until_last _ (λ _, True)) in H as (w0 & y & _ & Hy & Hyn & ->); [|done..].
  unfold wait_round in Hy. unfold mbind at 1, M_bind, get in Hy. cbn beta iota in Hy.
  destruct (Z.ltb_spec (monotonic w0) end_) as [_|Hend]; cycle 1.
  { injection Hy as <- <-. by left. }
  unfold asked.
  unfold mbind, M_bind in Hy. destruct (fetch_json http _ _ h _ w0) as [w1 [v|e]] eqn:Hv.
  2: { injection Hy as <- <-. right. exists w0. unfold mbind, M_bind. by rewrite Hv. }
  unfold lift in Hy. destruct (answers action v) as [b|e] eqn:Hb.
  2: { injection Hy as <- <-. right. exists w0. unfold mbind, M_bind, lift.
       by rewrite Hv, Hb. }
  destruct b; [by injection Hy as <- <-|]. by injection Hy as <- <-.
Qed.
End waits.

(** ** What a measurement covers *)

Section measurement.
Context {TD : TzDatabase} {W : Type}.
Variable http : pystr → pystr → list (pystr * pystr) → json → M W response.
Variable monotonic : W → Z.
Variable sleep : Z → W → W.
Variable now_iso day_ago_iso : W → pystr.
Variable uuid4 : W → pystr.
Variable kubectl : list pystr → M W ().
Variables (BASE SOURCE : pystr).
Hypothesis sleep_law : ∀ d w, 0 ≤ d → monotonic w + d ≤ monotonic (sleep d w).
Hypothesis http_law : ∀ m url h p w w' x,
  http m url h p w = (w', x) → monotonic w ≤ monotonic w'.

Local Abbreviation measure_ :=
  (measure http monotonic sleep now_iso day_ago_iso uuid4 kubectl BASE SOURCE).
Local Abbreviation round_ := (measure_round http monotonic sleep BASE).
Local Abbreviation create_ := (create http sleep now_iso day_ago_iso uuid4 BASE).

Definition is_string (v : json) : Prop := ∃ s, v = JStr s.

(** The tasks known to have ended: distinct, and of those created. *)
Definition tracked (ids : list json) (f : list (json * json)) : Prop :=
  NoDup (fst <$> f) ∧ ∀ k, k ∈ fst <$> f → k ∈ ids.

Lemma py_eqb_string k v : is_string v → py_eqb k v = true → k = v.
Proof. intros [s ->]. apply py_eqb_str. Qed.

Lemma set_item_keys k v f :
  is_string k →
  fst <$> set_item k v f = fst <$> f ∨
  fst <$> set_item k v f = (fst <$> f) ++ [k] ∧ k ∉ fst <$> f.
Proof.
  intros Hk. induction f as [|x f IH]; cbn; [right; split; [done|by apply not_elem_of_nil]|].
  destruct (py_eqb x.1 k) eqn:E; [by left|]. cbn. destruct IH as [->|[-> Hn]]; [by left|].
  right. split; [done|]. intros [->|?]%elem_of_cons; [|done].
  destruct Hk as [s Hs]. rewrite Hs in E. cbn in E. unfold str_eqb in E.
  by rewrite bool_decide_true in E.
Qed.

Lemma note_finished_tracked ids f i f' :
  Forall is_string ids → tracked ids f → note_finished ids f i = Ok f' → tracked ids f'.
Proof.
  intros Hids [Hnd Hin] H. unfold note_finished in H.
  apply bind_ok in H as (k & Hk & H). destruct (existsb (py_eqb k) ids) eqn:E; [|by inv_ok].
  apply existsb_exists in E as (v & Hv%list_elem_of_In & E).
  rewrite Forall_forall in Hids. apply py_eqb_string in E as ->; [|auto].
  apply bind_ok in H as (s & Hs & H). apply bind_ok in H as (b & Hb & H).
  destruct b; [by inv_ok|]. destruct (hashable v); [|done]. injection H as <-.
  destruct (set_item_keys v s f (Hids v Hv)) as [E|[E Hn]]; split; rewrite E; try done.
  - apply NoDup_app. split; [done|]. split; [|apply NoDup_singleton].
    by intros x Hx ->%list_elem_of_singleton.
  - intros x [?| ->%list_elem_of_singleton]%elem_of_app; auto.
Qed.

Lemma fold_tracked ids l f f' :
  Forall is_string ids → tracked ids f → fold_r (note_finished ids) f l = Ok f' → tracked ids f'.
Proof.
  intros Hids. revert f. induction l as [|i l IH]; cbn; intros f Hf H; [by injection H as <-|].
  apply bind_ok in H as (f1 & H1 & H). eauto using note_finished_tracked.
Qed.

Lemma measure_round_ok h ids start s s' :
  round_ h ids start s = (s', Ok None) →
  (monotonic s.1 < start + 120 * billion ∧ monotonic s.1 + billion / 4 ≤ monotonic s'.1) ∧
  ∃ l, fold_r (note_finished ids) s.2 l = Ok s'.2.
Proof.
  unfold measure_round. intros (s1 & s2 & E & H)%M_bind_ok.
  injection E as <- <-. destruct (_ && _) eqn:Hc; [|done].
  apply andb_true_iff in Hc as [_ Hc%Z.ltb_lt].
  apply M_bind_ok in H as (s2 & v & Hv & H). unfold on_fst in Hv.
  destruct (fetch_json http _ _ h _ s.1) as [w1 y] eqn:Hf. injection Hv as <- ->.
  apply (fetch_json_clock http monotonic http_law) in Hf.
  apply M_bind_ok in H as (s3 & l & [-> Hl]%lift_ok & H).
  apply M_bind_ok in H as (s4 & f & [-> Hfold]%lift_ok & H).
  apply M_bind_ok in H as (s5 & [] & Hm & H). injection Hm as <-.
  apply M_bind_ok in H as (s6 & [] & Hp & H). injection Hp as <-. injection H as <-.
  cbn in *. split; [|by exists l].
  pose proof (sleep_law (billion / 4) w1 ltac:(done)). lia.
Qed.

(** Distinct identifiers of those created, as many as were created, are all of them. *)
Lemma tracked_all ids f :
  tracked ids f → len f = Z.of_nat (length ids) → ∀ i, i ∈ ids → ∃ s, (i, s) ∈ f.
Proof.
  intros [Hnd Hin] Hlen i Hi.
  assert (i ∈ fst <$> f) as ([k s] & -> & Hx)%list_elem_of_fmap; [|by exists s].
  apply list_elem_of_In, (NoDup_length_incl (l := fst <$> f) (l' := ids)).
  - by apply NoDup_ListNoDup.
  - rewrite length_fmap. unfold len in Hlen. lia.
  - intros x Hx. apply list_elem_of_In, Hin. by apply list_elem_of_In.
  - by apply list_elem_of_In.
Qed.

Lemma create_clock h w w' x :
  create_ h w = (w', x) → monotonic w ≤ monotonic w'.
Proof.
  unfold create, get. unfold mbind, M_bind. cbn beta iota.
  destruct (http _ _ _ _ w) as [w1 [r|e]] eqn:E; apply http_law in E; [|by intros [= <- _]].
  unfold lift. destruct (raise_for_status r); [|by intros [= <- _]].
  unfold pause, modify. intros [= <- _].
  assert (Hd : 0 ≤ 3 * billion / 100) by done. pose proof (sleep_law _ w1 Hd). lia.
Qed.

Lemma map_create_clock h n w w' x :
  map_m (repeat () n) (λ _, create_ h) w = (w', x) → monotonic w ≤ monotonic w'.
Proof.
  revert w w' x. induction n as [|n IH]; intros w w' x; cbn [repeat map_m]; [by intros [= <- _]|].
  unfold mbind at 1, M_bind. destruct (create_ h w) as [w1 [y|e]] eqn:E; apply create_clock in E;
    [|by intros [= <- _]].
  unfold mbind, M_bind. destruct (map_m _ _ w1) as [w2 [ys|e]] eqn:Em; apply IH in Em;
    intros [= <- _]; lia.
Qed.

Lemma map_m_length {S A B} (xs : list A) (f : A → M S B) s s' ys :
  map_m xs f s = (s', Ok ys) → length ys = length xs.
Proof.
  revert s s' ys. induction xs as [|x xs IH]; cbn [map_m]; intros s s' ys H; [by injection H as _ <-|].
  apply M_bind_ok in H as (s1 & y & _ & H). apply M_bind_ok in H as (s2 & ys' & H & E).
  injection E as _ <-. cbn. apply IH in H. lia.
Qed.

Lemma measure_until h ids start fuel w s' x :
  start ≤ monotonic w → 480 < Z.of_nat fuel →
  until fuel (round_ h ids start) (w, []) = (s', x) →
  x ≠ Ok None ∧ (∀ f, Forall is_string ids → x = Ok (Some f) → tracked ids f).
Proof.
  intros Hw Hf H. destruct fuel as [|fuel]; [lia|]. assert (Hx : x ≠ Ok None).
  { intros ->. eapply (until_ends (round_ h ids start) (λ s, monotonic s.1) (billion / 4)
      (start + 120 * billion) fuel); [done| | |exact H].
    - intros s s'' Hs. by apply measure_round_ok in Hs as [? _].
    - unfold billion in *. change (1000000000 / 4) with 250000000. cbn. lia. }
  split; [done|]. intros f Hids ->.
  apply (until_last _ (λ s, tracked ids s.2)) in H as (s0 & y & Ht & Hy & _ & E); [| | |done].
  - destruct y as [o|]; [|done]. injection E as <-. unfold measure_round in Hy.
    apply M_bind_ok in Hy as (s1 & s2 & E & H). injection E as <- <-.
    destruct (_ && _); [|by injection H as _ <-].
    apply M_bind_ok in H as (? & ? & _ & H). apply M_bind_ok in H as (? & ? & _ & H).
    apply M_bind_ok in H as (? & ? & _ & H). apply M_bind_ok in H as (? & ? & _ & H).
    by apply M_bind_ok in H as (? & ? & _ & H).
  - split; [apply NoDup_nil_2|]. by intros k ?%elem_of_nil.
  - intros s s'' Hs Hr. apply measure_round_ok in Hr as [_ [l Hl]].
    by eapply fold_tracked.
Qed.

(** A measurement ends within its two minutes of polling, and it is reported only when
    every investigation it created is known to have ended well: none is lost, counted
    twice or replaced by one of somebody else's. *)
Theorem measure_complete fuel replicas n w w' x :
  480 < Z.of_nat fuel → measure_ fuel replicas n w = (w', x) →
  match x with
  | Ok None => False
  | Ok (Some m) =>
      m_tasks m = Z.of_nat n ∧
      ∃ h w1 w2 ids,
        map_m (repeat () n) (λ _, create_ h) w1 = (w2, Ok ids) ∧
        (Forall is_string ids → ∀ i, i ∈ ids → ∃ s, (i, s) ∈ m_terminals m ∧
           in_strings s ["completed"; "partial"; "waiting_information"] = Ok true)
  | Raise _ => True
  end.
Proof.
  intros Hf H. destruct x as [[m|]|e]; [| |done]; unfold measure in H;
    apply M_bind_ok in H as (w1 & [] & _ & H); apply M_bind_ok in H as (w2 & [] & _ & H);
    apply M_bind_ok in H as (w3 & h & _ & H);
    apply M_bind_ok in H as (w4 & w0 & E & H); injection E as <- <-;
    apply M_bind_ok in H as (w5 & ids & Hids & H);
    apply M_bind_ok in H as (w6 & f & Hu & H).
  all: destruct (until fuel _ (w5, [])) as [s y] eqn:Hun; injection Hu as <- ->.
  all: assert (Hclock : monotonic w3 ≤ monotonic w5) by by eapply map_create_clock.
  all: destruct (measure_until h ids (monotonic w3) fuel w5 s _ Hclock Hf Hun) as [Hn Ht].
  - destruct f as [f|]; [|done].
    apply M_bind_ok in H as (w7 & qs & _ & H).
    apply M_bind_ok in H as (w8 & w9 & _ & H).
    apply M_bind_ok in H as (w10 & [] & [-> Hall]%lift_ok & H).
    apply M_bind_ok in H as (w11 & [] & _ & H).
    assert (m_terminals m = f ∧ m_tasks m = Z.of_nat n) as [-> ->].
    { destruct (omap id qs); [done|]. by injection H as _ <-. }
    split; [done|]. exists h, w3, w5, ids. split; [done|]. intros Hstr i Hi.
    unfold all_finished in Hall. apply bind_ok in Hall as ([] & Hlen%guard_r_ok & Hall).
    apply bind_ok in Hall as (b & Hb & Hok%guard_r_ok). subst b.
    assert (len f = Z.of_nat (length ids)) as Hlen'.
    { apply Z.eqb_eq in Hlen. rewrite Hlen. f_equal. rewrite <- (repeat_length () n).
      symmetry. by eapply map_m_length. }
    destruct (tracked_all ids f (Ht f Hstr eq_refl) Hlen' i Hi) as [s' Hs'].
    exists s'. split; [done|]. apply (all_r_true _ _ _ Hb Hs').
  - destruct f as [f|]; [|done]. apply M_bind_ok in H as (w7 & qs & _ & H).
    apply M_bind_ok in H as (w8 & w9 & _ & H). apply M_bind_ok in H as (w10 & [] & _ & H).
    apply M_bind_ok in H as (w11 & [] & _ & H). by destruct (omap id qs).
Qed.
End measurement.

(** ** A system that answers at once *)

Definition stub_http (method url : pystr) (headers : list (pystr * pystr)) (payload : json)
    : M Z response := λ w,
  (w, Ok (Response 200 (Ok (
    if str_eqb method (u "POST") then dict [("access_token", js "t"); ("id", js "i1")]
    else JList ((λ k, dict [("id", js "i1"); ("status", js "completed"); ("kind", js k);
                            ("created_at", js "2026-01-01T00:00:00")])
                 <$> ["queued"; "claimed"]%string))))).
Definition done_http (method url : pystr) (headers : list (pystr * pystr)) (payload : json)
    : M Z response := λ w, (w, Ok (Response 200 (Ok (dict [("status", js "completed")])))).

Lemma stub_sleep d w : 0 ≤ d → w + d ≤ w + d.
Proof. lia. Qed.

Lemma wait_ends_witness :
  (wait done_http id (λ d w, w + d) [] 241 [] (u "i1") false 60 0).2
    = Ok (Some (dict [("status", js "completed")])) ∧
  answers false (dict [("status", js "completed")]) = Ok true.
Proof.
  assert (H : wait done_http id (λ d w, w + d) [] 241 [] (u "i1") false 60 0
    = (0, Ok (Some (dict [("status", js "completed")])))) by by vm_compute.
  split; [by rewrite H|].
  refine (wait_ends done_http id (λ d w, w + d) [] _ _ 241 [] (u "i1") false 60 0 0 _ _ _ H);
    [intros; cbn; lia|by intros ? ? ? ? ? ? ? [= <- _]|done|done].
Defined.

Lemma measure_complete_witness :
  let m := measure (TD := UtcOnly) stub_http id (λ d w, w + d) (λ _, []) (λ _, []) (λ _, [])
             (λ _ w, (w, Ok ())) [] [] 481 3 1 0 in
  match m.2 with Ok (Some x) => m_queue x = [0] | _ => False end ∧
  match m.2 with Ok (Some x) => m_tasks x = 1 | _ => False end.
Proof.
  intros m. split; [by vm_compute|].
  assert (E : match m.2 with Ok (Some _) => True | _ => False end) by by vm_compute.
  destruct m as [w' x] eqn:Hm. cbn in E |- *. unfold m in Hm.
  pose proof (measure_complete (TD := UtcOnly) stub_http id (λ d w, w + d) (λ _, []) (λ _, [])
    (λ _, []) (λ _ w, (w, Ok ())) [] [] (λ d w H, stub_sleep d w H)
    ltac:(by intros ? ? ? ? ? ? ? [= <- _]) 481 3 1 0 w' x ltac:(done) Hm) as H.
  destruct x as [[x|]|e]; try done. by destruct H as [-> _].
Defined.
