(* ===== verification/PublicRuns.v ===== *)
(** * The investigations of the public logs (scripts/public_log_investigations.py)

    Every case of the benchmark is investigated twice through the deployed API: one after
    the other, and in a mix of twenty-four of which four run at a time.  A run posts the
    question, polls until the task ends, checks the report against the case, and appends
    one outcome, an error included; the summary counts the outcomes of each phase.

    The state of a run is the world (network, clocks, files) and the dict [result] as far
    as it has been filled in, which survives the exception the run catches. *)
From S2P Require Import Prelude.
From S2P Require Import PyStr.
From S2P Require Import Json.
From S2P Require Import PyTime.
From S2P Require Import IsoTime.
From S2P Require Import LogStore.
From S2P Require Import Runtime.
From S2P Require Import Assemble.
From S2P Require Import Retrieval.
From S2P Require Import Ingest.
From S2P Require Import Stats.
From S2P Require Import Drivers.

(** ** The dict [result] *)

(** Its values: JSON, a time, and the dict of the checks. *)
Inductive field := J (v : json) | Secs (x : float) | Checks (l : list (pystr * bool)).
Abbreviation outcome := (list (pystr * field)) (only parsing).

Definition jint_opt (n : option Z) : json := match n with Some z => JInt z | None => JNull end.

(** [dict(case=..., dataset=..., phase=..., expected_records=...)]. *)
Definition new_outcome (c : Case) (phase : pystr) : outcome :=
  [(u "case", J (JStr (c_name c))); (u "dataset", J (JStr (dataset_name (c_dataset c))));
   (u "phase", J (JStr phase)); (u "expected_records", J (JInt (c_records c)))].

(** ** Reading an answer *)

(** [s in v]: within a string, or among the values or keys of a container. *)
Definition str_in (s : pystr) (v : json) : result bool :=
  match v with
  | JStr t => Ok (contains s t)
  | JList l => Ok (existsb (py_eqb (JStr s)) l)
  | JObj kvs => Ok (mem s (keys kvs))
  | _ => Raise type_error
  end.

(** [v.startswith(s)]. *)
Definition starts (s : pystr) (v : json) : result bool :=
  match v with JStr t => Ok (startswith s t) | _ => Raise attr_error end.

(** [fromisoformat(v.replace("Z", "+00:00"))]. *)
Definition instant (v : json) : result datetime :=
  match v with
  | JStr s => fromisoformat (replace1 90 (u "+00:00") s)
  | _ => Raise attr_error
  end.

Definition guard_hash (v : json) : result json :=
  if hashable v then Ok v else Raise type_error.

(** [v + w] of two lists, or of two strings. *)
Definition jadd (v w : json) : result json :=
  match v, w with
  | JList l, JList l' => Ok (JList (l ++ l'))
  | JStr s, JStr t => Ok (JStr (s ++ t))
  | _, _ => Raise type_error
  end.

(** [[ref for f in claims for ref in f["evidence"]]]. *)
Definition references (report : json) : result (list json) :=
  f ← jget_or (JList []) "facts" report;
  c ← jget_or (JList []) "candidates" report;
  claims ← jadd f c ≫= jiter;
  ls ← map_r (λ x, jindex "evidence" x ≫= jiter) claims;
  Ok (concat ls).

(** The fields of a log a report may show. *)
Definition LOG_FIELDS : list string :=
  ["service_name"; "level"; "message"; "dataset"; "original_line"]%string.

(** [set(v) == {...}]. *)
Definition has_fields (v : json) : result bool :=
  l ← jiter v;
  ks ← map_r guard_hash l;
  Ok (forallb (λ k, existsb (λ f, py_eqb k (js f)) LOG_FIELDS) ks
      && forallb (λ f, existsb (λ k, py_eqb k (js f)) ks) LOG_FIELDS).

Section public_runs.
Context {TD : TzDatabase} {UT : UnicodeTables}.
Variable trunc : pystr → result Z.

Definition is_log (e : json) : result bool := s ← jindex "source" e; Ok (py_eqb s (js "logs")).

(** [lower <= event_time <= upper and e["snippet"]["dataset"] == case["dataset"]]. *)
Definition in_scope (lower upper : datetime) (name : pystr) (e : json) : result bool :=
  t ← jindex "event_time" e ≫= instant;
  early ← dt_ltb t lower;
  if early : bool then Ok false
  else
    late ← dt_ltb upper t;
    if late : bool then Ok false
    else d ← jindex "snippet" e ≫= jindex "dataset"; Ok (py_eqb d (JStr name)).

(** The report a detail holds: [detail.get("report") or {}]. *)
Definition report_of (detail : json) : result json :=
  r ← jget "report" detail; Ok (if truthy r then r else JObj []).

Definition read_logs (report : json) : result (list json * list json) :=
  es ← jget_or (JList []) "evidence" report ≫= jiter;
  logs ← filter_r is_log es;
  Ok (es, logs).

(** What [result.update] adds. *)
Definition shown (report : json) (content_length : Z) (es logs : list json)
    : result (list (pystr * field) * list Z) :=
  n ← jget_or (JList []) "evidence" report ≫= jlen;
  c ← jget_or (JList []) "candidates" report ≫= jlen;
  m ← jget_or (JList []) "missing" report;
  ids ← map_r (λ e, jindex "source_record" e ≫= py_int trunc) logs;
  mode ← jget "mode" report;
  Ok ([(u "log_evidence", J (JInt (len logs))); (u "total_evidence", J (JInt n));
       (u "candidates", J (JInt c)); (u "missing", J m);
       (u "response_bytes", J (JInt content_length));
       (u "returned_ids", J (JList (JInt <$> ids))); (u "mode", J mode)], ids).

Definition gaps (report : json) : result (list json) :=
  jget_or (JList []) "missing" report ≫= jiter.

(** The checks on a report, in the order in which they are computed. *)
Definition report_checks (x : SourceResult) (start end_ : pystr) (detail report : json)
    (es logs : list json) (returned : list Z) : result (list (pystr * bool)) :=
  let c := sr_case x in
  ids ← map_r (λ e, jindex "id" e ≫= guard_hash) es;
  refs ← references report;
  lower ← instant (JStr start);
  upper ← instant (JStr end_);
  scope ← all_r (in_scope lower upper (dataset_name (c_dataset c))) logs;
  fields ← all_r (λ e, jindex "snippet" e ≫= has_fields) logs;
  known ← all_r (λ r, r' ← guard_hash r; Ok (existsb (λ i, py_eqb i r') ids)) refs;
  trunc_ok ← (if negb (50 <? c_records c) || bool_decide (logs = []) then Ok true
              else gaps report ≫= any_r (str_in (u "logs: truncated")));
  missing_ok ← (if negb (bool_decide (logs = [])) then Ok true
                else gaps report ≫= any_r (starts (u "logs:")));
  empty_ok ← (if negb (c_records c =? 0) then Ok true
              else s ← jindex "status" detail; Ok (py_eqb s (js "waiting_information")));
  Ok [(u "terminal_report", truthy report);
      (u "exact_first_page", bool_decide (returned = sr_first_page_ids x));
      (u "time_and_dataset_scope", scope);
      (u "bounded_evidence", len logs <=? 50);
      (u "ground_truth_not_in_payload", fields);
      (u "references_resolve", known);
      (u "truncation_disclosed_when_page_returned", trunc_ok);
      (u "missing_logs_disclosed", missing_ok);
      (u "empty_window_not_completed", empty_ok)].

(** [e["payload"]["summary"]] of the hooks that ran after a tool. *)
Definition tool_summaries (events : list json) : result (list json) :=
  hooks ← filter_r (λ e,
    k ← of_kind "hook" e;
    if k : bool then n ← jindex "payload" e ≫= jget "name"; Ok (py_eqb n (js "tool_after"))
    else Ok false) events;
  map_r (λ e, jindex "payload" e ≫= jindex "summary") hooks.

(** ** One investigation *)

Context {W : Type}.
Variable http : pystr → pystr → list (pystr * pystr) → json → M W response.
Variable content_length : response → Z.
Variables (monotonic perf_counter : W → Z).
Variable sleep : Z → W → W.
Variable uuid4 : W → pystr.
(** [(ROOT / name).write_text(json.dumps(value, ...))]: [save name value] *)
Variable save : pystr → list outcome → M W ().
Variable save_detail : pystr → json → list json → M W ().
Variable API : pystr.

Local Abbreviation MO := (M (W * outcome)).

(** [result[k] = v] and [result.update(...)]. *)
Definition put (k : string) (v : field) : MO () := modify (λ s, (s.1, assoc_set (u k) v s.2)).
Definition update (kvs : list (pystr * field)) : MO () :=
  modify (λ s, (s.1, foldl (λ d kv, assoc_set kv.1 kv.2 d) s.2 kvs)).
Definition add_check (k : string) (b : bool) : MO () :=
  modify (λ s, (s.1, match assoc (u "checks") s.2 with
                     | Some (Checks l) => assoc_set (u "checks") (Checks (assoc_set (u k) b l)) s.2
                     | _ => s.2 end)).

(** [round(perf_counter() - started, 3)]. *)
Definition since (started : Z) (w : W) : float :=
  round3 (fdiv_int (perf_counter w - started) billion).
Definition since_ms (started : Z) (w : W) : float :=
  round3 (fdiv_int ((perf_counter w - started) * 1000) billion).

(** The body posted: the end of the window is moved by a few microseconds, so that no
    two runs share a cached context. *)
Record Body := { b_service : pystr; b_start : pystr; b_end : pystr; b_symptom : pystr }.

Definition make_body (c : Case) (phase : pystr) (serial : Z) : result Body :=
  e ← fromisoformat (replace1 90 (u "+00:00") (c_end c));
  e' ← dt_add e (serial + 1);
  Ok {| b_service := c_service c; b_start := c_start c; b_end := isoformat e';
        b_symptom := u "[Loghub " ++ phase ++ u " " ++ str_of_Z serial
          ++ u "] Investigate public " ++ dataset_name (c_dataset c)
          ++ u " system logs in this historical window; identify observations, uncertainty and missing sources." |}.

Definition body_json (b : Body) : json :=
  dict [("service", JStr (b_service b)); ("start", JStr (b_start b)); ("end", JStr (b_end b));
        ("timezone", js "UTC"); ("symptom", JStr (b_symptom b))].

(** One round of the poll: the answer once the task has ended. *)
Definition poll_round (headers : list (pystr * pystr)) (task : pystr) (deadline : Z)
    : M W (option (response * json)) :=
  r ← http (u "GET") (API ++ u "/api/v1/investigations/" ++ task) headers JNull;
  lift (raise_for_status r) ;;
  detail ← lift (body r);
  s ← lift (jindex "status" detail);
  if negb (existsb (λ x, py_eqb s (js x)) ["queued"; "running"]%string)
  then mret (Some (r, detail))
  else
    w ← get;
    if deadline <? monotonic w then raise (exn_of TimeoutError "investigation deadline")
    else pause sleep (billion / 2) ;; mret None.

(** The body of the [try]; [None] is the poll's fuel used up. *)
Definition investigate_case (fuel : nat) (x : SourceResult) (phase : pystr) (b : Body)
    (headers other : list (pystr * pystr)) (started : Z) : MO (option ()) :=
  let path task := API ++ u "/api/v1/investigations/" ++ task in
  s ← get;
  r ← on_fst (http (u "POST") (API ++ u "/api/v1/investigations")
                (headers ++ [(u "Idempotency-Key", uuid4 s.1)]) (body_json b));
  put "create_status" (J (JInt (status r))) ;;
  lift (raise_for_status r) ;;
  id ← lift (body r ≫= jindex "id");
  put "id" (J id) ;;
  s ← get;
  put "create_ms" (Secs (since_ms started s.1)) ;;
  s ← get;
  let deadline := monotonic s.1 + 180 * billion in
  task ← lift (concat_str [] id);
  found ← on_fst (until fuel (poll_round headers task deadline));
  match found with
  | None => mret None
  | Some (resp, detail) =>
      s ← get;
      put "elapsed_s" (Secs (since started s.1)) ;;
      st ← lift (jindex "status" detail);
      put "status" (J st) ;;
      report ← lift (report_of detail);
      el ← lift (read_logs report);
      sh ← lift (shown report (content_length resp) el.1 el.2);
      update sh.1 ;;
      cs ← lift (report_checks x (b_start b) (b_end b) detail report el.1 el.2 sh.2);
      put "checks" (Checks cs) ;;
      forbidden ← on_fst (http (u "GET") (path task) other JNull);
      add_check "cross_team_denied" (status forbidden =? 403) ;;
      er ← on_fst (http (u "GET") (path task ++ u "/events") headers JNull);
      lift (raise_for_status er) ;;
      events ← lift (body er ≫= jiter);
      hit ← lift (any_r (of_kind "cache_hit") events);
      put "cache_hit" (J (JBool hit)) ;;
      add_check "no_context_cache_hit" (negb hit) ;;
      tools ← lift (tool_summaries events);
      put "tool_events" (J (JList tools)) ;;
      put "labelled_alerts_in_first_page"
        (J (if default false (assoc (u "exact_first_page") cs)
            then jint_opt (sr_first_page_alerts x) else JNull)) ;;
      put "labelled_alerts_in_window" (J (jint_opt (c_alerts (sr_case x)))) ;;
      (if str_eqb phase (u "sequential") then
         rr ← on_fst (http (u "GET") (path task ++ u "/replay") headers JNull);
         ok ← lift (if status rr =? 200
                    then m ← body rr ≫= jget "mode"; Ok (py_eqb m (js "offline_no_writes"))
                    else Ok false);
         add_check "replay_export" ok ;;
         on_fst (save_detail (task ++ u ".json") detail events)
       else mret ()) ;;
      mret (Some ())
  end.

(** [type(e).__name__ + ": " + str(e)]. *)
Definition error_text (e : exn) : pystr := u (exn_name (exn_cls e)) ++ u ": " ++ exn_msg e.

(** The investigation and what its [except Exception] makes of an error: the outcome. *)
Definition outcome_of (fuel : nat) (x : SourceResult) (phase : pystr) (b : Body)
    (headers other : list (pystr * pystr)) : M W (option outcome) := λ w,
  let started := perf_counter w in
  let run := try_except (investigate_case fuel x phase b headers other started) (λ e,
    put "error" (J (JStr (error_text e))) ;;
    s ← get;
    put "elapsed_s" (Secs (since started s.1)) ;;
    mret (Some ())) in
  match run (w, new_outcome (sr_case x) phase) with
  | ((w', o), Ok (Some _)) => (w', Ok (Some o))
  | ((w', _), Ok None) => (w', Ok None)
  | ((w', _), Raise e) => (w', Raise e)
  end.

(** ** Both phases *)

(** Who asks: each data set belongs to a service of one team. *)
Variable tokens : pystr → list (pystr * pystr).
Definition asker (c : Case) : pystr :=
  match c_dataset c with BGL => u "alice" | HDFS => u "carol" end.
Definition other_of (user : pystr) : pystr :=
  if str_eqb user (u "alice") then u "carol" else u "alice".

(** The state of [main]: the world and the list [outcomes]. *)
Definition run (fuel : nat) (x : SourceResult) (phase : pystr) (serial : Z)
    : M (W * list outcome) (option ()) :=
  let user := asker (sr_case x) in
  b ← lift (make_body (sr_case x) phase serial);
  o ← on_fst (outcome_of fuel x phase b (tokens user) (tokens (other_of user)));
  match o with
  | None => mret None
  | Some o =>
      modify (λ s, (s.1, s.2 ++ [o])) ;;
      s ← get;
      on_fst (save (u "investigations-progress.json") s.2) ;;
      mret (Some ())
  end.

(** One case after the other; [None] when a poll ran out of fuel. *)
Fixpoint sequential (fuel : nat) (cases : list SourceResult) (serial : Z)
    : M (W * list outcome) (option ()) :=
  match cases with
  | [] => mret (Some ())
  | x :: cases' =>
      r ← run fuel x (u "sequential") serial;
      match r with None => mret None | Some _ => sequential fuel cases' (serial + 1) end
  end.

(** The mix: the populated cases in turn, twenty-four times. *)
Definition MIX : nat := 24.
Definition chosen (cases : list SourceResult) : result (list SourceResult) :=
  let populated := filter (λ x, c_records (sr_case x) ≠ 0) cases in
  map_r (λ n, match populated !! (n mod length populated)%nat with
              | Some x => Ok x
              | None => Raise zero_division
              end) (seq 0 MIX).

(** A task of the mix: its case and its serial number. *)
Abbreviation job := (SourceResult * Z)%type (only parsing).
Record mix := {
  waiting : list job; active : list job; outcomes : list outcome; raised : option exn }.

Definition CONCURRENT : nat := 4.

(** What a task of the mix can append, in some state of the world it runs in. *)
Definition concludes (j : job) (o : outcome) : Prop :=
  ∃ fuel b w w',
    make_body (sr_case j.1) (u "concurrent-4") j.2 = Ok b ∧
    let user := asker (sr_case j.1) in
    outcome_of fuel j.1 (u "concurrent-4") b (tokens user) (tokens (other_of user)) w
      = (w', Ok (Some o)).

(** The semaphore admits the task that waited longest; a task in it appends its outcome
    and leaves; an exception no run catches (no body can be made of the case, or a file
    not written after the outcome was appended) ends the gathering. *)
Inductive mix_step (p : mix) : mix → Prop :=
| mix_admit j js :
    raised p = None → waiting p = j :: js → (length (active p) < CONCURRENT)%nat →
    mix_step p {| waiting := js; active := active p ++ [j]; outcomes := outcomes p;
                  raised := None |}
| mix_conclude js1 j js2 o :
    raised p = None → active p = js1 ++ j :: js2 → concludes j o →
    mix_step p {| waiting := waiting p; active := js1 ++ js2; outcomes := outcomes p ++ [o];
                  raised := None |}
| mix_no_body j e :
    raised p = None → j ∈ active p →
    make_body (sr_case j.1) (u "concurrent-4") j.2 = Raise e →
    mix_step p {| waiting := waiting p; active := active p; outcomes := outcomes p;
                  raised := Some e |}
| mix_not_saved js1 j js2 o w w' e :
    raised p = None → active p = js1 ++ j :: js2 → concludes j o →
    save (u "investigations-progress.json") (outcomes p ++ [o]) w = (w', Raise e) →
    mix_step p {| waiting := waiting p; active := js1 ++ js2; outcomes := outcomes p ++ [o];
                  raised := Some e |}.

(** The mix starts with the outcomes of the sequential phase. *)
Definition start_mix (xs : list SourceResult) (serial : Z) (before : list outcome) : mix :=
  {| waiting := imap (λ n x, (x, serial + Z.of_nat n)) xs; active := []; outcomes := before;
     raised := None |}.

(** ** The summary *)

Definition of_phase (phase : pystr) (o : outcome) : bool :=
  match assoc (u "phase") o with Some (J v) => py_eqb v (JStr phase) | _ => false end.

Definition field_of (k : string) (d : json) (o : outcome) : json :=
  match assoc (u k) o with Some (J v) => v | _ => d end.
Definition checks_of (o : outcome) : list (pystr * bool) :=
  match assoc (u "checks") o with Some (Checks l) => l | _ => [] end.
Definition elapsed_of (o : outcome) : result float :=
  match assoc (u "elapsed_s") o with
  | Some (Secs t) => Ok t
  | Some _ => Raise type_error
  | None => Raise (Exn KeyError (u "elapsed_s"))
  end.

(** [Counter(l)], in the order of first occurrence. *)
Fixpoint bump (k : json) (d : list (json * Z)) : list (json * Z) :=
  match d with
  | [] => [(k, 1)]
  | (k', n) :: d' => if py_eqb k' k then (k', n + 1) :: d' else (k', n) :: bump k d'
  end.
Definition tally (l : list json) : list (json * Z) := foldl (λ d k, bump k d) [] l.

Record PhaseSummary := {
  ps_tasks : Z; ps_statuses : list (json * Z); ps_times : option percentile;
  ps_exact_page_success : Z; ps_with_log_evidence : Z; ps_check_failures : list (json * Z);
  ps_errors : Z }.

Definition positive (v : json) : bool := match v with JInt z => 0 <? z | _ => false end.

Definition phase_summary (phase : pystr) (os : list outcome) : result PhaseSummary :=
  let values := filter (λ o, of_phase phase o = true) os in
  statuses ← map_r (λ o, guard_hash (field_of "status" (js "error") o)) values;
  ts ← map_r elapsed_of values;
  times ← percentiles ts;
  Ok {| ps_tasks := len values; ps_statuses := tally statuses; ps_times := times;
        ps_exact_page_success :=
          len (filter (λ o, assoc (u "exact_first_page") (checks_of o) = Some true) values);
        ps_with_log_evidence :=
          len (filter (λ o, positive (field_of "log_evidence" (JInt 0) o) = true) values);
        ps_check_failures :=
          tally (concat ((λ o, (λ kv, JStr kv.1) <$> filter (λ kv, kv.2 = false) (checks_of o))
                           <$> values));
        ps_errors := len (filter (λ o, is_Some (assoc (u "error") o)) values) |}.
End public_runs.
