(* ===== verification/PublicRunsSpec.v ===== *)
(** * What the investigations of the public logs report

    One outcome for every case and phase, whatever the deployed system answers; the mix
    never has more than four investigations outstanding; the summary accounts for every
    outcome; and the checks on references and gaps are ones a report of the worker passes. *)
From S2P Require Import Prelude.
From S2P Require Import PyStr.
From S2P Require Import Json.
From S2P Require Import PyTime.
From S2P Require Import IsoTime.
From S2P Require Import LogStore.
From S2P Require Import Redaction.
From S2P Require Import Contracts.
From S2P Require Import Runtime.
From S2P Require Import Context.
From S2P Require Import Assemble.
From S2P Require Import AssembleSpec.
From S2P Require Import Report.
From S2P Require Import Retrieval.
From S2P Require Import Ingest.
From S2P Require Import Stats.
From S2P Require Import Drivers.
From S2P Require Import PublicRuns.

(** ** What an outcome always holds *)

Definition timed (o : list (pystr * field)) : Prop :=
  ∃ t, assoc (u "elapsed_s") o = Some (Secs t).
Definition has_status (o : list (pystr * field)) : Prop :=
  ∃ v, assoc (u "status") o = Some (J v).
Definition labels : list pystr := u <$> ["case"; "dataset"; "phase"; "expected_records"]%string.

Definition reserved : list pystr := labels ++ (u <$> ["elapsed_s"; "status"]%string).

(** What every statement of a run leaves as it was. *)
Definition kept {W} (s s' : W * list (pystr * field)) : Prop :=
  (∀ k, k ∈ labels → assoc k s'.2 = assoc k s.2) ∧
  (timed s.2 → timed s'.2) ∧ (has_status s.2 → has_status s'.2).

#[export] Instance kept_preorder {W} : PreOrder (@kept W).
Proof.
  split; unfold kept; [naive_solver|].
  intros s1 s2 s3 (H1 & T1 & S1) (H2 & T2 & S2). split; [|by auto].
  intros k Hk. by rewrite H2, H1.
Qed.

Lemma kept_other {W} (w : W) k v o :
  mem k reserved = false → kept (w, o) (w, assoc_set k v o).
Proof.
  intros Hk. assert (Hn : ∀ k', k' ∈ reserved → k' ≠ k).
  { intros k' Hk' ->. assert (mem k reserved = true) by by apply mem_elem_of. congruence. }
  unfold kept, timed, has_status. cbn [snd].
  rewrite !(assoc_set_other _ k) by (apply Hn, mem_elem_of; by vm_compute).
  split; [|done]. intros k' Hk'. apply assoc_set_other, Hn, elem_of_app. by left.
Qed.

Section runs.
Context {TD : TzDatabase} {UT : UnicodeTables} {W : Type}.
Variable trunc : pystr → result Z.
Variable http : pystr → pystr → list (pystr * pystr) → json → M W response.
Variable content_length : response → Z.
Variables (monotonic perf_counter : W → Z).
Variable sleep : Z → W → W.
Variable uuid4 : W → pystr.
Variable save : pystr → list (list (pystr * field)) → M W ().
Variable save_detail : pystr → json → list json → M W ().
Variable API : pystr.
Variable tokens : pystr → list (pystr * pystr).

Local Abbreviation investigate_ := (investigate_case trunc http content_length monotonic
  perf_counter sleep uuid4 save_detail API).
Local Abbreviation outcome_ := (outcome_of trunc http content_length monotonic
  perf_counter sleep uuid4 save_detail API).

Lemma keeps_put k v : mem (u k) reserved = false → keeps (@kept W) (put k v).
Proof. intros Hk [w o] s' x [= <- _]. by apply kept_other. Qed.

Lemma kept_on_fst {A} (m : M W A) : keeps (@kept W) (on_fst m).
Proof.
  intros [w o] s' x. unfold on_fst. cbn. destruct (m w) as [w' y]. intros [= <- _].
  by repeat split.
Qed.

Lemma keeps_update kvs :
  Forall (λ kv, mem kv.1 reserved = false) kvs → keeps (@kept W) (update kvs).
Proof.
  intros Hk [w o] s' x [= <- _]. cbn. revert o.
  induction Hk as [|kv kvs H _ IH]; intros o; cbn; [done|].
  etrans; [by apply kept_other|apply IH].
Qed.

Lemma keeps_add_check k b : keeps (@kept W) (add_check k b).
Proof.
  intros [w o] s' x [= <- _]. cbn. destruct (assoc _ o) as [[| |l]|]; try done.
  by apply kept_other.
Qed.

Lemma keeps_elapsed t : keeps (@kept W) (put "elapsed_s" (Secs t)).
Proof.
  intros [w o] s' x [= <- _]. cbn. unfold kept, timed, has_status. cbn.
  split; [|split].
  - intros k Hk. apply assoc_set_other. intros ->. by apply mem_elem_of in Hk.
  - intros _. exists t. apply assoc_set_same.
  - by rewrite assoc_set_other.
Qed.

Lemma keeps_status v : keeps (@kept W) (put "status" (J v)).
Proof.
  intros [w o] s' x [= <- _]. cbn. unfold kept, timed, has_status. cbn.
  split; [|split].
  - intros k Hk. apply assoc_set_other. intros ->. by apply mem_elem_of in Hk.
  - by rewrite assoc_set_other.
  - intros _. exists v. apply assoc_set_same.
Qed.

Lemma shown_keys report n es logs sh :
  shown trunc report n es logs = Ok sh → Forall (λ kv, mem kv.1 reserved = false) sh.1.
Proof.
  unfold shown. intros H. inv_ok. cbn [fst].
  repeat (constructor; [by vm_compute|]). constructor.
Qed.

Lemma keeps_bind_lift {A B} (r : result A) (f : A → M (W * list (pystr * field)) B) :
  (∀ a, r = Ok a → keeps kept (f a)) → keeps kept (lift r ≫= f).
Proof.
  intros H s s' x. unfold mbind, M_bind, lift. destruct r as [a|e]; [by apply H|].
  by intros [= <- _].
Qed.

Ltac kept_step :=
  lazymatch goal with
  | |- keeps _ (lift _ ≫= _) => apply keeps_bind_lift; intros ? ?
  | |- keeps _ (on_fst _) => apply kept_on_fst
  | |- keeps _ (put "elapsed_s" _) => apply keeps_elapsed
  | |- keeps _ (put "status" _) => apply keeps_status
  | |- keeps _ (put _ _) => apply keeps_put; by vm_compute
  | |- keeps _ (add_check _ _) => apply keeps_add_check
  | |- keeps _ (update _) => apply keeps_update; by eapply shown_keys
  | |- _ => keeps_step
  end.
Ltac kept_steps := repeat (cbn beta iota zeta; kept_step).

Lemma investigation_keeps fuel x phase b h other started :
  keeps (@kept W) (investigate_ fuel x phase b h other started).
Proof. unfold investigate_case. kept_steps. Qed.

Lemma investigate_done fuel x phase b h other started s s' :
  investigate_ fuel x phase b h other started s = (s', Ok (Some ())) →
  timed s'.2 ∧ has_status s'.2.
Proof.
  unfold investigate_case. intros H. cbv zeta in H.
  do 11 (apply M_bind_ok in H as (? & ? & _ & H)).
  match type of H with match ?o with _ => _ end _ = _ => destruct o as [[resp detail]|] end;
    [|done].
  apply M_bind_ok in H as (s1 & ? & _ & H).
  apply M_bind_ok in H as (s2 & [] & Ht & H).
  apply M_bind_ok in H as (s3 & st & [-> _]%lift_ok & H).
  apply M_bind_ok in H as (s4 & [] & Hst & H).
  assert (timed s2.2) as Htimed.
  { injection Ht as <-. eexists. apply assoc_set_same. }
  assert (has_status s4.2) as Hstatus.
  { injection Hst as <-. eexists. apply assoc_set_same. }
  apply (keeps_status st) in Hst as (_ & Hst & _). specialize (Hst Htimed).
  match type of H with ?m ?s = _ => assert (Hk : keeps (@kept W) m) by kept_steps end.
  apply Hk in H as (_ & H1 & H2). auto.
Qed.

(** ** The polls end *)

Hypothesis sleep_law : ∀ d w, 0 ≤ d → monotonic w + d ≤ monotonic (sleep d w).
Hypothesis http_law : ∀ m url h p w w' x,
  http m url h p w = (w', x) → monotonic w ≤ monotonic w'.

Lemma poll_clock h task deadline w w' :
  poll_round http monotonic sleep API h task deadline w = (w', Ok None) →
  monotonic w < deadline + 1 ∧ monotonic w + billion / 2 ≤ monotonic w'.
Proof.
  unfold poll_round. intros (w1 & r & Hr%http_law & H)%M_bind_ok.
  apply M_bind_ok in H as (w2 & ? & [-> _]%lift_ok & H).
  apply M_bind_ok in H as (w3 & detail & [-> _]%lift_ok & H).
  apply M_bind_ok in H as (w4 & st & [-> _]%lift_ok & H).
  destruct (negb _); [done|]. apply M_bind_ok in H as (w5 & w6 & E & H). injection E as <- <-.
  destruct (Z.ltb_spec deadline (monotonic w1)); [done|].
  apply M_bind_ok in H as (w7 & [] & Hp & H). injection Hp as <-. injection H as <-.
  pose proof (sleep_law (billion / 2) w1 ltac:(done)). lia.
Qed.

(** Three minutes of polls twice a second. *)
Lemma investigate_ends fuel x phase b h other started s s' :
  361 < Z.of_nat fuel → investigate_ fuel x phase b h other started s ≠ (s', Ok None).
Proof.
  intros Hf H. unfold investigate_case in H. cbv zeta in H.
  do 8 (apply M_bind_ok in H as (? & ? & _ & H)).
  apply M_bind_ok in H as (s1 & s2 & E & H). injection E as <- <-.
  apply M_bind_ok in H as (s3 & task & [-> _]%lift_ok & H).
  apply M_bind_ok in H as (s4 & found & Hu & H).
  destruct found as [[resp detail]|].
  { repeat (apply M_bind_ok in H as (? & ? & _ & H)). done. }
  unfold on_fst in Hu. destruct fuel as [|fuel]; [lia|].
  destruct (until _ _ _) as [w' y] eqn:Hun. injection Hu as <- ->.
  eapply (until_ends _ monotonic (billion / 2)); [done| | |exact Hun].
  - intros w1 w2. apply poll_clock.
  - unfold billion in *. change (1000000000 / 2) with 500000000. lia.
Qed.

(** An outcome of a case: named, timed, and with the end of the task or an error. *)
Definition recorded (c : Case) (phase : pystr) (o : list (pystr * field)) : Prop :=
  (∀ k, k ∈ labels → assoc k o = assoc k (new_outcome c phase)) ∧ timed o ∧
  (has_status o ∨ ∃ e, assoc (u "error") o = Some (J (JStr e))).

Lemma outcome_recorded fuel x phase b h other w w' o :
  outcome_ fuel x phase b h other w = (w', Ok (Some o)) → recorded (sr_case x) phase o.
Proof.
  unfold outcome_of, try_except.
  destruct (investigate_ _ _ _ _ _ _ _ _) as [[w1 o1] [[[]|]|e]] eqn:H; [|done|].
  - intros [= _ <-]. pose proof (investigation_keeps _ _ _ _ _ _ _ _ _ _ H) as (Hl & _ & _).
    apply investigate_done in H as [Ht Hs]. split; [exact Hl|]. split; [exact Ht|by left].
  - pose proof (investigation_keeps _ _ _ _ _ _ _ _ _ _ H) as (Hl & _ & _). cbn [snd] in Hl.
    intros [= _ <-]. unfold recorded. split; [|split].
    + intros k Hk. etrans; [|exact (Hl k Hk)].
      rewrite !assoc_set_other; [done|intros ->; by apply mem_elem_of in Hk..].
    + eexists. apply assoc_set_same.
    + right. exists (error_text e). rewrite assoc_set_other by done. apply assoc_set_same.
Qed.

(** With the three minutes of polls the outcome is there, whatever the network does. *)
Lemma outcome_settles fuel x phase b h other w :
  361 < Z.of_nat fuel →
  ∃ w' o, outcome_ fuel x phase b h other w = (w', Ok (Some o)) ∧
    recorded (sr_case x) phase o.
Proof.
  intros Hf. destruct (outcome_ fuel x phase b h other w) as [w' [[o|]|e]] eqn:H.
  - exists w', o. split; [done|by eapply outcome_recorded].
  - exfalso. unfold outcome_of, try_except in H.
    destruct (investigate_ _ _ _ _ _ _ _ _) as [[w1 o1] [[[]|]|e]] eqn:Hi; try done.
    by apply investigate_ends in Hi.
  - exfalso. unfold outcome_of, try_except in H.
    by destruct (investigate_ _ _ _ _ _ _ _ _) as [[w1 o1] [[[]|]|e']].
Qed.

(** ** The phases *)

Local Abbreviation run_ := (run trunc http content_length monotonic perf_counter sleep
  uuid4 save save_detail API tokens).
Local Abbreviation sequential_ := (sequential trunc http content_length monotonic
  perf_counter sleep uuid4 save save_detail API tokens).
Local Abbreviation concludes_ := (concludes trunc http content_length monotonic
  perf_counter sleep uuid4 save_detail API tokens).
Local Abbreviation step_ := (mix_step trunc http content_length monotonic
  perf_counter sleep uuid4 save save_detail API tokens).

Lemma sequential_recorded fuel cases serial w os0 w' os :
  sequential_ fuel cases serial (w, os0) = ((w', os), Ok (Some ())) →
  ∃ os', os = os0 ++ os' ∧
    Forall2 (λ x o, recorded (sr_case x) (u "sequential") o) cases os'.
Proof.
  revert serial w os0. induction cases as [|x cases IH]; intros serial w os0; cbn [sequential].
  { intros [= _ <-]. exists []. by rewrite app_nil_r. }
  intros ([w1 os1] & r & Hr & H)%M_bind_ok. destruct r as [[]|]; [|done].
  unfold run in Hr. cbv zeta in Hr.
  apply M_bind_ok in Hr as (s1 & b & [-> _]%lift_ok & Hr).
  apply M_bind_ok in Hr as ([w2 os2] & o & Ho & Hr).
  unfold on_fst in Ho. cbn in Ho.
  destruct (outcome_ _ _ _ _ _ _ w) as [w3 y] eqn:E. injection Ho as <- <- ->.
  destruct o as [o|]; [|done]. apply outcome_recorded in E.
  apply M_bind_ok in Hr as (s2 & [] & Hm & Hr). injection Hm as <-.
  apply M_bind_ok in Hr as (s3 & s4 & Hg & Hr). injection Hg as <- <-.
  apply M_bind_ok in Hr as ([w4 os4] & [] & Hs & Hr). injection Hr as -> ->.
  unfold on_fst in Hs. cbn in Hs. destruct (save _ _ _) as [w5 z]. injection Hs as _ <- _.
  apply IH in H as (os' & -> & Hall). exists (o :: os'). split; [|by constructor].
  by rewrite <- app_assoc.
Qed.

(** C25. Every investigation ends in one outcome, whatever the deployed system answers and
    whenever it stops answering: with the three minutes of polls a run always returns; it
    appends one outcome, which names its case and phase, has a time, and says how the task
    ended or what went wrong; and it raises only when no request can be made of the case,
    before anything is asked, or when the progress file cannot be written, after the
    outcome was appended. *)
Theorem run_concludes fuel x phase serial w os w' os' r :
  361 < Z.of_nat fuel →
  run_ fuel x phase serial (w, os) = ((w', os'), r) →
  match make_body (sr_case x) phase serial with
  | Raise e => r = Raise e ∧ w' = w ∧ os' = os
  | Ok _ =>
      ∃ o w1, os' = os ++ [o] ∧ recorded (sr_case x) phase o ∧
        match save (u "investigations-progress.json") os' w1 with
        | (w2, Ok _) => w' = w2 ∧ r = Ok (Some ())
        | (w2, Raise e) => w' = w2 ∧ r = Raise e
        end
  end.
Proof.
  intros Hf. unfold run. cbv zeta. unfold mbind at 1, M_bind at 1, lift at 1.
  destruct (make_body _ _ _) as [b|e]; [|by intros [= <- <- <-]].
  destruct (outcome_settles fuel x phase b (tokens (asker (sr_case x)))
    (tokens (other_of (asker (sr_case x)))) w Hf) as (w1 & o & Ho & Hr).
  unfold mbind, M_bind, on_fst, modify, get, mret, M_ret. cbn [fst snd]. rewrite Ho.
  cbn [fst snd]. intros H. exists o, w1.
  destruct (save _ (os ++ [o]) w1) as [w2 [[]|e]] eqn:Hs; injection H as <- <- <-;
    (split; [done|]; split; [done|]); by rewrite Hs.
Qed.

(** The tasks of the mix: those done appended their outcomes, in the order in which they
    were done. *)
Definition mix_ok (jobs : list (SourceResult * Z)) (before : list (list (pystr * field)))
    (p : mix) : Prop :=
  (length (active p) ≤ CONCURRENT)%nat ∧
  ∃ js os, outcomes p = before ++ os ∧ jobs ≡ₚ waiting p ++ active p ++ js ∧
    Forall2 (λ j o, recorded (sr_case j.1) (u "concurrent-4") o) js os.

Lemma concludes_recorded j o :
  concludes_ j o → recorded (sr_case j.1) (u "concurrent-4") o.
Proof. intros (fuel & b & w & w' & _ & H). by eapply outcome_recorded. Qed.

(** A task done leaves the active ones and adds its outcome. *)
Lemma mix_ok_done jobs before p js1 j js2 o e :
  mix_ok jobs before p → active p = js1 ++ j :: js2 → concludes_ j o →
  mix_ok jobs before {| waiting := waiting p; active := js1 ++ js2;
    outcomes := outcomes p ++ [o]; raised := e |}.
Proof.
  intros [Hn (js & os & Ho & Hp & Hall)] Ha Hc. split; cbn.
  - rewrite Ha, length_app in Hn. rewrite length_app. cbn in Hn. lia.
  - exists (js ++ [j]), (os ++ [o]). split; [by rewrite Ho, app_assoc|]. split.
    + rewrite Hp, Ha. solve_Permutation.
    + apply Forall2_app; [done|]. constructor; [|done]. by apply concludes_recorded.
Qed.

Lemma mix_step_ok jobs before p p' : mix_ok jobs before p → step_ p p' → mix_ok jobs before p'.
Proof.
  intros Hok Hstep. destruct Hstep as [j js Hr Hw Hlt|js1 j js2 o Hr Ha Hc|j e Hr Hj Hb|
    js1 j js2 o w w' e Hr Ha Hc Hs]; try by eapply mix_ok_done.
  - destruct Hok as [Hn (js' & os & Ho & Hp & Hall)]. split; cbn.
    + rewrite length_app. cbn. lia.
    + exists js', os. split; [done|]. split; [|done]. rewrite Hp, Hw. solve_Permutation.
  - destruct Hok as [Hn Hrest]. by split.
Qed.

Lemma mix_reach_ok jobs before p p' :
  rtc step_ p p' → mix_ok jobs before p → mix_ok jobs before p'.
Proof. induction 1; eauto using mix_step_ok. Qed.

(** The mix of investigations is accounted for: at any time at most four are
    outstanding; those done have appended one outcome each, in order, after the outcomes of
    the phase before, and together with the waiting and the active ones they are exactly
    the tasks of the mix; and unless an exception ended it there is a next step until
    all are done. *)
Theorem mix_accounted xs serial before p (w0 : W) :
  rtc step_ (start_mix xs serial before) p →
  mix_ok (waiting (start_mix xs serial before)) before p ∧
  (raised p = None → waiting p ≠ [] ∨ active p ≠ [] → ∃ p', step_ p p').
Proof.
  intros Hreach. split.
  - eapply mix_reach_ok; [exact Hreach|]. split; [cbn; unfold CONCURRENT; lia|].
    exists [], []. cbn. by rewrite !app_nil_r.
  - intros Hr Hne. destruct (active p) as [|j js] eqn:Ha.
    + destruct Hne as [Hw|?]; [|done]. destruct (waiting p) as [|j js] eqn:Hw'; [done|].
      eexists. eapply mix_admit; [done|exact Hw'|]. rewrite Ha. cbn. unfold CONCURRENT. lia.
    + destruct (make_body (sr_case j.1) (u "concurrent-4") j.2) as [b|e] eqn:Hb.
      * destruct (outcome_settles 362 j.1 (u "concurrent-4") b (tokens (asker (sr_case j.1)))
          (tokens (other_of (asker (sr_case j.1)))) w0 ltac:(done)) as (w' & o & Ho & _).
        eexists. eapply (mix_conclude _ _ _ _ _ _ _ _ _ _ _ _ [] j js); [done|done|].
        by exists 362%nat, b, w0, w'.
      * eexists. eapply mix_no_body; [done| |exact Hb]. rewrite Ha. apply list_elem_of_here.
Qed.
End runs.

(** ** The summary *)

Lemma recorded_phase c phase phase' o :
  recorded c phase o → of_phase phase' o = str_eqb phase phase'.
Proof.
  intros (Hl & _). unfold of_phase. rewrite Hl by by apply mem_elem_of.
  by vm_compute (assoc _ _).
Qed.

Lemma bump_total k d : total_of (snd <$> bump k d) = total_of (snd <$> d) + 1.
Proof.
  induction d as [|[k' n] d IH]; [done|]. cbn [bump].
  unfold total_of in *. destruct (py_eqb k' k); cbn in *; lia.
Qed.

Lemma tally_total l : total_of (snd <$> tally l) = len l.
Proof.
  unfold tally. assert (∀ d, total_of (snd <$> foldl (λ d k, bump k d) d l)
    = total_of (snd <$> d) + len l) as H; [|by rewrite H].
  unfold len. induction l as [|k l IH]; intros d; cbn [foldl length]; [cbn; lia|].
  rewrite IH, bump_total. lia.
Qed.

Lemma elapsed_recorded c phase o : recorded c phase o → ∃ t, elapsed_of o = Ok t.
Proof. intros (_ & (t & Ht) & _). exists t. unfold elapsed_of. by rewrite Ht. Qed.

Definition status_key (o : list (pystr * field)) : json := field_of "status" (js "error") o.

(** The summary of a phase exists and accounts for its outcomes. *)
Lemma phase_summary_total phase os :
  Forall (λ o, ∃ c, recorded c phase o) (filter (λ o, of_phase phase o = true) os) →
  Forall (λ o, hashable (status_key o) = true) os → len os < 2 ^ 40 →
  ∃ s, phase_summary phase os = Ok s ∧
    ps_tasks s = len (filter (λ o, of_phase phase o = true) os) ∧
    total_of (snd <$> ps_statuses s) = ps_tasks s.
Proof.
  intros Hrec Hhash Hlen. unfold phase_summary.
  set (values := filter _ os) in *.
  assert (Hsub : ∀ o, o ∈ values → o ∈ os) by (by intros o [_ ?]%list_elem_of_filter).
  assert (Hle : len values ≤ len os).
  { pose proof (length_filter (λ o, of_phase phase o = true) os). unfold len, values. lia. }
  assert (map_r (λ o, guard_hash (field_of "status" (js "error") o)) values
    = Ok (status_key <$> values)) as ->.
  { apply map_r_ok, Forall2_fmap_r, Forall_Forall2_diag, Forall_forall. intros o Ho.
    rewrite Forall_forall in Hhash. specialize (Hhash o (Hsub o Ho)).
    unfold guard_hash, status_key in *. by rewrite Hhash. }
  cbn [mbind result_bind].
  assert (∃ ts, map_r elapsed_of values = Ok ts ∧ length ts = length values) as (ts & -> & Hts).
  { clear -Hrec. induction Hrec as [|o l [c Ho] _ (ts & E & Hl)]; [by exists []|].
    destruct (elapsed_recorded _ _ _ Ho) as [t Ht]. exists (t :: ts). cbn.
    rewrite Ht, E. cbn. split; [done|lia]. }
  cbn [mbind result_bind].
  assert (∃ times, percentiles ts = Ok times) as [times ->].
  { destruct ts as [|t ts]; [by eexists|].
    destruct (percentiles_ranks (t :: ts)) as (a & b & c & E & _); [|by eexists].
    split; [cbn; lia|]. unfold len in *. lia. }
  eexists. split; [done|]. cbn. split; [done|]. rewrite tally_total. unfold len.
  by rewrite length_fmap.
Qed.

Section summary.
Context {TD : TzDatabase} {UT : UnicodeTables} {W : Type}.
Variable trunc : pystr → result Z.
Variable http : pystr → pystr → list (pystr * pystr) → json → M W response.
Variable content_length : response → Z.
Variables (monotonic perf_counter : W → Z).
Variable sleep : Z → W → W.
Variable uuid4 : W → pystr.
Variable save : pystr → list (list (pystr * field)) → M W ().
Variable save_detail : pystr → json → list json → M W ().
Variable API : pystr.
Variable tokens : pystr → list (pystr * pystr).

Local Abbreviation sequential_ := (sequential trunc http content_length monotonic
  perf_counter sleep uuid4 save save_detail API tokens).
Local Abbreviation step_ := (mix_step trunc http content_length monotonic
  perf_counter sleep uuid4 save save_detail API tokens).

Lemma recorded_filter {A} (case_of : A → Case) phase phase' xs os :
  Forall2 (λ x o, recorded (case_of x) phase o) xs os →
  filter (λ o, of_phase phase' o = true) os = if str_eqb phase phase' then os else [].
Proof.
  induction 1 as [|x o xs os Ho _ IH]; [by destruct (str_eqb _ _)|].
  rewrite filter_cons, (recorded_phase _ _ phase' _ Ho), IH. by destruct (str_eqb phase phase').
Qed.

Lemma chosen_length cases xs : chosen cases = Ok xs → length xs = MIX.
Proof. intros H%map_r_ok%Forall2_length. by rewrite length_seq in H. Qed.

(** The summary counts what was asked: when both phases are over, the sequential one
    reports a task for every case and the mix twenty-four, each phase's statuses add up
    to its tasks, and nothing is missing that would keep the summary from being written. *)
Theorem summary_accounts fuel cases serial serial' w w' before xs p :
  sequential_ fuel cases serial (w, []) = ((w', before), Ok (Some ())) →
  chosen cases = Ok xs → rtc step_ (start_mix xs serial' before) p →
  waiting p = [] → active p = [] → len (outcomes p) < 2 ^ 40 →
  Forall (λ o, hashable (status_key o) = true) (outcomes p) →
  ∃ s1 s2,
    phase_summary (u "sequential") (outcomes p) = Ok s1 ∧
    phase_summary (u "concurrent-4") (outcomes p) = Ok s2 ∧
    ps_tasks s1 = len cases ∧ ps_tasks s2 = 24 ∧
    total_of (snd <$> ps_statuses s1) = ps_tasks s1 ∧
    total_of (snd <$> ps_statuses s2) = ps_tasks s2.
Proof.
  intros Hseq Hx Hreach Hw Ha Hlen Hhash.
  apply sequential_recorded in Hseq as (os1 & -> & H1). cbn [app] in *.
  set (jobs := waiting (start_mix xs serial' os1)).
  assert (mix_ok jobs os1 p) as [_ (js & os2 & Ho & Hp & H2)].
  { eapply mix_reach_ok; [exact Hreach|]. split; [cbn; unfold CONCURRENT; lia|].
    exists [], []. cbn. by rewrite !app_nil_r. }
  rewrite Hw, Ha in Hp. cbn [app] in Hp. rewrite Ho in *.
  assert (F1 : filter (λ o, of_phase (u "sequential") o = true) (os1 ++ os2) = os1).
  { rewrite filter_app. rewrite (recorded_filter _ _ _ _ _ H1), (recorded_filter _ _ _ _ _ H2).
    by rewrite app_nil_r. }
  assert (F2 : filter (λ o, of_phase (u "concurrent-4") o = true) (os1 ++ os2) = os2).
  { rewrite filter_app. by rewrite (recorded_filter _ _ _ _ _ H1), (recorded_filter _ _ _ _ _ H2). }
  destruct (phase_summary_total (u "sequential") (os1 ++ os2)) as (s1 & E1 & T1 & S1);
    [|done|done|].
  { rewrite F1. eapply Forall2_Forall_r; [exact H1|]. apply Forall_forall. eauto. }
  destruct (phase_summary_total (u "concurrent-4") (os1 ++ os2)) as (s2 & E2 & T2 & S2);
    [|done|done|].
  { rewrite F2. eapply Forall2_Forall_r; [exact H2|]. apply Forall_forall. eauto. }
  exists s1, s2. split; [done|]. split; [done|]. rewrite T1, F1, T2, F2.
  split; [unfold len; f_equal; symmetry; by eapply Forall2_length|].
  split; [|split; [by rewrite S1, T1, F1|by rewrite S2, T2, F2]].
  unfold len. rewrite <- (Forall2_length _ _ _ H2), <- (Permutation_length Hp).
  unfold jobs. cbn. rewrite length_imap, (chosen_length _ _ Hx). done.
Qed.
End summary.

(** ** Reports of the worker pass *)

(** What the API shows of a report: pydantic's JSON of it, with the fields the checks
    read. *)
Record renders (r : Report) (j : json) : Prop := {
  ren_evidence : ∃ vs, jget_or (JList []) "evidence" j = Ok (JList vs) ∧
    Forall2 (λ e v, jindex "source" v = Ok (JStr (source_name (ev_source e))) ∧
                    jindex "id" v = Ok (JStr (ev_id e))) (r_evidence r) vs;
  ren_facts : ∃ vs, jget_or (JList []) "facts" j = Ok (JList vs) ∧
    Forall2 (λ f v, jindex "evidence" v = Ok (JList (JStr <$> fact_evidence f))) (r_facts r) vs;
  ren_candidates : ∃ vs, jget_or (JList []) "candidates" j = Ok (JList vs) ∧
    Forall2 (λ c v, jindex "evidence" v = Ok (JList (JStr <$> cand_evidence c)))
      (candidates r) vs;
  ren_missing : jget_or (JList []) "missing" j = Ok (JList (JStr <$> r_missing r)) }.

Lemma Forall2_elem_l {A B} (P : A → B → Prop) l k x :
  Forall2 P l k → x ∈ l → ∃ y, y ∈ k ∧ P x y.
Proof.
  intros H Hx. apply list_elem_of_lookup in Hx as [i Hi].
  destruct (Forall2_lookup_l _ _ _ _ _ H Hi) as (y & Hy & Hxy).
  exists y. split; [by eapply list_elem_of_lookup_2|done].
Qed.

Lemma Forall2_elem_r {A B} (P : A → B → Prop) l k y :
  Forall2 P l k → y ∈ k → ∃ x, x ∈ l ∧ P x y.
Proof. intros H%Forall2_flip Hy. exact (Forall2_elem_l _ _ _ _ H Hy). Qed.

Lemma filter_r_keeps {A} (p : A → result bool) l l' x :
  filter_r p l = Ok l' → x ∈ l → p x = Ok true → x ∈ l'.
Proof.
  revert l'. induction l as [|y l IH]; intros l' H Hx Hp; cbn in H; [by apply elem_of_nil in Hx|].
  inv_ok. apply elem_of_cons in Hx as [->|Hx].
  - rewrite Hp in *. inv_ok. apply list_elem_of_here.
  - match goal with |- context [if ?b then _ else _] => destruct b end;
      [apply list_elem_of_further|]; eauto.
Qed.

Lemma any_r_true {A} (p : A → result bool) l x b :
  any_r p l = Ok b → x ∈ l → p x = Ok true → b = true.
Proof.
  induction l as [|y l IH]; cbn; [by intros _ ?%elem_of_nil|].
  intros H [->|Hx]%elem_of_cons Hp; [rewrite Hp in H; by injection H as <-|].
  apply bind_ok in H as ([] & _ & H); [by injection H as <-|auto].
Qed.

Lemma all_r_all {A} (p : A → result bool) l : (∀ x, x ∈ l → p x = Ok true) → all_r p l = Ok true.
Proof.
  induction l as [|x l IH]; intros H; [done|]. cbn.
  rewrite (H x (list_elem_of_here _ _)). apply IH. intros y Hy.
  by apply H, list_elem_of_further.
Qed.

(** A claim's references, as the script reads them from its JSON. *)
Lemma claim_refs {A} (cited : A → list pystr) (known : list pystr) claims vs ls v l :
  Forall2 (λ c v, jindex "evidence" v = Ok (JList (JStr <$> cited c))) claims vs →
  Forall (λ c, Forall (λ i, i ∈ known) (cited c)) claims →
  v ∈ vs → jindex "evidence" v = Ok ls → jiter ls = Ok l →
  Forall (λ r, ∃ i, r = JStr i ∧ i ∈ known) l.
Proof.
  intros HF Hk Hv Hls Hl. destruct (Forall2_elem_r _ _ _ _ HF Hv) as (c & Hc & E).
  rewrite E in Hls. injection Hls as <-. injection Hl as <-.
  apply Forall_fmap. rewrite Forall_forall in Hk. eapply Forall_impl; [by apply Hk|].
  cbn. eauto.
Qed.

(** An identifier of evidence is among those read from the JSON. *)
Lemma id_shown (evs : list Evidence) vs known i :
  Forall2 (λ e v, jindex "source" v = Ok (JStr (source_name (ev_source e))) ∧
                  jindex "id" v = Ok (JStr (ev_id e))) evs vs →
  map_r (λ e, jindex "id" e ≫= guard_hash) vs = Ok known → i ∈ ids evs →
  existsb (λ k, py_eqb k (JStr i)) known = true.
Proof.
  intros HF Hk%map_r_ok (e & -> & He)%list_elem_of_fmap.
  destruct (Forall2_elem_l _ _ _ _ HF He) as (v & Hv & _ & Hi).
  destruct (Forall2_elem_l _ _ _ _ Hk Hv) as (k & Hkin & E). rewrite Hi in E.
  injection E as <-. apply existsb_exists. eexists. split; [by apply list_elem_of_In|].
  cbn. unfold str_eqb. by apply bool_decide_eq_true.
Qed.

Lemma startswith_prefix p q s : startswith (p ++ q) s = true → startswith p s = true.
Proof.
  revert s. induction p as [|c p IH]; intros s; cbn; [done|].
  destruct s as [|d s]; [done|]. rewrite !andb_true_iff. intros [? ?]; auto.
Qed.

(** The references of a grounded report resolve. *)
Lemma references_known r j refs :
  renders r j → references j = Ok refs →
  Forall (λ f, cites (r_evidence r) (fact_evidence f)) (r_facts r) →
  Forall (grounded_candidate (r_evidence r)) (candidates r) →
  Forall (λ v, ∃ i, v = JStr i ∧ i ∈ ids (r_evidence r)) refs.
Proof.
  intros [_ (fs & Hf & Ff) (cs & Hc & Fc) _] H Gf Gc.
  unfold references in H. rewrite Hf, Hc in H. cbn [mbind result_bind jadd jiter] in H.
  apply bind_ok in H as (ls & Hls & H). injection H as <-.
  apply map_r_ok in Hls. apply Forall_concat, Forall_forall. intros l Hl.
  destruct (Forall2_elem_r _ _ _ _ Hls Hl) as (v & Hv & E).
  apply bind_ok in E as (e & He & Hi).
  apply elem_of_app in Hv as [Hv|Hv].
  - eapply claim_refs; [exact Ff| |exact Hv|exact He|exact Hi].
    eapply Forall_impl; [exact Gf|]. by intros f [_ ?].
  - eapply claim_refs; [exact Fc| |exact Hv|exact He|exact Hi].
    eapply Forall_impl; [exact Gc|]. by intros c [[_ ?] _].
Qed.

(** A source the bundle accounts for is among the sources of the JSON's evidence, or is
    named by a string of [missing]. *)
Lemma told_of b r j vs st :
  renders r j → r_evidence r = evidence b → r_missing r = missing b → accounts_for b st →
  jget_or (JList []) "evidence" j = Ok (JList vs) →
  (∃ v, v ∈ vs ∧ jindex "source" v = Ok (JStr (source_name (step_source st)))) ∨
  (∃ m ms, gaps j = Ok ms ∧ JStr m ∈ ms ∧
     startswith (source_name (step_source st) ++ u ":") m = true).
Proof.
  intros Hj He Hm Hacc Hvs. destruct (ren_evidence _ _ Hj) as (vs' & Hvs' & Fv).
  rewrite Hvs in Hvs'. injection Hvs' as <-. destruct Hacc as [[(e & Hin & Hs) _]|(m & Hin & Hs)].
  - left. rewrite <- He in Hin. destruct (Forall2_elem_l _ _ _ _ Fv Hin) as (v & Hv & Hsv & _).
    exists v. by rewrite <- Hs.
  - right. rewrite <- Hm in Hin. exists m. unfold gaps. rewrite (ren_missing _ _ Hj).
    eexists. split; [reflexivity|]. split; [by apply list_elem_of_fmap_2|].
    change (u ": ") with (u ":" ++ [32]) in Hs. rewrite app_assoc in Hs.
    by eapply startswith_prefix.
Qed.

Section worker.
Context {UT : UnicodeTables} {TD : TzDatabase} {R : Type} `{RO : RuntimeOps R}
  `{RL : !RuntimeLaws R}.
Variable container_repr : json → pystr.
Variable registry_query : PlanStep → option json → M R json.
Variable elapsed : R → json.
Variable model_dump_json : ContextBundle → result pystr.
Variable observe : bool.
Hypothesis registry_law : ∀ step c r r' x,
  registry_query step c r = (r', x) → rt_run r' = rt_run r.
Variable rc : RunContext.

Local Abbreviation assemble_ :=
  (assemble container_repr registry_query elapsed model_dump_json observe).

(** What the checks need to know of an assembled bundle. *)
Lemma assembled proposed recorded rt rt' b recs :
  rt_run rt = rc → assemble_ proposed recorded rt = (rt', Ok (b, recs)) →
  Forall (λ f, cites (evidence b) (fact_evidence f)) (facts b) ∧
  Forall (accounts_for b) (plan_steps (plan b)).
Proof.
  intros Hrt Ha. apply (assemble_inv _ _ _ _ _ registry_law rc) in Ha
    as (_ & _ & l & (_ & Gf & _) & (Ee & Ef & _ & Em & Er & _) & Hacc); [|done].
  rewrite Ee, Ef. split; [done|]. eapply Forall_impl; [exact Hacc|].
  intros st. unfold accounted, delivered, observed, accounts_for. by rewrite Ee, Em, Er.
Qed.

End worker.
