(* ===== verification/PublicRunsCases.v ===== *)
(** * The investigations of the public logs on concrete systems

    A system that refuses every connection, and the report of a recorded case. *)
From S2P Require Import Prelude.
From S2P Require Import PyStr.
From S2P Require Import Json.
From S2P Require Import PyTime.
From S2P Require Import Redaction.
From S2P Require Import Contracts.
From S2P Require Import Runtime.
From S2P Require Import Context.
From S2P Require Import Assemble.
From S2P Require Import AssembleSpec.
From S2P Require Import Report.
From S2P Require Import Natural.
From S2P Require Import Evaluation.
From S2P Require Import Cases.
From S2P Require Import Retrieval.
From S2P Require Import Ingest.
From S2P Require Import Stats.
From S2P Require Import Drivers.
From S2P Require Import PublicRuns.
From S2P Require Import PublicRunsSpec.

#[local] Existing Instance UtcOnly.

(** ** Nothing answers *)

Definition refused : exn := exn_of (TransportError "ConnectError") "refused".
Definition no_http (method url : pystr) (h : list (pystr * pystr)) (p : json) : M Z response :=
  raise refused.
Definition no_save (name : pystr) (os : list (list (pystr * field))) : M Z () := mret ().
Definition no_detail (name : pystr) (d : json) (events : list json) : M Z () := mret ().
Definition no_trunc (s : pystr) : result Z := Raise type_error.

Definition case_a : SourceResult :=
  {| sr_case := {| c_name := u "peak"; c_dataset := BGL; c_service := u "svc-17";
       c_start := u "2005-11-03T00:00:00Z"; c_end := u "2005-11-04T00:00:00Z";
       c_records := 3; c_alerts := Some 1 |};
     sr_returned := 3; sr_next_cursor := None; sr_first_page_ids := [1; 2; 3];
     sr_first_page_alerts := Some 1; sr_expected_page_matches := true |}.

Local Abbreviation run0 := (run no_trunc no_http (λ _, 0) id (λ _, 0) (λ d w, w + d)
  (λ _, []) no_save no_detail [] (λ _, [])).
Local Abbreviation step0 := (mix_step no_trunc no_http (λ _, 0) id (λ _, 0)
  (λ d w, w + d) (λ _, []) no_save no_detail [] (λ _, [])).
Local Abbreviation concludes0 := (concludes no_trunc no_http (λ _, 0) id (λ _, 0)
  (λ d w, w + d) (λ _, []) no_detail [] (λ _, [])).
Local Abbreviation sequential0 := (sequential no_trunc no_http (λ _, 0) id
  (λ _, 0) (λ d w, w + d) (λ _, []) no_save no_detail [] (λ _, [])).

Lemma sleep0 d w : 0 ≤ d → id w + d ≤ id (w + d).
Proof. cbn. lia. Qed.
Lemma http0 m url h p w w' x : no_http m url h p w = (w', x) → id w ≤ id w'.
Proof. by intros [= <- _]. Qed.

(** What a run appends here. *)
Definition failed (x : SourceResult) (phase : pystr) : list (pystr * field) :=
  new_outcome (sr_case x) phase
  ++ [(u "error", J (JStr (error_text refused))); (u "elapsed_s", Secs fzero)].

Lemma refused_run :
  run0 362 case_a (u "sequential") 0 (0, []) = ((0, [failed case_a (u "sequential")]), Ok (Some ())).
Proof. by vm_compute. Qed.

Lemma run_concludes_witness :
  recorded (sr_case case_a) (u "sequential") (failed case_a (u "sequential")).
Proof.
  pose proof (run_concludes no_trunc no_http (λ _, 0) id (λ _, 0) (λ d w, w + d)
    (λ _, []) no_save no_detail [] (λ _, []) sleep0 http0 362 case_a (u "sequential") 0 0 []
    _ _ _ eq_refl refused_run) as H.
  destruct (make_body _ _ _) as [b|e]; [|by destruct H].
  destruct H as (o & w1 & [= <-] & Ho & _). exact Ho.
Defined.

Lemma mix_accounted_witness :
  ∃ p', step0 (start_mix [case_a] 0 []) p'.
Proof.
  refine (proj2 (mix_accounted no_trunc no_http (λ _, 0) id (λ _, 0)
    (λ d w, w + d) (λ _, []) no_save no_detail [] (λ _, []) sleep0 http0 [case_a] 0 []
    (start_mix [case_a] 0 []) 0 (rtc_refl _ _)) eq_refl _).
  by left.
Defined.

Lemma failed_concludes j b :
  make_body (sr_case j.1) (u "concurrent-4") j.2 = Ok b →
  concludes0 j (failed j.1 (u "concurrent-4")).
Proof. intros Hb. exists 1%nat, b, 0, 0. by split. Qed.

(** Tasks that can be asked run through the mix. *)
Lemma mix_drains js os :
  Forall (λ j, ∃ b, make_body (sr_case j.1) (u "concurrent-4") j.2 = Ok b) js →
  rtc step0 {| waiting := js; active := []; outcomes := os; raised := None |}
    {| waiting := []; active := [];
       outcomes := os ++ ((λ j, failed j.1 (u "concurrent-4")) <$> js); raised := None |}.
Proof.
  intros Hjs. revert os. induction Hjs as [|j js [b Hb] _ IH]; intros os.
  { cbn. rewrite app_nil_r. apply rtc_refl. }
  eapply rtc_l; [eapply (mix_admit _ _ _ _ _ _ _ _ _ _ _ _ j js); cbn; try done;
    unfold CONCURRENT; lia|].
  eapply rtc_l; [eapply (mix_conclude _ _ _ _ _ _ _ _ _ _ _ _ [] j []); cbn; try done;
    by eapply failed_concludes|].
  cbn. replace (os ++ failed j.1 (u "concurrent-4") :: ((λ j, failed j.1 (u "concurrent-4")) <$> js))
    with ((os ++ [failed j.1 (u "concurrent-4")]) ++ ((λ j, failed j.1 (u "concurrent-4")) <$> js))
    by by rewrite <- app_assoc.
  apply IH.
Qed.

Definition mix_tasks : list (SourceResult * Z) :=
  imap (λ n x, (x, 1 + Z.of_nat n)) (repeat case_a MIX).

Lemma tasks_bodies :
  Forall (λ j, ∃ b, make_body (sr_case j.1) (u "concurrent-4") j.2 = Ok b)
    mix_tasks.
Proof.
  assert (H : forallb (λ j, is_ok (make_body (sr_case j.1) (u "concurrent-4") j.2))
    mix_tasks = true) by by vm_compute.
  apply Forall_forall. intros j Hj%list_elem_of_In.
  pose proof (proj1 (forallb_forall _ _) H j Hj) as Hb.
  cbv beta in Hb. destruct (make_body _ _ _) as [b|]; [by exists b|done].
Qed.

Lemma summary_accounts_witness :
  ∃ p s1 s2,
    phase_summary (u "sequential") (outcomes p) = Ok s1 ∧
    phase_summary (u "concurrent-4") (outcomes p) = Ok s2 ∧ ps_tasks s1 = 1 ∧ ps_tasks s2 = 24.
Proof.
  set (before := [failed case_a (u "sequential")]).
  set (p := {| waiting := []; active := [];
    outcomes := before ++ ((λ j : SourceResult * Z, failed j.1 (u "concurrent-4")) <$> mix_tasks);
    raised := None |}).
  exists p.
  assert (Hseq : sequential0 1 [case_a] 0 (0, []) = ((0, before), Ok (Some ())))
    by by vm_compute.
  assert (Hch : chosen [case_a] = Ok (repeat case_a MIX)) by by vm_compute.
  assert (Hr : rtc step0 (start_mix (repeat case_a MIX) 1 before) p)
    by exact (mix_drains mix_tasks before tasks_bodies).
  assert (Hh : forallb (λ o, hashable (status_key o)) (outcomes p) = true) by by vm_compute.
  destruct (summary_accounts no_trunc no_http (λ _, 0) id (λ _, 0)
    (λ d w, w + d) (λ _, []) no_save no_detail [] (λ _, []) 1 [case_a] 0 1 0 0 before
    (repeat case_a MIX) p Hseq Hch Hr eq_refl eq_refl) as (s1 & s2 & H1 & H2 & T1 & T2 & _).
  - by vm_compute.
  - apply Forall_forall. intros o Ho%list_elem_of_In.
    exact (proj1 (forallb_forall _ _) Hh o Ho).
  - exists s1, s2. auto.
Defined.

(** ** The report of a recorded case *)

(** The API's JSON of a report, as far as the checks read it. *)
Definition evidence_view (e : Evidence) : json :=
  dict [("id", JStr (ev_id e)); ("source", JStr (source_name (ev_source e)));
        ("event_time", JStr (event_time e)); ("snippet", snippet e);
        ("source_record", JStr (source_record e))].
Definition report_view (r : Report) : json :=
  dict [("evidence", JList (evidence_view <$> r_evidence r));
        ("facts", JList ((λ f, dict [("evidence", JList (JStr <$> fact_evidence f))])
                           <$> r_facts r));
        ("candidates", JList ((λ c, dict [("evidence", JList (JStr <$> cand_evidence c))])
                                <$> candidates r));
        ("missing", JList (JStr <$> r_missing r))].

Lemma report_renders r : renders r (report_view r).
Proof.
  split; [eexists; split; [reflexivity|]..|reflexivity].
  all: apply Forall2_fmap_r, Forall_Forall2_diag, Forall_forall; by intros.
Qed.

