(* ===== verification/Bootstrap.v ===== *)
(** * How the fixtures come up (demo/server.py, import)

    When the demo server is imported it makes what it needs on its disk unless it is there:
    the key that signs tokens, the tables, and a Git repository with two versions of a
    configuration and a runbook.  A process can die between any two of its effects on the
    disk, the opening and the writing of a file being two; the next one starts from what
    was left.  Git, the key's generation and its PEM format are parameters. *)
From S2P Require Import Prelude.
From S2P Require Import PyStr.
From S2P Require Import Json.

Section bootstrap.
Context {G Key : Type}.
(** [git init] in a directory without a repository; any other command in one with. *)
Variable git_init : list (pystr * pystr) → result G.
Variable git_run : list pystr → list (pystr * pystr) → G → result (G * pystr).
(** [serialization.load_pem_private_key]. *)
Variable load_pem : list Z → result Key.

(** The disk: the key file, the tables, the repository, its working tree. *)
Record Disk := {
  issuer_pem : option (list Z); tables : bool; repo_dir : bool; dot_git : option G;
  worktree : list (pystr * pystr) }.

Definition no_disk : Disk :=
  {| issuer_pem := None; tables := false; repo_dir := false; dot_git := None; worktree := [] |}.

Definition set_pem (k : list Z) (d : Disk) : Disk :=
  {| issuer_pem := Some k; tables := tables d; repo_dir := repo_dir d; dot_git := dot_git d;
     worktree := worktree d |}.
Definition set_tables (d : Disk) : Disk :=
  {| issuer_pem := issuer_pem d; tables := true; repo_dir := repo_dir d; dot_git := dot_git d;
     worktree := worktree d |}.
Definition set_repo_dir (d : Disk) : Disk :=
  {| issuer_pem := issuer_pem d; tables := tables d; repo_dir := true; dot_git := dot_git d;
     worktree := worktree d |}.
Definition set_git (g : G) (d : Disk) : Disk :=
  {| issuer_pem := issuer_pem d; tables := tables d; repo_dir := repo_dir d; dot_git := Some g;
     worktree := worktree d |}.
Definition set_file (name content : pystr) (d : Disk) : Disk :=
  {| issuer_pem := issuer_pem d; tables := tables d; repo_dir := repo_dir d; dot_git := dot_git d;
     worktree := assoc_set name content (worktree d) |}.

(** A process: its disk, and after how many more effects it dies, if it does. *)
Record Machine := { disk : Disk; dies_after : option nat }.

Definition died : exn := exn_of (OtherError "Died") "".

Definition effect (f : Disk → Disk) : M Machine () := λ m,
  match dies_after m with
  | Some O => (m, Raise died)
  | Some (S n) => ({| disk := f (disk m); dies_after := Some n |}, Ok ())
  | None => ({| disk := f (disk m); dies_after := None |}, Ok ())
  end.

Definition called_process_error : exn := exn_of (OtherError "CalledProcessError") "".

(** [git(args)]: the command's output, stripped; it fails outside a repository. *)
Definition git (args : list pystr) : M Machine pystr :=
  m ← get;
  match dot_git (disk m) with
  | None => raise called_process_error
  | Some g =>
      go ← lift (git_run args (worktree (disk m)) g);
      effect (set_git go.1) ;;
      mret (strip go.2)
  end.

(** A command that only reads. *)
Definition git_log (args : list pystr) : M Machine pystr :=
  m ← get;
  match dot_git (disk m) with
  | None => raise called_process_error
  | Some g => go ← lift (git_run args (worktree (disk m)) g); mret (strip go.2)
  end.

(** [path.write_text(s)] truncates the file, then writes. *)
Definition write_file (name content : pystr) : M Machine () :=
  effect (set_file name []) ;; effect (set_file name content).

Definition RUNBOOK : pystr :=
  u "# Demo order service" ++ 10 :: u "Investigate pool utilization, dependency latency and recent deployments. A temporal correlation is not proof of causation. Confirm config against the deployed commit before proposing a fix." ++ [10].

(** The key file, made unless it exists; [pem] is what this process would generate. *)
Definition ensure_key (pem : list Z) : M Machine () :=
  m ← get;
  match issuer_pem (disk m) with
  | Some _ => mret ()
  | None => effect (set_pem []) ;; effect (set_pem pem)
  end.

Definition ensure_tables : M Machine () :=
  m ← get; if tables (disk m) then mret () else effect set_tables.

Definition add_all : list pystr := [u "add"; u "."].
Definition commit (msg : string) : list pystr := [u "commit"; u "-m"; u msg].
Definition CONFIG : pystr := u "config.json".

(** The repository, made unless its directory [.git] exists. *)
Definition ensure_repository : M Machine () :=
  m ← get;
  (if repo_dir (disk m) then mret () else effect set_repo_dir) ;;
  m ← get;
  match dot_git (disk m) with
  | Some _ => mret ()
  | None =>
      g ← lift (git_init (worktree (disk m)));
      effect (set_git g) ;;
      git [u "config"; u "user.email"; u "demo@incidentdesk.invalid"] ;;
      git [u "config"; u "user.name"; u "IncidentDesk Demo"] ;;
      write_file CONFIG (123 :: 34 :: u "pool_size" ++ 34 :: u ":10," ++ 34 :: u "timeout_ms"
                           ++ 34 :: u ":500}") ;;
      git add_all ;;
      git (commit "demo: healthy baseline") ;;
      write_file CONFIG (123 :: 34 :: u "pool_size" ++ 34 :: u ":1," ++ 34 :: u "timeout_ms"
                           ++ 34 :: u ":50}") ;;
      git add_all ;;
      git (commit "demo: reduce pool and dependency timeout") ;;
      mret ()
  end.

Definition LOG : list pystr := [u "log"; u "-1"; u "--format=%H"; u "--"; CONFIG].

Definition ensure_runbook : M Machine () :=
  m ← get;
  match assoc (u "RUNBOOK.md") (worktree (disk m)) with
  | Some _ => mret ()
  | None =>
      write_file (u "RUNBOOK.md") RUNBOOK ;;
      git add_all ;;
      git (commit "docs: add versioned demo runbook") ;;
      mret ()
  end.

(** What the module binds: [KEY] and [SHA]. *)
Record Booted := { KEY : Key; SHA : pystr }.

Definition read_key : M Machine Key :=
  m ← get;
  match issuer_pem (disk m) with
  | Some k => lift (load_pem k)
  | None => raise (exn_of (OtherError "FileNotFoundError") "issuer.pem")
  end.

Definition boot (pem : list Z) : M Machine Booted :=
  ensure_key pem ;;
  key ← read_key;
  ensure_tables ;;
  ensure_repository ;;
  sha ← git_log LOG;
  ensure_runbook ;;
  mret {| KEY := key; SHA := sha |}.

(** ** Once up, always up the same *)

(** Everything is there. *)
Record complete (d : Disk) : Prop := {
  c_key : is_Some (issuer_pem d); c_tables : tables d = true; c_dir : repo_dir d = true;
  c_git : is_Some (dot_git d);
  c_runbook : is_Some (assoc (u "RUNBOOK.md") (worktree d)) }.

(** What is there stays, and the key as it is. *)
Definition stays (m m' : Machine) : Prop :=
  issuer_pem (disk m') = issuer_pem (disk m) ∧
  (tables (disk m) = true → tables (disk m') = true) ∧
  (repo_dir (disk m) = true → repo_dir (disk m') = true) ∧
  (is_Some (dot_git (disk m)) → is_Some (dot_git (disk m'))) ∧
  (is_Some (assoc (u "RUNBOOK.md") (worktree (disk m))) →
   is_Some (assoc (u "RUNBOOK.md") (worktree (disk m')))).

#[local] Instance stays_preorder : PreOrder stays.
Proof.
  split; unfold stays; [intros m; split; auto|].
  intros m1 m2 m3 (? & ? & ? & ? & ?) (? & ? & ? & ? & ?).
  repeat split; [congruence|auto..].
Qed.

Lemma keeps_effect f :
  (∀ d n n', stays {| disk := d; dies_after := n |} {| disk := f d; dies_after := n' |}) →
  keeps stays (effect f).
Proof.
  intros Hf [d n] m' x. unfold effect. cbn. destruct n as [[|n]|]; intros [= <- _]; [done|..];
    apply Hf.
Qed.

Lemma keeps_set_file name content : keeps stays (effect (set_file name content)).
Proof.
  apply keeps_effect. intros d n n'. repeat split; cbn; try done. intros [v Hv].
  destruct (decide (u "RUNBOOK.md" = name)) as [<-|Hn].
  - exists content. apply assoc_set_same.
  - exists v. by rewrite assoc_set_other.
Qed.
Lemma keeps_set_tables : keeps stays (effect set_tables).
Proof. apply keeps_effect. intros d n n'. by repeat split. Qed.
Lemma keeps_set_repo_dir : keeps stays (effect set_repo_dir).
Proof. apply keeps_effect. intros d n n'. by repeat split. Qed.
Lemma keeps_set_git g : keeps stays (effect (set_git g)).
Proof. apply keeps_effect. intros d n n'. repeat split; cbn; try done. Qed.

#[local] Hint Resolve keeps_set_file keeps_set_tables keeps_set_repo_dir keeps_set_git : keeps.

Lemma keeps_git args : keeps stays (git args).
Proof. unfold git. keeps_steps. Qed.
Lemma keeps_git_log args : keeps stays (git_log args).
Proof. unfold git_log. keeps_steps. Qed.
#[local] Hint Resolve keeps_git keeps_git_log : keeps.

Lemma keeps_repository : keeps stays ensure_repository.
Proof. unfold ensure_repository, write_file. keeps_steps. Qed.
Lemma keeps_runbook : keeps stays ensure_runbook.
Proof. unfold ensure_runbook, write_file. keeps_steps. Qed.
Lemma keeps_tables : keeps stays ensure_tables.
Proof. unfold ensure_tables. keeps_steps. Qed.

Lemma effect_ok f m m' : effect f m = (m', Ok ()) → disk m' = f (disk m).
Proof. unfold effect. destruct (dies_after m) as [[|n]|]; by intros [= <-]. Qed.

Lemma get_ok (m m' m'' : Machine) : get m = (m', Ok m'') → m' = m ∧ m'' = m.
Proof. by intros [= <- <-]. Qed.

(** What each step of a boot that completed has made sure of. *)
Lemma read_key_ok m m' key :
  read_key m = (m', Ok key) →
  m' = m ∧ ∃ k, issuer_pem (disk m) = Some k ∧ load_pem k = Ok key.
Proof.
  unfold read_key. intros (m1 & m2 & [-> ->]%get_ok & H)%M_bind_ok.
  destruct (issuer_pem (disk m)) as [k|]; [|done]. apply lift_ok in H as [-> H]. eauto.
Qed.

Lemma ensure_tables_ok m m' : ensure_tables m = (m', Ok ()) → tables (disk m') = true.
Proof.
  unfold ensure_tables. intros (m1 & m2 & [-> ->]%get_ok & H)%M_bind_ok.
  destruct (tables (disk m)) eqn:E; [by injection H as <-|]. apply effect_ok in H. by rewrite H.
Qed.

Lemma ensure_repository_ok m m' :
  ensure_repository m = (m', Ok ()) → repo_dir (disk m') = true ∧ is_Some (dot_git (disk m')).
Proof.
  unfold ensure_repository. intros (m1 & m2 & [-> ->]%get_ok & H)%M_bind_ok.
  apply M_bind_ok in H as (m1 & [] & Hd & H).
  assert (repo_dir (disk m1) = true) as Hd1.
  { destruct (repo_dir (disk m)) eqn:E; [by injection Hd as <-|].
    apply effect_ok in Hd. by rewrite Hd. }
  apply M_bind_ok in H as (m2 & m3 & [-> ->]%get_ok & H).
  destruct (dot_git (disk m1)) as [g|] eqn:Eg; [injection H as <-; rewrite Eg; eauto|].
  apply M_bind_ok in H as (? & g & [-> _]%lift_ok & H).
  apply M_bind_ok in H as (m3 & [] & E & H). apply effect_ok in E.
  match type of H with ?prog ?s = _ => assert (Hk : keeps stays prog)
    by (unfold write_file; keeps_steps) end.
  apply Hk in H as (_ & _ & H1 & H2 & _). rewrite E in H1, H2. cbn in H1, H2. eauto.
Qed.

Lemma ensure_runbook_ok m m' :
  ensure_runbook m = (m', Ok ()) → is_Some (assoc (u "RUNBOOK.md") (worktree (disk m'))).
Proof.
  unfold ensure_runbook. intros (m1 & m2 & [-> ->]%get_ok & H)%M_bind_ok.
  destruct (assoc _ _) as [r|] eqn:Er; [injection H as <-; by exists r|].
  unfold write_file in H. apply M_bind_ok in H as (m1 & [] & Hw & H).
  apply M_bind_ok in Hw as (m2 & [] & _ & Hw). apply effect_ok in Hw.
  match type of H with ?prog ?s = _ => assert (Hk : keeps stays prog) by keeps_steps end.
  apply Hk in H as (_ & _ & _ & _ & H). apply H. rewrite Hw. cbn.
  eexists. apply assoc_set_same.
Qed.

(** [git log] answers as long as the configuration has been committed once: a later
    command only adds to the history. *)
Definition logs (g : G) : Prop := ∀ w, is_ok (git_run LOG w g) = true.
Hypothesis log_reads : ∀ w g, is_ok (git_run LOG w g) = true → logs g.
Hypothesis log_stays : ∀ args w g g' out, git_run args w g = Ok (g', out) → logs g → logs g'.

Definition log_ok (m : Machine) : Prop := ∃ g, dot_git (disk m) = Some g ∧ logs g.
Definition same_log (m m' : Machine) : Prop := log_ok m → log_ok m'.
#[local] Instance same_log_preorder : PreOrder same_log.
Proof. split; unfold same_log; [intros m; auto|intros m1 m2 m3; auto]. Qed.

Lemma keeps_log_file name content : keeps same_log (effect (set_file name content)).
Proof.
  intros [d n] m' x. unfold effect, same_log, log_ok. cbn.
  by destruct n as [[|n]|]; intros [= <- _].
Qed.

Lemma keeps_log_git args : keeps same_log (git args).
Proof.
  intros [d n] m' x H (g & Hg & Hl). unfold git, get in H. unfold mbind at 1, M_bind in H.
  cbn in H, Hg. rewrite Hg in H. unfold mbind at 1, M_bind, lift in H.
  destruct (git_run args (worktree d) g) as [[g' out]|e] eqn:E; cbn in H.
  2: { injection H as <- _. by exists g. }
  unfold mbind, M_bind, effect in H. cbn in H.
  destruct n as [[|n]|]; injection H as <- _; cbn.
  - by exists g.
  - exists g'. split; [done|by eapply log_stays].
  - exists g'. split; [done|by eapply log_stays].
Qed.

Lemma keeps_log_runbook : keeps same_log ensure_runbook.
Proof.
  unfold ensure_runbook, write_file. pose proof keeps_log_file. pose proof keeps_log_git.
  keeps_steps.
Qed.

(** A boot that completed leaves everything there. *)
Lemma boot_completes pem m m' b :
  boot pem m = (m', Ok b) →
  complete (disk m') ∧ (∃ k, issuer_pem (disk m') = Some k ∧ load_pem k = Ok (KEY b)) ∧
  log_ok m'.
Proof.
  unfold boot. intros (m1 & [] & _ & H)%M_bind_ok.
  apply M_bind_ok in H as (m2 & key & (-> & k & Hk & Hload)%read_key_ok & H).
  apply M_bind_ok in H as (m3 & [] & Ht & H). apply M_bind_ok in H as (m4 & [] & Hg & H).
  apply M_bind_ok in H as (m5 & sha & Hl & H). apply M_bind_ok in H as (m6 & [] & Hb & H).
  injection H as <- <-.
  pose proof (ensure_tables_ok _ _ Ht) as Htab.
  pose proof (ensure_repository_ok _ _ Hg) as [Hdir Hgit].
  pose proof (ensure_runbook_ok _ _ Hb) as Hrun.
  assert (m5 = m4 ∧ log_ok m4) as [-> Hlog].
  { unfold git_log in Hl. apply M_bind_ok in Hl as (? & ? & [-> ->]%get_ok & Hl).
    destruct (dot_git (disk m4)) as [g|] eqn:Eg; [|done].
    apply M_bind_ok in Hl as (? & go & [-> Hgo]%lift_ok & Hl). injection Hl as <- _.
    split; [done|]. exists g. split; [done|]. eapply log_reads. by rewrite Hgo. }
  pose proof (keeps_tables _ _ _ Ht) as (P1 & _).
  pose proof (keeps_repository _ _ _ Hg) as (P2 & T2 & _).
  pose proof (keeps_runbook _ _ _ Hb) as (P4 & T4 & D4 & G4 & _).
  assert (issuer_pem (disk m6) = Some k) as Hp by congruence.
  split; [split; eauto|]. split; [by exists k|]. by apply (keeps_log_runbook _ _ _ Hb).
Qed.

(** On a disk that has everything a boot only reads. *)
Lemma boot_complete pem m g k :
  complete (disk m) → issuer_pem (disk m) = Some k → dot_git (disk m) = Some g →
  boot pem m = (m, key ← load_pem k; go ← git_run LOG (worktree (disk m)) g;
                   Ok {| KEY := key; SHA := strip go.2 |}).
Proof.
  intros [_ Ht Hd _ [r Hr]] Hk Hg. unfold boot, ensure_key, read_key, ensure_tables,
    ensure_repository, git_log, ensure_runbook.
  unfold mbind, M_bind, get, lift. rewrite Hk. cbn [mret M_ret]. rewrite Hk.
  unfold mret, M_ret. destruct (load_pem k) as [key|e]; [|done].
  rewrite Ht, Hd, Hg. cbn. rewrite Hg.
  destruct (git_run LOG (worktree (disk m)) g) as [go|e]; [|done]. rewrite Hr. done.
Qed.

(** Once the fixtures have come up they always come up the same: after a boot that
    completed, whatever half-made state it started from, every later boot, whichever key
    it would generate and wherever it would die, succeeds without touching the disk and
    binds the same signing key, and all of them the same commit. *)
Theorem boot_settles pem m m1 b :
  boot pem m = (m1, Ok b) →
  ∃ b', KEY b' = KEY b ∧ ∀ pem' n,
    let m2 := {| disk := disk m1; dies_after := n |} in boot pem' m2 = (m2, Ok b').
Proof.
  intros H%boot_completes. destruct H as (Hc & (k & Hk & Hload) & g & Hg & Hl).
  specialize (Hl (worktree (disk m1))).
  destruct (git_run LOG (worktree (disk m1)) g) as [go|e] eqn:E; [|done].
  exists {| KEY := KEY b; SHA := strip go.2 |}. split; [done|]. intros pem' n m2.
  rewrite (boot_complete pem' m2 g k Hc Hk Hg). cbn. by rewrite Hload, E.
Qed.

(** Half-made state is never repaired, since its presence is all the start looks at:
    a process that dies between opening and writing the key leaves a file no later boot
    can load, and one that dies after [git init] a repository without a commit, from
    which no later boot can read the commit. *)
Theorem torn_start_stuck e e' key pem g :
  load_pem [] = Raise e → load_pem pem = Ok key → git_init [] = Ok g →
  (∀ w, git_run LOG w g = Raise e') →
  let torn n := disk (boot pem {| disk := no_disk; dies_after := Some n |}).1 in
  ∀ pem' n,
    (let m := {| disk := torn 1%nat; dies_after := n |} in boot pem' m = (m, Raise e)) ∧
    (let m := {| disk := torn 5%nat; dies_after := n |} in boot pem' m = (m, Raise e')).
Proof.
  intros Hempty Hpem Hinit Hlog torn pem' n.
  assert (T1 : torn 1%nat = set_pem [] no_disk) by done.
  assert (T5 : torn 5%nat = set_git g (set_repo_dir (set_tables (set_pem pem no_disk)))).
  { unfold torn, boot, ensure_key, read_key, ensure_tables, ensure_repository, effect, lift, get,
      mbind, M_bind. cbn. rewrite Hpem. cbn. rewrite Hinit. unfold git at 1, effect, lift,
      get, mbind, M_bind. cbn. by destruct (git_run _ _ g). }
  rewrite T1, T5. unfold boot, ensure_key, read_key, ensure_tables, ensure_repository, git_log,
    lift, get, mbind, M_bind. split; cbn.
  - by rewrite Hempty.
  - rewrite Hpem. cbn. by rewrite Hlog.
Qed.
End bootstrap.

(** ** A toy of Git: the number of commits *)

Definition toy_init (w : list (pystr * pystr)) : result nat := Ok O.
Definition toy_run (args : list pystr) (w : list (pystr * pystr)) (g : nat) : result (nat * pystr) :=
  if bool_decide (args = LOG) then
    match g with O => Raise called_process_error | _ => Ok (g, str_of_Z (Z.of_nat g)) end
  else if bool_decide (head args = Some (u "commit")) then Ok (S g, []) else Ok (g, []).
Definition toy_pem (k : list Z) : result (list Z) :=
  match k with [] => Raise (exn_of ValueError "no PEM") | _ => Ok k end.

Lemma toy_log_reads w g : is_ok (toy_run LOG w g) = true → logs toy_run g.
Proof. intros H w'. exact H. Qed.

Lemma toy_log_stays args w g g' out :
  toy_run args w g = Ok (g', out) → logs toy_run g → logs toy_run g'.
Proof.
  intros H Hl w'. specialize (Hl w'). unfold toy_run in *.
  rewrite bool_decide_true in Hl |- * by done. destruct g; [done|].
  destruct (bool_decide (args = LOG)); [by injection H as <- _|].
  destruct (bool_decide _); by injection H as <- _.
Qed.

Lemma boot_settles_witness :
  ∃ b', KEY b' = [7] ∧
    (boot toy_init toy_run toy_pem [8] {| disk := disk (boot toy_init toy_run toy_pem [7]
      {| disk := no_disk; dies_after := None |}).1; dies_after := Some O |}).2 = Ok b'.
Proof.
  destruct (boot toy_init toy_run toy_pem [7] {| disk := no_disk; dies_after := None |})
    as [m1 [b|e]] eqn:H; [|exfalso; revert H; by vm_compute].
  destruct (boot_settles toy_init toy_run toy_pem toy_log_reads toy_log_stays _ _ _ _ H)
    as (b' & Hk & Hb).
  exists b'. split; [|cbn [fst]; specialize (Hb [8] (Some O)); cbv zeta in Hb; by rewrite Hb].
  assert (E : (KEY <$> (boot toy_init toy_run toy_pem [7]
    {| disk := no_disk; dies_after := None |}).2) = Ok [7]) by by vm_compute.
  rewrite H in E. cbn in E. rewrite Hk. by injection E.
Defined.

Lemma torn_start_stuck_witness :
  (boot toy_init toy_run toy_pem [8] {| disk := disk (boot toy_init toy_run toy_pem [7]
    {| disk := no_disk; dies_after := Some 1%nat |}).1; dies_after := None |}).2
  = Raise (exn_of ValueError "no PEM").
Proof.
  pose proof (torn_start_stuck toy_init toy_run toy_pem _ called_process_error [7] [7] O
    eq_refl eq_refl eq_refl (λ w, eq_refl) [8] None) as [H _].
  cbv zeta in H. by rewrite H.
Defined.
