(* ===== verification/Corpus.v ===== *)
(** * Retrieval over the whole corpus (scripts/search_v2_corpus.py)

    For every case of the benchmark the script asks the log store for at most three pages
    of twenty, following the cursors, and compares with what is known of the case; the
    labels are read only afterwards, from their own table. *)
From S2P Require Import Prelude.
From S2P Require Import PyStr.
From S2P Require Import Json.
From S2P Require Import JsonParse.
From S2P Require Import PyTime.
From S2P Require Import IsoTime.
From S2P Require Import LogStore.
From S2P Require Import LogStoreSpec.
From S2P Require Import Paging.
From S2P Require Import Ingest.

Record CorpusResult := {
  cr_case : pystr; cr_expected_records : Z; cr_expected_alerts : option Z;
  cr_total : Z; cr_matched : Z; cr_levels : list (pystr * Z); cr_scan : Z;
  cr_retrieved : Z; cr_retrieved_alerts : option Z; cr_ids : list Z }.

Section corpus.
Context {JR : JsonRuntime} {TD : TzDatabase} {UT : UnicodeTables}.
Variable container_repr : json → pystr.
Variable level_of : pystr → pystr.
Variable fts : pystr → Z → bool.
(** The two tables of the database. *)
Variables (db : list row) (alerts : list (Z * pystr)).

(** The loop over the pages: what it has gathered, and the answer it saw last. *)
Fixpoint corpus_pages (n : nat) (sc : LogScope) (cursor : json) (rows : list (row * json))
    (scan : Z) (out : option Page) : result (list (row * json) * Z * option Page) :=
  match n with
  | O => Ok (rows, scan, out)
  | S n' =>
      p ← query container_repr level_of fts db sc (JObj []) 20 cursor;
      let rows := rows ++ pg_records p in
      let scan := scan + pg_scan p in
      match pg_cursor p with
      | Some c => if truthy (JStr c) then corpus_pages n' sc (JStr c) rows scan (Some p)
                  else Ok (rows, scan, Some p)
      | None => Ok (rows, scan, Some p)
      end
  end.

Definition PAGES : nat := 3.

(** [select count(star) from benchmark_alerts where log_id=?]; the identifier of a record is its
    row's. *)
Definition alert_count (n : Z) : Z := len (filter (λ a, a.1 = n) alerts).

Definition corpus_case (c : Case) : result CorpusResult :=
  let sc := {| log_service := c_service c; log_start := c_start c; log_end := c_end c |} in
  r ← corpus_pages PAGES sc JNull [] 0 None;
  match r with
  | (rows, scan, Some out) =>
      Ok {| cr_case := c_name c; cr_expected_records := c_records c;
            cr_expected_alerts := c_alerts c; cr_total := pg_total out;
            cr_matched := pg_matched out; cr_levels := pg_levels out; cr_scan := scan;
            cr_retrieved := len rows;
            cr_retrieved_alerts :=
              match c_dataset c with
              | BGL => Some (total_of ((λ x : row * json, alert_count (rid x.1)) <$> rows))
              | HDFS => None
              end;
            cr_ids := (λ x : row * json, rid x.1) <$> rows |}
  | (_, _, None) => Raise (exn_of (OtherError "NameError") "out")
  end.

(** The rows the query of a case selects, all of them. *)
Definition selection (c : Case) (start end_ : pystr) : list row :=
  sel_rows (select level_of fts db (c_service c) start end_
              {| s_mode := u "anomalies"; s_terms := []; s_levels := [] |}).

(** *** The loop takes a prefix of the pages *)

Lemma cursor_truthy ps c : make_cursor ps = Ok c → truthy (JStr c) = true.
Proof.
  unfold make_cursor. intros (bs & Hb & H)%bind_ok. injection H as <-.
  unfold encode in Hb. rewrite dump_obj in Hb. destruct (forallb _ _); [|done].
  injection Hb as <-. cbn [utf8 concat fmap list_fmap].
  change (utf8_char 123) with [123]. cbn [app]. by destruct (concat _) as [|x [|y l]].
Qed.

Lemma query_cursor sc cursor p c :
  query container_repr level_of fts db sc (JObj []) 20 cursor = Ok p →
  pg_cursor p = Some c → truthy (JStr c) = true.
Proof.
  unfold query. intros H Hc. do 4 (apply bind_ok in H as (? & _ & H)).
  apply bind_ok in H as ([w n] & _ & H). apply bind_ok in H as (next & Hn & H).
  apply bind_ok in H as (prof & _ & H). injection H as <-. cbn in Hc. subst next.
  destruct (w_more w); [|done]. apply bind_ok in Hn as (c' & Hm & E). injection E as ->.
  by eapply cursor_truthy.
Qed.

Lemma corpus_pages_prefix n m sc cursor pgs acc scan out :
  Paging.pages container_repr level_of fts db sc (JObj []) 20 m cursor = Ok pgs →
  ∃ k scan' out', corpus_pages n sc cursor acc scan out
      = Ok (acc ++ concat (take k pgs), scan', out') ∧
    (k ≤ n)%nat ∧ (n ≠ O → is_Some out') ∧ (k = n ∨ take k pgs = pgs).
Proof.
  revert m cursor pgs acc scan out. induction n as [|n IH]; intros m cursor pgs acc scan out H.
  { exists 0%nat, scan, out. cbn. rewrite app_nil_r. repeat split; try done. by left. }
  destruct m as [|m]; [done|]. cbn [Paging.pages] in H. cbn [corpus_pages].
  apply bind_ok in H as (p & Hp & H). rewrite Hp. cbn [mbind result_bind].
  destruct (pg_cursor p) as [c|] eqn:Hc.
  - apply bind_ok in H as (rest & Hrest & H). injection H as <-.
    rewrite (query_cursor _ _ _ _ Hp Hc).
    destruct (IH m (JStr c) rest (acc ++ pg_records p) (scan + pg_scan p) (Some p) Hrest)
      as (k & scan' & out' & E & Hk & Hout & Hend).
    exists (S k), scan', out'. rewrite E. cbn [take concat]. rewrite app_assoc.
    split; [done|]. split; [lia|]. split.
    + intros _. destruct n; [|by apply Hout]. cbn in E. injection E as _ _ <-. by eexists.
    + destruct Hend as [->|Hend]; [by left|right]. by rewrite Hend.
  - injection H as <-. exists 1%nat, (scan + pg_scan p), (Some p). cbn.
    rewrite app_nil_r. repeat split; [lia|by eexists|by right].
Qed.

Lemma prefix_sublist_concat {A} k (pgs : list (list A)) : concat (take k pgs) `sublist_of` concat pgs.
Proof.
  rewrite <- (take_drop k pgs) at 2. rewrite concat_app. by apply sublist_inserts_r.
Qed.

Lemma total_submseteq {A} (f : A → Z) l l' :
  l ⊆+ l' → (∀ x, 0 ≤ f x) → total_of (f <$> l) ≤ total_of (f <$> l').
Proof.
  intros H Hf. unfold total_of. induction H; cbn; try lia.
  pose proof (Hf x). lia.
Qed.

Lemma pages_bounded m sc cursor pgs :
  Paging.pages container_repr level_of fts db sc (JObj []) 20 m cursor = Ok pgs →
  Forall (λ p, len p ≤ 20) pgs.
Proof.
  revert cursor pgs. induction m as [|m IH]; intros cursor pgs H; [done|].
  cbn [Paging.pages] in H. apply bind_ok in H as (p & Hp & H).
  apply query_within in Hp as (Hl & _).
  destruct (pg_cursor p) as [c|].
  - apply bind_ok in H as (rest & Hrest & H). injection H as <-. constructor; [done|].
    by eapply IH.
  - injection H as <-. by constructor.
Qed.

Lemma len_concat {A} b (ls : list (list A)) :
  Forall (λ l, len l ≤ b) ls → len (concat ls) ≤ b * len ls.
Proof.
  unfold len. induction 1 as [|l ls Hl _ IH]; [cbn; lia|].
  cbn [concat length]. rewrite length_app. lia.
Qed.

(** What the script retrieves for a case is sound: over a table of well-formed rows the
    three pages never fail, hold no record twice and none the query does not select, are
    at most sixty records, and are all the selected records whenever these fit in three
    pages; and the labelled records counted among them are never more than the selection
    has. *)
Theorem corpus_sound c start end_ :
  NoDup (rid <$> db) → Forall (row_good level_of) db → Forall payload_good db →
  canonical (c_start c) = Ok start → canonical (c_end c) = Ok end_ →
  ∃ r pgs,
    corpus_case c = Ok r ∧
    Paging.pages container_repr level_of fts db
      {| log_service := c_service c; log_start := c_start c; log_end := c_end c |}
      (JObj []) 20 (length db + 2) JNull = Ok pgs ∧
    NoDup (cr_ids r) ∧ cr_ids r ⊆+ (rid <$> selection c start end_) ∧
    cr_retrieved r = len (cr_ids r) ∧ cr_retrieved r ≤ 60 ∧
    ((length pgs ≤ PAGES)%nat → cr_ids r ≡ₚ rid <$> selection c start end_) ∧
    (∀ n, cr_retrieved_alerts r = Some n →
       n ≤ total_of (alert_count <$> (rid <$> selection c start end_))).
Proof.
  intros Hids Hgood Hpay Hs He.
  set (sc := {| log_service := c_service c; log_start := c_start c; log_end := c_end c |}).
  destruct (pages_complete container_repr level_of fts db sc (JObj []) 20
    {| s_mode := u "anomalies"; s_terms := []; s_levels := [] |} start end_ Hids Hgood Hpay)
    as (pgs & Hpgs & Hperm); [by vm_compute|constructor|done|done|].
  change (sel_rows _) with (selection c start end_) in Hperm.
  destruct (corpus_pages_prefix PAGES _ _ _ _ [] 0 None Hpgs)
    as (k & scan & out & E & Hk & Hout & Hend).
  destruct (Hout ltac:(done)) as [p ->]. cbn [app] in E.
  unfold corpus_case. fold sc. rewrite E. cbn [mbind result_bind].
  set (rows := concat (take k pgs)) in *.
  assert (Hsub : (λ x : row * json, rid x.1) <$> rows ⊆+ rid <$> selection c start end_).
  { rewrite <- Hperm, <- list_fmap_compose. apply fmap_submseteq, sublist_submseteq.
    apply prefix_sublist_concat. }
  eexists _, pgs. split; [done|]. split; [done|]. cbn [cr_ids cr_retrieved cr_retrieved_alerts].
  split; [|split; [done|split; [unfold len; by rewrite length_fmap|split; [|split]]]].
  - assert (NoDup (rid <$> selection c start end_)) as Hnd.
    { eapply sublist_NoDup; [exact Hids|]. apply fmap_sublist, (rows_sublist _ _ _ sc). }
    apply submseteq_Permutation in Hsub as [l Hl]. rewrite Hl in Hnd.
    by apply NoDup_app in Hnd as [? _].
  - pose proof (Forall_take _ k _ (pages_bounded _ _ _ _ Hpgs)) as Hb.
    pose proof (len_concat 20 _ Hb) as Hlen. fold rows in Hlen.
    assert (len (take k pgs) ≤ 3) by (unfold len, PAGES in *; rewrite length_take; lia). lia.
  - intros Hfew. assert (take k pgs = pgs) as Hall.
    { destruct Hend as [->|?]; [by apply take_ge|done]. }
    unfold rows. rewrite Hall, <- Hperm, <- list_fmap_compose. done.
  - destruct (c_dataset c); [|done]. intros n [= <-].
    rewrite (list_fmap_compose (λ x : row * json, rid x.1) alert_count).
    apply total_submseteq; [done|]. intros x. unfold alert_count, len. lia.
Qed.
End corpus.

Section corpus_witness.
Local Abbreviation repr0 := (dumps false false).
#[local] Existing Instances UtcOnly AsciiCjk PlainJson.

Definition log_case : Case :=
  {| c_name := u "window"; c_dataset := BGL; c_service := u "svc-17";
     c_start := u "2026-09-24T09:00:00+00:00"; c_end := u "2026-09-24T11:00:00+00:00";
     c_records := 6; c_alerts := Some 1 |}.

Lemma corpus_sound_witness :
  ∃ r, corpus_case repr0 level_text no_match some_logs [(2, u "KERN")] log_case = Ok r ∧
    cr_retrieved r ≤ 60 ∧ NoDup (cr_ids r).
Proof.
  destruct (corpus_sound repr0 level_text no_match some_logs [(2, u "KERN")] log_case
    (u "2026-09-24T09:00:00+00:00") (u "2026-09-24T11:00:00+00:00"))
    as (r & pgs & H & _ & Hnd & _ & _ & Hle & _).
  - apply (bool_decide_unpack _). by vm_compute.
  - repeat apply Forall_cons_2; try apply Forall_nil_2; unfold row_good;
      (split; [cbn; lia|]); (split; [by vm_compute|]); (split; [by vm_compute|]);
      apply (bool_decide_unpack _); by vm_compute.
  - repeat apply Forall_cons_2; try apply Forall_nil_2; eexists _, _; by vm_compute.
  - by vm_compute.
  - by vm_compute.
  - exists r. auto.
Defined.
End corpus_witness.
