(* ===== verification/Drills.v ===== *)
(** * Two drills (scripts/demo_faults.py, k8s_sse.py)

    Every fault of the demo service is switched on and its answer checked; a stream of
    events is dropped and resumed on another replica, and must be complete. *)
From S2P Require Import Prelude.
From S2P Require Import PyStr.
From S2P Require Import Json.
From S2P Require Import JsonParse.
From S2P Require Import Runtime.
From S2P Require Import DemoPool.
From S2P Require Import Demo.
From S2P Require Import Drivers.

(** ** The faults as they are checked (demo_faults.py)

    The script switches the demo service to each fault in turn and asserts the status of
    the next answer.  Here both sides are modelled: the handlers of demo/server.py answer
    the script's own requests. *)

(** The faults and the status each is expected to be answered with. *)
Definition FAULTS : list (pystr * Z) :=
  [(u "healthy", 200); (u "pool_exhaustion", 503); (u "dependency_timeout", 503);
   (u "bad_config", 503); (u "release_error", 503); (u "missing_logs", 200)].

Record Observation := { ob_fault : pystr; ob_status : Z; ob_observed : json }.

Section faults.
Context {W : Type}.
Variable container_repr : json → pystr.
Variable SHA demo_key : pystr.
Variable seed_database : bool.
Variable time_ns : W → Z.
Variable now_iso : W → pystr.
Variable db_now : W → Z.
Variable elapsed_ms : W → W → json.
Variable post : pystr → json → M W response.
Variable dependency : M W bool.
Variable commit_runbook : pystr → M W ().

Local Abbreviation control_ := (control container_repr SHA demo_key seed_database time_ns db_now
  post commit_runbook).
Local Abbreviation business_ := (business SHA now_iso elapsed_ms dependency).

(** [POST /control] with the key the demo is started with, and [GET /business]. *)
Definition switch (fault : pystr) : M (Demo * W) json :=
  control_ (Some demo_key) (dict [("fault", JStr fault)]).

Definition observe (x : pystr * Z) : M (Demo * W) Observation :=
  switch x.1 ;;
  r ← business_ svc17;
  lift (guard_r (r.1 =? x.2) (assertion [])) ;;
  mret {| ob_fault := x.1; ob_status := r.1; ob_observed := r.2 |}.

Definition demo_faults : M (Demo * W) (list Observation) :=
  results ← map_m FAULTS observe;
  switch (u "pool_exhaustion") ;;
  mret results.

(** **** Every fault answers as it is expected to *)

Hypothesis dependency_slow : ∀ w, ∃ w', dependency w = (w', Ok true).

Lemma switch_sets fault s :
  ∃ s', switch fault s = (s', Ok (dict [("configured", JList [js "fault"])])) ∧
    assoc (u "fault") (config_rows s'.1) = Some fault.
Proof.
  eexists. split.
  - unfold switch, control. rewrite bool_decide_true by done. reflexivity.
  - cbn. apply assoc_set_same.
Qed.

(** Switched to a fault, the service answers as that fault does alone. *)
Lemma business_answers fault s :
  assoc (u "fault") (config_rows s.1) = Some fault →
  ∃ s' payload, business_ svc17 s = (s', Ok (status_of (alone fault true).1, payload)).
Proof.
  intros Hf. unfold business. cbn [negb].
  change (mem svc17 [svc17; u "svc-23"]) with true. cbn [negb].
  unfold mbind at 1, M_bind at 1, config at 1. rewrite Hf. cbn [default from_option id].
  unfold mbind at 1, M_bind at 1, get at 1, mbind at 1, M_bind at 1, modify at 1.
  set (s1 := (set_blocked (alone fault false).2 s.1, s.2)).
  assert (Ht : ∃ s2 t, (if calls_dependency fault then on_snd dependency else mret false) s1
    = (s2, Ok t) ∧ (alone fault t).1 = (alone fault true).1).
  { destruct (calls_dependency fault) eqn:Hc.
    - destruct (dependency_slow s1.2) as [w' Hw]. exists (s1.1, w'), true.
      unfold on_snd. by rewrite Hw.
    - exists s1, false. split; [done|]. unfold alone. by rewrite Hc. }
  destruct Ht as (s2 & t & Ht & Ha). unfold mbind at 1, M_bind at 1. rewrite Ht.
  unfold mbind at 1, M_bind at 1, config at 1.
  unfold mbind at 1, M_bind at 1, get at 1. rewrite Ha.
  destruct (negb _); by do 2 eexists.
Qed.

Lemma observe_expected x s :
  status_of (alone x.1 true).1 = x.2 →
  ∃ s' o, observe x s = (s', Ok o) ∧ ob_fault o = x.1 ∧ ob_status o = x.2.
Proof.
  intros Hx. destruct (switch_sets x.1 s) as (s1 & H1 & Hf).
  destruct (business_answers x.1 s1 Hf) as (s2 & payload & H2).
  exists s2. eexists. unfold observe. unfold mbind at 1, M_bind at 1. rewrite H1.
  unfold mbind at 1, M_bind at 1. rewrite H2. cbn [fst snd]. rewrite Hx.
  rewrite Z.eqb_refl. by repeat split.
Qed.

(** The acceptance of the faults passes from any state of the fixtures: as long as the
    dependency is as slow as it is made to be, every fault the script switches to is
    answered with the status it asserts, and the script ends with six observations. *)
Theorem demo_faults_pass s :
  ∃ s' os, demo_faults s = (s', Ok os) ∧
    (λ o, (ob_fault o, ob_status o)) <$> os = FAULTS.
Proof.
  assert (Hall : ∀ xs s, Forall (λ x, status_of (alone x.1 true).1 = x.2) xs →
    ∃ s' os, map_m xs observe s = (s', Ok os) ∧ (λ o, (ob_fault o, ob_status o)) <$> os = xs).
  { intros xs s0 Hxs. revert s0. induction Hxs as [|x xs Hx _ IH]; intros s0.
    { by exists s0, []. }
    destruct (observe_expected x s0 Hx) as (s1 & o & H1 & Ef & Es).
    destruct (IH s1) as (s2 & os & H2 & E). exists s2, (o :: os). cbn [map_m].
    unfold mbind at 1, M_bind at 1. rewrite H1. unfold mbind at 1, M_bind at 1. rewrite H2.
    split; [done|]. cbn. rewrite Ef, Es, E. by destruct x. }
  destruct (Hall FAULTS s) as (s1 & os & H1 & E).
  { repeat (constructor; [by vm_compute|]). constructor. }
  destruct (switch_sets (u "pool_exhaustion") s1) as (s2 & H2 & _).
  exists s2, os. split; [|done]. unfold demo_faults.
  unfold mbind at 1, M_bind at 1. rewrite H1. unfold mbind at 1, M_bind at 1. by rewrite H2.
Qed.
End faults.

Lemma demo_faults_pass_witness :
  ∃ s' os, demo_faults (dumps false false) [] (u "local-demo-key") true (λ _ : Z, 0) (λ _, [])
      (λ _, 0) (λ _ _, JInt 0) (λ _ _, raise (exn_of RuntimeError "")) (λ w, (w, Ok true))
      (λ _, mret ())
      ({| config_rows := []; logs := []; issue_rows := []; releases := []; blocked := true |}, 0)
    = (s', Ok os) ∧ length os = 6%nat.
Proof.
  destruct (demo_faults_pass (dumps false false) [] (u "local-demo-key") true (λ _ : Z, 0)
    (λ _, []) (λ _, 0) (λ _ _, JInt 0) (λ _ _, raise (exn_of RuntimeError ""))
    (λ w, (w, Ok true)) (λ _, mret ()) (λ w, ex_intro _ w eq_refl)
    ({| config_rows := []; logs := []; issue_rows := []; releases := []; blocked := true |}, 0))
    as (s' & os & H & E).
  exists s', os. split; [exact H|]. apply (f_equal length) in E. by rewrite length_fmap in E.
Defined.

(** ** A stream resumed on another replica (k8s_sse.py)

    The script reads the first events of a task from one replica of the API, drops the
    connection, asks a second replica for what comes after the last event it saw, and
    asserts that it received every event once.  A replica's stream is a list of lines, a
    parameter; an event's line is [data: ] followed by its JSON. *)

Definition DATA : pystr := u "data: ".

Section resume.
Context {JR : JsonRuntime}.

(** [for line in response.iter_lines()]: append the events; stop when told to. *)
Fixpoint read_stream (stop : list json → result bool) (lines : list pystr) (received : list json)
    : result (list json) :=
  match lines with
  | [] => Ok received
  | line :: lines' =>
      received ← (if startswith DATA line
                  then e ← loads (drop 6 line); Ok (received ++ [e])
                  else Ok received);
      b ← stop received;
      if b : bool then Ok received else read_stream stop lines' received
  end.

Definition index_error : exn := exn_of IndexError "list index out of range".

(** [l[-1]["seq"]]. *)
Definition last_seq (l : list json) : result json :=
  match last l with Some e => jindex "seq" e | None => Raise index_error end.

Definition five (received : list json) : result bool := Ok (5 <=? len received).
Definition caught_up (expected received : list json) : result bool :=
  a ← last_seq received; b ← last_seq expected; Ok (py_eqb a b).

(** The streams of the two replicas, the second resumed after [Last-Event-ID]. *)
Variable first : list pystr.
Variable resumed : json → list pystr.

(** [len(ids) == len(set(ids))]. *)
Fixpoint distinct (l : list json) : bool :=
  match l with [] => true | x :: l' => negb (existsb (py_eqb x) l') && distinct l' end.

Definition received_events (expected : list json) : result (list json) :=
  received ← read_stream five first [];
  cursor ← last_seq received;
  read_stream (caught_up expected) (resumed cursor) received.

Definition sse_check (expected : list json) : result (list json) :=
  received ← received_events expected;
  ids ← map_r (jindex "seq") received;
  seqs ← map_r (jindex "seq") expected;
  ok ← (if bool_decide (length ids = length seqs) && forallb id (zip_with py_eqb ids seqs)
        then if forallb hashable ids then Ok (distinct ids) else Raise type_error
        else Ok false);
  guard_r ok (assertion []) ;; Ok ids.

(** *** Nothing is lost and nothing comes twice *)

(** The data lines of a stream are those of the events, in order; other lines (comments,
    names, identifiers) may come between. *)
Definition carries (lines : list pystr) (events : list json) : Prop :=
  Forall2 (λ l e, loads (drop 6 l) = Ok e)
    (filter (λ l, startswith DATA l = true) lines) events.

(** A reader that never fails reads a prefix of the events: all of them, or up to where it
    was told to stop. *)
Lemma read_prefix stop lines es acc :
  carries lines es → (∀ es1 es2, es = es1 ++ es2 → is_ok (stop (acc ++ es1)) = true) →
  ∃ es1 es2, es = es1 ++ es2 ∧ read_stream stop lines acc = Ok (acc ++ es1) ∧
    (es2 = [] ∨ stop (acc ++ es1) = Ok true).
Proof.
  unfold carries. revert es acc. induction lines as [|l lines IH]; intros es acc Hc Hs.
  { cbn in Hc. apply Forall2_nil_inv_l in Hc as ->. exists [], []. rewrite !app_nil_r.
    split; [done|]. split; [done|by left]. }
  cbn [read_stream]. rewrite filter_cons in Hc. destruct (startswith DATA l).
  - rewrite decide_True in Hc by done.
    apply Forall2_cons_inv_l in Hc as (e & es' & He & Hc & ->). rewrite He.
    cbn [mbind result_bind]. pose proof (Hs [e] es' eq_refl) as H1.
    destruct (stop (acc ++ [e])) as [[|]|] eqn:E; [| |done]; cbn [mbind result_bind].
    + exists [e], es'. split; [done|]. split; [done|by right].
    + destruct (IH es' (acc ++ [e]) Hc) as (es1 & es2 & -> & H2 & H3).
      { intros es1 es2 ->. rewrite <- app_assoc. by apply (Hs (e :: es1) es2). }
      exists (e :: es1), es2. rewrite H2. rewrite <- !app_assoc in *. auto.
  - rewrite decide_False in Hc by done. cbn [mbind result_bind].
    pose proof (Hs [] es eq_refl) as H1. rewrite app_nil_r in H1.
    destruct (stop acc) as [[|]|] eqn:E; [| |done]; cbn [mbind result_bind]; [|by apply IH].
    exists [], es. rewrite app_nil_r. auto.
Qed.

Definition seq_of (e : json) (z : Z) : Prop := jindex "seq" e = Ok (JInt z).

Lemma last_seq_app es e z : seq_of e z → last_seq (es ++ [e]) = Ok (JInt z).
Proof. intros Hz. unfold last_seq. by rewrite last_snoc. Qed.

Lemma distinct_ints zs : NoDup zs → distinct (JInt <$> zs) = true.
Proof.
  induction 1 as [|z zs Hz _ IH]; [done|]. cbn. rewrite IH, andb_true_r.
  apply negb_true_iff, not_true_iff_false. intros (x & Hx%list_elem_of_In & E)%existsb_exists.
  apply list_elem_of_fmap in Hx as (z' & -> & Hz'). cbn in E. apply Z.eqb_eq in E. by subst.
Qed.

Lemma increasing_nodup l : StronglySorted Z.lt l → NoDup l.
Proof.
  induction 1 as [|z l _ IH Hz]; constructor; [|done].
  intros Hin. rewrite Forall_forall in Hz. specialize (Hz z Hin). lia.
Qed.

Section check.
Variables (expected : list json) (zs : list Z).
Hypothesis numbered : Forall2 seq_of expected zs.
Hypothesis increasing : StronglySorted Z.lt zs.
Hypothesis some : expected ≠ [].
Hypothesis first_streams : carries first expected.
Hypothesis resumed_streams : ∀ es1 e es2 z,
  expected = es1 ++ e :: es2 → seq_of e z → carries (resumed (JInt z)) es2.

(** A nonempty prefix ends in a numbered event. *)
Lemma prefix_last es1 es2 :
  expected = es1 ++ es2 → es1 ≠ [] →
  ∃ es0 e z, es1 = es0 ++ [e] ∧ seq_of e z ∧ last_seq es1 = Ok (JInt z) ∧
    (∀ e' z', e' ∈ es2 → seq_of e' z' → z < z').
Proof.
  intros E Hne. destruct (exists_last Hne) as (es0 & e & ->).
  rewrite E, <- app_assoc in numbered.
  apply Forall2_app_inv_l in numbered as (z0 & z1 & _ & H1 & Hz).
  apply Forall2_cons_inv_l in H1 as (z & z2 & He & H2 & ->).
  exists es0, e, z. split; [done|]. split; [done|]. split; [by apply last_seq_app|].
  intros e' z' He' Hz'. rewrite Hz in increasing.
  apply list_elem_of_lookup in He' as [i Hi].
  destruct (Forall2_lookup_l _ _ _ _ _ H2 Hi) as (z'' & Hz'' & Hs).
  unfold seq_of in *. rewrite Hs in Hz'. injection Hz' as <-.
  assert (StronglySorted Z.lt (z :: z2)) as Hs2.
  { clear -increasing. induction z0 as [|y z0 IH]; [done|]. cbn in increasing.
    inversion increasing; subst. by apply IH. }
  inversion Hs2 as [|? ? _ Hall]; subst. rewrite Forall_forall in Hall.
  apply Hall. by eapply list_elem_of_lookup_2.
Qed.

Lemma caught_up_spec es1 es2 :
  expected = es1 ++ es2 → es1 ≠ [] →
  ∃ b, caught_up expected es1 = Ok b ∧ (b = true → es2 = []).
Proof.
  intros E Hne. destruct (prefix_last es1 es2 E Hne) as (es0 & e & z & -> & He & Hl & Hlt).
  destruct (prefix_last expected [] (eq_sym (app_nil_r _)) some)
    as (es0' & e' & z' & E' & He' & Hl' & _).
  unfold caught_up. rewrite Hl, Hl'. cbn. eexists. split; [done|]. intros ->%Z.eqb_eq.
  destruct es2 as [|x es2]; [done|exfalso]. assert (x :: es2 ≠ []) as Hx by done.
  destruct (exists_last Hx) as (es3 & y & E3). rewrite E3 in *.
  rewrite E', app_assoc in E. apply app_inj_tail in E as [_ <-].
  pose proof (Hlt e' z' ltac:(apply elem_of_app; right; apply list_elem_of_here) He'). lia.
Qed.

(** Resuming loses nothing: when the first replica streams the task's events and the
    second those after the one the client names, the client receives every event once
    and in order, wherever the connection was dropped and whatever other lines the
    streams hold, and the script's assertion holds. *)
Theorem resumed_complete : sse_check expected = Ok (JInt <$> zs).
Proof.
  destruct (read_prefix five first expected [] first_streams (λ _ _ _, eq_refl))
    as (es1 & es2 & E & H1 & Hstop). cbn [app] in *.
  assert (es1 ≠ []) as Hne.
  { intros ->. destruct Hstop as [->|?]; [by rewrite E in some|done]. }
  destruct (prefix_last es1 es2 E Hne) as (es0 & e & z & -> & He & Hl & _).
  rewrite <- app_assoc in E. pose proof (resumed_streams es0 e es2 z E He) as Hc.
  rewrite app_assoc in E.
  destruct (read_prefix (caught_up expected) (resumed (JInt z)) es2 (es0 ++ [e]) Hc)
    as (es3 & es4 & E2 & H2 & Hstop2).
  { intros es3 es4 E3. destruct (caught_up_spec ((es0 ++ [e]) ++ es3) es4) as (b & -> & _);
      [by rewrite <- app_assoc, <- E3|by destruct es0|done]. }
  assert (es4 = []) as ->.
  { destruct Hstop2 as [?|Hs]; [done|]. destruct (caught_up_spec ((es0 ++ [e]) ++ es3) es4)
      as (b & Hb & Hend); [by rewrite <- app_assoc, <- E2|by destruct es0|].
    rewrite Hb in Hs. injection Hs as ->. by apply Hend. }
  rewrite app_nil_r in E2. subst es3.
  unfold sse_check, received_events. rewrite H1. cbn [mbind result_bind]. rewrite Hl.
  cbn [mbind result_bind]. rewrite H2, <- E. cbn [mbind result_bind].
  assert (map_r (jindex "seq") expected = Ok (JInt <$> zs)) as Hseq.
  { apply map_r_ok, Forall2_fmap_r. exact numbered. }
  rewrite Hseq. cbn [mbind result_bind]. rewrite bool_decide_true by done. cbn [andb].
  assert (forallb id (zip_with py_eqb (JInt <$> zs) (JInt <$> zs)) = true) as ->.
  { clear. induction zs as [|z l IH]; [done|]. cbn. by rewrite Z.eqb_refl. }
  assert (forallb hashable (JInt <$> zs) = true) as -> by (clear; by induction zs).
  by rewrite (distinct_ints zs (increasing_nodup zs increasing)).
Qed.
End check.
End resume.

(** *** A concrete task of six events *)

#[local] Existing Instance PlainJson.

Definition numbers : list Z := [1; 2; 3; 4; 5; 6].

Definition event_line (n : Z) : pystr :=
  DATA ++ u "{" ++ [34] ++ u "seq" ++ [34] ++ u ":" ++ [48 + n] ++ u "}".

(** The first replica sends an identifier before its events; the second a comment before
    those after the cursor. *)
Definition first_lines : list pystr := u "id: 1" :: (event_line <$> numbers).
Definition resumed_lines (cursor : json) : list pystr :=
  u ": resumed" ::
    match cursor with JInt n => drop (Z.to_nat n) (event_line <$> numbers) | _ => [] end.

Definition event (n : Z) : json := JObj [(u "seq", JInt n)].

Lemma carries_numbers ns other :
  Forall (λ n, startswith DATA (event_line n) = true ∧
               loads (drop 6 (event_line n)) = Ok (event n)) ns →
  startswith DATA other = false → carries (other :: (event_line <$> ns)) (event <$> ns).
Proof.
  intros H Ho. unfold carries. rewrite filter_cons_False by (by rewrite Ho).
  induction H as [|n ns [Hd Hl] _ IH]; [constructor|].
  cbn [fmap list_fmap]. rewrite filter_cons_True by done. by constructor.
Qed.

Lemma numbers_loads :
  Forall (λ n, startswith DATA (event_line n) = true ∧
               loads (drop 6 (event_line n)) = Ok (event n)) numbers.
Proof. repeat constructor; vm_compute; reflexivity. Qed.

(** The events after the one numbered [z] are those of the numbers after [z]. *)
Lemma task_split es1 e es2 z :
  event <$> numbers = es1 ++ e :: es2 → seq_of e z → es2 = event <$> drop (Z.to_nat z) numbers.
Proof.
  intros E He.
  assert (length es1 < 6)%nat as Hlt.
  { pose proof (f_equal length E) as H. rewrite length_app in H. cbn in H. lia. }
  cbn [fmap list_fmap numbers] in E.
  do 6 (destruct es1 as [|? es1];
    [cbn [app] in E; injection E as <- <-; unfold seq_of in He; vm_compute in He;
     injection He as <-; reflexivity
    |cbn [app] in E; injection E as _ E]).
  cbn in Hlt. lia.
Qed.

Lemma resumed_complete_witness :
  sse_check first_lines resumed_lines (event <$> numbers) = Ok (JInt <$> numbers).
Proof.
  apply (resumed_complete first_lines resumed_lines (event <$> numbers) numbers).
  - repeat constructor.
  - repeat constructor.
  - done.
  - apply carries_numbers; [apply numbers_loads|reflexivity].
  - intros es1 e es2 z E He. rewrite (task_split es1 e es2 z E He).
    unfold resumed_lines. rewrite <- fmap_drop.
    apply carries_numbers; [apply Forall_drop, numbers_loads|reflexivity].
Defined.
