(* ===== verification/SearchRuns.v ===== *)
(** * The acceptance of questions in words (scripts/search_v2_acceptance.py)

    Five questions in natural language are posed to the deployed system with a real
    model; each answer is polled for, checked against the report, and asked for again to
    check idempotency.  A run raises when the system does not answer; nothing catches.
    The five runs share nothing but the network, so their interleaving is not described;
    the assertion at the end is over all of them. *)
From S2P Require Import Prelude.
From S2P Require Import PyStr.
From S2P Require Import Json.
From S2P Require Import JsonParse.
From S2P Require Import PyTime.
From S2P Require Import LogStore.
From S2P Require Import Redaction.
From S2P Require Import PyRe.
From S2P Require Import Contracts.
From S2P Require Import Runtime.
From S2P Require Import Context.
From S2P Require Import Assemble.
From S2P Require Import AssembleSpec.
From S2P Require Import Report.
From S2P Require Import Natural.
From S2P Require Import Mistral.
From S2P Require Import Evaluation.
From S2P Require Import Cases.
From S2P Require Import ModelCases.
From S2P Require Import Retrieval.
From S2P Require Import Stats.
From S2P Require Import Drivers.
From S2P Require Import PublicRuns.
From S2P Require Import PublicRunsSpec.
From S2P Require Import PublicRunsCases.

Record SearchCase := {
  sn_name : pystr; sn_user : pystr; sn_question : pystr; sn_status : Z }.

Definition CASES : list SearchCase :=
  [{| sn_name := u "rare"; sn_user := u "alice";
      sn_question := u "查BGL在2005年11月3日的异常日志"; sn_status := 202 |};
   {| sn_name := u "block"; sn_user := u "carol";
      sn_question := u "查HDFS在2008年11月9日 blk_-1608999687919862906 的日志";
      sn_status := 202 |};
   {| sn_name := u "empty"; sn_user := u "alice";
      sn_question := u "查BGL在2005年11月3日包含“zznonexistentmarker91472”的日志";
      sn_status := 202 |};
   {| sn_name := u "forbidden"; sn_user := u "alice";
      sn_question := u "查HDFS在2008年11月9日的错误日志"; sn_status := 200 |};
   {| sn_name := u "wide"; sn_user := u "alice";
      sn_question := u "查BGL在2005年11月1日到2005年11月30日的异常"; sn_status := 200 |}].

(** ** The checks on a report *)

(** [e["kind"] == "queued" and (payload.get("interpretation") or {}).get("mode") == "mistral"]. *)
Definition planned_by_model (e : json) : result bool :=
  q ← of_kind "queued" e;
  if q : bool then
    i ← jindex "payload" e ≫= jget "interpretation";
    m ← jget "mode" (if truthy i then i else JObj []); Ok (py_eqb m (js "mistral"))
  else Ok false.

(** [set(l) <= ids]. *)
Definition within (ids : list json) (l : list json) : result bool :=
  ks ← map_r guard_hash l; Ok (forallb (λ k, existsb (λ i, py_eqb i k) ids) ks).

Definition GAPS : list pystr := u <$> ["git"; "runbook"; "deployments"]%string.

(** [checks.update(...)]. *)
Definition search_checks (events report : json) (es logs ids : list json)
    : result (list (pystr * bool)) :=
  mode ← jget "mode" report;
  planner ← jiter events ≫= any_r planned_by_model;
  answered ← jget_or (JList []) "answer_evidence" report ≫= jiter;
  cited ← within ids answered;
  refs ← references report;
  known ← all_r (λ r, r' ← guard_hash r; Ok (existsb (λ i, py_eqb i r') ids)) refs;
  only_logs ← all_r is_log es;
  told ← all_r (λ s, gaps report ≫= any_r (starts (s ++ u ":"))) GAPS;
  Ok [(u "real_mistral_report", py_eqb mode (js "mistral"));
      (u "planner_mistral", planner);
      (u "answer_references_resolve", cited);
      (u "references_resolve", known);
      (u "no_unrelated_fixtures", only_logs);
      (u "bounded_logs", len logs <=? 60);
      (u "source_gaps", told)].

(** [w in e["snippet"].get("message", "")]. *)
Definition message_has (w : string) (e : json) : result bool :=
  s ← jindex "snippet" e ≫= jget_or (js "") "message"; str_in (u w) s.

(** The checks of the cases that have one of their own. *)
Definition own_checks (name : pystr) (d report : json) (logs : list json)
    : result (list (pystr * bool)) :=
  rare ← (if str_eqb name (u "rare") then
            b ← any_r (message_has "kernel panic") logs; Ok [(u "rare_event_found", b)]
          else Ok []);
  block ← (if str_eqb name (u "block") then
             b ← (if bool_decide (logs = []) then Ok false
                  else all_r (message_has "blk_-1608999687919862906") logs);
             Ok [(u "exact_block", b)]
           else Ok []);
  empty ← (if str_eqb name (u "empty") then
             b ← (if bool_decide (logs = []) then
                    s ← jindex "status" d;
                    if py_eqb s (js "waiting_information") then
                      m ← jget_or (JObj []) "retrieval" report ≫= jget "matched";
                      Ok (py_eqb m (JInt 0))
                    else Ok false
                  else Ok false);
             Ok [(u "empty_honest", b)]
           else Ok []);
  Ok (rare ++ block ++ empty).

(** ** A run *)

Section runs.
Context {W : Type}.
Variable http : pystr → pystr → list (pystr * pystr) → json → M W response.
Variable monotonic : W → Z.
Variable sleep : Z → W → W.
Variable uuid4 : W → pystr.
Variable save_detail : pystr → json → json → M W ().

Definition SEARCH_API : pystr := u "http://localhost:28080".
Definition SEARCH_SOURCE : pystr := u "http://localhost:28090".

Definition ask_url : pystr := SEARCH_API ++ u "/api/v1/investigations/natural".
Definition task_url (task : pystr) : pystr := SEARCH_API ++ u "/api/v1/investigations/" ++ task.

Definition ask (h : list (pystr * pystr)) (question : pystr) : M W response :=
  http (u "POST") ask_url h (dict [("text", JStr question); ("timezone", js "UTC")]).

(** [for _ in range(n)]: the last answer, or the first of a task that ended. *)
Fixpoint detail_within (n : nat) (h : list (pystr * pystr)) (task : pystr) (d : json)
    : M W json :=
  match n with
  | O => mret d
  | S n' =>
      r ← http (u "GET") (task_url task) h JNull;
      d ← lift (body r);
      s ← lift (jindex "status" d);
      if negb (existsb (λ x, py_eqb s (js x)) ["queued"; "running"]%string) then mret d
      else pause sleep billion ;; detail_within n' h task d
  end.

Definition since_t (t : Z) (w : W) : float := round3 (fdiv_int (monotonic w - t) billion).

(** What the run of a task that was accepted adds to the result, and its checks. *)
Definition accepted (x : SearchCase) (h other : list (pystr * pystr)) (t : Z) (id : json)
    : M W (list (pystr * field) * list (pystr * bool)) :=
  task ← lift (concat_str [] id);
  d ← detail_within 100 h task JNull;
  report ← lift (report_of d);
  el ← lift (read_logs report);
  ids ← lift (map_r (λ e, jindex "id" e ≫= guard_hash) el.1);
  er ← http (u "GET") (task_url task ++ u "/events") h JNull;
  events ← lift (body er);
  st ← lift (jindex "status" d);
  w ← get;
  mode ← lift (jget "mode" report);
  retrieval ← lift (jget "retrieval" report);
  answer ← lift (jget "answer" report);
  model ← lift (jget "model" report);
  query ← lift (jget "query" d);
  cs ← lift (search_checks events report el.1 el.2 ids);
  replay ← ask h (sn_question x);
  same ← lift (if status replay =? 202
               then i ← body replay ≫= jindex "id"; Ok (py_eqb i id) else Ok false);
  conflict ← ask h (sn_question x ++ u " changed");
  forbidden ← http (u "GET") (task_url task) other JNull;
  own ← lift (own_checks (sn_name x) d report el.2);
  save_detail (sn_name x ++ u ".json") d events ;;
  mret ([(u "id", J id); (u "status", J st); (u "elapsed_s", Secs (since_t t w));
         (u "mode", J mode); (u "retrieval", J retrieval);
         (u "log_evidence", J (JInt (len el.2))); (u "answer", J answer);
         (u "model", J model); (u "query", J query)],
        cs ++ [(u "idempotent", same); (u "idempotency_conflict", status conflict =? 409);
               (u "cross_team_denied", status forbidden =? 403)] ++ own).

(** The check of a question that is answered with another question. *)
Definition clarified (r : response) : result (json * bool) :=
  v ← body r;
  b ← (if status r =? 200 then
         s ← jget "status" v;
         if py_eqb s (js "clarification") then c ← jget "clarification" v; Ok (truthy c)
         else Ok false
       else Ok false);
  Ok (v, b).

Variable auth : pystr → list (pystr * pystr).

(** [run(case)]; the dict of the checks is the one in the result. *)
Definition run_search (x : SearchCase) : M W (list (pystr * field)) :=
  w ← get;
  let h := auth (sn_user x) ++ [(u "Idempotency-Key", uuid4 w)] in
  let t := monotonic w in
  r ← ask h (sn_question x);
  w ← get;
  let result cs := [(u "case", J (JStr (sn_name x)));
                    (u "question", J (JStr (sn_question x)));
                    (u "create_status", J (JInt (status r)));
                    (u "create_s", Secs (since_t t w));
                    (u "checks", Checks ((u "expected_status", status r =? sn_status x) :: cs))] in
  if status r =? 202 then
    id ← lift (body r ≫= jindex "id");
    more ← accepted x h (auth (other_of (sn_user x))) t id;
    mret (result more.2 ++ more.1)
  else
    c ← lift (clarified r);
    mret (result [(u "clarification", c.2)] ++ [(u "response", J c.1)]).

(** [all(all(r["checks"].values()) for r in outcomes)]. *)
Definition all_pass (outcomes : list (list (pystr * field))) : bool :=
  forallb (λ o, forallb snd (checks_of o)) outcomes.
End runs.

(** ** What the worker publishes passes *)

(** The API's JSON of a published investigation: that of its report, with the keys
    [investigate] adds. *)
Record shows (p : Published) (j : json) : Prop := {
  sh_report : renders (p_report p) j;
  sh_mode : jget "mode" j = Ok (JStr (r_mode (p_report p)));
  sh_answer : jget_or (JList []) "answer_evidence" j = Ok (JList (JStr <$> p_answer_evidence p)) }.

Lemma within_shown evs vs known l :
  Forall2 (λ e v, jindex "source" v = Ok (JStr (source_name (ev_source e))) ∧
                  jindex "id" v = Ok (JStr (ev_id e))) evs vs →
  map_r (λ e, jindex "id" e ≫= guard_hash) vs = Ok known →
  Forall (λ i, i ∈ ids evs) l → within known (JStr <$> l) = Ok true.
Proof.
  intros Fv Hk Hl. unfold within.
  assert (map_r guard_hash (JStr <$> l) = Ok (JStr <$> l)) as ->.
  { apply map_r_ok, Forall_Forall2_diag, Forall_fmap, Forall_true. done. }
  cbn [mbind result_bind]. f_equal. apply forallb_forall. intros k Hin%list_elem_of_In.
  apply list_elem_of_fmap in Hin as (i & -> & Hi). rewrite Forall_forall in Hl.
  eapply id_shown; [exact Fv|exact Hk|by apply Hl].
Qed.

Lemma all_r_false {A} (p : A → result bool) l x :
  x ∈ l → p x = Ok false → all_r p l ≠ Ok true.
Proof. intros Hx Hp H. pose proof (all_r_true p l x H Hx). congruence. Qed.

Lemma some_starts s vs m :
  Forall (λ v, ∃ t, v = JStr t) vs → JStr m ∈ vs → startswith s m = true →
  any_r (starts s) vs = Ok true.
Proof.
  intros H Hm Hs. induction H as [|v vs [t ->] _ IH]; [by apply elem_of_nil in Hm|]. cbn.
  destruct (startswith s t) eqn:E; [done|].
  apply elem_of_cons in Hm as [[= ->]|Hm]; [congruence|auto].
Qed.

Section worker.
Context {UT : UnicodeTables} {TD : TzDatabase} {JR : JsonRuntime} {R : Type}
  `{RO : RuntimeOps R} `{RL : !RuntimeLaws R}.
Variable container_repr : json → pystr.
Variable registry_query : PlanStep → option json → M R json.
Variable elapsed : R → json.
Variable model_dump_json : ContextBundle → result pystr.
Variable observe : bool.
Hypothesis registry_law : ∀ step c r r' x,
  registry_query step c r = (r', x) → rt_run r' = rt_run r.
(** The model may be asked by another process than the one that assembled. *)
Context {R2 : Type} {RO2 : RuntimeOps R2}.
Variable getenv : string → option pystr.
Variable http_post : pystr → json → M R2 response.
Variable took : R2 → json.
Variable answer_schema : json.
Variable set_iter : list pystr → list pystr.
Variable rc : RunContext.

Local Abbreviation assemble_ :=
  (assemble container_repr registry_query elapsed model_dump_json observe).
Local Abbreviation investigate_ :=
  (investigate container_repr getenv http_post took answer_schema set_iter).

End worker.

(** ** A recorded case, investigated by a scripted model *)

#[local] Existing Instances UtcOnly AsciiCjk PlainJson desk_ops.

Definition published_view (p : Published) : json :=
  let r := p_report p in
  dict [("evidence", JList (evidence_view <$> r_evidence r));
        ("facts", JList ((λ f, dict [("evidence", JList (JStr <$> fact_evidence f))])
                           <$> r_facts r));
        ("candidates", JList ((λ c, dict [("evidence", JList (JStr <$> cand_evidence c))])
                                <$> candidates r));
        ("missing", JList (JStr <$> r_missing r)); ("mode", JStr (r_mode r));
        ("answer_evidence", JList (JStr <$> p_answer_evidence p))].

Lemma published_shows p : shows p (published_view p).
Proof.
  split; [|reflexivity..]. split; [eexists; split; [reflexivity|]..|reflexivity].
  all: apply Forall2_fmap_r, Forall_Forall2_diag, Forall_forall; by intros.
Qed.

(** An answer that cites the case's log. *)
Definition log_id : string := "logs:logs-0:9a3377507100".
Definition case_desk : Desk := desk_for (reply "连接池已耗尽。" [log_id] [[log_id]]) 12000.

Definition checks_of_run (b : ContextBundle) : result (list (pystr * bool)) :=
  match (investigate repr0 desk_env desk_post (λ _, JInt 0) answer_schema0 id b
           case_desk).2 with
  | Ok p =>
      el ← read_logs (published_view p);
      known ← map_r (λ e, jindex "id" e ≫= guard_hash) el.1;
      search_checks (JList []) (published_view p) el.1 el.2 known
  | Raise e => Raise e
  end.

