(* ===== verification/Sandbox.v ===== *)
(** * The sandboxed analysis (sandbox/analyze.py, scripts/sandbox.py)

    A fixed program counts log levels inside a container without network, over a
    snapshot it may only read; the runner prepares its directory, starts it, reads its
    report, and cleans up.  What the container engine does is a parameter, [fate]: the
    program may run to its end, be killed, outlive its client, or never start, and the
    forced removal may fail. *)
From S2P Require Import Prelude.
From S2P Require Import PyStr.
From S2P Require Import Json.
From S2P Require Import JsonParse.
From S2P Require Import Gateway.
From S2P Require Import PublicRuns.

(** ** The program in the container *)

Definition sandbox_limit : exn := exn_of ValueError "input_limit".

(** A dict's key as [json.dumps] writes it. *)
Definition key_text (k : json) : pystr :=
  match k with
  | JNull => u "null"
  | JBool true => u "true"
  | JBool false => u "false"
  | JInt z => str_of_Z z
  | JFloat r => r
  | JStr s => s
  | _ => []
  end.

(** [r.get('level', 'UNKNOWN')] as a key of the [Counter]. *)
Definition level_of_row (r : json) : result json :=
  v ← jget_or (js "UNKNOWN") "level" r; guard_hash v.

Definition analysis (rows : json) : result json :=
  match rows with
  | JList l =>
      if 1000 <? len l then Raise sandbox_limit
      else
        ks ← map_r level_of_row l;
        Ok (JObj [(u "count", JInt (len l));
                  (u "levels", JObj ((λ kv, (key_text kv.1, JInt kv.2)) <$> tally ks))])
  | _ => Raise sandbox_limit
  end.

Section sandbox.
Context {JR : JsonRuntime}.

(** The text read from [/input/records.json], and the one written to
    [/output/report.json]. *)
Definition analyze_program (input : pystr) : result pystr :=
  rows ← loads input; v ← analysis rows; Ok (dumps true false v).

(** ** The runner *)

Record Dir := { records_json : option pystr; report_json : option pystr }.
Record Host := { temp : list (pystr * Dir); containers : list pystr }.

(** What becomes of one [docker run]. *)
Inductive fate :=
| Completed
| Killed (code : Z)
| TimedOut
| NotStarted.
Variables (run_fate : fate) (rm_works : bool).
(** The name the directory is given, and that of the container. *)
Variable mkdtemp : Host → pystr.
Variable container_name : pystr → pystr.

Definition called_process (code : Z) : exn := exn_of (OtherError "CalledProcessError") "".
Definition timeout_expired : exn := exn_of (OtherError "TimeoutExpired") "".
Definition no_docker : exn := exn_of (OtherError "FileNotFoundError") "docker".

Definition set_dir (d : pystr) (x : Dir) (h : Host) : Host :=
  {| temp := assoc_set d x (temp h); containers := containers h |}.
Definition remove_dir (d : pystr) (h : Host) : Host :=
  {| temp := filter (λ kv, kv.1 ≠ d) (temp h); containers := containers h |}.
Definition add_container (c : pystr) (h : Host) : Host :=
  {| temp := temp h; containers := containers h ++ [c] |}.
Definition remove_container (c : pystr) (h : Host) : Host :=
  {| temp := temp h; containers := filter (λ x, x ≠ c) (containers h) |}.

(** [subprocess.run(cmd, check=True, timeout=timeout)] of [docker run --rm]: a container
    that ends is removed by the engine; one that times out goes on without its client. *)
Definition docker_run (d c : pystr) : M Host () := λ h,
  match run_fate with
  | NotStarted => (h, Raise no_docker)
  | TimedOut => (add_container c h, Raise timeout_expired)
  | Killed code => (h, Raise (called_process code))
  | Completed =>
      let input := default [] (assoc d (temp h) ≫= records_json) in
      match analyze_program input with
      | Ok out => (set_dir d {| records_json := Some input; report_json := Some out |} h, Ok ())
      | Raise _ => (h, Raise (called_process 1))
      end
  end.

(** [docker rm -f name], whose outcome is not looked at. *)
Definition docker_rm (c : pystr) (h : Host) : Host :=
  if rm_works then remove_container c h else h.

Definition read_report (d : pystr) : M Host json :=
  h ← get;
  match assoc d (temp h) ≫= report_json with
  | Some out => lift (loads out)
  | None => raise (exn_of (OtherError "FileNotFoundError") "report.json")
  end.

(** The [try]; without an engine the [finally] raises as the [try] did. *)
Definition run_container (d c : pystr) : M Host json :=
  try_finally (docker_run d c ;; read_report d) (docker_rm c).

Definition check_input (records : json) : result () :=
  match records with
  | JList l => if 1000 <? len l then Raise sandbox_limit else Ok ()
  | _ => Raise sandbox_limit
  end.

Definition analyze (records : json) : M Host json :=
  lift (check_input records) ;;
  h ← get;
  let d := mkdtemp h in
  modify (set_dir d {| records_json := None; report_json := None |}) ;;
  try_finally
    (modify (set_dir d {| records_json := Some (dumps true false records);
                          report_json := None |}) ;;
     run_container d (container_name d))
    (remove_dir d).

(** ** Nothing is left behind *)

Hypothesis fresh_dir : ∀ h, mkdtemp h ∉ keys (temp h).

Definition free (h : Host) : Prop := container_name (mkdtemp h) ∉ containers h.

Lemma filter_absent {A} (k : pystr) (l : list (pystr * A)) :
  k ∉ keys l → filter (λ kv, kv.1 ≠ k) l = l.
Proof.
  induction l as [|kv l IH]; intros H; [done|]. cbn in H.
  apply not_elem_of_cons in H as [Hne H]. rewrite filter_cons_True by congruence.
  by rewrite IH.
Qed.

Lemma filter_set {A} (k : pystr) (v : A) l :
  filter (λ kv, kv.1 ≠ k) (assoc_set k v l) = filter (λ kv, kv.1 ≠ k) l.
Proof.
  induction l as [|[k' v'] l IH]; cbn [assoc_set].
  - rewrite filter_cons_False by (cbn; tauto). done.
  - unfold str_eqb. case_bool_decide as E.
    + subst k'. by rewrite !filter_cons_False by (cbn; tauto).
    + by rewrite !filter_cons_True, IH by (cbn; congruence).
Qed.

Lemma filter_free (c : pystr) (l : list pystr) : c ∉ l → filter (λ x, x ≠ c) l = l.
Proof.
  induction l as [|x l IH]; intros H; [done|]. apply not_elem_of_cons in H as [Hne H].
  by rewrite filter_cons_True, IH by congruence.
Qed.

(** The engine changes the runner's directory and may leave the container behind. *)
Lemma docker_run_effect d c h h1 x :
  docker_run d c h = (h1, x) →
  filter (λ kv, kv.1 ≠ d) (temp h1) = filter (λ kv, kv.1 ≠ d) (temp h) ∧
  (containers h1 = containers h ∨
   run_fate = TimedOut ∧ containers h1 = containers h ++ [c]).
Proof.
  unfold docker_run. destruct run_fate; [destruct (analyze_program _)| | |];
    intros [= <- _]; cbn; [by rewrite filter_set; auto|auto..].
Qed.

Lemma read_report_keeps d h h' x : read_report d h = (h', x) → h' = h.
Proof.
  unfold read_report, mbind, M_bind, get, lift, raise. cbn [fst snd].
  case_match; by intros [= <- _].
Qed.

Lemma run_container_effect d c h h1 x :
  c ∉ containers h → run_container d c h = (h1, x) →
  filter (λ kv, kv.1 ≠ d) (temp h1) = filter (λ kv, kv.1 ≠ d) (temp h) ∧
  (containers h1 = containers h ∨
   rm_works = false ∧ run_fate = TimedOut ∧ containers h1 = containers h ++ [c]).
Proof.
  intros Hc. unfold run_container, try_finally, mbind, M_bind.
  destruct (docker_run d c h) as [h2 y] eqn:E. apply docker_run_effect in E as [Ht Hs].
  intros H. assert (h1 = docker_rm c h2) as ->.
  { destruct y as [[]|e]; [|by injection H as <- _]. destruct (read_report d h2) as [h3 z] eqn:Hr.
    injection H as <- _. by rewrite (read_report_keeps _ _ _ _ Hr). }
  clear H. unfold docker_rm.
  destruct rm_works; cbn; (split; [done|]).
  - left. destruct Hs as [->|[_ ->]]; [by apply filter_free|].
    rewrite filter_app, filter_free by done. rewrite filter_cons_False by tauto.
    by rewrite filter_nil, app_nil_r.
  - destruct Hs as [Hs|[? Hs]]; auto.
Qed.

(** A container that runs to its end gives what the program printed. *)
Lemma run_completed d c h input out :
  run_fate = Completed → (assoc d (temp h) ≫= records_json) = Some input →
  analyze_program input = Ok out → (run_container d c h).2 = loads out.
Proof.
  intros Hf Hi Ho. unfold run_container, try_finally, docker_run, mbind at 1, M_bind at 1.
  rewrite Hf. replace (default [] _) with input; [|by rewrite Hi]. rewrite Ho.
  unfold read_report, mbind, M_bind, get, set_dir. cbn [fst snd temp].
  by rewrite assoc_set_same.
Qed.

(** The sandbox leaves nothing behind: whatever becomes of the container, killed, timed
    out with its client gone or never started, and whatever the records are, the
    temporary directory is gone afterwards, and if the forced removal works so is the
    container; nothing else on the host has changed. *)
Theorem analyze_leaves_nothing records h h' x :
  free h → analyze records h = (h', x) →
  temp h' = temp h ∧
  (containers h' = containers h ∨
   rm_works = false ∧ run_fate = TimedOut ∧
   containers h' = containers h ++ [container_name (mkdtemp h)]).
Proof.
  intros Hfree. unfold analyze. unfold mbind at 1, M_bind at 1, lift.
  destruct (check_input records) as [[]|e]; [|intros [= <- _]; auto].
  unfold mbind, M_bind, get, modify, try_finally. cbn [fst snd].
  set (d := mkdtemp h) in *. set (h1 := set_dir d _ (set_dir d _ h)).
  destruct (run_container d (container_name d) h1) as [h2 z] eqn:Hrun.
  apply run_container_effect in Hrun as [Ht Hc]; [|exact Hfree].
  intros [= <- _]. cbn. rewrite Ht. unfold h1. cbn. rewrite !filter_set.
  split; [apply filter_absent, fresh_dir|exact Hc].
Qed.

(** ** Both analyses count alike *)

(** A record whose level, if it has one, is a string. *)
Definition text_level (r : json) : Prop :=
  ∃ kvs, r = JObj kvs ∧ ∀ v, assoc (u "level") kvs = Some v → ∃ s, v = JStr s.

Definition counts_json (c : list (pystr * Z)) : json :=
  JObj ((λ kv, (kv.1, JInt kv.2)) <$> c).

Lemma bump_set t (c : list (pystr * Z)) :
  bump (JStr t) ((λ kv, (JStr kv.1, kv.2)) <$> c)
  = (λ kv, (JStr kv.1, kv.2)) <$> assoc_set t (1 + default 0 (assoc t c)) c.
Proof.
  induction c as [|[k n] c IH]; [done|]. cbn [fmap list_fmap bump assoc_set assoc fst snd].
  change (py_eqb (JStr k) (JStr t)) with (str_eqb k t). unfold str_eqb in *.
  destruct (decide (k = t)) as [->|Hne].
  - rewrite !bool_decide_true by done. by rewrite (Z.add_comm n).
  - rewrite !bool_decide_false by congruence. cbn. by rewrite <- IH.
Qed.

Lemma tally_counter ts :
  tally (JStr <$> ts) = (λ kv, (JStr kv.1, kv.2)) <$> counter ts.
Proof.
  unfold tally, counter. change (@nil (json * Z)) with ((λ kv : pystr * Z, (JStr kv.1, kv.2)) <$> []).
  generalize (@nil (pystr * Z)). induction ts as [|t ts IH]; intros c; [done|].
  cbn [fmap list_fmap foldl]. rewrite bump_set. apply IH.
Qed.

Lemma level_texts repr l :
  Forall text_level l → Forall plain l →
  ∃ ts, map_r (level_text repr) l = Ok ts ∧ map_r level_of_row l = Ok (JStr <$> ts) ∧
    Forall (λ t, forallb is_scalar t = true) ts.
Proof.
  induction 1 as [|r l (kvs & -> & Hr) _ IH]; intros Hp; [by exists []|].
  apply Forall_cons in Hp as [Hp Hps]. destruct (IH Hps) as (ts & H1 & H2 & H3).
  assert (∃ t, jget_or (js "UNKNOWN") "level" (JObj kvs) = Ok (JStr t) ∧
               forallb is_scalar t = true) as (t & Ht & Hs).
  { cbn [jget_or]. destruct (assoc (u "level") kvs) as [v|] eqn:E; cbn; [|by eexists].
    destruct (Hr v eq_refl) as [s ->]. exists s. split; [done|].
    apply plain_obj in Hp as (_ & _ & Hp). rewrite Forall_forall in Hp.
    by apply assoc_elem_of, Hp in E. }
  assert (level_text repr (JObj kvs) = Ok t) as E1 by (unfold level_text; by rewrite Ht).
  assert (level_of_row (JObj kvs) = Ok (JStr t)) as E2 by (unfold level_of_row; by rewrite Ht).
  exists (t :: ts). cbn [map_r]. rewrite E1, E2, H1, H2. auto.
Qed.

(** Small counts are read back as they are written. *)
Lemma counts_fit n : 0 ≤ n ≤ 1000 → int_ok n.
Proof.
  intros Hn. assert (H : forallb (λ k, len (str_of_Z k) <=? max_str_digits) (seqZ 0 1001) = true)
    by by vm_compute.
  pose proof (proj1 (forallb_forall _ _) H n) as Hk. apply Z.leb_le, Hk, list_elem_of_In, elem_of_seqZ.
  lia.
Qed.

Lemma elem_assoc_set {A} (k : pystr) (v : A) l x :
  x ∈ assoc_set k v l → x = (k, v) ∨ x ∈ l.
Proof.
  induction l as [|[k' v'] l IH]; cbn [assoc_set]; [by intros ->%list_elem_of_singleton; left|].
  unfold str_eqb. case_bool_decide as E; rewrite !elem_of_cons; [subst; tauto|].
  intros [->|H]; [tauto|]. destruct (IH H); tauto.
Qed.

Lemma counter_entries ts x : x ∈ counter ts → x.1 ∈ ts ∧ 0 ≤ x.2 ≤ len ts.
Proof.
  revert x. induction ts as [|t ts IH] using rev_ind; intros x; [by intros ?%elem_of_nil|].
  unfold counter. rewrite foldl_app. cbn [foldl]. change (foldl _ [] ts) with (counter ts).
  unfold len. rewrite length_app. cbn [length]. rewrite elem_of_app, list_elem_of_singleton.
  intros [->|Hx]%elem_assoc_set; [|apply IH in Hx as [? Hx]; unfold len in Hx; split; [tauto|lia]].
  cbn [fst snd]. split; [tauto|]. destruct (assoc t (counter ts)) as [n|] eqn:E; cbn [default from_option id].
  - apply assoc_elem_of, IH in E as [_ E]. unfold len in E. cbn [snd] in E. lia.
  - lia.
Qed.

Lemma counts_plain ts :
  len ts ≤ 1000 → Forall (λ t, forallb is_scalar t = true) ts → plain (counts_json (counter ts)).
Proof.
  intros Hn Hts. destruct (counter_counted ts) as (Hnd & _). apply plain_obj_iff.
  rewrite Forall_forall in Hts.
  split; [unfold keys; by rewrite <- list_fmap_compose|]. split.
  - apply forallb_forall. intros x Hx%list_elem_of_In. apply list_elem_of_fmap in Hx as (y & -> & Hy).
    by apply Hts, counter_entries.
  - apply Forall_fmap, Forall_forall. intros y Hy%counter_entries. apply counts_fit. lia.
Qed.

(** The sandbox and the tool of the MCP server count alike: for up to a thousand records
    whose levels are text, a container that runs to its end gives the number of records
    and, level by level in the order of their first occurrence, how many have it, after
    both passages through JSON; and for up to a hundred the MCP tool gives the same. *)
Theorem analyses_agree repr l h :
  run_fate = Completed → plain (JList l) → len l ≤ 1000 → Forall text_level l →
  ∃ ts, map_r (level_text repr) l = Ok ts ∧
    (analyze (JList l) h).2
      = Ok (JObj [(u "count", JInt (len l)); (u "levels", counts_json (counter ts))]) ∧
    (len l ≤ 100 → analyze_logs repr l
      = Ok (JObj [(u "version", js "1"); (u "count", JInt (len l));
                  (u "levels", counts_json (counter ts))])).
Proof.
  intros Hfate Hplain Hn Htext. destruct (level_texts repr l Htext (proj1 (plain_list l) Hplain))
    as (ts & H1 & H2 & Hts).
  assert (len ts = len l) as Hlen.
  { apply map_r_ok, Forall2_length in H1. unfold len. by rewrite H1. }
  exists ts. split; [done|]. split.
  - assert (analyze_program (dumps true false (JList l))
      = Ok (dumps true false (JObj [(u "count", JInt (len l));
                                    (u "levels", counts_json (counter ts))]))) as Hprog.
    { unfold analyze_program. rewrite (proj1 (loads_dumps _ Hplain)).
      cbn [mbind result_bind]. unfold analysis. destruct (Z.ltb_spec 1000 (len l)); [lia|].
      rewrite H2. cbn [mbind result_bind]. rewrite tally_counter, <- list_fmap_compose. done. }
    unfold analyze, check_input. destruct (Z.ltb_spec 1000 (len l)); [lia|].
    assert (plain (JObj [(u "count", JInt (len l)); (u "levels", counts_json (counter ts))]))
      as Hout.
    { apply plain_obj_iff. split; [by apply (bool_decide_eq_true_1 _); vm_compute|].
      split; [by vm_compute|]. constructor; [apply counts_fit; unfold len in *; lia|].
      constructor; [|constructor]. apply counts_plain; [lia|done]. }
    unfold mbind, M_bind, lift, get, modify, try_finally. cbn [fst snd].
    match goal with |- context [run_container ?d ?c ?h] =>
      pose proof (λ Hi, run_completed d c h _ _ Hfate Hi Hprog) as Hc;
      destruct (run_container d c h) as [h2 z] end.
    cbn [snd] in *. rewrite Hc; [apply (loads_dumps _ Hout)|].
    unfold set_dir. cbn [temp]. by rewrite assoc_set_same.
  - intros Hl. unfold analyze_logs. destruct (Z.leb_spec (len l) 100); [|lia].
    cbn [guard_r mbind result_bind]. rewrite H1. done.
Qed.
End sandbox.

(** ** Concrete runs *)

#[local] Existing Instance PlainJson.

Definition next_dir (h : Host) : pystr := 97 :: concat (keys (temp h)).

Lemma next_dir_fresh h : next_dir h ∉ keys (temp h).
Proof.
  unfold next_dir. intros Hin.
  assert (∀ (k : pystr) l, k ∈ l → (length k ≤ length (concat l))%nat) as H.
  { intros k l. induction l as [|x l IH]; [by intros ?%elem_of_nil|]. cbn. rewrite length_app.
    intros [->|Hk]%elem_of_cons; [lia|]. apply IH in Hk. lia. }
  apply H in Hin. cbn in Hin. lia.
Qed.

Definition idle : Host := {| temp := []; containers := [] |}.

Lemma analyze_leaves_nothing_witness :
  let run := analyze TimedOut true next_dir id (JList some_levels) idle in
  run.2 = Raise timeout_expired ∧ temp run.1 = [] ∧ containers run.1 = [].
Proof.
  destruct (analyze TimedOut true next_dir id (JList some_levels) idle) as [h' x] eqn:E.
  assert (x = Raise timeout_expired) as -> by by (vm_compute in E; injection E as _ <-).
  destruct (analyze_leaves_nothing TimedOut true next_dir id next_dir_fresh (JList some_levels)
    idle h' _ (not_elem_of_nil _) E) as [Ht [Hc|(Hf & _)]]; [|done].
  split; [done|]. split; [exact Ht|exact Hc].
Defined.

Lemma analyses_agree_witness :
  let levels := JObj [(u "ERROR", JInt 2); (u "UNKNOWN", JInt 1)] in
  (analyze Completed true next_dir id (JList some_levels) idle).2
    = Ok (JObj [(u "count", JInt 3); (u "levels", levels)]) ∧
  analyze_logs (dumps false false) some_levels
    = Ok (JObj [(u "version", js "1"); (u "count", JInt 3); (u "levels", levels)]).
Proof.
  destruct (analyses_agree Completed true next_dir id (dumps false false) some_levels idle
    eq_refl) as (ts & Hts & Hs & Hm).
  - vm_compute. repeat split; repeat constructor; by intros ?%elem_of_nil.
  - by vm_compute.
  - repeat constructor; eexists; (split; [reflexivity|]); intros v; vm_compute;
      [intros [= <-]; by eexists|done|intros [= <-]; by eexists].
  - assert (ts = [u "ERROR"; u "UNKNOWN"; u "ERROR"]) as ->.
    { vm_compute in Hts. injection Hts as <-. by vm_compute. }
    split; [exact Hs|apply Hm; by vm_compute].
Defined.

(** They differ on other levels: one that is null, and one that cannot be counted. *)
Example analyses_differ :
  let null := [JObj [(u "level", JNull)]] in
  let nested := [JObj [(u "level", JList [])]] in
  analysis (JList null) = Ok (JObj [(u "count", JInt 1); (u "levels", JObj [(u "null", JInt 1)])]) ∧
  analyze_logs (dumps false false) null
    = Ok (JObj [(u "version", js "1"); (u "count", JInt 1); (u "levels", JObj [(u "None", JInt 1)])]) ∧
  analysis (JList nested) = Raise type_error ∧
  is_ok (analyze_logs (dumps false false) nested) = true.
Proof. by vm_compute. Qed.
